(* ===== verification/_CoqProject ===== *)
-Q . S2P
Prelude.v
Sha256.v
Blake2b.v
WorkItem.v
Block.v
Merkle.v
Devfee.v
Worksrc.v
Job.v
SiaStratum.v
Bech32.v
Coinbase.v
Cdouble.v
StratumTarget.v
Decimal.v
Json.v
Cstring.v
Dns.v
Stratum.v
StratumMessages.v
StratumLink.v
Uart.v
Log.v
Framing.v
Observe.v
Pace.v
Gbt.v
Mining.v
Follow.v
WorksrcStratum.v
SelftestBlock.v
SelftestStratum.v
Miner.v
Shares.v
Blocks.v
Live.v
Probe.v
Refine.v
Rfc8259.v
Status.v
