(* ===== verification/Prelude.v ===== *)
(** * The Osprey BLAKE2b miner

    A development about the C program under src/miner/, which drives an FPGA over a
    memory-mapped UART and mines either for a Bitcoin-Knots-style node (BLAKE2b blocks
    with the v2 header) or for a pool that speaks the Siacoin dialect of stratum.

    ** The program's parts and how they interact

    [main] reads the command line, registers the work sources ("gbt", "synthetic" and
    the pool), runs the self-tests, calibrates the link and enters the mining loop. On
    every pass the loop polls the source, asks it for a context ([work_ctx_t]: the two
    stage messages and a 64-bit prefilter), packs it into the wire item, sends it, finds
    frame boundaries in the reply stream and offers every reported candidate to the
    source, which verifies it and submits solutions. The solo source talks JSON-RPC to
    the node and builds coinbase, merkle root and header itself; the pool source keeps
    one or two stratum sessions and decides which of them the next item is made for.

    ** Files

    The model follows the C files; functions, fields and constants keep their names.
    - [Prelude]: machine words with their truncations, byte buffers, endian readers and
      writers, record update, the tactics and hints the files share.
    - Hashes. [Sha256] (sha256.c), [Blake2b] (blake2b.c), each with the text of its
      standard as reference.
    - Block data. [WorkItem] (work_item.c: header, stages, proof of work, compact
      targets, reply frame), [Block] (block.c), [Merkle] (merkle.c), [Bech32] (bech32.c),
      [Coinbase] (coinbase.c), [Devfee] (devfee.c).
    - Library functions of C. [Cdouble] (binary64), [Decimal] (printing and reading
      integers), [Cstring] (string.h, strtoll, IPv4 addresses).
    - The pool. [Job] (stratum.h: the decoded job), [SiaStratum] (sia_stratum.c),
      [StratumTarget], [Json] and [Stratum] (stratum.c: share targets; the scanner; the
      session), [StratumMessages] and [StratumLink] (theorems about whole messages, and
      about the connection), [Dns] (dns.c), [WorksrcStratum] (worksrc_stratum.c).
    - The device. [Uart] (uio_uart.c), [Framing] (miner.c: frame_sync and its self-test),
      [Observe] (what neither of them touches), [Pace] (how long they take, and how fast
      the line fills the receive FIFO).
    - The seam. [Worksrc] (worksrc.c): packing and the registry.
    - miner.c otherwise. [Gbt] (JSON-RPC, templates, submission, the solo sources),
      [Mining] (the loop, the calibration), [Miner] (options, choice of the source, the
      probes, the order of the self-tests: [main] up to the loop), [Status] (the text
      of status.json, against the JSON grammar of [Rfc8259], its file, the pages of
      start-up), [Log] (the log file, the sink of stratum.c).
    - The whole. [Refine]: an abstract miner (what has been sent, the bytes of the frame
      being assembled, the events the source has seen) and the simulation that the
      mining loop is a run of it. [Shares]: the pool source as an automaton of its entry
      points and what the sockets carry. [Blocks]: what is said to the node. Both rest
      on [Follow], what the loop does with any source. [Live]: start-up and the passes of
      the loop return. [Probe]: the probe of a pool ends.
    - [SelftestBlock], [SelftestStratum] (the files of that name): the program's own test
      vectors evaluated on the model, which also checks the model against the reference
      words that the repository took from elsewhere.

    ** State, effects and time

    A C structure or a file's statics are a [Record]; an operation takes it and gives it
    back. A pointer into a line is the text from there on, or the memory from there on
    with the terminator and what lies behind it ([Json]); a buffer with its length is the
    list of its valid bytes, and where it is overwritten in place, its whole contents.
    Return codes are kept where callers tell them apart, otherwise -1 is [None] or
    [inl]. What the system does is an input:
    - the sessions and the resolver take the outcomes of the calls they make (a name
      lookup, a connect, each [send] with the number of bytes it took, each [recv]);
      what they write to the socket is part of their result;
    - registers, clocks and sleeping are the class [Uart.World], with the laws of a UART
      Lite and of a clock that advances in [Uart.Uartlite]; [Uart.Fifo] is a device with
      a 16-byte FIFO that obeys them, [Uart.Clock] the host without a device on which the
      scripted tests run;
    - the node is the class [Gbt.Node] (request in, response out), the pool's side of a
      poll the class [Miner.Network]; [Miner.Aside] says that neither touches the UART,
      and [Shares.Cable] records what the sockets carry; [Pace.Line] is the rate at which
      bytes arrive and what an access costs, [Live.timely] a source that keeps up with
      it, [Live.Swift] a network that does not block;
    - the directory of status.json is a finite map, and a call of [write_status] the
      list of its states;
    - a work source, for the loop, is a record of functions on a state of its own.
    Results C leaves undefined (a double out of the integer's range, reads of
    uninitialised memory) are parameters, so that theorems hold for every value.

    ** Fuel

    Loops over a string or a list recurse on it. Loops bounded by a counter recurse on
    the bound. The others carry fuel, and running out is a value ([None], [NoFuel]) that
    theorems exclude: the scanner's loops with the length of the text
    ([Json.scanner_stays_in_line]), the row reduction with the number of leaves
    ([Merkle.merkle_root_is_tree_root]), label and answer loops of the resolver with the
    packet ([Dns.dns_stays_in_packet]), the driver's and the framing's waits with a
    number of polls computed from the time-out, because every access of a register or a
    clock takes time ([Uart.uart_waits_end], [Framing.frame_sync_delivers]). A send
    returns when the outcomes given let it ([StratumLink.submit_reads_back]). The probe's
    search has the 2^40 nonces the code allows ([Probe.stratum_probe_ends]). The mining
    loop does not end: its theorems speak about any number of passes. [Live.enough] is
    fuel for all waits of start-up and of a pass: the polls of the longest time-out, and
    for the drain of the FIFO a number computed from the time its content takes to
    arrive, because a frame takes less time to handle than to arrive.
    [Live.pass_ns] and [Live.boot_ns] bound the time.

    ** What the theorems show

    - The program as a whole ([Miner], [Mining]): the byte counter of the device stays
      in step from the start of [main] on, unless the transmitter stalls
      ([miner_sends_items]); without [--selftest] the loop is entered only on tested
      code, and on Knots only on a calibrated link ([mining_starts_checked],
      [loopback_verify_reproduces]); any number of passes refines the abstract miner,
      which accounts for every byte sent and received ([program_refines_miner]). With
      accesses faster than the line and a source whose calls return, start-up and every
      pass return in bounded time, so that the pool is polled for ever, unless the
      eight-frame buffer is overrun ([program_keeps_going]).
    - Shares and blocks: from the start of [main] on, what the pools receive is the
      handshake and shares that are valid by the job, the extranonce and the difficulty
      the session had when the item was made ([pool_receives_shares]), and what the node receives is template requests and
      solved blocks of its templates ([node_receives_blocks]); a submission survives its
      way through the wire format ([submit_reads_back]); a template becomes a header and
      a block that agree ([template_makes_block]) and solutions of it are submitted
      ([gbt_candidates]); [sia_stages_are_knots_stages], [prefilter_sound].
    - Formats: round trips for block, header, coinbase, frame, DNS and JSON text;
      canonical addresses and their error detection; status.json reads back as the
      records it reports, and is replaced at once ([status_page_is_json]); the log
      reads back as its messages ([log_reads_back]).
    - Equivalence with references: SHA-256, BLAKE2b, the proof-of-work hash, the merkle
      tree, compact and share targets.
    - The session: invariant of every reachable state, and what a connection starts from
      ([session_invariant]), line reassembly, messages, replies, backoff. The scanner
      does not depend on what lies behind a line ([scanner_stays_in_line]).
    - Accounting of the developer's share ([pool_history_is_honest]).
    - The driver and the framing: lossless writes, time-outs, what a call of [frame_sync]
      makes of the polls it sees ([frame_sync_delivers]), and when it overruns the mining
      loop's buffer ([buffer_overrun_iff]).

    Where the code does not do what it means to, a definition still says what it does;
    the examples named [failed_refresh_spoils_block], [rotated_extranonce_is_ignored],
    [unusable_job_counts_epochs], [lines_before_close_are_lost], [sia_all_mines],
    [misspelt_test_mines], [refused_block_spoils_page], [infinite_difficulty_spoils_page],
    [full_disk_spoils_page], [long_name_is_written_in_place], [refusal_breaks_entry],
    [stalled_item_spoils_share], [escaped_job_is_unreadable],
    [difficulty_outlives_connection] and [eight_frames_overrun] exhibit it.

    ** Not modelled

    Which message is logged where: the definitions leave out the calls of [logf_line] and
    [slog], and those of [write_status], with the clock readings these make; nothing
    reads the two files back, and the readings only let time pass. Messages printed to
    the user; [uart_open]'s mapping of the device file (its outcome is an input of
    [Miner.start]); the socket calls themselves and the mock pool of
    selftest_stratum.c, which is made of them. The VHDL, Tcl and Python sources, the
    documentation and the vendored code are not part of the C program. *)
From Stdlib Require Export Ascii String ZArith Lia.
From stdpp Require Export prelude.
#[global] Open Scope list_scope.
#[global] Open Scope Z_scope.
#[global] Set Default Proof Using "Type".

(** ** Machine words

    A [w]-bit unsigned word is a [Z]; every operation that can leave the range
    is wrapped explicitly by the [uN] truncation that the C conversion does. *)
Definition u8 (z : Z) : Z := Z.land z 0xff.
Definition u16 (z : Z) : Z := Z.land z 0xffff.
Definition u32 (z : Z) : Z := Z.land z 0xffffffff.
Definition u64 (z : Z) : Z := Z.land z 0xffffffffffffffff.

Declare Scope word_scope.
Delimit Scope word_scope with word.
Notation "x +32 y" := (u32 (x + y)) (at level 50, left associativity) : word_scope.
Notation "x +64 y" := (u64 (x + y)) (at level 50, left associativity) : word_scope.
Notation "x ^^ y" := (Z.lxor x y) (at level 45, left associativity) : word_scope.
Notation "x .& y" := (Z.land x y) (at level 40, left associativity) : word_scope.
Notation "x .| y" := (Z.lor x y) (at level 45, left associativity) : word_scope.

(** The value of a word in range. *)
Definition is_word (w z : Z) : Prop := 0 <= z < 2 ^ w.
Abbreviation is_byte := (is_word 8).
Abbreviation bytes := (Forall is_byte).
#[export] Instance is_word_decision w z : Decision (is_word w z).
Proof. unfold is_word. apply _. Defined.

(** A byte array of a fixed size, as C declares it. *)
Definition array (n : nat) (l : list Z) : Prop := length l = n /\ bytes l.
#[export] Instance array_decision n l : Decision (array n l).
Proof. unfold array. apply _. Defined.

(** ** Byte buffers

    A byte array is a [list Z]; [memcpy] of [src] into [buf] at [off] is stdpp's
    [list_inserts off src buf]; [slice] reads [n] bytes at [off]. *)
Definition slice {A} (off n : nat) (l : list A) : list A := take n (drop off l).

(** C string literals: the character codes without the terminating NUL. *)
Definition str (s : string) : list Z :=
  (fun a => Z.of_N (N_of_ascii a)) <$> list_ascii_of_string s.

(** [n] bytes of [v], least significant first:
    [for (i = 0; i < n; ++i) p[i] = (uint8_t)(v >> (8 * i))]. *)
Definition le_bytes (n : nat) (v : Z) : list Z :=
  (fun i => u8 (Z.shiftr v (8 * Z.of_nat i))) <$> seq 0 n.
Definition be_bytes (n : nat) (v : Z) : list Z := rev (le_bytes n v).

(** Numeric value of a little-endian and of a big-endian byte string. *)
Fixpoint le_val (l : list Z) : Z :=
  match l with
  | [] => 0
  | b :: l => b + 256 * le_val l
  end.
Definition be_val (l : list Z) : Z := foldl (fun v b => 256 * v + b) 0 l.

(** [memcmp] up to sign: the first differing byte decides. *)
Fixpoint memcmp (a b : list Z) : comparison :=
  match a, b with
  | x :: a, y :: b => match x ?= y with Eq => memcmp a b | c => c end
  | _, _ => Eq
  end.

(** ** Record update

    A record type gives its eta expansion as an instance of [Fields]; the update
    of a field is then found from its projection. *)
Class Fields (R : Type) := fields : R -> R.
Class Update {R E : Type} (get : R -> E) := update : (E -> E) -> R -> R.
Ltac find_update R get :=
  let i := constr:(_ : Fields R) in
  let e := eval hnf in i in
  lazymatch eval pattern get in e with
  | ?body _ => let u := eval cbv beta in (fun f => body (fun r => f (get r))) in exact u
  end.
#[export] Hint Extern 1 (@Update ?R _ ?get) => find_update R get : typeclass_instances.
Notation "s <| get := v |>" := (update (get := get) (fun _ => v) s)
  (at level 1, left associativity, get at level 1, v at level 99) : word_scope.

(** ** Automation *)
Create HintDb osprey.

(** Turn the truncations into [mod] and solve linear goals. *)
Ltac u_unfold := unfold u8, u16, u32, u64 in *.
Create Rewrite HintDb lens.
#[export] Hint Rewrite @length_app @length_take @length_drop @length_inserts
  @length_insert @length_replicate @length_fmap @length_seq @length_rev @length_cons @length_nil @length_zip_with : lens.
(** Length goals: push [length] through the buffer operations, then [lia]. *)
Ltac len := first [lia | autorewrite with lens; simpl length; lia
  | repeat match goal with H : context [length _] |- _ =>
      progress (autorewrite with lens in H; simpl length in H) end;
    autorewrite with lens; simpl length; lia].
Ltac lens := autorewrite with lens; simpl length.

(** Decide a closed decidable goal by evaluation. *)
Ltac by_compute := apply (bool_decide_unpack _); by vm_compute.

(** ** Words *)
Lemma u8_mod z : u8 z = z mod 2 ^ 8.
Proof. exact (Z.land_ones z 8 ltac:(lia)). Qed.
Lemma u16_mod z : u16 z = z mod 2 ^ 16.
Proof. exact (Z.land_ones z 16 ltac:(lia)). Qed.
Lemma u32_mod z : u32 z = z mod 2 ^ 32.
Proof. exact (Z.land_ones z 32 ltac:(lia)). Qed.
Lemma u64_mod z : u64 z = z mod 2 ^ 64.
Proof. exact (Z.land_ones z 64 ltac:(lia)). Qed.

Lemma u8_word z : is_word 8 (u8 z).
Proof. rewrite u8_mod. apply Z.mod_pos_bound. lia. Qed.
Lemma u16_word z : is_word 16 (u16 z).
Proof. rewrite u16_mod. apply Z.mod_pos_bound. lia. Qed.
Lemma u32_word z : is_word 32 (u32 z).
Proof. rewrite u32_mod. apply Z.mod_pos_bound. lia. Qed.
Lemma u64_word z : is_word 64 (u64 z).
Proof. rewrite u64_mod. apply Z.mod_pos_bound. lia. Qed.

Lemma u8_small z : is_word 8 z -> u8 z = z.
Proof. intros. rewrite u8_mod. by apply Z.mod_small. Qed.
Lemma u16_small z : is_word 16 z -> u16 z = z.
Proof. intros. rewrite u16_mod. by apply Z.mod_small. Qed.
Lemma u32_small z : is_word 32 z -> u32 z = z.
Proof. intros. rewrite u32_mod. by apply Z.mod_small. Qed.
Lemma u64_small z : is_word 64 z -> u64 z = z.
Proof. intros. rewrite u64_mod. by apply Z.mod_small. Qed.

Lemma is_word_testbit w z :
  0 <= w -> is_word w z <-> 0 <= z /\ (forall i, w <= i -> Z.testbit z i = false).
Proof.
  intros Hw. split.
  - intros Hz. split; [apply Hz|]. intros i Hi.
    rewrite <- (Z.mod_small z (2 ^ w)) by exact Hz.
    by apply Z.mod_pow2_bits_high.
  - intros [H0 Hb]. split; [done|].
    destruct (decide (z = 0)) as [->|]; [apply Z.pow_pos_nonneg; lia|].
    apply Z.log2_lt_pow2; [lia|].
    destruct (decide (Z.log2 z < w)); [done|].
    pose proof (Hb (Z.log2 z) ltac:(lia)) as Hl.
    by rewrite Z.bit_log2 in Hl by lia.
Qed.

Lemma is_word_lor w x y : 0 <= w -> is_word w x -> is_word w y -> is_word w (Z.lor x y).
Proof.
  intros Hw [? Hx]%is_word_testbit [? Hy]%is_word_testbit; [|lia..].
  apply is_word_testbit; [lia|]. split; [by apply Z.lor_nonneg|].
  intros i Hi. by rewrite Z.lor_spec, Hx, Hy.
Qed.
Lemma is_word_lxor w x y : 0 <= w -> is_word w x -> is_word w y -> is_word w (Z.lxor x y).
Proof.
  intros Hw [? Hx]%is_word_testbit [? Hy]%is_word_testbit; [|lia..].
  apply is_word_testbit; [lia|]. split; [by apply Z.lxor_nonneg|].
  intros i Hi. by rewrite Z.lxor_spec, Hx, Hy.
Qed.
Lemma is_word_land w x y : 0 <= w -> is_word w x -> 0 <= y -> is_word w (Z.land x y).
Proof.
  intros Hw [? Hx]%is_word_testbit ?; [|lia].
  apply is_word_testbit; [lia|]. split; [apply Z.land_nonneg; lia|].
  intros i Hi. by rewrite Z.land_spec, Hx.
Qed.
Lemma is_word_shiftr w x n : 0 <= w -> 0 <= n -> is_word w x -> is_word w (x ≫ n).
Proof.
  intros Hw Hn [? Hx]%is_word_testbit; [|lia].
  apply is_word_testbit; [lia|]. split; [by apply Z.shiftr_nonneg|].
  intros i Hi. rewrite Z.shiftr_spec by lia. apply Hx. lia.
Qed.
Lemma is_word_le v w x : 0 <= v <= w -> is_word v x -> is_word w x.
Proof.
  intros Hvw [? ?]. split; [done|].
  eapply Z.lt_le_trans; [done|]. apply Z.pow_le_mono_r; lia.
Qed.

(** Addition of words commutes with the truncations. *)
Lemma u32_add_l x y : u32 (u32 x + y) = u32 (x + y).
Proof. rewrite !u32_mod. by rewrite Zplus_mod_idemp_l. Qed.
Lemma u32_add_r x y : u32 (x + u32 y) = u32 (x + y).
Proof. rewrite !u32_mod. by rewrite Zplus_mod_idemp_r. Qed.
Lemma u64_add_l x y : u64 (u64 x + y) = u64 (x + y).
Proof. rewrite !u64_mod. by rewrite Zplus_mod_idemp_l. Qed.
Lemma u64_add_r x y : u64 (x + u64 y) = u64 (x + y).
Proof. rewrite !u64_mod. by rewrite Zplus_mod_idemp_r. Qed.

(** ** Lists *)
Lemma length_slice {A} off n (l : list A) :
  (off + n <= length l)%nat -> length (slice off n l) = n.
Proof. intros. unfold slice. len. Qed.
Lemma slice_app_l {A} off n (l k : list A) :
  (off + n <= length l)%nat -> slice off n (l ++ k) = slice off n l.
Proof.
  intros. unfold slice. rewrite drop_app_le by lia. rewrite take_app_le; [done|]. len.
Qed.
Lemma slice_app_r {A} off n (l k : list A) :
  (length l <= off)%nat -> slice off n (l ++ k) = slice (off - length l) n k.
Proof. intros. unfold slice. by rewrite drop_app_ge by lia. Qed.
Lemma slice_app_exact {A} off n (l k : list A) :
  length l = off -> length k = n -> slice off n (l ++ k) = k.
Proof.
  intros <- <-. rewrite slice_app_r by lia. unfold slice.
  rewrite Nat.sub_diag. by rewrite drop_0, firstn_all.
Qed.
Lemma slice_0 {A} n (l : list A) : slice 0 n l = take n l.
Proof. done. Qed.

Lemma slice_take {A} off n m (l : list A) :
  (off + n <= m)%nat -> slice off n (take m l) = slice off n l.
Proof.
  intros. unfold slice. replace m with (off + (m - off))%nat by lia.
  rewrite <- take_drop_commute, take_take.
  by rewrite Nat.min_l by lia.
Qed.

(** [memcpy] as a splice. *)
Lemma list_inserts_splice {A} (i : nat) (k l : list A) :
  (i + length k <= length l)%nat ->
  list_inserts i k l = take i l ++ k ++ drop (i + length k) l.
Proof.
  intros Hl. rewrite <- (take_drop i l) at 1.
  pose proof (list_inserts_app_r k (take i l) (drop i l) 0) as H.
  rewrite length_take, Nat.min_l, Nat.add_0_r in H by lia. rewrite H. f_equal.
  rewrite <- (take_drop (length k) (drop i l)) at 1.
  rewrite list_inserts_0_r by len. by rewrite drop_drop.
Qed.

(** Overwriting a middle segment by one of the same length. *)
Lemma inserts_middle {A} (off : nat) (k a b c : list A) :
  length a = off -> length k = length b -> list_inserts off k (a ++ b ++ c) = a ++ k ++ c.
Proof.
  intros <- Hk. rewrite list_inserts_splice by (rewrite !length_app; lia).
  rewrite take_app_length, Hk, <- drop_drop, drop_app_length, drop_app_length. done.
Qed.
Lemma list_inserts_snoc {A} (i : nat) (k : list A) (x : A) (l : list A) :
  list_inserts i (k ++ [x]) l = <[(i + length k)%nat := x]> (list_inserts i k l).
Proof.
  revert i. induction k as [|y k IH]; intros i; cbn; [by rewrite Nat.add_0_r|].
  rewrite IH, list_insert_insert_ne by lia. by rewrite Nat.add_succ_r.
Qed.
(** Consecutive writes [l[off + i] = f(i)] are one copy. *)
Lemma foldl_insert_seq (f : nat -> Z) (off n : nat) (l : list Z) :
  foldl (fun s i => <[(off + i)%nat := f i]> s) l (seq 0 n) = list_inserts off (f <$> seq 0 n) l.
Proof.
  induction n as [|n IH]; [done|].
  rewrite seq_S, foldl_app, fmap_app, IH. cbn [foldl fmap list_fmap].
  rewrite list_inserts_snoc, Nat.add_0_l. by lens.
Qed.

Lemma fmap_seq_shift {A} (f : nat -> A) i n :
  f <$> seq (S i) n = (fun j => f (S j)) <$> seq i n.
Proof. rewrite <- fmap_S_seq, <- list_fmap_compose. done. Qed.

(** A fold over the positions of a prefix only reads the prefix. *)
Lemma foldl_ext {A B} (f g : A -> B -> A) (l : list B) (a : A) :
  (forall a b, b ∈ l -> f a b = g a b) -> foldl f a l = foldl g a l.
Proof.
  revert a. induction l as [|b l IH]; intros a H; [done|]. simpl.
  rewrite H by set_solver. apply IH. set_solver.
Qed.

(** Two folds that agree on states satisfying an invariant. *)
Lemma foldl_ext_inv {A B} (P : A -> Prop) (f g : A -> B -> A) (l : list B) (a : A) :
  P a -> (forall a b, P a -> f a b = g a b /\ P (f a b)) ->
  foldl f a l = foldl g a l /\ P (foldl f a l).
Proof.
  intros Ha Hfg. revert a Ha. induction l as [|b l IH]; intros a Ha; [done|].
  simpl. destruct (Hfg a b Ha) as [<- Hf]. by apply IH.
Qed.

(** Words of a table, out of range included (the default element is a word). *)
Lemma words_lookup_total w (l : list Z) i :
  1 <= w -> Forall (is_word w) l -> is_word w (l !!! i).
Proof.
  intros Hw Hl. rewrite list_lookup_total_alt.
  destruct (l !! i) as [x|] eqn:E; simpl.
  - by eapply Forall_lookup_1.
  - split; [done|]. apply Z.lt_le_trans with (2 ^ 1); [done|]. by apply Z.pow_le_mono_r.
Qed.

(** A rotation written with shifts is the arithmetic rotation. *)
Lemma rotate_spec w x n :
  0 < n < w -> is_word w x ->
  Z.lor (x ≫ n) ((x ≪ (w - n)) mod 2 ^ w) = (x / 2 ^ n + x * 2 ^ (w - n)) mod 2 ^ w.
Proof.
  intros Hn Hx.
  assert (Z.land (x ≫ n) ((x ≪ (w - n)) mod 2 ^ w) = 0) as Hd.
  { apply Z.bits_inj'. intros i Hi. rewrite Z.land_spec, Z.bits_0.
    rewrite Z.shiftr_spec by lia. destruct (Z.ltb_spec i (w - n)).
    - rewrite Z.mod_pow2_bits_low, Z.shiftl_spec_low by lia. apply andb_false_r.
    - apply is_word_testbit in Hx as [_ Hx]; [|lia]. by rewrite Hx by lia. }
  rewrite <- Z.lxor_lor, <- Z.add_nocarry_lxor by done.
  rewrite Z.shiftr_div_pow2, Z.shiftl_mul_pow2 by lia.
  assert (2 ^ w = 2 ^ n * 2 ^ (w - n)) as Hw by (rewrite <- Z.pow_add_r by lia; f_equal; lia).
  assert (0 <= x / 2 ^ n < 2 ^ (w - n)) as Hq.
  { destruct Hx. split; [apply Z.div_pos; lia|]. apply Z.div_lt_upper_bound; lia. }
  rewrite <- Zplus_mod_idemp_r. symmetry. apply Z.mod_small.
  rewrite Hw, Z.mul_mod_distr_r by lia.
  pose proof (Z.mod_pos_bound x (2 ^ n) ltac:(lia)). nia.
Qed.

(** Or-ing a word below a shifted value is adding it. *)
Lemma lor_add w x y : 0 <= w -> is_word w y -> Z.lor (x ≪ w) y = x * 2 ^ w + y.
Proof.
  intros Hw Hy. assert (Z.land (x ≪ w) y = 0) as Hd.
  { apply Z.bits_inj'. intros i Hi. rewrite Z.land_spec, Z.bits_0.
    destruct (Z.ltb_spec i w).
    - by rewrite Z.shiftl_spec_low by lia.
    - apply is_word_testbit in Hy as [_ Hy]; [|lia]. rewrite Hy by lia. apply andb_false_r. }
  rewrite <- Z.lxor_lor, <- Z.add_nocarry_lxor by done. by rewrite Z.shiftl_mul_pow2.
Qed.

Lemma slice_lookups (off n : nat) (l : list Z) :
  (off + n <= length l)%nat ->
  slice off n l = (fun i => l !!! (off + i)%nat) <$> seq 0 n.
Proof.
  revert off. induction n as [|n IH]; intros off Hl; [done|].
  cbn [seq fmap list_fmap]. rewrite fmap_seq_shift.
  unfold slice in *. rewrite Nat.add_0_r.
  rewrite (drop_S l (l !!! off) off) by (apply list_lookup_lookup_total_lt; lia).
  cbn [take]. rewrite IH by lia. f_equal. apply list_fmap_ext.
  intros i j _. f_equal. lia.
Qed.

(** Reading back an updated array cell, as a boolean case. *)
Lemma lookup_total_insert_eqb (i j : nat) (x : Z) (l : list Z) :
  (i < length l)%nat -> <[i := x]> l !!! j = if (i =? j)%nat then x else l !!! j.
Proof.
  intros Hi. destruct (Nat.eqb_spec i j) as [<-|Hne].
  - by apply list_lookup_total_insert_eq.
  - by apply list_lookup_total_insert_ne.
Qed.

(** ** Byte strings *)
Lemma length_le_bytes n v : length (le_bytes n v) = n.
Proof. unfold le_bytes. len. Qed.
Lemma length_be_bytes n v : length (be_bytes n v) = n.
Proof. unfold be_bytes. lens. apply length_le_bytes. Qed.

Lemma le_bytes_S n v : le_bytes (S n) v = u8 v :: le_bytes n (v ≫ 8).
Proof.
  unfold le_bytes. cbn [seq fmap list_fmap]. rewrite Z.mul_0_r, Z.shiftr_0_r. f_equal.
  rewrite fmap_seq_shift. apply list_fmap_ext. intros i j Hi.
  rewrite Z.shiftr_shiftr by lia. do 2 f_equal. lia.
Qed.

Lemma bytes_le_bytes n v : bytes (le_bytes n v).
Proof. unfold le_bytes. apply Forall_fmap, Forall_true. intros i. apply u8_word. Qed.

Lemma le_val_app a b : le_val (a ++ b) = le_val a + 2 ^ (8 * Z.of_nat (length a)) * le_val b.
Proof.
  induction a as [|x a IH]; [simpl; lia|].
  cbn [app le_val length]. rewrite IH, Nat2Z.inj_succ.
  replace (8 * Z.succ (Z.of_nat (length a))) with (8 + 8 * Z.of_nat (length a)) by lia.
  rewrite Z.pow_add_r by lia. lia.
Qed.

Lemma le_val_bound l : bytes l -> 0 <= le_val l < 2 ^ (8 * Z.of_nat (length l)).
Proof.
  induction 1 as [|x l [Hx1 Hx2] Hl IH]; [simpl; lia|].
  cbn [le_val length]. rewrite Nat2Z.inj_succ.
  replace (8 * Z.succ (Z.of_nat (length l))) with (8 + 8 * Z.of_nat (length l)) by lia.
  rewrite Z.pow_add_r by lia. lia.
Qed.

Lemma le_val_le_bytes n v : le_val (le_bytes n v) = v mod 2 ^ (8 * Z.of_nat n).
Proof.
  revert v. induction n as [|n IH]; intros v; [simpl; by rewrite Z.mod_1_r|].
  rewrite le_bytes_S. cbn [le_val]. rewrite IH, u8_mod, Nat2Z.inj_succ, Z.shiftr_div_pow2 by lia.
  replace (8 * Z.succ (Z.of_nat n)) with (8 + 8 * Z.of_nat n) by lia.
  rewrite Z.pow_add_r by lia. rewrite Z.rem_mul_r by lia. lia.
Qed.

Lemma le_bytes_le_val l : bytes l -> le_bytes (length l) (le_val l) = l.
Proof.
  induction 1 as [|x l Hx Hl IH]; [done|]. cbn [length le_val].
  rewrite le_bytes_S. f_equal.
  - rewrite u8_mod. rewrite Z.mul_comm, Z.mod_add by lia. by apply Z.mod_small.
  - rewrite Z.shiftr_div_pow2 by lia. rewrite Z.mul_comm, Z.div_add by lia.
    rewrite Z.div_small by exact Hx. exact IH.
Qed.

(** The bytes depend on the value modulo the width only. *)
Lemma le_bytes_mod n v : le_bytes n (v mod 2 ^ (8 * Z.of_nat n)) = le_bytes n v.
Proof.
  rewrite <- le_val_le_bytes. rewrite <- (length_le_bytes n v) at 1.
  apply le_bytes_le_val, bytes_le_bytes.
Qed.
Lemma le_bytes_u64 v : le_bytes 8 (u64 v) = le_bytes 8 v.
Proof. rewrite u64_mod. apply (le_bytes_mod 8). Qed.
Lemma be_bytes_u64 v : be_bytes 8 (u64 v) = be_bytes 8 v.
Proof. unfold be_bytes. by rewrite le_bytes_u64. Qed.
Lemma bytes_be_bytes n v : bytes (be_bytes n v).
Proof. apply List.Forall_rev, bytes_le_bytes. Qed.

Lemma le_val_inj a b :
  bytes a -> bytes b -> length a = length b -> le_val a = le_val b -> a = b.
Proof.
  intros Ha Hb Hl He. rewrite <- (le_bytes_le_val a), <- (le_bytes_le_val b) by done.
  by rewrite Hl, He.
Qed.

Lemma foldl_be_val v l :
  foldl (fun v b => 256 * v + b) v l = v * 2 ^ (8 * Z.of_nat (length l)) + le_val (rev l).
Proof.
  revert v. induction l as [|x l IH]; intros v; [simpl; lia|].
  cbn [foldl rev]. rewrite IH, le_val_app, length_rev. cbn [le_val length].
  rewrite Nat2Z.inj_succ.
  replace (8 * Z.succ (Z.of_nat (length l))) with (8 + 8 * Z.of_nat (length l)) by lia.
  rewrite Z.pow_add_r by lia. lia.
Qed.
Lemma be_val_rev l : be_val l = le_val (rev l).
Proof. unfold be_val. rewrite foldl_be_val. lia. Qed.
Lemma bytes_rev l : bytes l -> bytes (rev l).
Proof. apply List.Forall_rev. Qed.
Lemma be_val_bound l : bytes l -> 0 <= be_val l < 2 ^ (8 * Z.of_nat (length l)).
Proof.
  intros H. rewrite be_val_rev, <- (length_rev l). by apply le_val_bound, bytes_rev.
Qed.
Lemma be_val_app a b : be_val (a ++ b) = be_val a * 2 ^ (8 * Z.of_nat (length b)) + be_val b.
Proof.
  rewrite !be_val_rev, rev_app_distr, le_val_app, length_rev. lia.
Qed.
Lemma be_val_cons x b : be_val (x :: b) = x * 2 ^ (8 * Z.of_nat (length b)) + be_val b.
Proof. apply (be_val_app [x] b). Qed.
Lemma be_val_be_bytes n v : be_val (be_bytes n v) = v mod 2 ^ (8 * Z.of_nat n).
Proof. unfold be_bytes. by rewrite be_val_rev, rev_involutive, le_val_le_bytes. Qed.

(** [memcmp] on equally long byte strings is the comparison of their
    big-endian values. *)
Lemma memcmp_be_val a b :
  bytes a -> bytes b -> length a = length b -> memcmp a b = (be_val a ?= be_val b).
Proof.
  intros Ha. revert b. induction Ha as [|x a Hx Ha IH]; intros [|y b] Hb Hl;
    try done. inversion Hb as [|?? Hy Hb']; subst. injection Hl as Hl.
  rewrite !be_val_cons, Hl. cbn [memcmp].
  pose proof (be_val_bound a Ha) as Ba. pose proof (be_val_bound b Hb') as Bb.
  rewrite Hl in Ba. set (P := 2 ^ _) in *.
  destruct (Z.compare_spec x y) as [->|Hlt|Hgt].
  - rewrite IH by done. symmetry. apply Z.add_compare_mono_l.
  - symmetry. apply Z.compare_lt_iff. nia.
  - symmetry. apply Z.compare_gt_iff. nia.
Qed.

(** Shifting bytes into a 64-bit accumulator reads a big-endian number: the
    truncation of [v << 8] to 64 bits loses nothing up to eight bytes. *)
Lemma shift_in_bytes w v l :
  0 <= w -> w + 8 * Z.of_nat (length l) <= 64 -> is_word w v -> bytes l ->
  foldl (fun v b => Z.lor (u64 (v ≪ 8)) b) v l = foldl (fun v b => 256 * v + b) v l.
Proof.
  intros Hw Hl Hv Hb. revert w v Hw Hl Hv.
  induction Hb as [|b l Hb Hbs IH]; intros w v Hw Hl Hv; [done|].
  cbn [foldl]. cbn [length] in Hl. assert (is_word (w + 8) (v ≪ 8)) as Hs.
  { rewrite Z.shiftl_mul_pow2 by lia. unfold is_word in *. rewrite Z.pow_add_r by lia. lia. }
  assert (Z.lor (u64 (v ≪ 8)) b = 256 * v + b) as ->.
  { rewrite u64_small by (eapply is_word_le; [|exact Hs]; lia).
    rewrite lor_add by (lia || done). lia. }
  apply (IH (w + 8)); [lia..|]. unfold is_word in *. rewrite Z.pow_add_r by lia. lia.
Qed.

Lemma load_be_spec (p : list Z) :
  bytes p -> (8 <= length p)%nat ->
  foldl (fun v i => Z.lor (u64 (v ≪ 8)) (p !!! i)) 0 (seq 0 8) = be_val (take 8 p).
Proof.
  intros Hp Hl. rewrite <- slice_0, slice_lookups by done.
  unfold be_val. rewrite <- (shift_in_bytes 0); [by rewrite foldl_fmap|lia|by lens| |].
  - by vm_compute.
  - apply Forall_fmap, Forall_true. intros i. by apply words_lookup_total.
Qed.

Lemma load_le_spec (p : list Z) :
  bytes p -> (8 <= length p)%nat ->
  foldl (fun v i => Z.lor (u64 (v ≪ 8)) (p !!! i)) 0 (rev (seq 0 8)) = le_val (take 8 p).
Proof.
  intros Hp Hl. rewrite <- (rev_involutive (take 8 p)), <- be_val_rev.
  rewrite <- slice_0, slice_lookups by done.
  change (rev ((fun i => p !!! (0 + i)%nat) <$> seq 0 8)) with ((fun i => p !!! i) <$> rev (seq 0 8)).
  unfold be_val. rewrite <- (foldl_fmap (fun v b => Z.lor (u64 (v ≪ 8)) b) 0
    (rev (seq 0 8)) (fun i => p !!! i)).
  apply (shift_in_bytes 0); [lia|by vm_compute|by vm_compute|].
  apply Forall_fmap, Forall_true. intros i. by apply words_lookup_total.
Qed.

(** ** Bits of byte strings *)
Lemma le_val_testbit l i :
  bytes l -> 0 <= i < 8 * Z.of_nat (length l) ->
  Z.testbit (le_val l) i = Z.testbit (l !!! Z.to_nat (i / 8)) (i mod 8).
Proof.
  intros Hl. revert i. induction Hl as [|b l Hb Hl IH]; intros i Hi; [simpl in Hi; lia|].
  cbn [le_val length] in *.
  replace (b + 256 * le_val l) with (Z.lor (le_val l ≪ 8) b)
    by (rewrite lor_add by (lia || done); lia).
  rewrite Z.lor_spec. destruct (Z.ltb_spec i 8).
  - rewrite Z.shiftl_spec_low, Z.div_small, Z.mod_small by lia. done.
  - rewrite Z.shiftl_spec by lia.
    destruct (proj1 (is_word_testbit 8 b ltac:(lia)) Hb) as [_ ->]; [|lia].
    rewrite orb_false_r, IH by lia.
    replace i with ((i - 8) + 1 * 8) at 3 4 by lia.
    rewrite Z.div_add, Z.mod_add by lia.
    replace (Z.to_nat ((i - 8) / 8 + 1)) with (S (Z.to_nat ((i - 8) / 8)))
      by (pose proof (Z.div_pos (i - 8) 8); lia).
    done.
Qed.

Lemma rev_lookup_total (l : list Z) j :
  (j < length l)%nat -> rev l !!! j = l !!! (length l - 1 - j)%nat.
Proof.
  intros Hj. rewrite !list_lookup_total_alt. f_equal.
  assert (rev l = reverse l) as -> by apply rev_alt.
  rewrite reverse_lookup by done. f_equal. lia.
Qed.

Lemma be_val_testbit l i :
  bytes l -> 0 <= i < 8 * Z.of_nat (length l) ->
  Z.testbit (be_val l) i = Z.testbit (l !!! (length l - 1 - Z.to_nat (i / 8))%nat) (i mod 8).
Proof.
  intros Hl Hi. rewrite be_val_rev, le_val_testbit.
  - rewrite rev_lookup_total; [done|].
    assert (i / 8 < Z.of_nat (length l)) by (apply Z.div_lt_upper_bound; lia).
    pose proof (Z.div_pos i 8). lia.
  - by apply bytes_rev.
  - by rewrite length_rev.
Qed.

(** Bytes are determined by their big-endian value. *)
Lemma be_val_inj a b :
  bytes a -> bytes b -> length a = length b -> be_val a = be_val b -> a = b.
Proof.
  intros Ha Hb Hl He. rewrite !be_val_rev in He.
  rewrite <- (rev_involutive a), <- (rev_involutive b). f_equal.
  apply le_val_inj; [by apply bytes_rev..|by rewrite !length_rev|done].
Qed.
Lemma be_bytes_be_val l : bytes l -> be_bytes (length l) (be_val l) = l.
Proof.
  intros Hl. apply be_val_inj; [apply bytes_be_bytes|done|by rewrite length_be_bytes|].
  rewrite be_val_be_bytes. apply Z.mod_small. by apply be_val_bound.
Qed.

Lemma bytes_zeros n : bytes (replicate n 0).
Proof. by apply Forall_replicate. Qed.
Lemma be_val_zeros n : be_val (replicate n 0) = 0.
Proof.
  induction n as [|n IH]; [done|]. rewrite replicate_S, be_val_cons, IH. lia.
Qed.
Lemma le_val_zeros n : le_val (replicate n 0) = 0.
Proof. induction n as [|n IH]; [done|]. simpl. by rewrite IH. Qed.
Lemma bytes_insert i x l : is_byte x -> bytes l -> bytes (<[i := x]> l).
Proof. intros. by apply Forall_insert. Qed.
Lemma bytes_inserts i k l : bytes k -> bytes l -> bytes (list_inserts i k l).
Proof. intros. by apply Forall_inserts. Qed.
Lemma bytes_slice off n l : bytes l -> bytes (slice off n l).
Proof. intros. unfold slice. by apply Forall_take, Forall_drop. Qed.

Lemma be_val_zip_lxor a b :
  bytes a -> bytes b -> length a = length b ->
  be_val (zip_with Z.lxor a b) = Z.lxor (be_val a) (be_val b).
Proof.
  intros Ha. revert b. induction Ha as [|x a Hx Ha IH]; intros [|y b] Hb Hl; try done.
  inversion Hb as [|?? Hy Hb']; subst. injection Hl as Hl.
  cbn [zip_with]. rewrite !be_val_cons, IH by done.
  rewrite length_zip_with, Hl, Nat.min_id. set (n := 8 * Z.of_nat (length b)).
  pose proof (be_val_bound a Ha) as Ba. pose proof (be_val_bound b Hb') as Bb.
  rewrite Hl in Ba. fold n in Ba, Bb.
  assert (0 <= n) by lia.
  rewrite <- !lor_add by (lia || by (apply is_word_lxor || idtac)).
  rewrite Z.shiftl_lxor.
  apply Z.bits_inj'. intros i Hi. rewrite !Z.lxor_spec, !Z.lor_spec, !Z.lxor_spec.
  destruct (Z.ltb_spec i n).
  - rewrite !Z.shiftl_spec_low by lia. done.
  - apply (is_word_testbit n) in Ba as [_ Ba]; [|lia].
    apply (is_word_testbit n) in Bb as [_ Bb]; [|lia].
    rewrite Ba, Bb by lia. by rewrite !orb_false_r.
Qed.
Lemma bytes_zip_lxor a b : bytes a -> bytes b -> bytes (zip_with Z.lxor a b).
Proof.
  intros Ha. revert b. induction Ha as [|x a Hx Ha IH]; intros [|y b] Hb; try constructor.
  - inversion Hb. by apply is_word_lxor.
  - apply IH. by inversion Hb.
Qed.

#[export] Hint Resolve u8_word u16_word u32_word u64_word bytes_le_bytes bytes_rev
  is_word_lor is_word_lxor is_word_shiftr bytes_be_bytes bytes_zeros bytes_insert
  bytes_inserts bytes_slice bytes_zip_lxor : osprey.
#[export] Hint Rewrite @length_le_bytes @length_be_bytes : lens.
