(* ===== verification/Sha256.v ===== *)
(** * SHA-256 and the Bitcoin tagged hash (src/miner/sha256.c)

    The streaming context of the C code ([sha256_ctx]: a 64-byte buffer that
    keeps stale bytes, a fill count, a bit counter and the chaining state), its
    three operations, and the one-shot wrappers. [Spec] is FIPS 180-4 written
    on the whole padded message; the streaming code is proved to compute it. *)
From S2P Require Import Prelude.

Module Sha256.
Local Open Scope word_scope.

(** ** The macros and the round constants *)
Definition ROTR (a b : Z) : Z := (a ≫ b) .| u32 (a ≪ (32 - b)).
Definition CH (x y z : Z) : Z := (x .& y) ^^ (u32 (Z.lnot x) .& z).
Definition MAJ (x y z : Z) : Z := (x .& y) ^^ (x .& z) ^^ (y .& z).
Definition EP0 (x : Z) : Z := ROTR x 2 ^^ ROTR x 13 ^^ ROTR x 22.
Definition EP1 (x : Z) : Z := ROTR x 6 ^^ ROTR x 11 ^^ ROTR x 25.
Definition SIG0 (x : Z) : Z := ROTR x 7 ^^ ROTR x 18 ^^ (x ≫ 3).
Definition SIG1 (x : Z) : Z := ROTR x 17 ^^ ROTR x 19 ^^ (x ≫ 10).

(** Four constants to a row. *)
Definition K : list Z :=
  [0x428a2f98; 0x71374491; 0xb5c0fbcf; 0xe9b5dba5]
  ++ [0x3956c25b; 0x59f111f1; 0x923f82a4; 0xab1c5ed5]
  ++ [0xd807aa98; 0x12835b01; 0x243185be; 0x550c7dc3]
  ++ [0x72be5d74; 0x80deb1fe; 0x9bdc06a7; 0xc19bf174]
  ++ [0xe49b69c1; 0xefbe4786; 0x0fc19dc6; 0x240ca1cc]
  ++ [0x2de92c6f; 0x4a7484aa; 0x5cb0a9dc; 0x76f988da]
  ++ [0x983e5152; 0xa831c66d; 0xb00327c8; 0xbf597fc7]
  ++ [0xc6e00bf3; 0xd5a79147; 0x06ca6351; 0x14292967]
  ++ [0x27b70a85; 0x2e1b2138; 0x4d2c6dfc; 0x53380d13]
  ++ [0x650a7354; 0x766a0abb; 0x81c2c92e; 0x92722c85]
  ++ [0xa2bfe8a1; 0xa81a664b; 0xc24b8b70; 0xc76c51a3]
  ++ [0xd192e819; 0xd6990624; 0xf40e3585; 0x106aa070]
  ++ [0x19a4c116; 0x1e376c08; 0x2748774c; 0x34b0bcb5]
  ++ [0x391c0cb3; 0x4ed8aa4a; 0x5b9cca4f; 0x682e6ff3]
  ++ [0x748f82ee; 0x78a5636f; 0x84c87814; 0x8cc70208]
  ++ [0x90befffa; 0xa4506ceb; 0xbef9a3f7; 0xc67178f2].

(** ** The compression function *)

(** [m[i] = d[j]<<24 | d[j+1]<<16 | d[j+2]<<8 | d[j+3]] with [j = 4 i]. *)
Definition load_word (d : list Z) (i : nat) : Z :=
  (u32 (d !!! (4 * i)%nat ≪ 24)) .| (u32 (d !!! (4 * i + 1)%nat ≪ 16))
  .| (u32 (d !!! (4 * i + 2)%nat ≪ 8)) .| (d !!! (4 * i + 3)%nat).

(** The message schedule: sixteen loaded words, then 48 computed ones. *)
Definition schedule (d : list Z) : list Z :=
  foldl (fun m i =>
           m ++ [SIG1 (m !!! (i - 2)%nat) +32 m !!! (i - 7)%nat
                 +32 SIG0 (m !!! (i - 15)%nat) +32 m !!! (i - 16)%nat])
        (load_word d <$> seq 0 16) (seq 16 48).

(** The eight working variables [a, b, cc, dd, e, f, g, h]. *)
Definition vars : Type := Z * Z * Z * Z * Z * Z * Z * Z.

Definition round (m : list Z) (v : vars) (i : nat) : vars :=
  let '(a, b, cc, dd, e, f, g, h) := v in
  let t1 := h +32 EP1 e +32 CH e f g +32 K !!! i +32 m !!! i in
  let t2 := EP0 a +32 MAJ a b cc in
  (t1 +32 t2, a, b, cc, dd +32 t1, e, f, g).

(** [sha256_transform] on the chaining state and one 64-byte block. *)
Definition sha256_transform (s d : list Z) : list Z :=
  let m := schedule d in
  let '(a, b, cc, dd, e, f, g, h) :=
    foldl (round m)
      (s !!! 0%nat, s !!! 1%nat, s !!! 2%nat, s !!! 3%nat,
       s !!! 4%nat, s !!! 5%nat, s !!! 6%nat, s !!! 7%nat) (seq 0 64) in
  [s !!! 0%nat +32 a; s !!! 1%nat +32 b; s !!! 2%nat +32 cc; s !!! 3%nat +32 dd;
   s !!! 4%nat +32 e; s !!! 5%nat +32 f; s !!! 6%nat +32 g; s !!! 7%nat +32 h].

(** ** The streaming context *)
Record sha256_ctx := Ctx {
  data : list Z;      (* uint8_t data[64] *)
  datalen : nat;      (* uint32_t; < 64 between operations *)
  bitlen : Z;         (* uint64_t *)
  state : list Z      (* uint32_t state[8] *)
}.

Definition H0 : list Z := [
  0x6a09e667; 0xbb67ae85; 0x3c6ef372; 0xa54ff53a;
  0x510e527f; 0x9b05688c; 0x1f83d9ab; 0x5be0cd19 ].

(** [sha256_init] leaves [data] as it finds it. *)
Definition sha256_init (c : sha256_ctx) : sha256_ctx := Ctx (data c) 0 0 H0.

(** One iteration of the loop of [sha256_update]. *)
Definition update_byte (c : sha256_ctx) (b : Z) : sha256_ctx :=
  let d := <[datalen c := b]> (data c) in
  let n := S (datalen c) in
  if (n =? 64)%nat
  then Ctx d 0 (u64 (bitlen c + 512)) (sha256_transform (state c) d)
  else Ctx d n (bitlen c) (state c).

Definition sha256_update (c : sha256_ctx) (bs : list Z) : sha256_ctx :=
  foldl update_byte c bs.

(** The two padding branches of [sha256_final], before the length goes in: the
    buffer and the state. *)
Definition pad_block (c : sha256_ctx) : list Z * list Z :=
  if (datalen c <? 56)%nat then
    (list_inserts (datalen c) (0x80 :: replicate (55 - datalen c) 0) (data c), state c)
  else
    let d := list_inserts (datalen c) (0x80 :: replicate (63 - datalen c) 0) (data c) in
    (list_inserts 0 (replicate 56 0) d, sha256_transform (state c) d).

Definition digest_bytes (s : list Z) : list Z :=
  s ≫= (fun w => [u8 (w ≫ 24); u8 (w ≫ 16); u8 (w ≫ 8); u8 w]).

(** [c->data[63 - i] = (uint8_t)(c->bitlen >> (i * 8))], [i < 8]. *)
Definition put_bitlen (bl : Z) (d : list Z) : list Z :=
  foldl (fun d i => <[(63 - i)%nat := u8 (bl ≫ (8 * Z.of_nat i))]> d) d (seq 0 8).

Definition sha256_final (c : sha256_ctx) : list Z :=
  let '(d, s) := pad_block c in
  let bl := u64 (bitlen c + 8 * Z.of_nat (datalen c)) in
  digest_bytes (sha256_transform s (put_bitlen bl d)).

(** An uninitialised context: the one-shot functions start from whatever the
    stack holds, so they are defined over it. *)
Definition sha256_on (junk : sha256_ctx) (msg : list Z) : list Z :=
  sha256_final (sha256_update (sha256_init junk) msg).
Definition blank : sha256_ctx := Ctx (replicate 64 0) 0 0 [].
Definition sha256 (msg : list Z) : list Z := sha256_on blank msg.

Definition tagged_hash (tag payload : list Z) : list Z :=
  let th := sha256 tag in
  let c := sha256_init blank in
  let c := sha256_update c th in
  let c := sha256_update c th in
  let c := sha256_update c payload in
  sha256_final c.

Definition sha256d (msg : list Z) : list Z := sha256 (sha256 msg).

(** ** FIPS 180-4 on the whole message *)
Module Spec.
(** Section 5.1.1: a one bit, the fewest zeros that fill a block up to the last
    eight bytes, and the 64-bit big-endian bit length. *)
Definition padding (n : nat) : list Z :=
  0x80 :: replicate (Z.to_nat ((55 - Z.of_nat n) mod 64)) 0
  ++ be_bytes 8 (8 * Z.of_nat n).
Definition padded (msg : list Z) : list Z := msg ++ padding (length msg).

(** Section 3.2 and 4.1.2: the rotation and the six functions, on numbers. *)
Definition rotr (n x : Z) : Z := (x / 2 ^ n + x * 2 ^ (32 - n)) mod 2 ^ 32.
Definition Ch (x y z : Z) : Z := Z.lxor (Z.land x y) (Z.land (2 ^ 32 - 1 - x) z).
Definition Maj (x y z : Z) : Z :=
  Z.lxor (Z.lxor (Z.land x y) (Z.land x z)) (Z.land y z).
Definition Sigma0 (x : Z) : Z := Z.lxor (Z.lxor (rotr 2 x) (rotr 13 x)) (rotr 22 x).
Definition Sigma1 (x : Z) : Z := Z.lxor (Z.lxor (rotr 6 x) (rotr 11 x)) (rotr 25 x).
Definition sigma0 (x : Z) : Z := Z.lxor (Z.lxor (rotr 7 x) (rotr 18 x)) (x / 2 ^ 3).
Definition sigma1 (x : Z) : Z := Z.lxor (Z.lxor (rotr 17 x) (rotr 19 x)) (x / 2 ^ 10).

(** Section 6.2.2, step 1: the message schedule. *)
Definition next_W (W : list Z) (t : nat) : Z :=
  (sigma1 (W !!! (t - 2)%nat) + W !!! (t - 7)%nat
   + sigma0 (W !!! (t - 15)%nat) + W !!! (t - 16)%nat) mod 2 ^ 32.
Definition W (d : list Z) : list Z :=
  foldl (fun W t => W ++ [next_W W t])
    ((fun i => be_val (slice (4 * i) 4 d)) <$> seq 0 16) (seq 16 48).

(** Steps 2 to 4. *)
Definition step (W : list Z) (v : vars) (t : nat) : vars :=
  let '(a, b, c, d, e, f, g, h) := v in
  let T1 := h + Sigma1 e + Ch e f g + K !!! t + W !!! t in
  let T2 := Sigma0 a + Maj a b c in
  ((T1 + T2) mod 2 ^ 32, a, b, c, (d + T1) mod 2 ^ 32, e, f, g).
Definition compress (H d : list Z) : list Z :=
  let '(a, b, c, dd, e, f, g, h) :=
    foldl (step (W d))
      (H !!! 0%nat, H !!! 1%nat, H !!! 2%nat, H !!! 3%nat,
       H !!! 4%nat, H !!! 5%nat, H !!! 6%nat, H !!! 7%nat) (seq 0 64) in
  (fun x => x mod 2 ^ 32) <$>
    [H !!! 0%nat + a; H !!! 1%nat + b; H !!! 2%nat + c; H !!! 3%nat + dd;
     H !!! 4%nat + e; H !!! 5%nat + f; H !!! 6%nat + g; H !!! 7%nat + h].

(** Fold a compression function over the first [n] blocks. *)
Definition compress_blocks_with (F : list Z -> list Z -> list Z)
    (s msg : list Z) (n : nat) : list Z :=
  foldl (fun s i => F s (slice (64 * i) 64 msg)) s (seq 0 n).
Abbreviation compress_blocks := (compress_blocks_with sha256_transform).

Definition sha256_with (F : list Z -> list Z -> list Z) (msg : list Z) : list Z :=
  compress_blocks_with F H0 (padded msg) (length (padded msg) / 64) ≫= be_bytes 4.
Definition sha256 : list Z -> list Z := sha256_with compress.
End Spec.

Lemma length_transform s d : length (sha256_transform s d) = 8%nat.
Proof. unfold sha256_transform. by destruct (foldl _ _ _) as [[[[[[[??]?]?]?]?]?]?]. Qed.

(** ** The compression function is the one of FIPS 180-4 *)
Abbreviation words := (Forall (is_word 32)).

Lemma ROTR_spec x n : 0 < n < 32 -> is_word 32 x -> ROTR x n = Spec.rotr n x.
Proof. intros. unfold ROTR. rewrite u32_mod. by apply rotate_spec. Qed.
Lemma ROTR_word x n : 0 <= n -> is_word 32 x -> is_word 32 (ROTR x n).
Proof. intros. apply is_word_lor; [done| |apply u32_word]. by apply is_word_shiftr. Qed.

Lemma CH_spec x y z : is_word 32 x -> is_word 32 z -> CH x y z = Spec.Ch x y z.
Proof.
  intros Hx Hz. unfold CH, Spec.Ch. do 2 f_equal. rewrite u32_mod.
  symmetry. apply Z.mod_unique with (q := -1); [left; unfold is_word in *; lia|].
  pose proof (Z.add_lnot_diag x). lia.
Qed.

#[local] Ltac word := repeat first
  [ assumption | lia | apply u32_word | apply is_word_lxor | apply is_word_lor
  | apply ROTR_word | apply is_word_shiftr
  | apply words_lookup_total; [lia|] ].

Lemma CH_word x y z : is_word 32 x -> is_word 32 y -> is_word 32 z -> is_word 32 (CH x y z).
Proof.
  intros. unfold CH. word; apply is_word_land; unfold is_word in *; try lia.
  apply u32_word.
Qed.
Lemma MAJ_word x y z : is_word 32 x -> is_word 32 y -> is_word 32 z -> is_word 32 (MAJ x y z).
Proof. intros. unfold MAJ. word; apply is_word_land; unfold is_word in *; lia. Qed.

Lemma EP0_spec x : is_word 32 x -> EP0 x = Spec.Sigma0 x.
Proof. intros. unfold EP0, Spec.Sigma0. by rewrite !ROTR_spec by (lia || done). Qed.
Lemma EP1_spec x : is_word 32 x -> EP1 x = Spec.Sigma1 x.
Proof. intros. unfold EP1, Spec.Sigma1. by rewrite !ROTR_spec by (lia || done). Qed.
Lemma SIG0_spec x : is_word 32 x -> SIG0 x = Spec.sigma0 x.
Proof.
  intros. unfold SIG0, Spec.sigma0. rewrite !ROTR_spec by (lia || done).
  by rewrite Z.shiftr_div_pow2 by lia.
Qed.
Lemma SIG1_spec x : is_word 32 x -> SIG1 x = Spec.sigma1 x.
Proof.
  intros. unfold SIG1, Spec.sigma1. rewrite !ROTR_spec by (lia || done).
  by rewrite Z.shiftr_div_pow2 by lia.
Qed.

(** A chain of wrapping additions is one addition modulo [2^32]. *)
#[local] Ltac sums :=
  rewrite ?u32_mod; change (2 ^ 32) with 4294967296; Z.div_mod_to_equations; lia.

Lemma load_word_spec d i :
  bytes d -> (4 * i + 4 <= length d)%nat ->
  load_word d i = be_val (slice (4 * i) 4 d) /\ is_word 32 (load_word d i).
Proof.
  intros Hd Hi. assert (forall k, is_byte (d !!! k)) as Hb.
  { intros k. by apply words_lookup_total. }
  rewrite slice_lookups by done. unfold load_word, be_val.
  cbn [seq fmap list_fmap foldl]. rewrite !Nat.add_0_r.
  pose proof (Hb (4 * i)%nat) as B0. pose proof (Hb (4 * i + 1)%nat) as B1.
  pose proof (Hb (4 * i + 2)%nat) as B2. pose proof (Hb (4 * i + 3)%nat) as B3.
  generalize dependent (d !!! (4 * i + 3)%nat). generalize dependent (d !!! (4 * i + 2)%nat).
  generalize dependent (d !!! (4 * i + 1)%nat). generalize dependent (d !!! (4 * i)%nat).
  intros a Ha b Hb' c Hc e He.
  rewrite !u32_small by (rewrite Z.shiftl_mul_pow2 by lia; unfold is_word in *; lia).
  change 24 with (8 + 16).
  rewrite <- Z.shiftl_shiftl, <- Z.shiftl_lor, (lor_add 8 a b) by (lia || done).
  change 16 with (8 + 8).
  rewrite <- Z.shiftl_shiftl, <- Z.shiftl_lor, (lor_add 8 _ c) by (lia || done).
  rewrite lor_add by (lia || done). unfold is_word in *. lia.
Qed.

Lemma schedule_spec d :
  bytes d -> length d = 64%nat -> schedule d = Spec.W d /\ words (schedule d).
Proof.
  intros Hd Hl. unfold schedule, Spec.W.
  assert (forall i, i ∈ seq 0 16 -> load_word d i = be_val (slice (4 * i) 4 d)
                                   /\ is_word 32 (load_word d i)) as Hload.
  { intros i Hi%elem_of_seq. apply load_word_spec; [done|lia]. }
  assert (load_word d <$> seq 0 16 = (fun i => be_val (slice (4 * i) 4 d)) <$> seq 0 16) as <-.
  { apply list_fmap_ext. intros k i Hk. apply Hload. by eapply list_elem_of_lookup_2. }
  apply (foldl_ext_inv words).
  - apply Forall_fmap, Forall_forall. intros i Hi. by apply Hload.
  - intros m t Hm. unfold Spec.next_W. rewrite <- SIG0_spec, <- SIG1_spec by word.
    split; [do 2 f_equal; sums|]. apply Forall_app. split; [done|]. repeat constructor; word.
Qed.

Definition words_vars (v : vars) : Prop :=
  let '(a, b, c, d, e, f, g, h) := v in words [a; b; c; d; e; f; g; h].

Lemma round_spec m v i :
  words_vars v -> round m v i = Spec.step m v i /\ words_vars (round m v i).
Proof.
  destruct v as [[[[[[[a b] c] d] e] f] g] h]. intros Hv. simpl in Hv.
  decompose_Forall_hyps. unfold round, Spec.step. change Spec.Maj with MAJ.
  rewrite <- EP0_spec, <- EP1_spec, <- CH_spec by done. split.
  - repeat f_equal; sums.
  - unfold words_vars. repeat (constructor; [try assumption; word|]). constructor.
Qed.

Lemma transform_spec s d :
  words s -> bytes d -> length d = 64%nat ->
  sha256_transform s d = Spec.compress s d /\ words (sha256_transform s d).
Proof.
  intros Hs Hd Hl. destruct (schedule_spec d Hd Hl) as [HW Hw].
  unfold sha256_transform, Spec.compress. rewrite <- HW.
  edestruct (foldl_ext_inv words_vars (round (schedule d)) (Spec.step (schedule d)))
    as [Hf Hv]; [| |rewrite <- Hf].
  - unfold words_vars. repeat (constructor; [word|]). constructor.
  - intros v t. apply round_spec.
  - destruct (foldl _ _ _) as [[[[[[[??]?]?]?]?]?]?]. split.
    + cbn [fmap list_fmap]. by rewrite !u32_mod.
    + repeat (constructor; [apply u32_word|]). constructor.
Qed.

#[global] Opaque sha256_transform.

(** ** The context represents the bytes absorbed so far *)
Definition absorbed (c : sha256_ctx) (msg : list Z) : Prop :=
  length (data c) = 64%nat
  /\ datalen c = (length msg - 64 * (length msg / 64))%nat
  /\ take (datalen c) (data c) = drop (64 * (length msg / 64)) msg
  /\ state c = Spec.compress_blocks H0 msg (length msg / 64)
  /\ bitlen c = u64 (512 * Z.of_nat (length msg / 64)).

Lemma compress_blocks_app s a b k j :
  length a = (64 * k)%nat ->
  Spec.compress_blocks s (a ++ b) (k + j) =
  Spec.compress_blocks (Spec.compress_blocks s a k) b j.
Proof.
  intros Ha. unfold Spec.compress_blocks. rewrite seq_app, foldl_app, Nat.add_0_l.
  rewrite (foldl_ext _ (fun s i => sha256_transform s (slice (64 * i) 64 a)) (seq 0 k)).
  2: { intros st i Hi%elem_of_seq. by rewrite slice_app_l by lia. }
  rewrite <- (Nat.add_0_r k) at 2. rewrite <- fmap_add_seq, foldl_fmap.
  apply foldl_ext. intros st i Hi.
  rewrite slice_app_r by lia. do 2 f_equal. lia.
Qed.

Lemma compress_blocks_one s b :
  length b = 64%nat -> Spec.compress_blocks s b 1 = sha256_transform s b.
Proof.
  intros Hb. unfold Spec.compress_blocks. cbn [seq foldl].
  rewrite Nat.mul_0_r, slice_0, firstn_all2 by lia. done.
Qed.

(** Blocks beyond the ones compressed do not matter. *)
Lemma compress_blocks_take s a m k :
  (64 * k <= m)%nat ->
  Spec.compress_blocks s (take m a) k = Spec.compress_blocks s a k.
Proof.
  intros Hm. apply foldl_ext. intros st i Hi%elem_of_seq. by rewrite slice_take by lia.
Qed.

Lemma absorbed_init c : length (data c) = 64%nat -> absorbed (sha256_init c) [].
Proof. intros Hc. unfold absorbed. simpl. done. Qed.

(** The block just completed is the next 64 bytes of the message. *)
Lemma absorbed_block c msg b q :
  absorbed c msg -> length msg = (64 * q + 63)%nat ->
  <[datalen c := b]> (data c) = drop (64 * q) (msg ++ [b]).
Proof.
  intros (Hd & Hn & Ht & _) Hq.
  assert ((length msg / 64)%nat = q) as Hq'.
  { symmetry. apply Nat.div_unique with (r := 63%nat); lia. }
  rewrite Hq' in Hn, Ht. assert (datalen c = 63%nat) as Hn' by lia. rewrite Hn' in *.
  rewrite insert_take_drop by lia. rewrite Ht, (drop_ge (data c)) by lia.
  by rewrite drop_app_le by lia.
Qed.

Lemma absorbed_byte c msg b :
  absorbed c msg -> absorbed (update_byte c b) (msg ++ [b]).
Proof.
  intros Habs. pose proof Habs as (Hd & Hn & Ht & Hs & Hl).
  pose proof (Nat.div_mod_eq (length msg) 64) as Hdm.
  pose proof (Nat.mod_upper_bound (length msg) 64 ltac:(lia)) as Hr.
  set (q := (length msg / 64)%nat) in *.
  unfold update_byte, absorbed. rewrite length_app. simpl (length [b]).
  destruct (Nat.eqb_spec (S (datalen c)) 64) as [Hfull|Hpart]; cbn [data datalen state bitlen].
  - assert ((length msg + 1) / 64 = S q)%nat as ->.
    { symmetry. apply Nat.div_unique with (r := 0%nat); lia. }
    rewrite (absorbed_block c msg b q Habs) by lia.
    split; [len|]. split; [lia|]. split; [by rewrite take_0, drop_ge by len|]. split.
    + rewrite Hs. replace (S q) with (q + 1)%nat by lia.
      rewrite <- (take_drop (64 * q) (msg ++ [b])) at 2.
      rewrite compress_blocks_app, compress_blocks_one by len.
      by rewrite take_app_le, compress_blocks_take by lia.
    + rewrite Hl, u64_add_l. f_equal. lia.
  - assert ((length msg + 1) / 64 = q)%nat as ->.
    { symmetry. apply Nat.div_unique with (r := S (datalen c)); lia. }
    split; [len|]. split; [lia|]. split; [|split; [|done]].
    + rewrite insert_take_drop by lia. rewrite Ht.
      rewrite take_app_ge by len. rewrite length_drop.
      replace (S (datalen c) - (length msg - 64 * q))%nat with 1%nat by lia.
      by rewrite drop_app_le by lia.
    + rewrite Hs, <- (compress_blocks_take _ (msg ++ [b]) (64 * q)) by len.
      by rewrite take_app_le, compress_blocks_take by lia.
Qed.

Lemma absorbed_update c msg bs :
  absorbed c msg -> absorbed (sha256_update c bs) (msg ++ bs).
Proof.
  revert c msg. induction bs as [|b bs IH]; intros c msg Hc; [by rewrite app_nil_r|].
  rewrite cons_middle, app_assoc.
  change (sha256_update c (b :: bs)) with (sha256_update (update_byte c b) bs).
  by apply IH, absorbed_byte.
Qed.

(** The length field: eight big-endian bytes at offset 56. *)
Lemma put_bitlen_spec bl d :
  length d = 64%nat -> put_bitlen bl d = take 56 d ++ be_bytes 8 bl.
Proof.
  intros Hd. unfold put_bitlen. cbn [seq foldl]. simpl Nat.sub.
  do 64 (destruct d as [|? d]; [discriminate Hd|]). destruct d; [|discriminate Hd].
  reflexivity.
Qed.

Lemma digest_bytes_spec s : digest_bytes s = s ≫= be_bytes 4.
Proof.
  unfold digest_bytes. induction s as [|w s IH]; [done|].
  rewrite !bind_cons, IH. done.
Qed.

(** The whole message after its full blocks: what the last one or two calls of
    the compression function see. *)
Lemma spec_tail msg q k tail :
  (64 * q <= length msg)%nat ->
  length (drop (64 * q) msg ++ tail) = (64 * k)%nat ->
  Spec.compress_blocks H0 (msg ++ tail) (length (msg ++ tail) / 64)
  = Spec.compress_blocks (Spec.compress_blocks H0 msg q) (drop (64 * q) msg ++ tail) k.
Proof.
  intros Hq Hk. assert (length (msg ++ tail) / 64 = q + k)%nat as ->.
  { symmetry. apply Nat.div_unique with (r := 0%nat); len. }
  rewrite <- (take_drop (64 * q) msg) at 1. rewrite <- app_assoc.
  by rewrite compress_blocks_app, compress_blocks_take by len.
Qed.

(** The padding is the tail of the current block, and one more block when the
    length field does not fit. *)
Lemma absorbed_final c msg : absorbed c msg -> sha256_final c = Spec.sha256_with sha256_transform msg.
Proof.
  intros (Hd & Hn & Ht & Hs & Hl).
  pose proof (Nat.div_mod_eq (length msg) 64) as Hdm.
  pose proof (Nat.mod_upper_bound (length msg) 64 ltac:(lia)) as Hr.
  set (q := (length msg / 64)%nat) in *.
  assert (be_bytes 8 (u64 (bitlen c + 8 * Z.of_nat (datalen c)))
          = be_bytes 8 (8 * Z.of_nat (length msg))) as Hbl.
  { rewrite Hl, u64_add_l, be_bytes_u64. f_equal. lia. }
  unfold sha256_final, Spec.sha256_with, Spec.padded, pad_block.
  destruct (Nat.ltb_spec (datalen c) 56) as [Hlt|Hge];
    rewrite digest_bytes_spec; apply (f_equal (fun s => s ≫= be_bytes 4));
    rewrite put_bitlen_spec, Hbl by len; unfold Spec.padding.
  - assert ((55 - Z.of_nat (length msg)) mod 64 = 55 - Z.of_nat (datalen c)) as ->.
    { symmetry. apply Z.mod_unique with (q := - Z.of_nat q); lia. }
    replace (Z.to_nat (55 - Z.of_nat (datalen c))) with (55 - datalen c)%nat by lia.
    rewrite (spec_tail msg q 1), compress_blocks_one, Hs by len.
    rewrite list_inserts_splice, Ht by len.
    rewrite app_assoc, take_app_le, take_ge by len. by rewrite <- app_assoc.
  - assert ((55 - Z.of_nat (length msg)) mod 64 = 119 - Z.of_nat (datalen c)) as ->.
    { symmetry. apply Z.mod_unique with (q := - Z.of_nat q - 1); lia. }
    replace (Z.to_nat (119 - Z.of_nat (datalen c))) with ((63 - datalen c) + 56)%nat by lia.
    rewrite (spec_tail msg q 2), Hs by len.
    rewrite (list_inserts_splice 0) by len. rewrite take_0, app_nil_l, take_app_le by len.
    rewrite replicate_add, <- !app_assoc, app_comm_cons, app_assoc.
    rewrite (compress_blocks_app _ _ _ 1 1), !compress_blocks_one by len.
    rewrite take_ge, (list_inserts_splice (datalen c)), Ht by len.
    by rewrite (drop_ge (data c)), app_nil_r by len.
Qed.

(** On bytes the code's compression function can be replaced by FIPS's. *)
Lemma compress_blocks_fips s p n :
  words s -> bytes p -> (64 * n <= length p)%nat ->
  Spec.compress_blocks s p n = Spec.compress_blocks_with Spec.compress s p n.
Proof.
  intros Hs Hp Hn. unfold Spec.compress_blocks_with.
  assert (forall l s, words s -> (forall i, i ∈ l -> i < n)%nat ->
    foldl (fun s i => sha256_transform s (slice (64 * i) 64 p)) s l
    = foldl (fun s i => Spec.compress s (slice (64 * i) 64 p)) s l) as H.
  { clear s Hs. induction l as [|i l IH]; intros s Hs Hl; [done|]. cbn [foldl].
    assert (i < n)%nat by (apply Hl; set_solver).
    edestruct (transform_spec s (slice (64 * i) 64 p)) as [<- Hw]; [done| | |].
    - by apply Forall_take, Forall_drop.
    - apply length_slice. lia.
    - apply IH; [done|]. intros j Hj. apply Hl. set_solver. }
  apply H; [done|]. intros i Hi%elem_of_seq. lia.
Qed.

Lemma words_H0 : words H0.
Proof. repeat constructor; by vm_compute. Qed.

Lemma bytes_padded msg : bytes msg -> bytes (Spec.padded msg).
Proof.
  intros Hm. unfold Spec.padded, Spec.padding. apply Forall_app. split; [done|].
  constructor; [done|]. apply Forall_app. split; [by apply Forall_replicate|].
  apply bytes_be_bytes.
Qed.

Lemma sha256_with_fips msg :
  bytes msg -> Spec.sha256_with sha256_transform msg = Spec.sha256 msg.
Proof.
  intros Hm. unfold Spec.sha256, Spec.sha256_with. f_equal.
  apply compress_blocks_fips; [apply words_H0|by apply bytes_padded|].
  apply Nat.Div0.mul_div_le.
Qed.

(** Any split of the message into updates, from any stack contents. *)
Lemma sha256_chunks junk (chunks : list (list Z)) :
  length (data junk) = 64%nat ->
  sha256_final (foldl sha256_update (sha256_init junk) chunks)
  = Spec.sha256_with sha256_transform (concat chunks).
Proof.
  intros Hj. apply absorbed_final.
  assert (forall cs c msg, absorbed c msg ->
    absorbed (foldl sha256_update c cs) (msg ++ concat cs)) as H.
  { induction cs as [|b cs IH]; intros c msg Hc; simpl; [by rewrite app_nil_r|].
    rewrite app_assoc. by apply IH, absorbed_update. }
  apply (H chunks _ []). by apply absorbed_init.
Qed.

Lemma sha256_one msg : sha256 msg = Spec.sha256_with sha256_transform msg.
Proof.
  pose proof (sha256_chunks blank [msg]) as H. cbn [concat foldl] in H.
  rewrite app_nil_r in H. by apply H.
Qed.
Lemma sha256_fips msg : bytes msg -> sha256 msg = Spec.sha256 msg.
Proof. intros. rewrite sha256_one. by apply sha256_with_fips. Qed.

Lemma tagged_hash_concat tag payload :
  tagged_hash tag payload = sha256 (sha256 tag ++ sha256 tag ++ payload).
Proof.
  etransitivity; [|symmetry; apply sha256_one].
  unfold tagged_hash. generalize (sha256 tag). intros th.
  pose proof (sha256_chunks blank [th; th; payload]) as H. cbn [concat foldl] in H.
  rewrite app_nil_r in H. by apply H.
Qed.

(** Sizes and ranges of a digest. *)
Lemma length_digest_bytes s : length (digest_bytes s) = (4 * length s)%nat.
Proof.
  induction s as [|w s IH]; [done|]. unfold digest_bytes in *.
  rewrite bind_cons. lens. lia.
Qed.
Lemma bytes_digest_bytes s : bytes (digest_bytes s).
Proof.
  induction s as [|w s IH]; [constructor|]. unfold digest_bytes. rewrite bind_cons.
  apply Forall_app. split; [|exact IH]. repeat constructor; apply u8_word.
Qed.

Lemma length_sha256_final c : length (sha256_final c) = 32%nat.
Proof.
  unfold sha256_final. destruct (pad_block c) as [d s].
  by rewrite length_digest_bytes, length_transform.
Qed.
Lemma bytes_sha256_final c : bytes (sha256_final c).
Proof. unfold sha256_final. destruct (pad_block c) as [d s]. apply bytes_digest_bytes. Qed.

Lemma length_sha256 msg : length (sha256 msg) = 32%nat.
Proof. apply length_sha256_final. Qed.
Lemma bytes_sha256 msg : bytes (sha256 msg).
Proof. apply bytes_sha256_final. Qed.
Lemma length_tagged_hash tag payload : length (tagged_hash tag payload) = 32%nat.
Proof. apply length_sha256_final. Qed.
Lemma bytes_tagged_hash tag payload : bytes (tagged_hash tag payload).
Proof. apply bytes_sha256_final. Qed.
Lemma length_sha256d msg : length (sha256d msg) = 32%nat.
Proof. apply length_sha256_final. Qed.
Lemma bytes_sha256d msg : bytes (sha256d msg).
Proof. apply bytes_sha256_final. Qed.

(** ** Properties *)

(** C31: however a message is cut into [sha256_update] calls, and whatever the
    context's buffer held before [sha256_init], [sha256_final] returns the
    FIPS 180-4 digest of the whole message: the 56-byte padding boundary, the
    stale bytes of the reused buffer and the wrapping 32-bit arithmetic of the
    macros are all covered. *)
Theorem sha256_streaming_is_fips (junk : sha256_ctx) (chunks : list (list Z)) :
  length (data junk) = 64%nat -> Forall bytes chunks ->
  sha256_final (foldl sha256_update (sha256_init junk) chunks) = Spec.sha256 (concat chunks).
Proof.
  intros Hj Hc. rewrite sha256_chunks by done. apply sha256_with_fips.
  by apply Forall_concat.
Qed.

Lemma sha256_streaming_is_fips_witness :
  let junk := Ctx (replicate 64 0xaa) 7 99 [] in
  sha256_final (foldl sha256_update (sha256_init junk) [str "a"; []; str "bc"])
  = Spec.sha256 (str "abc").
Proof.
  apply (sha256_streaming_is_fips (Ctx (replicate 64 0xaa) 7 99 []) [str "a"; []; str "bc"]).
  - reflexivity.
  - repeat constructor; by vm_compute.
Defined.

(** [tagged_hash] feeds the tag's digest twice and then the payload into
    one context; that is SHA-256 of the concatenation
    [SHA256(tag) || SHA256(tag) || payload] of the header comment. *)
Theorem tagged_hash_is_tagged_sha256 (tag payload : list Z) :
  tagged_hash tag payload = sha256 (sha256 tag ++ sha256 tag ++ payload).
Proof. apply tagged_hash_concat. Qed.
End Sha256.

(** Conversion never has to look inside a hash. *)
#[global] Opaque Sha256.sha256 Sha256.tagged_hash Sha256.sha256d Sha256.Spec.sha256.
#[export] Hint Rewrite Sha256.length_sha256 Sha256.length_tagged_hash
  Sha256.length_sha256d : lens.
#[export] Hint Resolve Sha256.bytes_sha256 Sha256.bytes_tagged_hash
  Sha256.bytes_sha256d : osprey.
