(* ===== verification/Blake2b.v ===== *)
(** * BLAKE2b without a key (src/miner/blake2b.c)

    [compress] and [blake2b_nokey] as the C code has them; [Spec] is the
    reference pseudo-code of RFC 7693 (sections 3.1 to 3.3) on the padded
    sequence of blocks, which [blake2b_nokey] is proved to compute. *)
From S2P Require Import Prelude.

Module Blake2b.
Local Open Scope word_scope.

Definition IV : list Z := [
  0x6a09e667f3bcc908; 0xbb67ae8584caa73b; 0x3c6ef372fe94f82b; 0xa54ff53a5f1d36f1;
  0x510e527fade682d1; 0x9b05688c2b3e6c1f; 0x1f83d9abfb41bd6b; 0x5be0cd19137e2179 ].

Definition SIGMA : list (list nat) := ([
  [ 0; 1; 2; 3; 4; 5; 6; 7; 8; 9;10;11;12;13;14;15];
  [14;10; 4; 8; 9;15;13; 6; 1;12; 0; 2;11; 7; 5; 3];
  [11; 8;12; 0; 5; 2;15;13;10;14; 3; 6; 7; 1; 9; 4];
  [ 7; 9; 3; 1;13;12;11;14; 2; 6; 5;10; 4; 0;15; 8];
  [ 9; 0; 5; 7; 2; 4;10;15;14; 1;11;12; 6; 8; 3;13];
  [ 2;12; 6;10; 0;11; 8; 3; 4;13; 7; 5;15;14; 1; 9];
  [12; 5; 1;15;14;13; 4;10; 0; 7; 6; 3; 9; 2; 8;11];
  [13;11; 7;14;12; 1; 3; 9; 5; 0;15; 4; 8; 6; 2;10];
  [ 6;15;14; 9;11; 3; 0; 8;12; 2;13; 7; 1; 4;10; 5];
  [10; 2; 8; 4; 7; 6; 1; 5;15;11; 9;14; 3;12;13; 0];
  [ 0; 1; 2; 3; 4; 5; 6; 7; 8; 9;10;11;12;13;14;15];
  [14;10; 4; 8; 9;15;13; 6; 1;12; 0; 2;11; 7; 5; 3]])%nat.

Definition rotr64 (x n : Z) : Z := (x ≫ n) .| u64 (x ≪ (64 - n)).

(** [for (i = 7; i >= 0; --i) v = (v << 8) | p[i]]. *)
Definition load64 (p : list Z) : Z :=
  foldl (fun v i => u64 (v ≪ 8) .| p !!! i) 0 (rev (seq 0 8)).

(** The macro [G(r, i, a, b, c, d)] on the working vector. *)
Definition G (r i a b c d : nat) (m v : list Z) : list Z :=
  let s := SIGMA !!! r in
  let v := <[a := v !!! a +64 v !!! b +64 m !!! (s !!! (2 * i)%nat)]> v in
  let v := <[d := rotr64 (v !!! d ^^ v !!! a) 32]> v in
  let v := <[c := v !!! c +64 v !!! d]> v in
  let v := <[b := rotr64 (v !!! b ^^ v !!! c) 24]> v in
  let v := <[a := v !!! a +64 v !!! b +64 m !!! (s !!! (2 * i + 1)%nat)]> v in
  let v := <[d := rotr64 (v !!! d ^^ v !!! a) 16]> v in
  let v := <[c := v !!! c +64 v !!! d]> v in
  <[b := rotr64 (v !!! b ^^ v !!! c) 63]> v.

(** One of the twelve rounds: four columns, then four diagonals. *)
Definition round (m v : list Z) (r : nat) : list Z :=
  let v := G r 0 0 4 8 12 m v in
  let v := G r 1 1 5 9 13 m v in
  let v := G r 2 2 6 10 14 m v in
  let v := G r 3 3 7 11 15 m v in
  let v := G r 4 0 5 10 15 m v in
  let v := G r 5 1 6 11 12 m v in
  let v := G r 6 2 7 8 13 m v in
  G r 7 3 4 9 14 m v.

Definition compress (h block : list Z) (t : Z) (last : bool) : list Z :=
  let m := (fun i => load64 (slice (8 * i) 8 block)) <$> seq 0 16 in
  let v := h ++ IV in
  let v := <[12%nat := v !!! 12%nat ^^ t]> v in
  let v := if last then <[14%nat := u64 (Z.lnot (v !!! 14%nat))]> v else v in
  let v := foldl (round m) v (seq 0 12) in
  (fun i => h !!! i ^^ (v !!! i ^^ v !!! (i + 8)%nat)) <$> seq 0 8.

(** [while (inlen - off > 128) { counter += 128; compress(h, in + off, counter, 0);
    off += 128; }], with the rest of the input in place of [in + off]. The loop
    is run with fuel; [None] is running out of it. *)
Fixpoint full_blocks (fuel : nat) (h rest : list Z) (counter : Z) : option (list Z * list Z * Z) :=
  if (128 <? length rest)%nat then
    match fuel with
    | O => None
    | S fuel =>
      let counter := u64 (counter + 128) in
      full_blocks fuel (compress h (take 128 rest) counter false) (drop 128 rest) counter
    end
  else Some (h, rest, counter).

(** [h[i] = IV[i]; h[0] ^= 0x01010000 ^ outlen]. *)
Definition init_h (outlen : nat) : list Z :=
  <[0%nat := IV !!! 0%nat ^^ (0x01010000 ^^ Z.of_nat outlen)]> IV.

Definition finish (h rest : list Z) (counter : Z) (outlen : nat) : list Z :=
  let block := list_inserts 0 rest (replicate 128 0) in
  let counter := u64 (counter + Z.of_nat (length rest)) in
  let h := compress h block counter true in
  (fun i => u8 (h !!! (i / 8)%nat ≫ (8 * Z.of_nat (i mod 8)))) <$> seq 0 outlen.

Definition blake2b_nokey (input : list Z) (outlen : nat) : list Z :=
  match full_blocks (length input) (init_h outlen) input 0 with
  | Some (h, rest, counter) => finish h rest counter outlen
  | None => []
  end.

(** ** RFC 7693 *)
Module Spec.
(** Section 2.3: rotation of a 64-bit word. *)
Definition rotr (n x : Z) : Z := (x / 2 ^ n + x * 2 ^ (64 - n)) mod 2 ^ 64.
Definition add (x y : Z) : Z := (x + y) mod 2 ^ 64.

(** Section 3.1: the mixing function on four words and two message words. *)
Definition mix (a b c d x y : Z) : Z * Z * Z * Z :=
  let a := add (add a b) x in
  let d := rotr 32 (Z.lxor d a) in
  let c := add c d in
  let b := rotr 24 (Z.lxor b c) in
  let a := add (add a b) y in
  let d := rotr 16 (Z.lxor d a) in
  let c := add c d in
  let b := rotr 63 (Z.lxor b c) in
  (a, b, c, d).

Definition mix_at (a b c d : nat) (x y : Z) (v : list Z) : list Z :=
  let '(va, vb, vc, vd) := mix (v !!! a) (v !!! b) (v !!! c) (v !!! d) x y in
  <[a := va]> (<[b := vb]> (<[c := vc]> (<[d := vd]> v))).

(** Section 3.2: the indices of the eight mixing steps of a round. *)
Definition lanes : list (nat * nat * nat * nat) := ([
  (0, 4, 8, 12); (1, 5, 9, 13); (2, 6, 10, 14); (3, 7, 11, 15);
  (0, 5, 10, 15); (1, 6, 11, 12); (2, 7, 8, 13); (3, 4, 9, 14)])%nat.

(** Round [i] uses row [i mod 10] of SIGMA. *)
Definition F_round (m v : list Z) (i : nat) : list Z :=
  let s := SIGMA !!! (i mod 10)%nat in
  foldl (fun v '(k, (a, b, c, d)) =>
           mix_at a b c d (m !!! (s !!! (2 * k)%nat)) (m !!! (s !!! (2 * k + 1)%nat)) v)
        v (zip (seq 0 8) lanes).

(** The compression function [F(h, m, t, f)]; [t] is the 128-bit counter. *)
Definition F (h d : list Z) (t : Z) (f : bool) : list Z :=
  let m := (fun i => le_val (slice (8 * i) 8 d)) <$> seq 0 16 in
  let v := h ++ IV in
  let v := <[12%nat := Z.lxor (v !!! 12%nat) (t mod 2 ^ 64)]> v in
  let v := <[13%nat := Z.lxor (v !!! 13%nat) (t / 2 ^ 64)]> v in
  let v := if f then <[14%nat := Z.lxor (v !!! 14%nat) (2 ^ 64 - 1)]> v else v in
  let v := foldl (F_round m) v (seq 0 12) in
  zip_with Z.lxor (zip_with Z.lxor h (take 8 v)) (drop 8 v).

(** Section 3.3: [dd] zero-padded blocks, at least one. *)
Definition block_count (ll : nat) : nat := Nat.max 1 ((ll + 127) / 128).
Definition block (msg : list Z) (i : nat) : list Z :=
  slice (128 * i) 128 (msg ++ replicate 128 0).

Definition blake2b (msg : list Z) (nn : nat) : list Z :=
  let ll := length msg in
  let dd := block_count ll in
  let h := <[0%nat := Z.lxor (IV !!! 0%nat) (0x01010000 + Z.of_nat nn)]> IV in
  let h := foldl (fun h i => F h (block msg i) (128 * (Z.of_nat i + 1)) false)
             h (seq 0 (dd - 1)) in
  let h := F h (block msg (dd - 1)) (Z.of_nat ll) true in
  take nn (h ≫= le_bytes 8).
End Spec.

Abbreviation words := (Forall (is_word 64)).

(** ** The mixing function *)
Lemma rotr64_spec x n : 0 < n < 64 -> is_word 64 x -> rotr64 x n = Spec.rotr n x.
Proof. intros. unfold rotr64. rewrite u64_mod. by apply rotate_spec. Qed.
Lemma rotr64_word x n : 0 <= n -> is_word 64 x -> is_word 64 (rotr64 x n).
Proof. intros. apply is_word_lor; [done| |apply u64_word]. by apply is_word_shiftr. Qed.

Lemma rotr_word n x : is_word 64 (Spec.rotr n x).
Proof. by apply Z.mod_pos_bound. Qed.

#[local] Ltac word := repeat first
  [ assumption | lia | apply u64_word | apply is_word_lxor | apply rotr64_word | apply rotr_word
  | apply words_lookup_total; [lia|] ].

(** [G] on values rather than on positions of the working vector. *)
Definition mix_words (a b c d x y : Z) : Z * Z * Z * Z :=
  let a := a +64 b +64 x in
  let d := rotr64 (d ^^ a) 32 in
  let c := c +64 d in
  let b := rotr64 (b ^^ c) 24 in
  let a := a +64 b +64 y in
  let d := rotr64 (d ^^ a) 16 in
  let c := c +64 d in
  let b := rotr64 (b ^^ c) 63 in
  (a, b, c, d).

Lemma mix_words_spec a b c d x y :
  is_word 64 a -> is_word 64 b -> is_word 64 c -> is_word 64 d ->
  mix_words a b c d x y = Spec.mix a b c d x y.
Proof.
  intros. unfold mix_words, Spec.mix, Spec.add.
  rewrite !rotr64_spec by (lia || word). by rewrite !u64_mod.
Qed.
Lemma mix_words_words a b c d x y :
  is_word 64 b -> is_word 64 c -> is_word 64 d ->
  let '(a', b', c', d') := mix_words a b c d x y in words [a'; b'; c'; d'].
Proof. intros. unfold mix_words. repeat (constructor; [word|]). constructor. Qed.

(** The eight macro calls of a round are the eight lanes. *)
Definition G_lane (r : nat) (m v : list Z) (l : nat * (nat * nat * nat * nat)) : list Z :=
  let '(k, (a, b, c, d)) := l in G r k a b c d m v.
Lemma round_lanes m v r :
  round m v r = foldl (G_lane r m) v (zip (seq 0 8) Spec.lanes).
Proof. unfold Spec.lanes. cbn [seq zip zip_with foldl G_lane]. reflexivity. Qed.

Definition set4 (a b c d : nat) (w : Z * Z * Z * Z) (v : list Z) : list Z :=
  let '(va, vb, vc, vd) := w in <[a := va]> (<[b := vb]> (<[c := vc]> (<[d := vd]> v))).

Lemma insert_twice (a b c d : nat) (a1 a2 b1 b2 c1 c2 d1 d2 : Z) (v : list Z) :
  a <> b /\ a <> c /\ a <> d /\ b <> c /\ b <> d /\ c <> d ->
  <[b:=b2]> (<[c:=c2]> (<[d:=d2]> (<[a:=a2]>
    (<[b:=b1]> (<[c:=c1]> (<[d:=d1]> (<[a:=a1]> v)))))))
  = <[a:=a2]> (<[b:=b2]> (<[c:=c2]> (<[d:=d2]> v))).
Proof.
  intros (?&?&?&?&?&?). apply list_eq. intros i.
  rewrite !list_lookup_insert, !length_insert.
  repeat case_decide; try done; intuition congruence.
Qed.

Lemma G_spec r k a b c d m v :
  a <> b /\ a <> c /\ a <> d /\ b <> c /\ b <> d /\ c <> d -> (a < length v)%nat -> (b < length v)%nat ->
  (c < length v)%nat -> (d < length v)%nat ->
  G r k a b c d m v =
  set4 a b c d (mix_words (v !!! a) (v !!! b) (v !!! c) (v !!! d)
      (m !!! ((SIGMA !!! r) !!! (2 * k)%nat)) (m !!! ((SIGMA !!! r) !!! (2 * k + 1)%nat))) v.
Proof.
  intros (?&?&?&?&?&?) Ha Hb Hc Hd.
  unfold G, set4, mix_words. generalize (SIGMA !!! r). intros s.
  rewrite !lookup_total_insert_eqb by len. rewrite !Nat.eqb_refl.
  rewrite !(proj2 (Nat.eqb_neq _ _)) by congruence.
  by apply insert_twice.
Qed.

(** One lane: the macro is the reference's mixing step, and keeps words. *)
Lemma lane_spec r k a b c d m v :
  a <> b /\ a <> c /\ a <> d /\ b <> c /\ b <> d /\ c <> d ->
  (a < 16)%nat /\ (b < 16)%nat /\ (c < 16)%nat /\ (d < 16)%nat ->
  words v -> length v = 16%nat ->
  G r k a b c d m v =
    Spec.mix_at a b c d (m !!! ((SIGMA !!! r) !!! (2 * k)%nat))
      (m !!! ((SIGMA !!! r) !!! (2 * k + 1)%nat)) v
  /\ words (G r k a b c d m v) /\ length (G r k a b c d m v) = 16%nat.
Proof.
  intros Hd (?&?&?&?) Hv Hl. rewrite G_spec by (done || lia).
  generalize (m !!! ((SIGMA !!! r) !!! (2 * k)%nat)).
  generalize (m !!! ((SIGMA !!! r) !!! (2 * k + 1)%nat)). intros y x.
  unfold Spec.mix_at. rewrite <- mix_words_spec by word.
  pose proof (mix_words_words (v !!! a) (v !!! b) (v !!! c) (v !!! d) x y) as Hw.
  destruct (mix_words _ _ _ _ _ _) as [[[va vb] vc] vd].
  split; [done|]. split.
  - assert (words [va; vb; vc; vd]) as Hw' by (apply Hw; word).
    decompose_Forall_hyps. unfold set4. by repeat apply Forall_insert.
  - unfold set4. by rewrite !length_insert.
Qed.

Lemma lanes_ok :
  Forall (fun l : nat * (nat * nat * nat * nat) =>
    let '(k, (a, b, c, d)) := l in
    (a <> b /\ a <> c /\ a <> d /\ b <> c /\ b <> d /\ c <> d)
    /\ (a < 16)%nat /\ (b < 16)%nat /\ (c < 16)%nat /\ (d < 16)%nat)
    (zip (seq 0 8) Spec.lanes).
Proof.
  unfold Spec.lanes. cbn [seq zip zip_with]. repeat (constructor; [lia|]). constructor.
Qed.

(** The lanes of a round as the reference has them. *)
Lemma b2round_spec m v r :
  words v -> length v = 16%nat -> (r < 12)%nat ->
  round m v r = Spec.F_round m v r /\ words (round m v r) /\ length (round m v r) = 16%nat.
Proof.
  intros Hv Hl Hr. rewrite round_lanes. unfold Spec.F_round.
  assert (SIGMA !!! (r mod 10)%nat = SIGMA !!! r) as ->.
  { do 12 (destruct r as [|r]; [reflexivity|]). lia. }
  revert v Hv Hl. induction lanes_ok as [|[k [[[a b] c] d]] ls [Hd Hlt] _ IH];
    intros v Hv Hl; [done|]. cbn [foldl G_lane].
  destruct (lane_spec r k a b c d m v Hd Hlt Hv Hl) as (<- & Hw & Hl').
  by apply IH.
Qed.

Lemma rounds_spec m v :
  words v -> length v = 16%nat ->
  foldl (round m) v (seq 0 12) = foldl (Spec.F_round m) v (seq 0 12)
  /\ words (foldl (round m) v (seq 0 12)) /\ length (foldl (round m) v (seq 0 12)) = 16%nat.
Proof.
  assert (Forall (fun r => r < 12)%nat (seq 0 12)) as Hr.
  { apply Forall_seq. lia. }
  revert v. induction Hr as [|r rs Hr _ IH]; intros v Hv Hl; [done|]. cbn [foldl].
  destruct (b2round_spec m v r Hv Hl Hr) as (<- & Hw & Hl'). by apply IH.
Qed.

(** ** The compression function *)
Lemma length_IV : length IV = 8%nat. Proof. reflexivity. Qed.
Lemma words_IV : words IV.
Proof. repeat (constructor; [by vm_compute|]). constructor. Qed.

(** [~v[14]] is the exclusive or with all ones of the reference. *)
Lemma lnot_word x : is_word 64 x -> u64 (Z.lnot x) = Z.lxor x (2 ^ 64 - 1).
Proof.
  intros [H0 Hx]%is_word_testbit; [|lia]. unfold u64.
  change 0xffffffffffffffff with (Z.ones 64). change (2 ^ 64 - 1) with (Z.ones 64).
  apply Z.bits_inj'. intros i Hi. rewrite Z.land_spec, Z.lxor_spec, Z.lnot_spec by lia.
  rewrite Z.testbit_ones_nonneg by lia.
  destruct (Z.ltb_spec i 64); [|by rewrite Hx by lia].
  by destruct (Z.testbit x i).
Qed.

Lemma feed_forward h v :
  length h = 8%nat -> length v = 16%nat ->
  (fun i => h !!! i ^^ (v !!! i ^^ v !!! (i + 8)%nat)) <$> seq 0 8
  = zip_with Z.lxor (zip_with Z.lxor h (take 8 v)) (drop 8 v).
Proof.
  intros Hh Hv.
  do 8 (destruct h as [|? h]; [discriminate Hh|]). destruct h; [|discriminate Hh].
  do 16 (destruct v as [|? v]; [discriminate Hv|]). destruct v; [|discriminate Hv].
  cbn -[Z.lxor]. by rewrite !Z.lxor_assoc.
Qed.

Lemma compress_spec h d t f :
  words h -> length h = 8%nat -> bytes d -> length d = 128%nat -> is_word 64 t ->
  compress h d t f = Spec.F h d t f
  /\ words (compress h d t f) /\ length (compress h d t f) = 8%nat.
Proof.
  intros Hh Hlh Hd Hld Ht. unfold compress, Spec.F.
  assert ((fun i => load64 (slice (8 * i) 8 d)) <$> seq 0 16
          = (fun i => le_val (slice (8 * i) 8 d)) <$> seq 0 16) as ->.
  { apply list_fmap_ext. intros j i Hi. apply lookup_seq in Hi as [-> Hj].
    unfold load64. assert (length (slice (8 * (0 + j)) 8 d) = 8%nat) as Hs
      by (apply length_slice; lia).
    rewrite load_le_spec by (first [by apply Forall_take, Forall_drop | lia]).
    by rewrite take_ge by lia. }
  set (m := _ <$> seq 0 16).
  rewrite (Z.mod_small t), (Z.div_small t), Z.lxor_0_r by exact Ht.
  set (v0 := <[12%nat := _]> (h ++ IV)).
  assert (length v0 = 16%nat) as Hl0 by (unfold v0; rewrite length_insert, length_app, Hlh; done).
  assert (words v0) as Hw0.
  { apply Forall_insert; [apply Forall_app; split; [done|apply words_IV]|]. word.
    apply Forall_app. split; [done|apply words_IV]. }
  rewrite (list_insert_id v0 13) by (apply list_lookup_lookup_total_lt; lia).
  rewrite lnot_word by word.
  set (v1 := if f then _ else v0).
  assert (length v1 = 16%nat /\ words v1) as [Hl1 Hw1].
  { unfold v1. destruct f; [|done]. split; [by rewrite length_insert|].
    apply Forall_insert; [done|]. apply is_word_lxor; [done|word|by vm_compute]. }
  destruct (rounds_spec m v1 Hw1 Hl1) as (<- & Hw & Hl).
  generalize dependent (foldl (round m) v1 (seq 0 12)). intros v Hw Hl.
  split; [|split].
  - by apply feed_forward.
  - apply Forall_fmap, Forall_true. intros i. simpl. word.
  - by rewrite length_fmap, length_seq.
Qed.

#[global] Opaque compress.

(** ** The block loop *)

(** The chaining value after [n] full blocks. *)
Definition chain (msg : list Z) (h : list Z) (n : nat) : list Z :=
  foldl (fun h i => compress h (Spec.block msg i) (128 * (Z.of_nat i + 1)) false) h (seq 0 n).
Lemma chain_S msg h n :
  chain msg h (S n) =
  compress (chain msg h n) (Spec.block msg n) (128 * (Z.of_nat n + 1)) false.
Proof. unfold chain. by rewrite seq_S, foldl_app. Qed.

Lemma block_full msg i :
  (128 * i + 128 <= length msg)%nat -> Spec.block msg i = take 128 (drop (128 * i) msg).
Proof. intros. unfold Spec.block. by rewrite slice_app_l by lia. Qed.

Lemma block_last msg i :
  (128 * i <= length msg <= 128 * i + 128)%nat ->
  Spec.block msg i = list_inserts 0 (drop (128 * i) msg) (replicate 128 0).
Proof.
  intros. rewrite list_inserts_splice by len. rewrite take_0, app_nil_l, Nat.add_0_l.
  unfold Spec.block, slice. rewrite drop_app_le, take_app, drop_replicate by lia.
  f_equal; [rewrite take_ge by len; done|]. rewrite take_replicate. f_equal. len.
Qed.

Definition last_block (msg : list Z) : nat := (Spec.block_count (length msg) - 1)%nat.

Lemma last_block_spec msg :
  let n := last_block msg in
  (128 * n <= length msg <= 128 * n + 128)%nat /\ (n <= length msg)%nat
  /\ (0 < n -> 128 * n < length msg)%nat.
Proof.
  unfold last_block, Spec.block_count. cbv zeta.
  pose proof (Nat.div_mod_eq (length msg + 127) 128).
  pose proof (Nat.mod_upper_bound (length msg + 127) 128 ltac:(lia)). lia.
Qed.

(** The loop leaves after the full blocks, whatever the fuel above their number. *)
Lemma full_blocks_spec msg h fuel i :
  Z.of_nat (length msg) < 2 ^ 64 -> (i <= last_block msg)%nat ->
  (last_block msg - i <= fuel)%nat ->
  full_blocks fuel (chain msg h i) (drop (128 * i) msg) (128 * Z.of_nat i)
  = Some (chain msg h (last_block msg), drop (128 * last_block msg) msg,
          128 * Z.of_nat (last_block msg)).
Proof.
  intros Hmsg. destruct (last_block_spec msg) as (Hn & _ & Hn').
  revert i. induction fuel as [|fuel IH]; intros i Hi Hf; cbn [full_blocks];
    rewrite length_drop;
    destruct (Nat.ltb_spec 128 (length msg - 128 * i)) as [Hlt|Hge]; try lia;
    try (replace i with (last_block msg) by lia; done).
  rewrite u64_small by (unfold is_word; lia).
  replace (128 * Z.of_nat i + 128) with (128 * (Z.of_nat i + 1)) by lia.
  rewrite <- block_full by lia. rewrite <- chain_S, drop_drop.
  replace (128 * i + 128)%nat with (128 * S i)%nat by lia.
  replace (128 * (Z.of_nat i + 1)) with (128 * Z.of_nat (S i)) by lia.
  apply IH; lia.
Qed.

(** The code always leaves the loop: [blake2b_nokey] is the chain and its end. *)
Lemma blake2b_nokey_chain msg outlen :
  Z.of_nat (length msg) < 2 ^ 64 ->
  blake2b_nokey msg outlen =
  finish (chain msg (init_h outlen) (last_block msg)) (drop (128 * last_block msg) msg)
    (128 * Z.of_nat (last_block msg)) outlen.
Proof.
  intros Hmsg. destruct (last_block_spec msg) as (_ & Hl & _).
  pose proof (full_blocks_spec msg (init_h outlen) (length msg) 0 Hmsg) as H.
  rewrite Nat.mul_0_r, drop_0 in H.
  change (chain msg (init_h outlen) 0) with (init_h outlen) in H.
  change (128 * Z.of_nat 0) with 0 in H. unfold blake2b_nokey.
  by rewrite H by lia.
Qed.

(** ** Words and bytes throughout *)
Lemma length_init_h outlen : length (init_h outlen) = 8%nat.
Proof. unfold init_h. by rewrite length_insert. Qed.
Lemma words_init_h outlen : (outlen <= 64)%nat -> words (init_h outlen).
Proof.
  intros H. apply Forall_insert; [apply words_IV|].
  repeat apply is_word_lxor; try done; unfold is_word; lia.
Qed.

Lemma block_bytes msg i :
  bytes msg -> (128 * i <= length msg)%nat ->
  bytes (Spec.block msg i) /\ length (Spec.block msg i) = 128%nat.
Proof.
  intros Hb Hi. split.
  - apply Forall_take, Forall_drop, Forall_app. split; [done|]. by apply Forall_replicate.
  - apply length_slice. len.
Qed.

Lemma chain_spec msg h n :
  bytes msg -> words h -> length h = 8%nat ->
  Z.of_nat (length msg) < 2 ^ 64 -> (128 * n <= length msg)%nat ->
  chain msg h n
  = foldl (fun h i => Spec.F h (Spec.block msg i) (128 * (Z.of_nat i + 1)) false) h (seq 0 n)
  /\ words (chain msg h n) /\ length (chain msg h n) = 8%nat.
Proof.
  intros Hb Hh Hl Hm. induction n as [|n IH]; intros Hn; [done|].
  destruct IH as (He & Hw & Hlen); [lia|]. rewrite chain_S, seq_S, foldl_app, <- He.
  destruct (block_bytes msg n Hb) as [Hbb Hbl]; [lia|].
  apply compress_spec; try done. unfold is_word. lia.
Qed.

(** The output loop writes the first [outlen] little-endian bytes of the state. *)
Lemma output_spec h outlen :
  length h = 8%nat -> (outlen <= 64)%nat ->
  (fun i => u8 (h !!! (i / 8)%nat ≫ (8 * Z.of_nat (i mod 8)))) <$> seq 0 outlen
  = take outlen (h ≫= le_bytes 8).
Proof.
  intros Hh Ho. replace (seq 0 outlen) with (take outlen (seq 0 64)).
  2: { rewrite take_seq. f_equal. lia. }
  rewrite fmap_take. f_equal.
  do 8 (destruct h as [|? h]; [discriminate Hh|]). destruct h; [|discriminate Hh].
  reflexivity.
Qed.

Lemma init_h_spec nn :
  (nn <= 64)%nat ->
  init_h nn = <[0%nat := Z.lxor (IV !!! 0%nat) (0x01010000 + Z.of_nat nn)]> IV.
Proof.
  intros H. unfold init_h. do 2 f_equal. symmetry.
  do 65 (destruct nn as [|nn]; [reflexivity|]). lia.
Qed.

Lemma blake2b_nokey_rfc msg outlen :
  bytes msg -> Z.of_nat (length msg) < 2 ^ 64 -> (1 <= outlen <= 64)%nat ->
  blake2b_nokey msg outlen = Spec.blake2b msg outlen.
Proof.
  intros Hb Hm Ho. rewrite blake2b_nokey_chain by done.
  destruct (last_block_spec msg) as (Hlast & _ & _).
  unfold finish, Spec.blake2b. fold (last_block msg). rewrite <- init_h_spec by lia.
  destruct (chain_spec msg (init_h outlen) (last_block msg)) as (He & Hw & Hl);
    try done; [by apply words_init_h; lia|lia|].
  rewrite <- He, <- block_last by lia.
  rewrite length_drop, u64_small by (unfold is_word; lia).
  replace (128 * Z.of_nat (last_block msg) + Z.of_nat (length msg - 128 * last_block msg))
    with (Z.of_nat (length msg)) by lia.
  destruct (block_bytes msg (last_block msg) Hb) as [Hbb Hbl]; [lia|].
  destruct (compress_spec (chain msg (init_h outlen) (last_block msg))
    (Spec.block msg (last_block msg)) (Z.of_nat (length msg)) true) as (<- & _ & Hc);
    try done; [unfold is_word; lia|].
  apply output_spec; [done|lia].
Qed.

(** ** Sizes *)
Lemma length_finish h rest c outlen : length (finish h rest c outlen) = outlen.
Proof. unfold finish. by rewrite length_fmap, length_seq. Qed.
Lemma bytes_finish h rest c outlen : bytes (finish h rest c outlen).
Proof. unfold finish. apply Forall_fmap, Forall_true. intros i. apply u8_word. Qed.
Lemma length_blake2b_nokey msg outlen :
  Z.of_nat (length msg) < 2 ^ 64 -> length (blake2b_nokey msg outlen) = outlen.
Proof. intros. rewrite blake2b_nokey_chain by done. apply length_finish. Qed.
Lemma bytes_blake2b_nokey msg outlen : bytes (blake2b_nokey msg outlen).
Proof.
  unfold blake2b_nokey. destruct (full_blocks _ _ _ _) as [[[h r] c]|]; [|constructor].
  apply bytes_finish.
Qed.

(** ** Properties *)

(** C32: [blake2b_nokey] terminates and computes RFC 7693's BLAKE2b for every
    byte message and every digest length 1..64: its [while] loop leaves a last
    block of 1 to 128 bytes (0 for the empty message), the twelve-row SIGMA and
    the in-place mixing macro are the reference's [i mod 10] rows and mixing
    function, and the 64-bit counter never wraps. *)
Theorem blake2b_nokey_is_rfc7693 (msg : list Z) (outlen : nat) :
  bytes msg -> Z.of_nat (length msg) < 2 ^ 64 -> (1 <= outlen <= 64)%nat ->
  blake2b_nokey msg outlen = Spec.blake2b msg outlen
  /\ length (blake2b_nokey msg outlen) = outlen.
Proof.
  intros. split; [by apply blake2b_nokey_rfc|by apply length_blake2b_nokey].
Qed.

Lemma blake2b_nokey_is_rfc7693_witness :
  blake2b_nokey (str "abc") 64 = Spec.blake2b (str "abc") 64
  /\ length (blake2b_nokey (str "abc") 64) = 64%nat.
Proof.
  apply (blake2b_nokey_is_rfc7693 (str "abc") 64); [|by vm_compute|lia].
  repeat (constructor; [by vm_compute|]). constructor.
Defined.
End Blake2b.

#[global] Opaque Blake2b.blake2b_nokey Blake2b.Spec.blake2b.
#[export] Hint Resolve Blake2b.bytes_blake2b_nokey : osprey.
