(* ===== verification/WorkItem.v ===== *)
(** * Knots v2 header, stage messages, work item and targets (src/miner/work_item.c)

    The header record, the two tagged-hash stages that produce the 52-byte and
    80-byte messages for the FPGA, the five-stage proof-of-work hash, the
    compact-target arithmetic and the 17-byte reply frame. *)
From S2P Require Import Prelude Sha256 Blake2b.

Module WorkItem.
Import Sha256 Blake2b.
Local Open Scope word_scope.

Definition STAGE3_LEN : nat := 52.
Definition STAGE4_LEN : nat := 80.
Definition SLOTS : nat := 10.
Definition WORK_ITEM_LEN : nat := 168.
Definition RESULT_LEN : nat := 17.
Definition BLAKE2B_TARGET_SHIFT_MAINNET : Z := 22.
Definition HEADER_V2_FLAG : Z := 0x80000000.
Definition USE_TIME_OFFSET : Z := 4.

Record knots_header := KnotsHeader {
  nVersion : Z;
  hashPrevBlock : list Z;
  hashMerkleRoot : list Z;
  nTime : Z;
  nBits : Z;
  nNonce : Z;
  m_nonce2 : Z;
  m_nonce3 : Z;
  m_extranonce : list Z;
  m_time_offset : Z;
  m_txcount : Z;
  m_flags : Z;
  m_xor_key_mask_clear_bits : Z;
  m_xor_key : list Z;
  m_height : Z;               (* int32_t *)
  m_mm_rhs : list Z
}.

#[export] Instance header_fields : Fields knots_header := fun h =>
  KnotsHeader (nVersion h) (hashPrevBlock h) (hashMerkleRoot h) (nTime h) (nBits h) (nNonce h)
    (m_nonce2 h) (m_nonce3 h) (m_extranonce h) (m_time_offset h) (m_txcount h) (m_flags h)
    (m_xor_key_mask_clear_bits h) (m_xor_key h) (m_height h) (m_mm_rhs h).

Record fpga_result := FpgaResult {
  success : bool;
  nonce : Z;
  hash_top64 : Z
}.

Definition put_le32 (v : Z) : list Z := [u8 v; u8 (v ≫ 8); u8 (v ≫ 16); u8 (v ≫ 24)].
Definition put_le64 (v : Z) : list Z :=
  (fun i => u8 (v ≫ (Z.of_nat i * 8))) <$> seq 0 8.
Definition get_le64 (p : list Z) : Z :=
  foldl (fun v i => u64 (v ≪ 8) .| p !!! i) 0 (rev (seq 0 8)).

(** [memset(h, 0, sizeof *h)], then the two defaults. *)
Definition knots_header_init : knots_header :=
  KnotsHeader 0x20000000 (replicate 32 0) (replicate 32 0) 0 0x1d00ffff 0 0 0
    (replicate 16 0) 0 0 0 0 (replicate 16 0) 0 (replicate 32 0).

Definition knots_complete_version (h : knots_header) : Z :=
  HEADER_V2_FLAG .| (nVersion h .& u32 (Z.lnot HEADER_V2_FLAG)).

Definition knots_time_on_wire (h : knots_header) : Z :=
  if m_flags h .& USE_TIME_OFFSET =? 0 then nTime h
  else u32 (nTime h - m_time_offset h).

(** ** Stages 1 and 2: the tagged hashes *)
Definition prev_sane (h : knots_header) : list Z :=
  (fun i => hashPrevBlock h !!! (31 - i)%nat) <$> seq 0 32.

Definition h1_payload (h : knots_header) : list Z :=
  let xor_key_inner := tagged_hash (str "Bitcoin block hash PoW XOR key") (m_xor_key h) in
  put_le32 (knots_complete_version h) ++ prev_sane h ++ put_le32 (u32 (m_height h))
  ++ hashMerkleRoot h ++ put_le32 (knots_time_on_wire h) ++ [0x00]
  ++ put_le32 (nBits h) ++ put_le32 (m_txcount h) ++ [m_flags h]
  ++ [m_xor_key_mask_clear_bits h] ++ xor_key_inner.

Definition h2_hash (h : knots_header) : list Z :=
  let h1_hash := tagged_hash (str "Bitcoin block header 1") (h1_payload h) in
  tagged_hash (str "Merge-mining hook") (h1_hash ++ replicate 32 0 ++ m_mm_rhs h).

(** ** Stage messages: [inl rc] is the C code's error return *)
Definition stage_inputs (h : knots_header) : Z + (list Z * list Z * list Z) :=
  if negb (m_flags h .& 3 =? 0) then inl (-1)
  else if negb (length (h1_payload h) =? 119)%nat then inl (-2)
  else
    let ss3 := put_le32 0 ++ h2_hash h ++ m_extranonce h in
    let hash_a := blake2b_nokey ss3 32 in
    let prev_hidden := tagged_hash (str "Bitcoin prevblock header, hashed") (prev_sane h) in
    let prev_hidden := list_inserts 0 (replicate 6 0) prev_hidden in
    let ss4 := prev_hidden ++ put_le32 (nNonce h) ++ put_le32 (m_nonce2 h)
               ++ put_le32 (m_time_offset h) ++ put_le32 (m_nonce3 h) ++ hash_a in
    if negb (length ss4 =? STAGE4_LEN)%nat then inl (-3)
    else inr (ss3, ss4, hash_a).

Definition build_work_item (h : knots_header) (target_top64 : Z) : Z + list Z :=
  match stage_inputs h with
  | inl rc => inl rc
  | inr (ss3, ss4, _) =>
    let out := replicate WORK_ITEM_LEN 0 in
    let out := list_inserts 0 ss3 out in
    let out := list_inserts (SLOTS * 8) ss4 out in
    inr (list_inserts (2 * SLOTS * 8) (put_le64 target_top64) out)
  end.

(** ** Stage 5 *)
Definition key_zero (h : knots_header) : bool := forallb (fun b => b =? 0) (m_xor_key h).

(** [for (i = 0; i < clear_bytes && i < 32; ++i) mask[i] = 0], then the
    partial byte. *)
Definition clear_mask (clear_bits : Z) (mask : list Z) : list Z :=
  let clear_bytes := Z.to_nat (clear_bits / 8) in
  let mask := list_inserts 0 (replicate (Nat.min clear_bytes 32) 0) mask in
  let rem := clear_bits mod 8 in
  if negb (rem =? 0) && (clear_bytes <? 32)%nat
  then <[clear_bytes := mask !!! clear_bytes .& u8 (0xff ≫ rem)]> mask
  else mask.

Definition xor_mask (h : knots_header) : list Z :=
  if key_zero h then replicate 32 0
  else clear_mask (m_xor_key_mask_clear_bits h)
         (tagged_hash (str "Bitcoin block hash PoW XOR mask") (m_xor_key h)).

Definition get_pow_hash (h : knots_header) : Z + list Z :=
  match stage_inputs h with
  | inl rc => inl rc
  | inr (_, ss4, _) =>
    let hash_b := blake2b_nokey ss4 32 in
    inr (rev (zip_with Z.lxor hash_b (xor_mask h)))
  end.

(** ** Targets *)

(** One iteration of the loop that places mantissa bit [b]. *)
Definition place_bit (mant bitpos : Z) (out : list Z) (b : nat) : list Z :=
  if negb (Z.land (mant ≫ Z.of_nat b) 1 =? 0) then
    let pos := bitpos + Z.of_nat b in
    if (pos <? 0) || (256 <=? pos) then out
    else
      let byte_from_lsb := Z.to_nat (pos / 8) in
      <[(31 - byte_from_lsb)%nat :=
          out !!! (31 - byte_from_lsb)%nat .| u8 (1 ≪ (pos mod 8))]> out
  else out.

Definition compact_to_target_shifted (nBits shift : Z) : list Z :=
  let exp := (nBits ≫ 24) .& 0xff in
  let mant := nBits .& 0x007fffff in
  let out := replicate 32 0 in
  if negb (nBits .& 0x00800000 =? 0) then out
  else
    let '(mant, bitpos) :=
      if exp <=? 3 then (mant ≫ (8 * (3 - exp)), shift)
      else (mant, 8 * (exp - 3) + shift) in
    foldl (place_bit mant bitpos) out (seq 0 24).

Definition target_top64_from_bits (nBits shift : Z) : Z :=
  let t := compact_to_target_shifted nBits shift in
  foldl (fun v i => u64 (v ≪ 8) .| t !!! i) 0 (seq 0 8).

Definition hash_meets_target (hash_be target_be : list Z) : bool :=
  match memcmp (take 32 hash_be) (take 32 target_be) with
  | Gt => false
  | _ => true
  end.

(** ** The reply frame: the return code and the filled structure *)
Definition parse_result (buf : list Z) : Z * fpga_result :=
  let r := FpgaResult (buf !!! 0%nat =? 0x01) (get_le64 (drop 1 buf)) (get_le64 (drop 9 buf)) in
  (if success r then 0 else -1, r).

(** ** Types *)
Record wf_header (h : knots_header) : Prop := {
  wf_version : is_word 32 (nVersion h);
  wf_prev : array 32 (hashPrevBlock h);
  wf_merkle : array 32 (hashMerkleRoot h);
  wf_time : is_word 32 (nTime h);
  wf_bits : is_word 32 (nBits h);
  wf_nonce : is_word 32 (nNonce h);
  wf_nonce2 : is_word 32 (m_nonce2 h);
  wf_nonce3 : is_word 32 (m_nonce3 h);
  wf_extranonce : array 16 (m_extranonce h);
  wf_time_offset : is_word 32 (m_time_offset h);
  wf_txcount : is_word 16 (m_txcount h);
  wf_flags : is_byte (m_flags h);
  wf_clear_bits : is_byte (m_xor_key_mask_clear_bits h);
  wf_xor_key : array 16 (m_xor_key h);
  wf_height : - 2 ^ 31 <= m_height h < 2 ^ 31;
  wf_mm_rhs : array 32 (m_mm_rhs h)
}.

(** ** The value of a compact target *)
Module Spec.
(** The 256-bit integer that [nBits] stands for, shifted left by [shift]. *)
Definition compact_value (nBits : Z) : Z :=
  let exp := nBits / 2 ^ 24 in
  let mant := nBits mod 2 ^ 23 in
  if Z.testbit nBits 23 then 0
  else if exp <=? 3 then mant / 256 ^ (3 - exp) else mant * 256 ^ (exp - 3).
Definition target (nBits shift : Z) : Z := (compact_value nBits * 2 ^ shift) mod 2 ^ 256.

(** The header's proof-of-work hash, with FIPS 180-4 and RFC 7693 as the hash
    functions and the XOR mask as a 256-bit big-endian number. *)
Definition tagged (tag payload : list Z) : list Z :=
  Sha256.Spec.sha256 (Sha256.Spec.sha256 tag ++ Sha256.Spec.sha256 tag ++ payload).
Definition blake2b_256 (m : list Z) : list Z := Blake2b.Spec.blake2b m 32.

Definition version (h : knots_header) : Z := 2 ^ 31 + nVersion h mod 2 ^ 31.
Definition wire_time (h : knots_header) : Z :=
  (nTime h - if Z.testbit (m_flags h) 2 then m_time_offset h else 0) mod 2 ^ 32.

Definition stage1 (h : knots_header) : list Z :=
  le_bytes 4 (version h) ++ rev (hashPrevBlock h) ++ le_bytes 4 (m_height h mod 2 ^ 32)
  ++ hashMerkleRoot h ++ le_bytes 4 (wire_time h) ++ [0] ++ le_bytes 4 (nBits h)
  ++ le_bytes 4 (m_txcount h) ++ [m_flags h] ++ [m_xor_key_mask_clear_bits h]
  ++ tagged (str "Bitcoin block hash PoW XOR key") (m_xor_key h).
Definition stage2 (h : knots_header) : list Z :=
  tagged (str "Merge-mining hook")
    (tagged (str "Bitcoin block header 1") (stage1 h) ++ replicate 32 0 ++ m_mm_rhs h).
Definition stage3 (h : knots_header) : list Z :=
  replicate 4 0 ++ stage2 h ++ m_extranonce h.
Definition stage4 (h : knots_header) : list Z :=
  replicate 6 0 ++ drop 6 (tagged (str "Bitcoin prevblock header, hashed") (rev (hashPrevBlock h)))
  ++ le_bytes 4 (nNonce h) ++ le_bytes 4 (m_nonce2 h) ++ le_bytes 4 (m_time_offset h)
  ++ le_bytes 4 (m_nonce3 h) ++ blake2b_256 (stage3 h).

(** The mask clears the [m_xor_key_mask_clear_bits] most significant bits. *)
Definition mask (h : knots_header) : Z :=
  if decide (m_xor_key h = replicate 16 0) then 0
  else be_val (tagged (str "Bitcoin block hash PoW XOR mask") (m_xor_key h))
       mod 2 ^ (256 - m_xor_key_mask_clear_bits h).
Definition pow_hash (h : knots_header) : list Z :=
  rev (be_bytes 32 (Z.lxor (be_val (blake2b_256 (stage4 h))) (mask h))).
End Spec.

(** ** Compact targets *)
Abbreviation array32 := (array 32).

Lemma place_bit_array mant bitpos out b :
  array 32 out -> array 32 (place_bit mant bitpos out b).
Proof.
  intros [Hl Hb]. unfold place_bit. repeat case_match; try done.
  split; [by lens|]. apply bytes_insert; [|done].
  apply is_word_lor; [lia|by apply words_lookup_total|apply u8_word].
Qed.

Lemma land1_testbit m b : 0 <= b -> (Z.land (m ≫ b) 1 =? 0) = negb (Z.testbit m b).
Proof.
  intros Hb. change 1 with (Z.ones 1). rewrite Z.land_ones by lia.
  change (2 ^ 1) with 2. rewrite <- Z.bit0_mod, Z.shiftr_spec, Z.add_0_l by lia.
  by destruct (Z.testbit m b).
Qed.

Lemma place_bit_testbit mant bitpos out b i :
  0 <= bitpos -> array 32 out -> 0 <= i < 256 ->
  Z.testbit (be_val (place_bit mant bitpos out b)) i
  = Z.testbit (be_val out) i || (Z.testbit mant (Z.of_nat b) && (i =? bitpos + Z.of_nat b)).
Proof.
  intros Hp [Hl Hb] Hi. unfold place_bit. rewrite land1_testbit, negb_involutive by lia.
  destruct (Z.testbit mant (Z.of_nat b)) eqn:Hm; [|by rewrite orb_false_r].
  set (pos := bitpos + Z.of_nat b). cbn [andb].
  destruct (Z.ltb_spec pos 0); [lia|]. cbn [orb].
  destruct (Z.leb_spec 256 pos).
  { destruct (Z.eqb_spec i pos); [lia|by rewrite orb_false_r]. }
  assert (pos / 8 < 32) by (apply Z.div_lt_upper_bound; lia).
  assert (i / 8 < 32) by (apply Z.div_lt_upper_bound; lia).
  pose proof (Z.div_pos pos 8). pose proof (Z.div_pos i 8).
  pose proof (Z.mod_pos_bound i 8). pose proof (Z.mod_pos_bound pos 8).
  rewrite be_val_testbit; [|apply bytes_insert; [|done]|lens; lia].
  2: { apply is_word_lor; [lia|by apply words_lookup_total|apply u8_word]. }
  rewrite be_val_testbit by (done || lia). lens. rewrite Hl.
  rewrite lookup_total_insert_eqb by lia.
  destruct (Nat.eqb_spec (31 - Z.to_nat (pos / 8)) (32 - 1 - Z.to_nat (i / 8))) as [He|He].
  - rewrite He, Z.lor_spec. f_equal. rewrite u8_mod, Z.mod_pow2_bits_low by lia.
    rewrite Z.shiftl_1_l, Z.pow2_bits_eqb by lia.
    assert (pos / 8 = i / 8) by lia.
    pose proof (Z.div_mod pos 8). pose proof (Z.div_mod i 8).
    destruct (Z.eqb_spec (pos mod 8) (i mod 8)), (Z.eqb_spec i pos); lia || done.
  - destruct (Z.eqb_spec i pos) as [->|]; [lia|]. by rewrite orb_false_r.
Qed.

Lemma place_bits_testbit mant bitpos n i :
  0 <= bitpos -> 0 <= i < 256 ->
  array 32 (foldl (place_bit mant bitpos) (replicate 32 0) (seq 0 n)) /\
  Z.testbit (be_val (foldl (place_bit mant bitpos) (replicate 32 0) (seq 0 n))) i
  = (0 <=? i - bitpos) && (i - bitpos <? Z.of_nat n) && Z.testbit mant (i - bitpos).
Proof.
  intros Hp Hi. induction n as [|n [Ha IH]].
  - split; [split; [done|apply bytes_zeros]|]. cbn [seq foldl].
    rewrite be_val_zeros, Z.bits_0.
    destruct (Z.leb_spec 0 (i - bitpos)), (Z.ltb_spec (i - bitpos) (Z.of_nat 0)); done || lia.
  - rewrite seq_S, foldl_app. cbn [foldl]. split; [by apply place_bit_array|].
    rewrite place_bit_testbit, IH by done. rewrite Nat.add_0_l.
    destruct (Z.leb_spec 0 (i - bitpos)), (Z.ltb_spec (i - bitpos) (Z.of_nat n)),
      (Z.ltb_spec (i - bitpos) (Z.of_nat (S n))), (Z.eqb_spec i (bitpos + Z.of_nat n));
      try lia; cbn [andb orb]; rewrite ?andb_false_r, ?orb_false_r, ?andb_true_r; try done.
    by replace (i - bitpos) with (Z.of_nat n) by lia.
Qed.

(** The 24 placed bits are the mantissa, shifted to [bitpos], modulo [2^256]. *)
Lemma place_mantissa mant bitpos :
  0 <= bitpos -> is_word 24 mant ->
  let out := foldl (place_bit mant bitpos) (replicate 32 0) (seq 0 24) in
  array 32 out /\ be_val out = (mant ≪ bitpos) mod 2 ^ 256.
Proof.
  intros Hp Hm out.
  assert (array 32 out) as [Hl Hb] by (by apply (place_bits_testbit mant bitpos 24 0)).
  split; [done|]. apply Z.bits_inj'. intros i Hi.
  destruct (Z.ltb_spec i 256) as [Hlt|Hge].
  - rewrite Z.mod_pow2_bits_low by lia.
    unfold out. destruct (place_bits_testbit mant bitpos 24 i) as [_ ->]; [lia..|].
    destruct (Z.leb_spec 0 (i - bitpos)).
    + rewrite Z.shiftl_spec by lia. destruct (Z.ltb_spec (i - bitpos) (Z.of_nat 24)); [done|].
      apply is_word_testbit in Hm as [_ Hm]; [|lia]. by rewrite Hm by lia.
    + rewrite Z.shiftl_spec_low by lia. done.
  - rewrite Z.mod_pow2_bits_high by lia.
    pose proof (be_val_bound out Hb) as Hv. rewrite Hl in Hv.
    apply (is_word_testbit 256) in Hv as [_ Hv]; [|lia]. by apply Hv.
Qed.

Lemma compact_target_spec nBits shift :
  is_word 32 nBits -> 0 <= shift ->
  array 32 (compact_to_target_shifted nBits shift)
  /\ be_val (compact_to_target_shifted nBits shift) = Spec.target nBits shift.
Proof.
  intros Hn Hs. unfold compact_to_target_shifted, Spec.target, Spec.compact_value.
  assert ((nBits .& 0x00800000 =? 0) = negb (Z.testbit nBits 23)) as ->.
  { change 0x00800000 with (2 ^ 23). rewrite (Z.land_comm _ (2 ^ 23)).
    destruct (Z.testbit nBits 23) eqn:Hb; cbn [negb].
    - apply Z.eqb_neq. intros H. apply (f_equal (fun z => Z.testbit z 23)) in H.
      by rewrite Z.land_spec, Z.pow2_bits_true, Hb in H by lia.
    - apply Z.eqb_eq, Z.bits_inj'. intros i Hi.
      rewrite Z.land_spec, Z.bits_0, Z.pow2_bits_eqb by lia.
      by destruct (Z.eqb_spec 23 i) as [<-|]. }
  rewrite negb_involutive. destruct (Z.testbit nBits 23) eqn:Hb.
  { split; [split; [done|apply bytes_zeros]|]. rewrite be_val_zeros. done. }
  assert ((nBits ≫ 24) .& 0xff = nBits / 2 ^ 24) as ->.
  { change 0xff with (Z.ones 8). rewrite Z.land_ones, Z.shiftr_div_pow2 by lia.
    apply Z.mod_small. split; [apply Z.div_pos; unfold is_word in *; lia|].
    apply Z.div_lt_upper_bound; unfold is_word in *; lia. }
  assert (nBits .& 0x007fffff = nBits mod 2 ^ 23) as ->.
  { change 0x007fffff with (Z.ones 23). by rewrite Z.land_ones. }
  pose proof (Z.mod_pos_bound nBits (2 ^ 23) ltac:(lia)) as Hm.
  set (m := nBits mod 2 ^ 23) in *. set (e := nBits / 2 ^ 24).
  assert (0 <= e) by (apply Z.div_pos; unfold is_word in *; lia).
  assert (forall k, 256 ^ k = (2 ^ 8) ^ k) as Hk by done.
  destruct (Z.leb_spec e 3); cbn beta iota.
  - rewrite Hk, <- Z.pow_mul_r, <- Z.shiftr_div_pow2, <- Z.shiftl_mul_pow2 by lia.
    apply place_mantissa; [lia|]. apply is_word_shiftr; [lia..|]. unfold is_word; lia.
  - rewrite Hk, <- Z.pow_mul_r, <- Z.mul_assoc, <- Z.pow_add_r, <- Z.shiftl_mul_pow2 by lia.
    apply place_mantissa; [lia|]. unfold is_word; lia.
Qed.

Lemma be_val_split8 (l : list Z) :
  length l = 32%nat -> be_val l = be_val (take 8 l) * 2 ^ 192 + be_val (drop 8 l).
Proof.
  intros Hl. rewrite <- (take_drop 8 l) at 1. rewrite be_val_app.
  do 3 f_equal. len.
Qed.
Lemma top64_div (l : list Z) :
  array 32 l -> be_val (take 8 l) = be_val l / 2 ^ 192.
Proof.
  intros [Hl Hb]. rewrite (be_val_split8 l Hl).
  pose proof (be_val_bound (drop 8 l) ltac:(by apply Forall_drop)) as H.
  rewrite length_drop, Hl in H. change (8 * Z.of_nat (32 - 8)) with 192 in H.
  rewrite Z.div_add_l by lia. rewrite Z.div_small by lia. lia.
Qed.

Lemma target_top64_spec nBits shift :
  is_word 32 nBits -> 0 <= shift ->
  target_top64_from_bits nBits shift = Spec.target nBits shift / 2 ^ 192.
Proof.
  intros Hn Hs. destruct (compact_target_spec nBits shift Hn Hs) as [[Hl Hb] <-].
  unfold target_top64_from_bits. rewrite load_be_spec by (done || lia).
  by apply top64_div.
Qed.

Lemma hash_meets_target_spec a b :
  array 32 a -> array 32 b -> hash_meets_target a b = (be_val a <=? be_val b).
Proof.
  intros [Hla Ha] [Hlb Hb]. unfold hash_meets_target.
  rewrite !take_ge by lia. rewrite memcmp_be_val by (done || lia).
  rewrite Z.leb_compare. by destruct (be_val a ?= be_val b).
Qed.

(** ** The stages *)
Lemma put_le32_spec v : put_le32 v = le_bytes 4 v.
Proof. done. Qed.
Lemma put_le64_spec v : put_le64 v = le_bytes 8 v.
Proof. unfold put_le64, le_bytes. apply list_fmap_ext. intros. by rewrite Z.mul_comm. Qed.

Lemma length_prev_sane h : length (prev_sane h) = 32%nat.
Proof. unfold prev_sane. by lens. Qed.
Lemma prev_sane_rev h : length (hashPrevBlock h) = 32%nat -> prev_sane h = rev (hashPrevBlock h).
Proof.
  intros Hl. unfold prev_sane.
  assert (rev (hashPrevBlock h) = slice 0 32 (rev (hashPrevBlock h))) as ->.
  { rewrite slice_0, take_ge; [done|len]. }
  rewrite slice_lookups by len. apply list_fmap_ext. intros i j Hij.
  apply lookup_seq in Hij. rewrite rev_lookup_total by lia. f_equal. lia.
Qed.

Lemma complete_version_spec h : is_word 32 (nVersion h) -> knots_complete_version h = Spec.version h.
Proof.
  intros Hv. unfold knots_complete_version, Spec.version, HEADER_V2_FLAG.
  change (u32 (Z.lnot 0x80000000)) with (Z.ones 31). rewrite Z.land_ones by lia.
  change 0x80000000 with (1 ≪ 31). rewrite lor_add by (lia || (apply Z.mod_pos_bound; lia)).
  lia.
Qed.
Lemma time_on_wire_spec h : is_word 32 (nTime h) -> knots_time_on_wire h = Spec.wire_time h.
Proof.
  intros Ht. unfold knots_time_on_wire, Spec.wire_time, USE_TIME_OFFSET.
  assert ((m_flags h .& 4 =? 0) = negb (Z.testbit (m_flags h) 2)) as ->.
  { change 4 with (1 ≪ 2). destruct (Z.testbit (m_flags h) 2) eqn:Hb; cbn [negb].
    - apply Z.eqb_neq. intros H. apply (f_equal (fun z => Z.testbit z 2)) in H.
      by rewrite Z.land_spec, Hb in H.
    - apply Z.eqb_eq, Z.bits_inj'. intros i Hi. rewrite Z.land_spec, Z.bits_0.
      change (1 ≪ 2) with (2 ^ 2). rewrite Z.pow2_bits_eqb by lia.
      destruct (Z.eqb_spec 2 i) as [<-|]; [by rewrite Hb|apply andb_false_r]. }
  destruct (Z.testbit (m_flags h) 2); cbn [negb]; [by rewrite u32_mod|].
  rewrite Z.sub_0_r. symmetry. by apply Z.mod_small.
Qed.

Lemma bytes_str s : bytes (str s).
Proof.
  unfold str. apply Forall_fmap, Forall_true. intros a. unfold compose, is_word.
  pose proof (N_ascii_bounded a). lia.
Qed.
Lemma tagged_spec tag payload :
  bytes payload -> tagged_hash (str tag) payload = Spec.tagged (str tag) payload.
Proof.
  intros Hp. unfold Spec.tagged.
  rewrite tagged_hash_concat, <- !(sha256_fips (str tag)) by apply bytes_str.
  apply sha256_fips.
  apply Forall_app; split; [apply bytes_sha256|].
  apply Forall_app; split; [apply bytes_sha256|done].
Qed.

#[global] Opaque Spec.tagged.

Lemma bytes_put_le32 v : bytes (put_le32 v).
Proof. rewrite put_le32_spec. apply bytes_le_bytes. Qed.
Lemma length_put_le32 v : length (put_le32 v) = 4%nat.
Proof. done. Qed.
#[local] Hint Rewrite length_put_le32 length_prev_sane : lens.

Lemma length_h1_payload h : array 32 (hashMerkleRoot h) -> length (h1_payload h) = 119%nat.
Proof.
  intros [Hm _]. unfold h1_payload. rewrite !length_app, Hm, length_tagged_hash.
  by lens.
Qed.

Lemma bytes_prev_sane h : wf_header h -> bytes (prev_sane h).
Proof.
  intros []. rewrite prev_sane_rev by apply wf_prev0. apply bytes_rev, wf_prev0.
Qed.

(** Byte-ness of concatenations of fields. *)
#[local] Ltac bts := repeat first
  [ apply bytes_put_le32 | apply bytes_tagged_hash | apply bytes_zeros | apply bytes_le_bytes
  | assumption | apply Forall_app; split | apply Forall_cons; split | apply Forall_nil | by vm_compute ].

Lemma h1_payload_spec h : wf_header h -> h1_payload h = Spec.stage1 h /\ bytes (h1_payload h).
Proof.
  intros Hh. pose proof (bytes_prev_sane h Hh) as Hps. destruct Hh. split.
  - unfold h1_payload, Spec.stage1. rewrite complete_version_spec, time_on_wire_spec by done.
    rewrite prev_sane_rev by apply wf_prev0. rewrite !put_le32_spec, u32_mod.
    setoid_rewrite put_le32_spec. rewrite tagged_spec by apply wf_xor_key0.
    reflexivity.
  - unfold h1_payload. destruct wf_merkle0. bts.
Qed.

Lemma h2_hash_spec h : wf_header h -> h2_hash h = Spec.stage2 h.
Proof.
  intros Hh. destruct (h1_payload_spec h Hh) as [He Hb]. destruct Hh.
  unfold h2_hash, Spec.stage2. rewrite <- He.
  rewrite tagged_spec by (destruct wf_mm_rhs0; bts).
  rewrite tagged_spec by exact Hb. reflexivity.
Qed.

Lemma hide_prev (l : list Z) :
  length l = 32%nat -> list_inserts 0 (replicate 6 0) l = replicate 6 0 ++ drop 6 l.
Proof. intros. rewrite list_inserts_splice by len. by lens. Qed.

Lemma length_h2_hash h : length (h2_hash h) = 32%nat.
Proof. apply length_tagged_hash. Qed.
Lemma bytes_h2_hash h : bytes (h2_hash h).
Proof. apply bytes_tagged_hash. Qed.

(** The C message of stage 3 is the specification's. *)
Lemma stage3_built h :
  wf_header h -> put_le32 0 ++ h2_hash h ++ m_extranonce h = Spec.stage3 h.
Proof. intros Hh. unfold Spec.stage3. by rewrite h2_hash_spec. Qed.

Lemma array_stage3 h : wf_header h -> array STAGE3_LEN (Spec.stage3 h).
Proof.
  intros Hh. rewrite <- stage3_built by done. pose proof (bytes_h2_hash h).
  pose proof (length_h2_hash h). destruct Hh, wf_extranonce0 as [? ?].
  split; [|bts]. unfold STAGE3_LEN. lens. lia.
Qed.

Lemma hash_a_built h :
  wf_header h -> blake2b_nokey (Spec.stage3 h) 32 = Spec.blake2b_256 (Spec.stage3 h).
Proof.
  intros Hh. destruct (array_stage3 h Hh) as [Hl Hb].
  apply blake2b_nokey_rfc; [done|rewrite Hl; by vm_compute|lia].
Qed.

Lemma array_hash_a h : wf_header h -> array 32 (Spec.blake2b_256 (Spec.stage3 h)).
Proof.
  intros Hh. rewrite <- hash_a_built by done. destruct (array_stage3 h Hh) as [Hl Hb].
  split; [apply length_blake2b_nokey; rewrite Hl; by vm_compute|apply bytes_blake2b_nokey].
Qed.

Lemma bytes_replicate_drop n k l : bytes l -> bytes (replicate n 0 ++ drop k l).
Proof. intros. apply Forall_app; split; [apply bytes_zeros|by apply Forall_drop]. Qed.

Lemma array_stage4 h : wf_header h -> array STAGE4_LEN (Spec.stage4 h).
Proof.
  intros Hh. destruct (array_hash_a h Hh) as [Hl Hb].
  assert (bytes (rev (hashPrevBlock h))) as Hp by (apply bytes_rev; apply Hh).
  unfold Spec.stage4. rewrite <- tagged_spec by done. split.
  - rewrite !length_app, Hl, length_drop, length_tagged_hash. by lens.
  - rewrite app_assoc. apply Forall_app; split; [apply bytes_replicate_drop, bytes_tagged_hash|].
    bts.
Qed.

Lemma stage_inputs_spec h :
  wf_header h ->
  stage_inputs h =
    if m_flags h .& 3 =? 0
    then inr (Spec.stage3 h, Spec.stage4 h, Spec.blake2b_256 (Spec.stage3 h))
    else inl (-1).
Proof.
  intros Hh. unfold stage_inputs. destruct (m_flags h .& 3 =? 0); cbn [negb]; [|done].
  rewrite length_h1_payload by apply Hh. cbn [Nat.eqb negb].
  pose proof (bytes_prev_sane h Hh) as Hps. pose proof (proj1 (array_stage4 h Hh)) as H4.
  rewrite stage3_built, hash_a_built, hide_prev by (done || apply length_tagged_hash).
  rewrite tagged_spec by done. rewrite prev_sane_rev by apply Hh.
  match goal with |- (if negb (length ?x =? _)%nat then _ else _) = _ =>
    assert (x = Spec.stage4 h) as -> end.
  { unfold Spec.stage4. by rewrite <- !app_assoc. }
  by rewrite H4.
Qed.

(** ** Stage 5 *)
Lemma key_zero_spec h :
  array 16 (m_xor_key h) -> key_zero h = bool_decide (m_xor_key h = replicate 16 0).
Proof.
  intros [Hl _]. unfold key_zero. apply eq_true_iff_eq.
  rewrite forallb_forall, bool_decide_eq_true. split.
  - intros H. symmetry. apply replicate_as_Forall_2; [done|]. apply Forall_forall.
    intros x Hx. specialize (H x). rewrite list_elem_of_In in Hx. apply H in Hx. lia.
  - intros -> x Hx. apply list_elem_of_In, elem_of_replicate in Hx as [-> _]. done.
Qed.

(** The bytes that [clear_mask] leaves: zeros, one truncated byte, the rest. *)
Lemma clear_mask_shape (q : nat) (r x : Z) (A B : list Z) :
  length A = q -> (q < 32)%nat -> 0 <= r < 8 -> is_byte x ->
  clear_mask (8 * Z.of_nat q + r) (A ++ x :: B)
  = replicate q 0 ++ (x mod 2 ^ (8 - r)) :: B.
Proof.
  intros HA Hq Hr Hx. unfold clear_mask.
  replace ((8 * Z.of_nat q + r) / 8) with (Z.of_nat q)
    by (rewrite (Z.mul_comm 8), Z.div_add_l, Z.div_small by lia; lia).
  replace ((8 * Z.of_nat q + r) mod 8) with r
    by (rewrite Z.add_comm, (Z.mul_comm 8), Z.mod_add, Z.mod_small by lia; lia).
  rewrite Nat2Z.id, Nat.min_l by lia. destruct (Nat.ltb_spec q 32); [|lia]. rewrite andb_true_r.
  rewrite list_inserts_splice by len. rewrite length_replicate, Nat.add_0_l.
  rewrite <- HA, drop_app_length, take_0, app_nil_l. set (Z0 := replicate (length A) 0).
  assert (length Z0 = length A) as HZ by (subst Z0; by lens).
  rewrite lookup_total_app_r by lia. rewrite HZ, Nat.sub_diag.
  change ((x :: B) !!! 0%nat) with x. destruct (Z.eqb_spec r 0) as [->|Hne]; cbn [negb].
  { by rewrite Z.mod_small. }
  rewrite <- HZ, <- (Nat.add_0_r (length Z0)), insert_app_r. cbn. do 2 f_equal.
  assert (u8 (0xff ≫ r) = Z.ones (8 - r)) as ->; [|apply Z.land_ones; lia].
  assert (r = 1 \/ r = 2 \/ r = 3 \/ r = 4 \/ r = 5 \/ r = 6 \/ r = 7) as Hcases by lia.
  by repeat destruct Hcases as [->|Hcases]; [..|rewrite Hcases].
Qed.

(** Their value is the low part of the original's. *)
Lemma low_part (k r x a b : Z) :
  0 <= k -> 0 <= r < 8 -> 0 <= b < 2 ^ k ->
  (a * 2 ^ (k + 8) + (x * 2 ^ k + b)) mod 2 ^ (k + (8 - r)) = x mod 2 ^ (8 - r) * 2 ^ k + b.
Proof.
  intros Hk Hr Hb. rewrite !Z.pow_add_r by lia. rewrite Z.rem_mul_r by lia.
  replace (a * (2 ^ k * 2 ^ 8) + (x * 2 ^ k + b)) with (b + (a * 2 ^ 8 + x) * 2 ^ k) by lia.
  rewrite Z.mod_add, Z.div_add, Z.mod_small, Z.div_small by lia.
  rewrite Z.add_0_l, (Z.add_comm (a * 2 ^ 8)).
  replace (2 ^ 8) with (2 ^ r * 2 ^ (8 - r)) by (rewrite <- Z.pow_add_r by lia; f_equal; lia).
  rewrite Z.mul_assoc, Z.mod_add by (apply Z.pow_nonzero; lia). lia.
Qed.

Lemma clear_mask_spec c (m : list Z) :
  is_byte c -> array 32 m ->
  array 32 (clear_mask c m) /\ be_val (clear_mask c m) = be_val m mod 2 ^ (256 - c).
Proof.
  intros Hc [Hl Hb]. unfold is_word in Hc.
  assert (0 <= c / 8 < 32) as Hq by (split; [apply Z.div_pos|apply Z.div_lt_upper_bound]; lia).
  pose proof (Z.div_mod c 8 ltac:(lia)) as Hdm. pose proof (Z.mod_pos_bound c 8 ltac:(lia)) as Hr.
  set (r := c mod 8) in *. set (q := Z.to_nat (c / 8)).
  replace c with (8 * Z.of_nat q + r) by lia.
  rewrite <- (take_drop_middle m q (m !!! q)) in Hb |- * by (apply list_lookup_lookup_total_lt; lia).
  set (x := m !!! q) in *. set (A := take q m) in *. set (B := drop (S q) m) in *.
  assert (length A = q) as HA by (subst A; len).
  assert (length B = (31 - q)%nat) as HB by (subst B; len).
  apply Forall_app in Hb as [HbA [Hx HbB]%Forall_cons].
  rewrite clear_mask_shape by (done || lia).
  pose proof (Z.mod_pos_bound x (2 ^ (8 - r)) ltac:(apply Z.pow_pos_nonneg; lia)) as Hm.
  assert (2 ^ (8 - r) <= 2 ^ 8) by (apply Z.pow_le_mono_r; lia). split.
  { split; [lens; lia|]. apply Forall_app; split; [apply bytes_zeros|].
    apply Forall_cons; split; [unfold is_word; lia|done]. }
  rewrite !be_val_app, !be_val_cons, be_val_zeros. cbn [length]. rewrite HB.
  pose proof (be_val_bound B HbB) as Bb. rewrite HB in Bb.
  replace (256 - (8 * Z.of_nat q + r)) with (8 * Z.of_nat (31 - q) + (8 - r)) by lia.
  replace (8 * Z.of_nat (S (31 - q))) with (8 * Z.of_nat (31 - q) + 8) by lia.
  rewrite low_part by lia. lia.
Qed.

Lemma xor_mask_spec h :
  wf_header h -> array 32 (xor_mask h) /\ be_val (xor_mask h) = Spec.mask h.
Proof.
  intros Hh. unfold xor_mask, Spec.mask. rewrite key_zero_spec by apply Hh.
  case_bool_decide.
  - rewrite decide_True by done. split; [split; [done|apply bytes_zeros]|]. apply be_val_zeros.
  - rewrite decide_False by done. rewrite <- tagged_spec by apply Hh.
    apply clear_mask_spec; [apply Hh|]. split; [apply length_tagged_hash|apply bytes_tagged_hash].
Qed.

Lemma array_blake m : (length m < 1000)%nat -> array 32 (blake2b_nokey m 32).
Proof. intros. split; [apply length_blake2b_nokey; lia|apply bytes_blake2b_nokey]. Qed.

Lemma zip_lxor_number (a m : list Z) :
  array 32 a -> array 32 m ->
  zip_with Z.lxor a m = be_bytes 32 (Z.lxor (be_val a) (be_val m)).
Proof.
  intros [Hla Ha] [Hlm Hm]. rewrite <- be_val_zip_lxor by (done || lia).
  assert (length (zip_with Z.lxor a m) = 32%nat) as Hl by (rewrite length_zip_with; lia).
  symmetry. rewrite <- Hl at 1. apply be_bytes_be_val. by apply bytes_zip_lxor.
Qed.


Lemma get_pow_hash_spec h :
  wf_header h ->
  get_pow_hash h = if m_flags h .& 3 =? 0 then inr (Spec.pow_hash h) else inl (-1).
Proof.
  intros Hh. unfold get_pow_hash. rewrite stage_inputs_spec by done.
  destruct (m_flags h .& 3 =? 0); [|done].
  destruct (array_stage4 h Hh) as [Hl Hb]. destruct (xor_mask_spec h Hh) as [Hm Hmv].
  assert (array 32 (blake2b_nokey (Spec.stage4 h) 32)) as Ha by (apply array_blake; rewrite Hl; cbv; lia).
  unfold Spec.pow_hash, Spec.blake2b_256. rewrite zip_lxor_number, Hmv by done.
  rewrite blake2b_nokey_rfc; [done|done|rewrite Hl; by vm_compute|lia].
Qed.

(** Three copies into a zeroed buffer of 168 bytes. *)
Lemma item_layout (a b c : list Z) :
  length a = 52%nat -> length b = 80%nat -> length c = 8%nat ->
  list_inserts 160 c (list_inserts 80 b (list_inserts 0 a (replicate 168 0)))
  = a ++ replicate 28 0 ++ b ++ c.
Proof.
  intros Ha Hb Hc. rewrite (list_inserts_splice 0), take_0, app_nil_l, drop_replicate by len.
  rewrite Ha. cbn [Nat.add Nat.sub].
  assert (a ++ replicate 116 0 = (a ++ replicate 28 0) ++ replicate 80 0 ++ replicate 8 0) as ->.
  { by rewrite <- app_assoc, <- !replicate_add. }
  set (P := a ++ replicate 28 0). assert (length P = 80%nat) as HP by (subst P; len).
  rewrite (list_inserts_splice 80), Hb by len.
  rewrite take_app_length', drop_app_ge, HP by done || lia.
  rewrite drop_app_length' by done.
  rewrite (list_inserts_splice 160), Hc by len.
  rewrite drop_ge, app_nil_r by len. rewrite app_assoc, take_app_length' by len.
  subst P. by rewrite <- !app_assoc.
Qed.

Lemma build_work_item_spec h t :
  wf_header h ->
  build_work_item h t =
    if m_flags h .& 3 =? 0
    then inr (Spec.stage3 h ++ replicate 28 0 ++ Spec.stage4 h ++ le_bytes 8 t)
    else inl (-1).
Proof.
  intros Hh. unfold build_work_item. rewrite stage_inputs_spec by done.
  destruct (m_flags h .& 3 =? 0); [|done]. f_equal.
  destruct (array_stage3 h Hh) as [H3 _]. destruct (array_stage4 h Hh) as [H4 _].
  rewrite put_le64_spec.
  apply item_layout; [done|done|apply length_le_bytes].
Qed.

Lemma get_le64_spec p : bytes p -> (8 <= length p)%nat -> get_le64 p = le_val (take 8 p).
Proof. intros. by apply load_le_spec. Qed.
Lemma get_put_le64 v p : is_word 64 v -> bytes p -> get_le64 (put_le64 v ++ p) = v.
Proof.
  intros Hv Hp. rewrite put_le64_spec.
  rewrite get_le64_spec; [|apply Forall_app; split; [apply bytes_le_bytes|done]|len].
  rewrite take_app_length' by (by rewrite length_le_bytes). rewrite le_val_le_bytes.
  by apply Z.mod_small.
Qed.

Lemma get_le64_slot off l :
  bytes l -> (off + 8 <= length l)%nat -> get_le64 (slice off 8 l) = le_val (slice off 8 l).
Proof.
  intros Hb Hl. rewrite get_le64_spec by first [by apply bytes_slice|rewrite length_slice; lia].
  by rewrite take_ge by (rewrite length_slice; lia).
Qed.
Lemma nonce_slot h :
  wf_header h -> get_le64 (slice 32 8 (Spec.stage4 h)) = nNonce h + 2 ^ 32 * m_nonce2 h.
Proof.
  intros Hh. pose proof (array_stage4 h Hh) as [H4 B4].
  rewrite (get_le64_slot 32 (Spec.stage4 h) B4) by (rewrite H4; cbv; lia).
  unfold Spec.stage4. rewrite app_assoc.
  set (p := replicate 6 0 ++ _). assert (length p = 32%nat) as Hp.
  { subst p. rewrite length_app, length_drop, <- tagged_spec by (apply bytes_rev; apply Hh).
    by rewrite length_tagged_hash. }
  rewrite slice_app_r by lia. rewrite Hp, app_assoc. change (32 - 32)%nat with 0%nat.
  rewrite slice_app_l by len. rewrite slice_0, take_ge by len.
  rewrite le_val_app, !le_val_le_bytes, length_le_bytes. destruct Hh.
  rewrite !Z.mod_small by done. done.
Qed.

(** ** Properties *)

(** C20: [compact_to_target_shifted] is the 256-bit big-endian encoding of the
    number that the compact bits stand for, times [2^shift], modulo [2^256], for
    any exponent, sign bit included; the 64-bit word that goes to the FPGA is the
    top of it. *)
Theorem compact_to_target_shifted_value (nBits shift : Z) :
  is_word 32 nBits -> 0 <= shift < 2 ^ 31 - 2048 ->
  array 32 (compact_to_target_shifted nBits shift)
  /\ be_val (compact_to_target_shifted nBits shift) = Spec.target nBits shift
  /\ target_top64_from_bits nBits shift = Spec.target nBits shift / 2 ^ 192.
Proof.
  intros Hn Hs. destruct (compact_target_spec nBits shift Hn ltac:(lia)) as [Ha Hv].
  split; [done|]. split; [done|]. apply target_top64_spec; [done|lia].
Qed.

Lemma compact_to_target_shifted_value_witness :
  array 32 (compact_to_target_shifted 0x1903c2d4 22)
  /\ be_val (compact_to_target_shifted 0x1903c2d4 22) = Spec.target 0x1903c2d4 22
  /\ target_top64_from_bits 0x1903c2d4 22 = Spec.target 0x1903c2d4 22 / 2 ^ 192.
Proof. apply (compact_to_target_shifted_value 0x1903c2d4 22); [by_compute|lia]. Defined.

(** C21: the 64-bit prefilter loses no solution: a hash that meets the target has
    top 64 bits at most [target_top64_from_bits], and a hash whose top 64 bits
    are strictly below it meets the target. *)
Theorem prefilter_sound (nBits shift : Z) (hash : list Z) :
  is_word 32 nBits -> 0 <= shift < 2 ^ 31 - 2048 -> array 32 hash ->
  let target := compact_to_target_shifted nBits shift in
  (hash_meets_target hash target = true ->
   be_val (take 8 hash) <= target_top64_from_bits nBits shift)
  /\ (be_val (take 8 hash) < target_top64_from_bits nBits shift ->
      hash_meets_target hash target = true).
Proof.
  intros Hn Hs Hh target. destruct (compact_target_spec nBits shift Hn ltac:(lia)) as [Ha Hv].
  unfold target. rewrite hash_meets_target_spec, target_top64_spec, top64_div, Hv by (done || lia).
  split.
  - intros ?%Z.leb_le. by apply Z.div_le_mono.
  - intros Hlt. apply Z.leb_le. destruct (Z.le_gt_cases (be_val hash) (Spec.target nBits shift)) as [|Hgt]; [done|].
    apply Z.lt_le_incl, (Z.div_le_mono _ _ (2 ^ 192)) in Hgt; lia.
Qed.

Lemma prefilter_sound_witness :
  let hash := replicate 8 0 ++ replicate 24 0xff in
  let target := compact_to_target_shifted 0x1903c2d4 22 in
  (hash_meets_target hash target = true ->
   be_val (take 8 hash) <= target_top64_from_bits 0x1903c2d4 22)
  /\ (be_val (take 8 hash) < target_top64_from_bits 0x1903c2d4 22 ->
      hash_meets_target hash target = true).
Proof.
  apply (prefilter_sound 0x1903c2d4 22 (replicate 8 0 ++ replicate 24 0xff));
    [by_compute|lia|by_compute].
Defined.

(** C2: [get_pow_hash] is the fork's proof-of-work hash, computed by FIPS 180-4
    tagged hashes and RFC 7693 BLAKE2b with the key's mask truncated to its low
    [256 - m_xor_key_mask_clear_bits] bits, in byte-reversed order; a header in
    any other mode is refused with -1, and no other error occurs. *)
Theorem get_pow_hash_is_spec (h : knots_header) :
  wf_header h ->
  get_pow_hash h = if m_flags h .& 3 =? 0 then inr (Spec.pow_hash h) else inl (-1).
Proof. apply get_pow_hash_spec. Qed.

(** The header of [selftest_vectors] with a key, all of whose mask but three bits
    and one byte is used. *)
Definition example_header : knots_header :=
  KnotsHeader 0x20000000 (seqZ 0 32) (seqZ 100 32) 1700000000 0x1903c2d4 7 8 9
    (seqZ 5 16) 600 3 4 11 (seqZ 1 16) 969859 (seqZ 60 32).
Lemma wf_example_header : wf_header example_header.
Proof. constructor; solve [by_compute | cbn; lia]. Qed.

Lemma get_pow_hash_is_spec_witness :
  get_pow_hash example_header = inr (Spec.pow_hash example_header).
Proof. apply (get_pow_hash_is_spec example_header). exact wf_example_header. Defined.

(** [build_work_item] writes the 52-byte stage 3 message zero-padded to ten
    64-bit slots, the 80-byte stage 4 message and the target as a little-endian
    word, 168 bytes in all, from which the target reads back; stage 4 carries the
    nonces, and a header in another mode is refused with -1. *)
Theorem build_work_item_layout (h : knots_header) (target_top64 : Z) :
  wf_header h -> is_word 64 target_top64 ->
  if m_flags h .& 3 =? 0 then
    exists item, build_work_item h target_top64 = inr item
    /\ array WORK_ITEM_LEN item
    /\ slice 0 80 item = Spec.stage3 h ++ replicate 28 0
    /\ slice 80 80 item = Spec.stage4 h
    /\ get_le64 (slice 160 8 item) = target_top64
    /\ get_le64 (slice 112 8 item) = nNonce h + 2 ^ 32 * m_nonce2 h
  else build_work_item h target_top64 = inl (-1).
Proof.
  intros Hh Ht. rewrite build_work_item_spec by done.
  destruct (array_stage3 h Hh) as [H3 B3]. destruct (array_stage4 h Hh) as [H4 B4].
  unfold STAGE3_LEN, STAGE4_LEN in *.
  destruct (m_flags h .& 3 =? 0); [|done]. eexists. split; [reflexivity|].
  pose proof (nonce_slot h Hh) as Hn. revert H3 B3 H4 B4 Hn.
  generalize (Spec.stage3 h) (Spec.stage4 h). intros a b H3 B3 H4 B4 Hn.
  set (z := replicate 28 0). assert (length z = 28%nat) as Hz by done.
  split; [split|].
  - unfold WORK_ITEM_LEN. lens. lia.
  - repeat (apply Forall_app; split); [done|apply bytes_zeros|done|apply bytes_le_bytes].
  - rewrite app_assoc. rewrite (slice_app_l 0 80) by len.
    rewrite slice_0, take_ge by len. split; [done|].
    rewrite (slice_app_r 80 80) by len. rewrite length_app, H3, Hz.
    rewrite (slice_app_l _ 80) by len. change (80 - (52 + 28))%nat with 0%nat.
    rewrite slice_0, take_ge by len. split; [done|].
    rewrite (slice_app_r 160 8), (slice_app_r _ 8) by len.
    rewrite length_app, H3, Hz, H4. change (160 - (52 + 28) - 80)%nat with 0%nat.
    rewrite slice_0, take_ge by len. split.
    + rewrite <- (app_nil_r (le_bytes _ _)), <- put_le64_spec. by apply get_put_le64.
    + rewrite (slice_app_r 112 8) by len. rewrite length_app, H3, Hz.
      rewrite (slice_app_l _ 8) by len. exact Hn.
Qed.

Lemma build_work_item_layout_witness :
  exists item, build_work_item example_header 0xf0b500 = inr item
    /\ array WORK_ITEM_LEN item
    /\ slice 0 80 item = Spec.stage3 example_header ++ replicate 28 0
    /\ slice 80 80 item = Spec.stage4 example_header
    /\ get_le64 (slice 160 8 item) = 0xf0b500
    /\ get_le64 (slice 112 8 item) = 7 + 2 ^ 32 * 8.
Proof.
  exact (build_work_item_layout example_header 0xf0b500 wf_example_header ltac:(by_compute)).
Defined.
End WorkItem.
