(* ===== verification/Block.v ===== *)
(** * Block serialisation (src/miner/block.c)

    The 164-byte v2 header and the full block as [submitblock] takes it. A
    function that fills a caller's buffer of [outsz] bytes returns the bytes it
    writes from the start of it; their number is the C return value, and [None]
    is the return value -1. The reference is the reader of the same wire format. *)
From S2P Require Import Prelude Sha256 Blake2b WorkItem.

Module Block.
Import WorkItem.

Definition BLOCK_HEADER_V2_LEN : nat := 164.

Definition put_u16le (v : Z) : list Z := [u8 v; u8 (v ≫ 8)].
Definition put_u32le (v : Z) : list Z := [u8 v; u8 (v ≫ 8); u8 (v ≫ 16); u8 (v ≫ 24)].

(** CompactSize of a [uint64_t]. *)
Definition put_compact (v : Z) : list Z :=
  if v <? 0xfd then [u8 v]
  else if v <=? 0xffff then 0xfd :: put_u16le (u16 v)
  else if v <=? 0xffffffff then 0xfe :: put_u32le (u32 v)
  else 0xff :: ((fun i => u8 (v ≫ (8 * Z.of_nat i))) <$> seq 0 8).

(** What [block_serialize_header] writes, in order. *)
Definition header_bytes (h : knots_header) : list Z :=
  put_u32le (knots_complete_version h) ++ hashPrevBlock h ++ hashMerkleRoot h
  ++ put_u32le (knots_time_on_wire h) ++ put_u32le (nBits h) ++ put_u32le (nNonce h)
  ++ put_u32le (m_nonce2 h) ++ put_u32le (m_nonce3 h) ++ m_extranonce h
  ++ put_u32le (m_time_offset h) ++ put_u16le (m_txcount h)
  ++ [m_flags h] ++ [m_xor_key_mask_clear_bits h] ++ m_xor_key h
  ++ put_u32le (u32 (m_height h)) ++ m_mm_rhs h.

Definition block_serialize_header (h : knots_header) (outsz : nat) : option (list Z) :=
  if (outsz <? BLOCK_HEADER_V2_LEN)%nat then None else Some (header_bytes h).

Definition block_serialize (h : knots_header) (coinbase_raw tx_data : list Z)
    (tx_count : Z) (outsz : nat) : option (list Z) :=
  if (outsz <? BLOCK_HEADER_V2_LEN + 9 + length coinbase_raw + length tx_data)%nat then None
  else
    match block_serialize_header h outsz with
    | None => None
    | Some hdr => Some (hdr ++ put_compact (u64 (tx_count + 1)) ++ coinbase_raw ++ tx_data)
    end.

(** ** The reader *)
Module Spec.
(** Split off [n] bytes. *)
Definition bytes_of (n : nat) (l : list Z) : option (list Z * list Z) :=
  if (n <=? length l)%nat then Some (take n l, drop n l) else None.
Definition int_of (n : nat) (l : list Z) : option (Z * list Z) :=
  '(b, l) ← bytes_of n l; Some (le_val b, l).

(** CompactSize, refusing non-canonical (longer than needed) encodings. *)
Definition compact_of (l : list Z) : option (Z * list Z) :=
  '(tag, l) ← int_of 1 l;
  if tag <? 253 then Some (tag, l)
  else
    let width := if tag =? 253 then 2%nat else if tag =? 254 then 4%nat else 8%nat in
    let least := if tag =? 253 then 253 else if tag =? 254 then 2 ^ 16 else 2 ^ 32 in
    '(v, l) ← int_of width l;
    if v <? least then None else Some (v, l).

Definition signed32 (v : Z) : Z := if v <? 2 ^ 31 then v else v - 2 ^ 32.

(** The time offset is added back when the flag says that it was subtracted. *)
Definition header_of (l : list Z) : option (knots_header * list Z) :=
  '(version, l) ← int_of 4 l; '(prev, l) ← bytes_of 32 l; '(merkle, l) ← bytes_of 32 l;
  '(time, l) ← int_of 4 l; '(bits, l) ← int_of 4 l; '(nonce1, l) ← int_of 4 l;
  '(nonce2, l) ← int_of 4 l; '(nonce3, l) ← int_of 4 l; '(extra, l) ← bytes_of 16 l;
  '(offset, l) ← int_of 4 l; '(ntx, l) ← int_of 2 l; '(flags, l) ← int_of 1 l;
  '(clear, l) ← int_of 1 l; '(key, l) ← bytes_of 16 l; '(height, l) ← int_of 4 l;
  '(rhs, l) ← bytes_of 32 l;
  let t := if Z.testbit flags 2 then (time + offset) mod 2 ^ 32 else time in
  Some (KnotsHeader version prev merkle t bits nonce1 nonce2 nonce3 extra offset
          ntx flags clear key (signed32 height) rhs, l).

(** A block: the header, the number of transactions, and their bytes. *)
Definition block_of (l : list Z) : option (knots_header * Z * list Z) :=
  '(h, l) ← header_of l; '(n, l) ← compact_of l; Some (h, n, l).
End Spec.

(** The header as the network stores it: the v2 flag folded into the version. *)
Definition with_version (h : knots_header) : knots_header :=
  KnotsHeader (knots_complete_version h) (hashPrevBlock h) (hashMerkleRoot h) (nTime h)
    (nBits h) (nNonce h) (m_nonce2 h) (m_nonce3 h) (m_extranonce h) (m_time_offset h)
    (m_txcount h) (m_flags h) (m_xor_key_mask_clear_bits h) (m_xor_key h) (m_height h)
    (m_mm_rhs h).

(** ** Reading back each field *)
Lemma put_u32le_spec v : put_u32le v = le_bytes 4 v.
Proof. done. Qed.
Lemma put_u16le_spec v : put_u16le v = le_bytes 2 v.
Proof. done. Qed.
Lemma bytes_of_app n a l : length a = n -> Spec.bytes_of n (a ++ l) = Some (a, l).
Proof.
  intros <-. unfold Spec.bytes_of. destruct (Nat.leb_spec (length a) (length (a ++ l))).
  - by rewrite take_app_length, drop_app_length.
  - rewrite length_app in *. lia.
Qed.
Lemma int_of_app n v l :
  is_word (8 * Z.of_nat n) v -> Spec.int_of n (le_bytes n v ++ l) = Some (v, l).
Proof.
  intros Hv. unfold Spec.int_of. rewrite bytes_of_app by apply length_le_bytes.
  cbn. rewrite le_val_le_bytes. by rewrite Z.mod_small.
Qed.
Lemma int_of_byte v l : is_byte v -> Spec.int_of 1 ([v] ++ l) = Some (v, l).
Proof.
  intros Hv. assert ([v] = le_bytes 1 v) as ->; [|by apply int_of_app].
  rewrite le_bytes_S. by rewrite u8_small.
Qed.

Lemma compact_of_long (tag least : Z) (width : nat) (l : list Z) (v : Z) :
  In (tag, width, least) [(253, 2%nat, 253); (254, 4%nat, 2 ^ 16); (255, 8%nat, 2 ^ 32)] ->
  is_word (8 * Z.of_nat width) v -> least <= v ->
  Spec.compact_of (([tag] ++ le_bytes width v) ++ l) = Some (v, l).
Proof.
  intros Hin Hv Hle. rewrite <- app_assoc. unfold Spec.compact_of.
  rewrite int_of_byte by (destruct Hin as [[= <- _ _]|[[= <- _ _]|[[= <- _ _]|[]]]]; done).
  cbn [mbind option_bind].
  destruct Hin as [[= <- <- <-]|[[= <- <- <-]|[[= <- <- <-]|[]]]];
    cbn beta iota delta [Z.ltb Z.eqb Z.compare Pos.compare Pos.compare_cont Pos.eqb];
    rewrite int_of_app by done; cbn [mbind option_bind];
    by rewrite (proj2 (Z.ltb_ge _ _)).
Qed.

Lemma compact_of_app v l :
  is_word 64 v -> Spec.compact_of (put_compact v ++ l) = Some (v, l).
Proof.
  intros Hv. unfold put_compact, is_word in *. destruct (Z.ltb_spec v 253).
  { unfold Spec.compact_of.
    rewrite u8_small, int_of_byte by (unfold is_word; lia). cbn [mbind option_bind].
    by rewrite (proj2 (Z.ltb_lt _ _)). }
  destruct (Z.leb_spec v 65535).
  { rewrite u16_small by (unfold is_word; lia).
    apply (compact_of_long 253 253 2); [left; done|unfold is_word; lia|done]. }
  destruct (Z.leb_spec v 4294967295).
  { rewrite u32_small by (unfold is_word; lia).
    apply (compact_of_long 254 (2 ^ 16) 4); [right; left; done|unfold is_word; lia|lia]. }
  apply (compact_of_long 255 (2 ^ 32) 8); [do 2 right; left; done|done|lia].
Qed.
Lemma length_put_compact v : (1 <= length (put_compact v) <= 9)%nat.
Proof. unfold put_compact. repeat case_match; cbn; lia. Qed.

Lemma signed32_u32 v : - 2 ^ 31 <= v < 2 ^ 31 -> Spec.signed32 (u32 v) = v.
Proof.
  intros Hv. unfold Spec.signed32. rewrite u32_mod.
  destruct (Z.ltb_spec (v mod 2 ^ 32) (2 ^ 31)); Z.div_mod_to_equations; lia.
Qed.

Lemma unwire_time h :
  is_word 32 (nTime h) ->
  (if Z.testbit (m_flags h) 2 then (knots_time_on_wire h + m_time_offset h) mod 2 ^ 32
   else knots_time_on_wire h) = nTime h.
Proof.
  intros Ht. rewrite time_on_wire_spec by done. unfold WorkItem.Spec.wire_time.
  destruct (Z.testbit (m_flags h) 2).
  - rewrite Zplus_mod_idemp_l. rewrite Z.sub_add. by apply Z.mod_small.
  - rewrite Z.sub_0_r. by apply Z.mod_small.
Qed.

Lemma complete_version_word h : is_word 32 (nVersion h) -> is_word 32 (knots_complete_version h).
Proof.
  intros Hv. rewrite complete_version_spec by done. unfold WorkItem.Spec.version, is_word in *.
  pose proof (Z.mod_pos_bound (nVersion h) (2 ^ 31) ltac:(lia)). lia.
Qed.
Lemma time_on_wire_word h : is_word 32 (nTime h) -> is_word 32 (knots_time_on_wire h).
Proof.
  intros Ht. rewrite time_on_wire_spec by done. apply Z.mod_pos_bound. lia.
Qed.

(** The field lemmas, in the order of the record. *)
#[local] Ltac read_field :=
  first [ rewrite int_of_app by first [done|apply u32_word]
        | rewrite bytes_of_app by done | rewrite int_of_byte by done ]; cbn [mbind option_bind].

Lemma array_header_bytes h : wf_header h -> array BLOCK_HEADER_V2_LEN (header_bytes h).
Proof.
  intros []. repeat match goal with H : array _ _ |- _ => destruct H end.
  unfold header_bytes. split; [unfold BLOCK_HEADER_V2_LEN; lens; lia|].
  repeat first [assumption|apply u8_word|apply Forall_app; split
      |apply Forall_cons; split|apply Forall_nil].
  all: exact I.
Qed.

Lemma header_of_bytes h rest :
  wf_header h -> Spec.header_of (header_bytes h ++ rest) = Some (with_version h, rest).
Proof.
  intros Hh. pose proof (complete_version_word h ltac:(apply Hh)).
  pose proof (time_on_wire_word h ltac:(apply Hh)).
  pose proof (unwire_time h ltac:(apply Hh)) as Ht. destruct Hh.
  repeat match goal with H : array _ _ |- _ => destruct H end.
  unfold Spec.header_of, header_bytes. rewrite <- !app_assoc, !put_u32le_spec, put_u16le_spec.
  repeat read_field. cbn beta iota zeta. rewrite Ht, signed32_u32 by done. reflexivity.
Qed.

(** ** The header that is submitted has the hash that was mined *)
Lemma with_version_version h :
  is_word 32 (nVersion h) -> WorkItem.Spec.version (with_version h) = WorkItem.Spec.version h.
Proof.
  intros Hv. unfold WorkItem.Spec.version at 1. unfold with_version. cbn [nVersion].
  rewrite complete_version_spec by done. unfold WorkItem.Spec.version.
  rewrite <- Zplus_mod_idemp_l, Z_mod_same_full, Z.add_0_l, Z.mod_mod by lia. done.
Qed.
Lemma wf_with_version h : wf_header h -> wf_header (with_version h).
Proof.
  intros Hh. pose proof (complete_version_word h ltac:(apply Hh)). by destruct Hh.
Qed.
Lemma stage1_with_version h :
  is_word 32 (nVersion h) -> WorkItem.Spec.stage1 (with_version h) = WorkItem.Spec.stage1 h.
Proof.
  intros Hv. unfold WorkItem.Spec.stage1. rewrite with_version_version by done.
  unfold WorkItem.Spec.wire_time. unfold with_version.
  cbn [hashPrevBlock hashMerkleRoot nTime m_flags m_time_offset m_height nBits m_txcount
       m_xor_key_mask_clear_bits m_xor_key]. reflexivity.
Qed.
Lemma stage3_with_version h :
  is_word 32 (nVersion h) -> WorkItem.Spec.stage3 (with_version h) = WorkItem.Spec.stage3 h.
Proof.
  intros Hv. unfold WorkItem.Spec.stage3, WorkItem.Spec.stage2.
  rewrite stage1_with_version by done. unfold with_version.
  cbn [m_mm_rhs m_extranonce]. reflexivity.
Qed.
Lemma pow_hash_with_version h :
  wf_header h -> get_pow_hash (with_version h) = get_pow_hash h.
Proof.
  intros Hh. rewrite !get_pow_hash_spec by first [done|by apply wf_with_version].
  unfold WorkItem.Spec.pow_hash, WorkItem.Spec.stage4, WorkItem.Spec.mask.
  rewrite stage3_with_version by apply Hh. unfold with_version.
  cbn [hashPrevBlock m_flags nNonce m_nonce2 m_nonce3 m_time_offset m_xor_key
       m_xor_key_mask_clear_bits]. reflexivity.
Qed.

(** ** Properties *)

(** The serialised header is 164 bytes, a node reads it back as the same
    header with the v2 version flag (the time offset undone), and the header it
    reads has the proof-of-work hash that was mined; a buffer of fewer than 164
    bytes is refused and not written. *)
Theorem block_header_roundtrip (h : knots_header) (outsz : nat) (rest : list Z) :
  wf_header h ->
  if (outsz <? 164)%nat then block_serialize_header h outsz = None
  else exists hdr, block_serialize_header h outsz = Some hdr /\ array 164 hdr
    /\ Spec.header_of (hdr ++ rest) = Some (with_version h, rest)
    /\ get_pow_hash (with_version h) = get_pow_hash h.
Proof.
  intros Hh. unfold block_serialize_header, BLOCK_HEADER_V2_LEN.
  destruct (outsz <? 164)%nat; [done|]. eexists. split; [reflexivity|].
  split; [by apply array_header_bytes|]. split; [by apply header_of_bytes|].
  by apply pow_hash_with_version.
Qed.

Lemma block_header_roundtrip_witness :
  exists hdr, block_serialize_header example_header 164 = Some hdr /\ array 164 hdr
    /\ Spec.header_of (hdr ++ [1; 2]) = Some (with_version example_header, [1; 2])
    /\ get_pow_hash (with_version example_header) = get_pow_hash example_header.
Proof. exact (block_header_roundtrip example_header 164 [1; 2] wf_example_header). Defined.

Lemma block_serialize_reads h coinbase_raw tx_data tx_count outsz :
  wf_header h -> 0 <= tx_count < 2 ^ 32 - 1 ->
  if (outsz <? 164 + 9 + length coinbase_raw + length tx_data)%nat
  then block_serialize h coinbase_raw tx_data tx_count outsz = None
  else exists blk, block_serialize h coinbase_raw tx_data tx_count outsz = Some blk
    /\ (length blk <= outsz)%nat
    /\ Spec.block_of blk = Some (with_version h, tx_count + 1, coinbase_raw ++ tx_data).
Proof.
  intros Hh Ht. unfold block_serialize, block_serialize_header, BLOCK_HEADER_V2_LEN.
  destruct (Nat.ltb_spec outsz (164 + 9 + length coinbase_raw + length tx_data)); [done|].
  destruct (Nat.ltb_spec outsz 164); [lia|]. eexists. split; [reflexivity|].
  destruct (array_header_bytes h Hh) as [Hl _]. unfold BLOCK_HEADER_V2_LEN in Hl. split.
  - rewrite !length_app, Hl. pose proof (length_put_compact (u64 (tx_count + 1))). lia.
  - unfold Spec.block_of. rewrite header_of_bytes by done. cbn [mbind option_bind].
    rewrite compact_of_app by apply u64_word. cbn [mbind option_bind].
    by rewrite u64_small by (unfold is_word; lia).
Qed.

(** C25: whenever [block_serialize] succeeds it writes at most [outsz] bytes, and
    a node reads from them the header, the number of transactions counting the
    coinbase, and exactly the bytes of the coinbase and of the template's
    transactions; it succeeds whenever the buffer has room for the longest
    transaction count. *)
Theorem block_serialize_roundtrip (h : knots_header) (coinbase_raw tx_data : list Z)
    (tx_count : Z) (outsz : nat) :
  wf_header h -> 0 <= tx_count < 2 ^ 32 - 1 ->
  if (outsz <? 164 + 9 + length coinbase_raw + length tx_data)%nat
  then block_serialize h coinbase_raw tx_data tx_count outsz = None
  else exists blk, block_serialize h coinbase_raw tx_data tx_count outsz = Some blk
    /\ (length blk <= outsz)%nat
    /\ Spec.block_of blk = Some (with_version h, tx_count + 1, coinbase_raw ++ tx_data).
Proof. apply block_serialize_reads. Qed.

Lemma block_serialize_roundtrip_witness :
  exists blk, block_serialize example_header [1; 2; 3] [4; 5] 299 200 = Some blk
    /\ (length blk <= 200)%nat
    /\ Spec.block_of blk = Some (with_version example_header, 300, [1; 2; 3; 4; 5]).
Proof.
  apply (block_serialize_roundtrip example_header [1; 2; 3] [4; 5] 299 200);
    [exact wf_example_header|lia].
Defined.
End Block.
