(* ===== verification/Merkle.v ===== *)
(** * Merkle root (src/miner/merkle.c)

    The in-place reduction of an array of 32-byte ids, row by row, against the
    recursive definition of the hash of a tree node. [ids] is the caller's array
    as a list of its 32-byte entries. *)
From S2P Require Import Prelude Sha256.

Module Merkle.
Import Sha256.

(** One iteration of the inner loop: entry [i] becomes the hash of the pair. *)
Definition merkle_pair (count : nat) (ids : list (list Z)) (i : nat) : list (list Z) :=
  let left := ids !!! (2 * i)%nat in
  let right := if (2 * i + 1 <? count)%nat then ids !!! (2 * i + 1)%nat else ids !!! (2 * i)%nat in
  <[i := sha256d (left ++ right)]> ids.

Definition merkle_row (count : nat) (ids : list (list Z)) : list (list Z) :=
  foldl (merkle_pair count) ids (seq 0 ((count + 1) / 2)).

(** [while (count > 1)], with fuel; [None] is running out of it. *)
Fixpoint merkle_rows (fuel : nat) (ids : list (list Z)) (count : nat) : option (list (list Z)) :=
  if (1 <? count)%nat then
    match fuel with
    | O => None
    | S fuel => merkle_rows fuel (merkle_row count ids) ((count + 1) / 2)
    end
  else Some ids.

(** [inl (-1)] is the error return, [inr] the root that is copied out. *)
Definition merkle_root (ids : list (list Z)) (count : nat) : option (Z + list Z) :=
  if (count =? 0)%nat then Some (inl (-1))
  else ids ← merkle_rows count ids count; Some (inr (ids !!! 0%nat)).

(** ** The tree *)
Module Spec.
(** Number of nodes [height] levels above [n] leaves. *)
Definition width (n height : nat) : nat := (n + 2 ^ height - 1) / 2 ^ height.

(** The node at a height and position: a lone left child is its own sibling. *)
Fixpoint node (leaf : nat -> list Z) (n height pos : nat) : list Z :=
  match height with
  | O => leaf pos
  | S height =>
    let left := node leaf n height (2 * pos) in
    let right := if (2 * pos + 1 <? width n height)%nat
                 then node leaf n height (2 * pos + 1) else left in
    sha256d (left ++ right)
  end.
Definition root (leaf : nat -> list Z) (n : nat) : list Z :=
  node leaf n (Nat.log2_up n) 0.
End Spec.

(** ** The rows *)
Lemma width_S n k : (1 <= n)%nat -> Spec.width n (S k) = ((Spec.width n k + 1) / 2)%nat.
Proof.
  intros Hn. unfold Spec.width. cbn [Nat.pow].
  assert (2 ^ k <> 0)%nat as Hp by (apply Nat.pow_nonzero; lia). set (p := (2 ^ k)%nat) in *.
  rewrite (Nat.mul_comm 2 p), <- Nat.Div0.div_div. f_equal.
  replace (n + p * 2 - 1)%nat with ((n + p - 1) + 1 * p)%nat by lia.
  by rewrite Nat.div_add.
Qed.
Lemma width_0 n : Spec.width n 0 = n.
Proof. unfold Spec.width. cbn [Nat.pow]. rewrite Nat.div_1_r. lia. Qed.
Lemma width_pos n k : (1 <= n)%nat -> (1 <= Spec.width n k)%nat.
Proof.
  intros Hn. unfold Spec.width. assert (2 ^ k <> 0)%nat by (apply Nat.pow_nonzero; lia).
  apply Nat.div_le_lower_bound; lia.
Qed.
Lemma width_le_1 n k : (1 <= n)%nat -> (Spec.width n k <= 1)%nat <-> (Nat.log2_up n <= k)%nat.
Proof.
  intros Hn. rewrite <- Nat.log2_up_le_pow2 by lia. unfold Spec.width.
  assert (2 ^ k <> 0)%nat by (apply Nat.pow_nonzero; lia). set (p := (2 ^ k)%nat) in *. split.
  - intros Hw. destruct (Nat.le_gt_cases n p); [done|].
    assert (2 <= (n + p - 1) / p)%nat by (apply Nat.div_le_lower_bound; lia). lia.
  - intros Hp. apply Nat.lt_succ_r, Nat.Div0.div_lt_upper_bound. lia.
Qed.
Lemma half_bounds c : (2 <= c)%nat ->
  (1 <= (c + 1) / 2 < c)%nat /\ (2 * ((c + 1) / 2) <= c + 1)%nat.
Proof.
  intros Hc. pose proof (Nat.div_mod (c + 1) 2). pose proof (Nat.mod_upper_bound (c + 1) 2). lia.
Qed.

(** The writes stay behind the reads: entry [j] of the new row is computed from
    the old row. *)
Lemma merkle_row_prefix count ids k j :
  (2 * k <= count + 1)%nat -> (count <= length ids)%nat -> (1 <= count)%nat ->
  let ids' := foldl (merkle_pair count) ids (seq 0 k) in
  length ids' = length ids /\
  ids' !!! j = if (j <? k)%nat
    then sha256d (ids !!! (2 * j)%nat ++
           (if (2 * j + 1 <? count)%nat then ids !!! (2 * j + 1)%nat else ids !!! (2 * j)%nat))
    else ids !!! j.
Proof.
  intros Hk Hl Hc. revert j. induction k as [|k IH]; intros j; [done|].
  specialize (IH ltac:(lia)). cbv zeta in *. rewrite seq_S, foldl_app, Nat.add_0_l.
  cbn [foldl]. set (ids' := foldl _ _ _) in *. unfold merkle_pair.
  split; [rewrite length_insert; by apply (IH 0%nat)|].
  destruct (decide (j = k)) as [->|Hne].
  - rewrite list_lookup_total_insert_eq by (rewrite (proj1 (IH 0%nat)); lia).
    rewrite !(proj2 (IH _)).
    destruct (Nat.ltb_spec k (S k)), (Nat.ltb_spec (2 * k) k), (Nat.ltb_spec (2 * k + 1) k); lia || done.
  - rewrite list_lookup_total_insert_ne by done. rewrite (proj2 (IH _)).
    destruct (Nat.ltb_spec j k), (Nat.ltb_spec j (S k)); lia || done.
Qed.

(** [ids] holds the nodes of a height. *)
Definition holds (leaf : nat -> list Z) (n k : nat) (ids : list (list Z)) : Prop :=
  (Spec.width n k <= length ids)%nat /\
  forall i, (i < Spec.width n k)%nat -> ids !!! i = Spec.node leaf n k i.

Lemma holds_row leaf n k ids :
  (2 <= Spec.width n k)%nat -> (1 <= n)%nat ->
  holds leaf n k ids -> holds leaf n (S k) (merkle_row (Spec.width n k) ids).
Proof.
  intros Hw Hn [Hl Hh]. destruct (half_bounds _ Hw) as [Hb1 Hb2].
  unfold holds. rewrite width_S by done. unfold merkle_row.
  set (c := Spec.width n k) in *. split.
  - destruct (merkle_row_prefix c ids ((c + 1) / 2) 0) as [-> _]; lia.
  - intros i Hi. destruct (merkle_row_prefix c ids ((c + 1) / 2) i) as [_ ->]; [lia..|].
    rewrite (proj2 (Nat.ltb_lt _ _)) by done. cbn [Spec.node]. fold c.
    rewrite (Hh (2 * i)%nat) by lia.
    destruct (Nat.ltb_spec (2 * i + 1) c); [by rewrite Hh|done].
Qed.

Lemma merkle_rows_spec leaf n fuel k ids :
  (1 <= n)%nat -> (Spec.width n k <= fuel)%nat -> (k <= Nat.log2_up n)%nat ->
  holds leaf n k ids ->
  exists ids', merkle_rows fuel ids (Spec.width n k) = Some ids'
    /\ ids' !!! 0%nat = Spec.root leaf n.
Proof.
  intros Hn. revert k ids. induction fuel as [|fuel IH]; intros k ids Hf Hk Hh.
  { pose proof (width_pos n k Hn). lia. }
  cbn [merkle_rows]. destruct (Nat.ltb_spec 1 (Spec.width n k)) as [Hw|Hw].
  - rewrite <- width_S by done. destruct (half_bounds _ Hw).
    apply IH; [rewrite width_S by done; lia| |by apply holds_row].
    destruct (Nat.le_gt_cases (Nat.log2_up n) k) as [Hle|]; [|lia].
    apply width_le_1 in Hle; lia.
  - exists ids. split; [done|]. apply width_le_1 in Hw; [|done].
    unfold Spec.root. replace (Nat.log2_up n) with k by lia.
    apply Hh. pose proof (width_pos n k Hn). lia.
Qed.

Lemma merkle_root_spec ids count :
  (1 <= count <= length ids)%nat ->
  merkle_root ids count = Some (inr (Spec.root (fun i => ids !!! i) count)).
Proof.
  intros Hc. unfold merkle_root. destruct (Nat.eqb_spec count 0); [lia|].
  destruct (merkle_rows_spec (fun i => ids !!! i) count count 0 ids) as (ids' & He & Hr);
    [lia|by rewrite width_0|lia| |].
  - split; rewrite width_0; [lia|done].
  - rewrite width_0 in He. rewrite He. cbn [mbind option_bind]. by rewrite Hr.
Qed.

(** ** Repeating the last leaf of an odd row *)
Lemma width_odd m k : Spec.width (2 * m + 1) (S k) = Spec.width (2 * m + 2) (S k).
Proof.
  unfold Spec.width. cbn [Nat.pow]. set (p := (2 ^ k)%nat).
  assert (p <> 0)%nat by (apply Nat.pow_nonzero; lia).
  replace (2 * m + 1 + 2 * p - 1)%nat with (0 + (m + p) * 2)%nat by lia.
  replace (2 * m + 2 + 2 * p - 1)%nat with (1 + (m + p) * 2)%nat by lia.
  rewrite <- !Nat.Div0.div_div, !Nat.div_add by lia. done.
Qed.

Lemma node_odd leaf leaf' m k pos :
  (forall i, (i < 2 * m + 1)%nat -> leaf' i = leaf i) -> leaf' (2 * m + 1)%nat = leaf (2 * m)%nat ->
  (pos < Spec.width (2 * m + 1) (S k))%nat ->
  Spec.node leaf' (2 * m + 2) (S k) pos = Spec.node leaf (2 * m + 1) (S k) pos.
Proof.
  intros Hsame Hdup. revert pos. induction k as [|k IH]; intros pos Hpos.
  - rewrite width_S, width_0 in Hpos by lia.
    assert ((2 * m + 1 + 1) / 2 = m + 1)%nat as Hm
      by (replace (2 * m + 1 + 1)%nat with ((m + 1) * 2)%nat by lia; by apply Nat.div_mul).
    rewrite Hm in Hpos. cbn [Spec.node]. rewrite !width_0, (Hsame (2 * pos)%nat) by lia.
    destruct (Nat.ltb_spec (2 * pos + 1) (2 * m + 1)), (Nat.ltb_spec (2 * pos + 1) (2 * m + 2));
      try lia; [by rewrite Hsame by lia|].
    replace pos with m by lia. by rewrite Hdup.
  - rewrite width_S in Hpos by lia. set (w := Spec.width (2 * m + 1) (S k)) in *.
    pose proof (Nat.div_mod (w + 1) 2). pose proof (Nat.mod_upper_bound (w + 1) 2).
    change (Spec.node leaf' (2 * m + 2) (S (S k)) pos)
      with (let left := Spec.node leaf' (2 * m + 2) (S k) (2 * pos) in
            sha256d (left ++ if (2 * pos + 1 <? Spec.width (2 * m + 2) (S k))%nat
              then Spec.node leaf' (2 * m + 2) (S k) (2 * pos + 1) else left)).
    change (Spec.node leaf (2 * m + 1) (S (S k)) pos)
      with (let left := Spec.node leaf (2 * m + 1) (S k) (2 * pos) in
            sha256d (left ++ if (2 * pos + 1 <? w)%nat
              then Spec.node leaf (2 * m + 1) (S k) (2 * pos + 1) else left)).
    cbv zeta. rewrite <- width_odd. fold w. rewrite IH by lia.
    destruct (Nat.ltb_spec (2 * pos + 1) w); [by rewrite IH|done].
Qed.

Lemma log2_up_odd m : (1 <= m)%nat -> Nat.log2_up (2 * m + 2) = Nat.log2_up (2 * m + 1).
Proof.
  intros Hm. assert (Nat.log2_up (2 * m + 1) <> 0)%nat as Hz.
  { intros H. pose proof (Nat.log2_up_pos (2 * m + 1)). lia. }
  assert (Nat.log2_up (2 * m + 1) <= Nat.log2_up (2 * m + 2))%nat by (apply Nat.log2_up_le_mono; lia).
  assert (Nat.log2_up (2 * m + 2) <= Nat.log2_up (2 * m + 1))%nat; [|lia].
  destruct (Nat.log2_up (2 * m + 1)) as [|k] eqn:E; [done|].
  apply width_le_1; [lia|]. rewrite <- width_odd. apply width_le_1; lia.
Qed.

Lemma root_odd leaf leaf' m :
  (1 <= m)%nat -> (forall i, (i < 2 * m + 1)%nat -> leaf' i = leaf i) ->
  leaf' (2 * m + 1)%nat = leaf (2 * m)%nat ->
  Spec.root leaf' (2 * m + 2) = Spec.root leaf (2 * m + 1).
Proof.
  intros Hm Hsame Hdup. unfold Spec.root. rewrite log2_up_odd by done.
  destruct (Nat.log2_up (2 * m + 1)) as [|k] eqn:E.
  { pose proof (Nat.log2_up_pos (2 * m + 1)). lia. }
  apply node_odd; [done..|]. pose proof (width_pos (2 * m + 1) (S k)). lia.
Qed.

Lemma root_array leaf n :
  array 32 (leaf 0%nat) -> array 32 (Spec.root leaf n).
Proof.
  intros Hl. unfold Spec.root. destruct (Nat.log2_up n) as [|h]; [done|]. cbn [Spec.node].
  split; [apply length_sha256d|apply bytes_sha256d].
Qed.

(** ** Properties *)

(** C19: for at least one id [merkle_root] terminates and returns the hash of the
    root node of the tree over them: the in-place row reduction never reads an
    entry it has overwritten, and a lone last node is paired with itself. With
    no ids it returns -1. *)
Theorem merkle_root_is_tree_root (ids : list (list Z)) (count : nat) :
  (count <= length ids)%nat ->
  merkle_root ids count =
    Some (if (count =? 0)%nat then inl (-1)
          else inr (Spec.root (fun i => ids !!! i) count)).
Proof.
  intros Hc. destruct (Nat.eqb_spec count 0) as [->|]; [done|].
  apply merkle_root_spec. lia.
Qed.

Lemma merkle_root_is_tree_root_witness :
  let ids := (fun b => replicate 32 b) <$> [1; 2; 3] in
  merkle_root ids 3 = Some (inr (Spec.root (fun i => ids !!! i) 3)).
Proof.
  exact (merkle_root_is_tree_root ((fun b => replicate 32 b) <$> [1; 2; 3]) 3 (le_n 3)).
Defined.

(** The consensus quirk of CVE-2012-2459 is reproduced: repeating the last of
    an odd number (three or more) of ids does not change the root. *)
Theorem merkle_root_duplicate_last (ids : list (list Z)) (m : nat) :
  (1 <= m)%nat -> length ids = (2 * m + 1)%nat ->
  merkle_root (ids ++ [ids !!! (2 * m)%nat]) (2 * m + 2) = merkle_root ids (2 * m + 1).
Proof.
  intros Hm Hl. rewrite !merkle_root_spec by (rewrite ?length_app; cbn [length]; lia).
  do 2 f_equal. apply root_odd; [done| |].
  - intros i Hi. apply lookup_total_app_l. lia.
  - rewrite lookup_total_app_r by lia. rewrite Hl, Nat.sub_diag. done.
Qed.

Lemma merkle_root_duplicate_last_witness :
  let ids := (fun b => replicate 32 b) <$> [1; 2; 3] in
  merkle_root (ids ++ [replicate 32 3]) 4 = merkle_root ids 3.
Proof.
  exact (merkle_root_duplicate_last ((fun b => replicate 32 b) <$> [1; 2; 3]) 1
    (le_n 1) eq_refl).
Defined.
End Merkle.
