(* ===== verification/Devfee.v ===== *)
(** * Developer fee (src/miner/devfee.c, devfee.h)

    The static counters as a record, one function per entry point, and the
    accounting they add up to. Strings are lists of character codes; a C string
    pointer that may be NULL is an [option]. *)
From S2P Require Import Prelude.

Module Devfee.
Local Open Scope word_scope.

Definition DEVFEE_INTERVAL : Z := 20.
Definition DEVFEE_ADDRESS : list Z := str "bc1qztsz84mn408vfklya05sgf8v4j2wtfrscszene".

Record counters := Counters {
  g_total : Z; g_dev : Z; g_current_is_dev : bool;
  g_pool_jobs : Z; g_pool_dev_jobs : Z; g_pool_skipped : Z; g_pool_shares : Z
}.

Definition devfee_reset : counters := Counters 0 0 false 0 0 0 0.

Definition devfee_next_payout (user_address : option (list Z)) (c : counters) : list Z * counters :=
  let total := g_total c +64 1 in
  let is_dev := total mod DEVFEE_INTERVAL =? 0 in
  let dev := if is_dev then g_dev c +64 1 else g_dev c in
  (if is_dev then DEVFEE_ADDRESS else default DEVFEE_ADDRESS user_address,
   Counters total dev is_dev (g_pool_jobs c) (g_pool_dev_jobs c) (g_pool_skipped c)
     (g_pool_shares c)).

Definition devfee_pool_epoch (c : counters) : bool * counters :=
  let jobs := g_pool_jobs c +64 1 in
  let is_dev := jobs mod DEVFEE_INTERVAL =? 0 in
  (is_dev,
   Counters (g_total c) (g_dev c) (g_current_is_dev c) jobs
     (if is_dev then g_pool_dev_jobs c +64 1 else g_pool_dev_jobs c)
     (g_pool_skipped c) (g_pool_shares c)).

Definition devfee_pool_skip (c : counters) : counters :=
  Counters (g_total c) (g_dev c) (g_current_is_dev c) (g_pool_jobs c) (g_pool_dev_jobs c)
    (g_pool_skipped c +64 1) (g_pool_shares c).
Definition devfee_pool_credit (c : counters) : counters :=
  Counters (g_total c) (g_dev c) (g_current_is_dev c) (g_pool_jobs c) (g_pool_dev_jobs c)
    (g_pool_skipped c) (g_pool_shares c +64 1).

(** ** Sequences of calls *)
Inductive call := NextPayout (user_address : option (list Z)) | PoolEpoch | PoolSkip | PoolCredit.

Definition step (c : counters) (k : call) : counters :=
  match k with
  | NextPayout a => snd (devfee_next_payout a c)
  | PoolEpoch => snd (devfee_pool_epoch c)
  | PoolSkip => devfee_pool_skip c
  | PoolCredit => devfee_pool_credit c
  end.
Definition run (ks : list call) : counters := foldl step devfee_reset ks.

(** The number of calls of a kind. *)
Definition is_payout (k : call) : bool := if k is NextPayout _ then true else false.
Definition is_epoch (k : call) : bool := if k is PoolEpoch then true else false.
Definition is_skip (k : call) : bool := if k is PoolSkip then true else false.
Definition is_credit (k : call) : bool := if k is PoolCredit then true else false.
Definition count (p : call -> bool) (ks : list call) : Z := Z.of_nat (length (List.filter p ks)).

Lemma count_snoc p ks k : count p (ks ++ [k]) = count p ks + if p k then 1 else 0.
Proof. unfold count. rewrite List.filter_app, length_app. cbn. destruct (p k); cbn; lia. Qed.
Lemma count_bound p ks : 0 <= count p ks <= Z.of_nat (length ks).
Proof.
  unfold count. induction ks as [|k ks IH]; [done|]. cbn. destruct (p k); cbn [length]; lia.
Qed.

Lemma div_interval n :
  0 <= n -> (n + 1) / 20 = n / 20 + if (n + 1) mod 20 =? 0 then 1 else 0.
Proof. intros. destruct (Z.eqb_spec ((n + 1) mod 20) 0); Z.div_mod_to_equations; lia. Qed.

Lemma run_snoc ks k : run (ks ++ [k]) = step (run ks) k.
Proof. unfold run. by rewrite foldl_app. Qed.

(** The counters are functions of the calls made since the reset. *)
Lemma run_counters ks :
  Z.of_nat (length ks) < 2 ^ 64 ->
  let c := run ks in
  g_total c = count is_payout ks /\ g_dev c = count is_payout ks / 20
  /\ g_pool_jobs c = count is_epoch ks /\ g_pool_dev_jobs c = count is_epoch ks / 20
  /\ g_pool_skipped c = count is_skip ks /\ g_pool_shares c = count is_credit ks.
Proof.
  induction ks as [|k ks IH] using rev_ind; intros Hl c; [done|].
  rewrite length_app in Hl. cbn [length] in Hl.
  destruct IH as (IH1 & IH2 & IH3 & IH4 & IH5 & IH6); [lia|].
  subst c. rewrite run_snoc, !count_snoc. destruct (run ks) as [t d u pj pd ps pc]; cbn in *. subst.
  assert (forall x, 0 <= x <= Z.of_nat (length ks) ->
    u64 (x + 1) = x + 1 /\ u64 (x / 20 + 1) = x / 20 + 1) as Hu.
  { intros x Hx. split; apply u64_small; unfold is_word; Z.div_mod_to_equations; lia. }
  assert (forall p, 0 <= count p ks <= Z.of_nat (length ks)) as Hb by (intros; apply count_bound).
  destruct k; cbn; unfold DEVFEE_INTERVAL;
    rewrite ?(proj1 (Hu _ (Hb is_payout))), ?(proj1 (Hu _ (Hb is_epoch))),
      ?(proj1 (Hu _ (Hb is_skip))), ?(proj1 (Hu _ (Hb is_credit)));
    rewrite ?Z.add_0_r, ?(div_interval _ (proj1 (Hb is_payout))),
      ?(div_interval _ (proj1 (Hb is_epoch)));
    repeat split; try done; case_match;
    rewrite ?(proj2 (Hu _ (Hb is_payout))), ?(proj2 (Hu _ (Hb is_epoch))), ?Z.add_0_r; done.
Qed.

(** ** Properties *)

(** The template fee is one in twenty: after any sequence of fewer than
    [2^64] calls since the reset, the next payout goes to the developer exactly
    when its number, counted from 1, is a multiple of 20, and otherwise to the
    operator's address (to the developer's when none is configured); the flag
    and the counters report it, and the pool counters are left alone. *)
Theorem template_fee_is_one_in_twenty (ks : list call) (user : option (list Z)) :
  Z.of_nat (length ks) < 2 ^ 64 - 1 ->
  let n := count is_payout ks + 1 in
  let '(address, c) := devfee_next_payout user (run ks) in
  address = (if n mod 20 =? 0 then DEVFEE_ADDRESS else default DEVFEE_ADDRESS user)
  /\ g_current_is_dev c = (n mod 20 =? 0)
  /\ g_total c = n /\ g_dev c = n / 20
  /\ g_pool_jobs c = count is_epoch ks /\ g_pool_dev_jobs c = count is_epoch ks / 20.
Proof.
  intros Hl n. destruct (run_counters ks ltac:(lia)) as (H1 & H2 & H3 & H4 & _).
  pose proof (run_counters (ks ++ [NextPayout user])) as Hs. rewrite run_snoc in Hs.
  cbv zeta in Hs. rewrite length_app, !count_snoc in Hs. cbn [length is_payout is_epoch step] in Hs.
  destruct Hs as (S1 & S2 & S3 & S4 & _); [lia|].
  destruct (devfee_next_payout user (run ks)) as [address c] eqn:E. cbn [snd] in *.
  assert (u64 (g_total (run ks) + 1) = n) as Hn.
  { rewrite H1. apply u64_small. pose proof (count_bound is_payout ks). unfold is_word. lia. }
  unfold devfee_next_payout in E. rewrite Hn in E. injection E as <- <-.
  cbn [g_total g_dev g_current_is_dev g_pool_jobs g_pool_dev_jobs] in *.
  unfold DEVFEE_INTERVAL in *. rewrite Z.add_0_r in *.
  repeat split; done.
Qed.

Lemma template_fee_is_one_in_twenty_witness :
  let ks := replicate 19 (NextPayout (Some (str "x"))) ++ [PoolEpoch] in
  let '(address, c) := devfee_next_payout (Some (str "x")) (run ks) in
  address = DEVFEE_ADDRESS /\ g_current_is_dev c = true /\ g_total c = 20 /\ g_dev c = 1
  /\ g_pool_jobs c = 1 /\ g_pool_dev_jobs c = 0.
Proof.
  exact (template_fee_is_one_in_twenty
    (replicate 19 (NextPayout (Some (str "x"))) ++ [PoolEpoch]) (Some (str "x")) ltac:(by vm_compute)).
Defined.

(** The pool fee is one job in twenty, kept apart from the template fee:
    after any sequence of fewer than [2^64] calls since the reset the pool
    counters are the numbers of epochs, a twentieth of them, skips and credits,
    and the next epoch is the developer's exactly when its number is a multiple
    of 20. *)
Theorem pool_fee_is_one_in_twenty (ks : list call) :
  Z.of_nat (length ks) < 2 ^ 64 - 1 ->
  let c := run ks in
  fst (devfee_pool_epoch c) = ((count is_epoch ks + 1) mod 20 =? 0)
  /\ g_pool_jobs c = count is_epoch ks /\ g_pool_dev_jobs c = count is_epoch ks / 20
  /\ g_pool_skipped c = count is_skip ks /\ g_pool_shares c = count is_credit ks
  /\ g_total (snd (devfee_pool_epoch c)) = count is_payout ks.
Proof.
  intros Hl c. destruct (run_counters ks ltac:(lia)) as (H1 & H2 & H3 & H4 & H5 & H6).
  subst c. repeat split; try done. unfold devfee_pool_epoch. cbn [fst]. rewrite H3.
  by rewrite u64_small by (pose proof (count_bound is_epoch ks); unfold is_word; lia).
Qed.

Lemma pool_fee_is_one_in_twenty_witness :
  let c := run (replicate 39 PoolEpoch ++ [PoolSkip; NextPayout None]) in
  fst (devfee_pool_epoch c) = true /\ g_pool_jobs c = 39 /\ g_pool_dev_jobs c = 1
  /\ g_pool_skipped c = 1 /\ g_pool_shares c = 0
  /\ g_total (snd (devfee_pool_epoch c)) = 1.
Proof.
  exact (pool_fee_is_one_in_twenty (replicate 39 PoolEpoch ++ [PoolSkip; NextPayout None])
    ltac:(by vm_compute)).
Defined.
End Devfee.
