(* ===== verification/Worksrc.v ===== *)
(** * The work source seam (src/miner/worksrc.c, worksrc.h)

    The context that a source fills, its packing into the wire item of either
    bitstream, and the static registry of sources. What a source's callbacks do
    is the business of the source; the registry only carries them, so their type
    is a parameter here. *)
From S2P Require Import Prelude Sha256 Blake2b WorkItem.

Module Worksrc.
Import WorkItem.
Local Open Scope word_scope.

Record work_ctx := WorkCtx {
  ss3 : list Z;
  ss4 : list Z;
  target_top64 : Z;
  valid : bool
}.

(** [on_candidate]'s return values. *)
Definition WORKSRC_CAND_BAD : Z := 0.
Definition WORKSRC_CAND_OK : Z := 1.
Definition WORKSRC_CAND_SOLUTION : Z := 2.

Definition put_target_le (v : Z) : list Z :=
  (fun i => u8 ((v ≫ (8 * Z.of_nat i)) .& 0xff)) <$> seq 0 8.

(** The 168-byte output buffer and the number of bytes to send. *)
Definition worksrc_pack_item (ctx : work_ctx) (item_len : nat) : list Z * nat :=
  let out := replicate WORK_ITEM_LEN 0 in
  if (item_len =? WORK_ITEM_LEN)%nat then
    let out := list_inserts 0 (take STAGE3_LEN (ss3 ctx)) out in
    let out := list_inserts (SLOTS * 8) (take STAGE4_LEN (ss4 ctx)) out in
    (list_inserts (2 * SLOTS * 8) (put_target_le (target_top64 ctx)) out, WORK_ITEM_LEN)
  else if (item_len =? STAGE4_LEN + 8)%nat then
    let out := list_inserts 0 (take STAGE4_LEN (ss4 ctx)) out in
    (list_inserts STAGE4_LEN (put_target_le (target_top64 ctx)) out, (STAGE4_LEN + 8)%nat)
  else (out, 0%nat).

(** ** The registry *)
Section Registry.
Context {callbacks : Type}.

Record worksrc := WorkSrc {
  name : option (list Z);        (* const char *, may be NULL *)
  ops : callbacks;               (* get_work, poll, on_candidate *)
  refresh_s : Z;
  item_len : nat
}.

Definition MAX_SOURCES : nat := 4.

(** [strcmp(g_sources[i]->name, name) == 0]; registered names are not NULL. *)
Definition has_name (n : list Z) (s : worksrc) : bool := bool_decide (name s = Some n).

Fixpoint replace_named (n : list Z) (src : worksrc) (l : list worksrc) : option (list worksrc) :=
  match l with
  | [] => None
  | s :: l => if has_name n s then Some (src :: l) else cons s <$> replace_named n src l
  end.

Definition worksrc_register (src : option worksrc) (g_sources : list worksrc) : list worksrc :=
  match src with
  | Some src =>
    match name src with
    | Some n =>
      if (MAX_SOURCES <=? length g_sources)%nat then g_sources
      else default (g_sources ++ [src]) (replace_named n src g_sources)
    | None => g_sources
    end
  | None => g_sources
  end.

Definition worksrc_find (n : option (list Z)) (g_sources : list worksrc) : option worksrc :=
  n ← n; List.find (has_name n) g_sources.

(** [snprintf(buf + o, sizeof buf - o, "%s%s", ...)] until one is cut short: a
    cut call has written what fits before the loop breaks. *)
Fixpoint list_names (buf : list Z) (l : list worksrc) : list Z :=
  match l with
  | [] => buf
  | s :: l =>
    let text := (if (length buf =? 0)%nat then [] else str " | ") ++ default [] (name s) in
    if (128 - length buf <=? length text)%nat
    then buf ++ take (128 - length buf - 1) text
    else list_names (buf ++ text) l
  end.
Definition worksrc_list (g_sources : list worksrc) : list Z := list_names [] g_sources.

(** ** Lookup after registration *)
Definition registered (g : list worksrc) : Prop :=
  (length g <= MAX_SOURCES)%nat /\ Forall (fun s => is_Some (name s)) g /\ NoDup (name <$> g).

Lemma replace_named_spec n src l :
  name src = Some n ->
  match replace_named n src l with
  | None => forall s, s ∈ l -> name s <> Some n
  | Some l' => (name <$> l' = name <$> l)
    /\ List.find (has_name n) l' = Some src
    /\ forall m, m <> n -> List.find (has_name m) l' = List.find (has_name m) l
  end.
Proof.
  intros Hn. induction l as [|s l IH]; [intros s Hs; by apply not_elem_of_nil in Hs|].
  cbn [replace_named]. unfold has_name at 1. case_bool_decide as Hs; cbn.
  - split; [by rewrite Hn, Hs|]. split.
    + unfold has_name. by rewrite bool_decide_eq_true_2.
    + intros m Hm. unfold has_name at 1 3.
      rewrite !bool_decide_eq_false_2 by congruence. done.
  - destruct (replace_named n src l) as [l'|]; cbn.
    + destruct IH as (H1 & H2 & H3). split; [by rewrite H1|]. split.
      * unfold has_name at 1. by rewrite bool_decide_eq_false_2.
      * intros m Hm. destruct (has_name m s); [done|]. by apply H3.
    + intros s' [->|Hs']%elem_of_cons; [done|]. by apply IH.
Qed.

Lemma find_app_none n l src :
  (forall s, s ∈ l -> name s <> Some n) -> List.find (has_name n) (l ++ [src])
  = if has_name n src then Some src else None.
Proof.
  intros Hl. induction l as [|s l IH]; cbn; [done|].
  unfold has_name at 1. rewrite bool_decide_eq_false_2 by (apply Hl; left).
  apply IH. intros s' Hs'. apply Hl. by right.
Qed.
Lemma find_app_other m l src :
  name src <> Some m -> List.find (has_name m) (l ++ [src]) = List.find (has_name m) l.
Proof.
  intros Hm. induction l as [|s l IH]; cbn.
  - unfold has_name. by rewrite bool_decide_eq_false_2.
  - by rewrite IH.
Qed.

Lemma register_registered src g : registered g -> registered (worksrc_register src g).
Proof.
  intros (Hl & Hs & Hd). destruct src as [src|]; [|done].
  cbn [worksrc_register]. destruct (name src) as [n|] eqn:Hn; [|done].
  destruct (Nat.leb_spec MAX_SOURCES (length g)); [done|].
  pose proof (replace_named_spec n src g Hn) as Hr. destruct (replace_named n src g) as [g'|]; cbn.
  - destruct Hr as (He & _ & _). unfold registered. rewrite He.
    assert (length g' = length g) as ->.
    { apply (f_equal length) in He. by rewrite !length_fmap in He. }
    split; [lia|]. split; [|done].
    apply Forall_fmap with (P := is_Some) (f := name). rewrite He. by apply Forall_fmap.
  - unfold registered. rewrite length_app, fmap_app. cbn [length]. split; [lia|]. split.
    + apply Forall_app; split; [done|]. apply Forall_singleton. by rewrite Hn.
    + apply NoDup_app. split; [done|]. split; [|apply NoDup_singleton].
      intros x Hx. apply list_elem_of_fmap in Hx as (s & -> & Hin). cbn.
      rewrite list_elem_of_singleton, Hn. by apply Hr.
Qed.

(** The text of a list of names. *)
Definition joined (l : list worksrc) : list Z :=
  match l with
  | [] => []
  | s :: l => default [] (name s) ++ concat ((fun s => str " | " ++ default [] (name s)) <$> l)
  end.

Lemma list_names_tail buf l :
  (0 < length buf <= 127)%nat ->
  list_names buf l
  = take 127 (buf ++ concat ((fun s => str " | " ++ default [] (name s)) <$> l)).
Proof.
  revert buf. induction l as [|s l IH]; intros buf Hb.
  { cbn. by rewrite app_nil_r, take_ge by lia. }
  cbn [list_names fmap list_fmap concat]. destruct (Nat.eqb_spec (length buf) 0); [lia|].
  set (text := str " | " ++ default [] (name s)).
  destruct (Nat.leb_spec (128 - length buf) (length text)).
  - rewrite (take_app_ge buf) by lia. f_equal.
    rewrite take_app_le by lia. f_equal. lia.
  - rewrite IH by (rewrite length_app; lia). by rewrite <- app_assoc.
Qed.

Lemma worksrc_list_spec l :
  Forall (fun s => default [] (name s) <> []) l -> worksrc_list l = take 127 (joined l).
Proof.
  intros Hl. unfold worksrc_list. destruct l as [|s l]; [done|].
  apply Forall_cons in Hl as [Hs _]. cbn [list_names joined length Nat.eqb Nat.sub app].
  set (n := default [] (name s)) in *.
  assert (length n <> 0)%nat by (by intros ?%nil_length_inv).
  destruct (Nat.leb_spec 128 (length n)).
  - rewrite take_app_le by lia. done.
  - rewrite list_names_tail by lia. done.
Qed.

(** ** Properties of the registry *)

(** Any sequence of registrations keeps at most four sources with distinct,
    non-NULL names; registering a named source while there is room makes it the
    one found under its name, whether it is new or replaces one, and changes no
    other lookup; without room it changes nothing. *)
Theorem registry_find_after_register (srcs : list (option worksrc)) (src : worksrc)
    (n : list Z) :
  name src = Some n ->
  let g := foldl (fun g s => worksrc_register s g) [] srcs in
  registered g
  /\ (if (length g <? MAX_SOURCES)%nat
      then worksrc_find (Some n) (worksrc_register (Some src) g) = Some src
        /\ forall m, m <> n ->
           worksrc_find (Some m) (worksrc_register (Some src) g) = worksrc_find (Some m) g
      else worksrc_register (Some src) g = g).
Proof.
  intros Hn g. split.
  - subst g. induction srcs as [|s srcs IH] using rev_ind; [by split; [cbn; lia|split; constructor]|].
    rewrite foldl_app. by apply register_registered.
  - generalize g. clear g. intros g. unfold worksrc_register. rewrite Hn.
    destruct (Nat.leb_spec MAX_SOURCES (length g)), (Nat.ltb_spec (length g) MAX_SOURCES);
      try lia; [done|].
    pose proof (replace_named_spec n src g Hn) as Hr. unfold worksrc_find.
    destruct (replace_named n src g) as [g'|]; cbn [default mbind option_bind from_option id].
    + by destruct Hr as (_ & H2 & H3).
    + split; [|intros m Hm; apply find_app_other; congruence].
      rewrite find_app_none by done. unfold has_name. by rewrite bool_decide_eq_true_2.
Qed.
End Registry.

Lemma registry_find_after_register_witness :
  let gbt := WorkSrc (Some (str "gbt")) 1 30 168 in
  let srcs := [Some gbt; None; Some (WorkSrc None 2 5 88); Some (WorkSrc (Some (str "pool")) 3 5 88)] in
  let g := foldl (fun g s => worksrc_register s g) [] srcs in
  registered g
  /\ worksrc_find (Some (str "pool")) (worksrc_register (Some (WorkSrc (Some (str "pool")) 4 5 88)) g)
     = Some (WorkSrc (Some (str "pool")) 4 5 88)
  /\ forall m, m <> str "pool" ->
     worksrc_find (Some m) (worksrc_register (Some (WorkSrc (Some (str "pool")) 4 5 88)) g)
     = worksrc_find (Some m) g.
Proof.
  exact (registry_find_after_register
    [Some (WorkSrc (Some (str "gbt")) 1 30 168); None; Some (WorkSrc None 2 5 88);
     Some (WorkSrc (Some (str "pool")) 3 5 88)]
    (WorkSrc (Some (str "pool")) 4 5 88) (str "pool") eq_refl).
Defined.
Arguments worksrc : clear implicits.

(** ** The wire item *)
Lemma put_target_le_spec v : put_target_le v = le_bytes 8 v.
Proof.
  unfold put_target_le, le_bytes. apply list_fmap_ext. intros i x _.
  change ((v ≫ (8 * Z.of_nat x)) .& 0xff) with (u8 (v ≫ (8 * Z.of_nat x))).
  apply u8_small, u8_word.
Qed.

Lemma pack_layouts a b t ok len :
  length a = STAGE3_LEN -> length b = STAGE4_LEN ->
  let '(out, n) := worksrc_pack_item (WorkCtx a b t ok) len in
  if (len =? 168)%nat
  then n = 168%nat
    /\ out = list_inserts (2 * SLOTS * 8) (le_bytes 8 t)
               (list_inserts (SLOTS * 8) b (list_inserts 0 a (replicate WORK_ITEM_LEN 0)))
  else if (len =? 88)%nat then n = 88%nat /\ take n out = b ++ le_bytes 8 t
  else n = 0%nat.
Proof.
  intros H3 H4. unfold worksrc_pack_item. cbn [ss3 ss4 target_top64].
  rewrite !take_ge by lia. rewrite put_target_le_spec.
  unfold WORK_ITEM_LEN, STAGE4_LEN, SLOTS in *. cbn [Nat.add Nat.mul].
  destruct (len =? 168)%nat; [done|]. destruct (len =? 88)%nat; [|done]. split; [done|].
  rewrite (list_inserts_splice 0), take_0, app_nil_l by len.
  rewrite (list_inserts_splice 80) by len. rewrite (take_app_length' b) by lia.
  rewrite app_assoc, take_app_length'; [done|]. len.
Qed.

Lemma stage_lengths h a b c :
  wf_header h -> stage_inputs h = inr (a, b, c) ->
  length a = STAGE3_LEN /\ length b = STAGE4_LEN.
Proof.
  intros Hh. rewrite stage_inputs_spec by done.
  pose proof (array_stage3 h Hh) as H3. pose proof (array_stage4 h Hh) as H4. revert H3 H4.
  generalize (WorkItem.Spec.stage3 h) (WorkItem.Spec.stage4 h). intros s3 s4 [H3 _] [H4 _].
  destruct (m_flags h .& 3 =? 0); [|done]. by intros [= <- <- _].
Qed.

(** The 168-byte item is, byte for byte, the one [build_work_item] makes from
    the same stage messages and target; the 88-byte one is the 80-byte header
    and the little-endian target; any other length sends nothing. *)
Theorem worksrc_pack_item_layouts (h : knots_header) (t : Z) (a b c : list Z) (ok : bool)
    (len : nat) :
  wf_header h -> stage_inputs h = inr (a, b, c) ->
  let '(out, n) := worksrc_pack_item (WorkCtx a b t ok) len in
  if (len =? 168)%nat then n = 168%nat /\ build_work_item h t = inr out
  else if (len =? 88)%nat then n = 88%nat /\ take n out = b ++ le_bytes 8 t
  else n = 0%nat.
Proof.
  intros Hh Hs. unfold build_work_item. rewrite Hs.
  destruct (stage_lengths h a b c Hh Hs) as [H3 H4]. clear Hs. rewrite put_le64_spec.
  pose proof (pack_layouts a b t ok len H3 H4) as Hp.
  destruct (worksrc_pack_item _ len) as [out n].
  destruct (len =? 168)%nat; [|done]. by destruct Hp as [-> ->].
Qed.

Lemma worksrc_pack_item_layouts_witness :
  let h := example_header in
  let '(out, n) := worksrc_pack_item
    (WorkCtx (WorkItem.Spec.stage3 h) (WorkItem.Spec.stage4 h) 0xf0b500 true) 88 in
  n = 88%nat /\ take n out = WorkItem.Spec.stage4 h ++ le_bytes 8 0xf0b500.
Proof.
  exact (worksrc_pack_item_layouts example_header 0xf0b500
    (WorkItem.Spec.stage3 example_header) (WorkItem.Spec.stage4 example_header)
    (WorkItem.Spec.blake2b_256 (WorkItem.Spec.stage3 example_header)) true 88
    wf_example_header (stage_inputs_spec example_header wf_example_header)).
Defined.
End Worksrc.
