(* ===== verification/Job.v ===== *)
(** * The stratum job (src/miner/stratum.h)

    One [mining.notify], decoded. A byte array with its length in the C structure
    is the list of its valid bytes here: the structure is cleared before it is
    filled, and nothing reads past the length. *)
From S2P Require Import Prelude.

Module Job.
Definition STRATUM_MAX_BRANCHES : nat := 32.
Definition STRATUM_MAX_CB : nat := 512.
Definition STRATUM_MAX_EN1 : nat := 32.
Definition STRATUM_MAX_EN2 : nat := 32.

Record stratum_job := StratumJob {
  job_id : list Z;               (* char[64], as a C string *)
  prevhash : list Z;             (* uint8_t[32] *)
  coinb1 : list Z;               (* coinb1_len bytes of 512 *)
  coinb2 : list Z;               (* coinb2_len bytes of 512 *)
  branches : list (list Z);      (* nbranches entries of 32 *)
  ntime : list Z;                (* uint8_t[8] *)
  nbits : Z;
  clean : bool;
  job_seq : Z                    (* uint64_t seq *)
}.

#[export] Instance job_fields : Fields stratum_job := fun j =>
  StratumJob (job_id j) (prevhash j) (coinb1 j) (coinb2 j) (branches j) (ntime j) (nbits j) (clean j) (job_seq j).

(** The types of the structure. *)
Record wf_job (j : stratum_job) : Prop := {
  wf_job_id : (length (job_id j) < 64)%nat;
  wf_prevhash : array 32 (prevhash j);
  wf_coinb1 : bytes (coinb1 j) /\ (length (coinb1 j) <= STRATUM_MAX_CB)%nat;
  wf_coinb2 : bytes (coinb2 j) /\ (length (coinb2 j) <= STRATUM_MAX_CB)%nat;
  wf_branches : Forall (array 32) (branches j) /\ (length (branches j) <= STRATUM_MAX_BRANCHES)%nat;
  wf_ntime : array 8 (ntime j);
  wf_nbits : is_word 32 (nbits j);
  wf_seq : is_word 64 (job_seq j)
}.
End Job.
