(* ===== verification/SiaStratum.v ===== *)
(** * Sia-dialect jobs (src/miner/sia_stratum.c)

    From a stratum job to the two stage messages or to the plain 80-byte header,
    the word that the FPGA reports for a nonce, and the value that is compared
    with the target. *)
From S2P Require Import Prelude Sha256 Blake2b WorkItem Job.

Module SiaStratum.

Import WorkItem Blake2b Job.
Local Open Scope word_scope.

Definition sia_arbtx (j : stratum_job) (en1 en2 : list Z) (maxlen : nat) : option (list Z) :=
  let need := (length (coinb1 j) + length en1 + length en2 + length (coinb2 j))%nat in
  if (maxlen <? need)%nat then None
  else Some (coinb1 j ++ en1 ++ en2 ++ coinb2 j).

Definition sia_arbtx_leaf (arbtx : list Z) : list Z :=
  let arbtx := take (4 * STRATUM_MAX_CB) arbtx in
  blake2b_nokey (0x00 :: arbtx) 32.

Definition sia_merkle_root (j : stratum_job) (leaf : list Z) : list Z :=
  foldl (fun acc branch => blake2b_nokey (0x01 :: branch ++ acc) 32) leaf (branches j).

(** [memset(ss4, 0, 80)] and the three copies. *)
Definition header_around (j : stratum_job) (merkleroot : list Z) : list Z :=
  let ss4 := replicate STAGE4_LEN 0 in
  let ss4 := list_inserts 0 (prevhash j) ss4 in
  let ss4 := list_inserts 40 (ntime j) ss4 in
  list_inserts 48 merkleroot ss4.

(** Stage 3 message, stage 4 message, merkle root; [None] is -1. *)
Definition sia_build_stages (j : stratum_job) (en1 en2 : list Z)
    : option (list Z * list Z * list Z) :=
  match sia_arbtx j en1 en2 (4 * STRATUM_MAX_CB) with
  | None => None
  | Some arbtx =>
    if negb (length arbtx + 1 =? STAGE3_LEN)%nat then None
    else
      let ss3 := 0x00 :: arbtx in
      let merkleroot := sia_merkle_root j (sia_arbtx_leaf arbtx) in
      Some (ss3, header_around j merkleroot, merkleroot)
  end.

Definition sia_build_header (j : stratum_job) (en1 en2 : list Z) : option (list Z * list Z) :=
  match sia_arbtx j en1 en2 (4 * STRATUM_MAX_CB) with
  | None => None
  | Some arbtx =>
    let merkleroot := sia_merkle_root j (sia_arbtx_leaf arbtx) in
    Some (header_around j merkleroot, merkleroot)
  end.

Definition put_nonce (ss4 : list Z) (nonce : Z) : list Z :=
  foldl (fun s i => <[(32 + i)%nat := u8 ((nonce ≫ (8 * Z.of_nat i)) .& 0xff)]> s) ss4 (seq 0 8).

(** The prefilter word of the Knots core: bytes 24 to 31 of the digest. *)
Definition sia_expected_top64 (ss4 : list Z) (nonce : Z) : Z :=
  let hb := blake2b_nokey (put_nonce ss4 nonce) 32 in
  foldl (fun v i => u64 (v ≪ 8) .| hb !!! i) 0 (seq 24 8).

Definition sia_pow_compare (ss4 : list Z) (nonce : Z) : list Z :=
  let hb := blake2b_nokey (put_nonce ss4 nonce) 32 in
  (fun i => hb !!! (31 - i)%nat) <$> seq 0 32.

(** The prefilter word of the Siacoin core: bytes 0 to 7. *)
Definition sia_chain_expected_top64 (header : list Z) (nonce : Z) : Z :=
  let hb := blake2b_nokey (put_nonce header nonce) 32 in
  foldl (fun v i => u64 (v ≪ 8) .| hb !!! i) 0 (seq 0 8).

Definition sia_chain_pow_compare (header : list Z) (nonce : Z) : list Z :=
  blake2b_nokey (put_nonce header nonce) 32.

(** ** Layout lemmas *)
Lemma header_around_spec j root :
  wf_job j -> length root = 32%nat ->
  header_around j root = prevhash j ++ replicate 8 0 ++ ntime j ++ root.
Proof.
  intros Hj Hr. destruct (wf_prevhash j Hj) as [Hp _], (wf_ntime j Hj) as [Ht _].
  unfold header_around, STAGE4_LEN. generalize dependent (prevhash j).
  generalize dependent (ntime j). intros t Ht p Hp.
  change (replicate 80 0) with ([] ++ replicate 32 0 ++ replicate 8 0 ++ replicate 8 0 ++ replicate 32 0).
  set (z := replicate 8 0). assert (length z = 8%nat) as Hz by done.
  rewrite (inserts_middle 0) by done. cbn [app].
  rewrite (app_assoc p z), (inserts_middle 40) by (rewrite ?length_app; lia).
  rewrite (app_assoc (p ++ z)), <- (app_nil_r (replicate 32 0)).
  rewrite (inserts_middle 48) by (rewrite ?length_app, ?length_replicate; lia).
  by rewrite app_nil_r, <- !app_assoc.
Qed.

Lemma put_nonce_spec a b c nonce :
  length a = 32%nat -> length b = 8%nat ->
  put_nonce (a ++ b ++ c) nonce = a ++ le_bytes 8 nonce ++ c.
Proof.
  intros Ha Hb. unfold put_nonce.
  rewrite (foldl_insert_seq (fun i => u8 ((nonce ≫ (8 * Z.of_nat i)) .& 0xff))).
  assert (((fun i => u8 ((nonce ≫ (8 * Z.of_nat i)) .& 0xff)) <$> seq 0 8) = le_bytes 8 nonce) as ->.
  { apply list_fmap_ext. intros i x _.
    change ((nonce ≫ (8 * Z.of_nat x)) .& 0xff) with (u8 (nonce ≫ (8 * Z.of_nat x))).
    apply u8_small, u8_word. }
  apply inserts_middle; [done|]. by rewrite length_le_bytes.
Qed.

(** A header with its nonce slot at [32..39], for any content. *)
Lemma put_nonce_slot (ss4 : list Z) nonce :
  length ss4 = 80%nat -> put_nonce ss4 nonce = take 32 ss4 ++ le_bytes 8 nonce ++ drop 40 ss4.
Proof.
  intros Hl. rewrite <- (take_drop 32 ss4) at 1. rewrite <- (take_drop 8 (drop 32 ss4)) at 1.
  rewrite put_nonce_spec by len. by rewrite drop_drop.
Qed.

Lemma digest_array (m : list Z) : length m = 80%nat -> array 32 (blake2b_nokey m 32).
Proof. intros Hm. apply array_blake. lia. Qed.
Lemma length_put_nonce ss4 nonce : length ss4 = 80%nat -> length (put_nonce ss4 nonce) = 80%nat.
Proof. intros. rewrite put_nonce_slot by done. len. Qed.

Lemma reversed_digest (hb : list Z) :
  length hb = 32%nat -> ((fun i => hb !!! (31 - i)%nat) <$> seq 0 32) = rev hb.
Proof.
  intros Hl. rewrite <- (take_ge (rev hb) 32) by (rewrite length_rev; lia).
  rewrite <- slice_0, slice_lookups by (rewrite length_rev; lia).
  apply list_fmap_ext. intros i x Hx. apply lookup_seq in Hx.
  rewrite rev_lookup_total by lia. f_equal. lia.
Qed.

(** The word at bytes [off..off+7], big-endian. *)
Lemma load_be_at (hb : list Z) off :
  bytes hb -> (off + 8 <= length hb)%nat ->
  foldl (fun v i => u64 (v ≪ 8) .| hb !!! i) 0 (seq off 8) = be_val (slice off 8 hb).
Proof.
  intros Hb Hl. rewrite slice_lookups by done. unfold be_val.
  rewrite <- (shift_in_bytes 0); [|lia|by lens|by vm_compute|].
  - rewrite <- (Nat.add_0_r off) at 1. rewrite <- (fmap_add_seq off 0 8), !foldl_fmap. done.
  - apply Forall_fmap, Forall_true. intros i. by apply words_lookup_total.
Qed.

Lemma expected_top64_spec ss4 nonce :
  length ss4 = 80%nat ->
  sia_expected_top64 ss4 nonce = be_val (drop 24 (blake2b_nokey (put_nonce ss4 nonce) 32)).
Proof.
  intros Hl. destruct (digest_array (put_nonce ss4 nonce)) as [Hd Hb]; [by apply length_put_nonce|].
  unfold sia_expected_top64. rewrite load_be_at by (done || lia). unfold slice.
  by rewrite take_ge by len.
Qed.
Lemma pow_compare_spec ss4 nonce :
  length ss4 = 80%nat ->
  sia_pow_compare ss4 nonce = rev (blake2b_nokey (put_nonce ss4 nonce) 32).
Proof.
  intros Hl. apply reversed_digest. by apply (digest_array (put_nonce ss4 nonce)), length_put_nonce.
Qed.

(** ** A job derived from a header *)
Lemma array_stage2 h : wf_header h -> array 32 (WorkItem.Spec.stage2 h).
Proof.
  intros Hh. rewrite <- h2_hash_spec by done. split; [apply length_h2_hash|apply bytes_h2_hash].
Qed.

Lemma le_bytes_pair a b :
  is_word 32 a -> is_word 32 b -> le_bytes 8 (a + 2 ^ 32 * b) = le_bytes 4 a ++ le_bytes 4 b.
Proof.
  intros Ha Hb. unfold is_word in *. apply le_val_inj; [apply bytes_le_bytes| |done|].
  - apply Forall_app; split; apply bytes_le_bytes.
  - rewrite le_val_app, !le_val_le_bytes, length_le_bytes.
    change (8 * Z.of_nat 4) with 32. change (8 * Z.of_nat 8) with 64.
    rewrite !Z.mod_small by lia. done.
Qed.

Definition nonce_of (h : knots_header) : Z := nNonce h + 2 ^ 32 * m_nonce2 h.
(** The hidden previous-block hash and the eight bytes that Sia calls the time. *)
Definition prevhash_of (h : knots_header) : list Z := take 32 (WorkItem.Spec.stage4 h).
Definition ntime_of (h : knots_header) : list Z :=
  le_bytes 4 (m_time_offset h) ++ le_bytes 4 (m_nonce3 h).

Lemma stage4_fields h :
  wf_header h ->
  array 32 (prevhash_of h) /\
  WorkItem.Spec.stage4 h = prevhash_of h ++ le_bytes 8 (nonce_of h) ++ ntime_of h
    ++ WorkItem.Spec.blake2b_256 (WorkItem.Spec.stage3 h).
Proof.
  intros Hh. pose proof (array_stage4 h Hh) as [H4 B4].
  assert (array 32 (prevhash_of h)) as Hp.
  { split; [|by apply Forall_take]. unfold prevhash_of. rewrite length_take, H4. done. }
  split; [done|]. unfold prevhash_of, nonce_of, ntime_of.
  rewrite le_bytes_pair by apply Hh. revert B4.
  unfold WorkItem.Spec.stage4. rewrite !app_assoc, <- !app_assoc, app_assoc.
  set (p := replicate 6 0 ++ _). intros _.
  assert (length p = 32%nat) as Hl.
  { subst p. rewrite length_app, length_drop, <- tagged_spec by (apply bytes_rev; apply Hh).
    by rewrite Sha256.length_tagged_hash. }
  by rewrite (take_app_length' p) by done.
Qed.

(** A job that carries the header's stage messages. *)
Record job_of_header (h : knots_header) (j : stratum_job) (en1 en2 : list Z) : Prop := {
  jh_wf : wf_job j;
  jh_arbtx : coinb1 j ++ en1 ++ en2 ++ coinb2 j
             = replicate 3 0 ++ WorkItem.Spec.stage2 h ++ m_extranonce h;
  jh_branches : branches j = [];
  jh_prevhash : prevhash j = prevhash_of h;
  jh_ntime : ntime j = ntime_of h
}.

Lemma arbtx_spec j en1 en2 maxlen :
  sia_arbtx j en1 en2 maxlen =
  (if (maxlen <? length (coinb1 j ++ en1 ++ en2 ++ coinb2 j))%nat then None
   else Some (coinb1 j ++ en1 ++ en2 ++ coinb2 j)).
Proof.
  unfold sia_arbtx. rewrite !length_app.
  by replace (length (coinb1 j) + length en1 + length en2 + length (coinb2 j))%nat
    with (length (coinb1 j) + (length en1 + (length en2 + length (coinb2 j))))%nat by lia.
Qed.

Lemma pow_hash_no_key h :
  wf_header h -> m_xor_key h = replicate 16 0 ->
  WorkItem.Spec.pow_hash h = rev (blake2b_nokey (WorkItem.Spec.stage4 h) 32).
Proof.
  intros Hh Hk. unfold WorkItem.Spec.pow_hash, WorkItem.Spec.mask.
  rewrite decide_True, Z.lxor_0_r by done. apply (f_equal (@rev Z)).
  destruct (array_stage4 h Hh) as [H4l H4b]. unfold WorkItem.Spec.blake2b_256.
  rewrite <- blake2b_nokey_rfc; [|exact H4b|rewrite H4l; by vm_compute|lia].
  destruct (digest_array _ H4l) as [Hd1 Hd2]. rewrite <- Hd1 at 1. by apply be_bytes_be_val.
Qed.

(** ** Properties *)

(** C10: Sia stratum carries Knots work exactly: for a job whose arbitrary
    transaction is the header's stage 3 message without its first byte,
    [sia_build_stages] gives the header's own stage messages (stage 4 with the
    nonce slot cleared, its merkle root the header's [hash_a]), writing the
    header's nonce into the slot restores stage 4, and the value compared with
    the target is the header's proof-of-work hash when it has no XOR key. *)
Theorem sia_stages_are_knots_stages (h : knots_header) (j : stratum_job) (en1 en2 : list Z) :
  wf_header h -> m_flags h .& 3 = 0 -> job_of_header h j en1 en2 ->
  exists ss4,
    sia_build_stages j en1 en2
      = Some (WorkItem.Spec.stage3 h, ss4, WorkItem.Spec.blake2b_256 (WorkItem.Spec.stage3 h))
    /\ put_nonce ss4 (nonce_of h) = WorkItem.Spec.stage4 h
    /\ (m_xor_key h = replicate 16 0 ->
        get_pow_hash h = inr (sia_pow_compare ss4 (nonce_of h))).
Proof.
  intros Hh Hm [Hj Ha Hb Hp Ht].
  pose proof (hash_a_built h Hh) as Hr. pose proof (array_hash_a h Hh) as [Hrl _].
  destruct (array_stage3 h Hh) as [H3 _].
  assert (0 :: (coinb1 j ++ en1 ++ en2 ++ coinb2 j) = WorkItem.Spec.stage3 h) as Hs by (by rewrite Ha).
  set (arbtx := coinb1 j ++ en1 ++ en2 ++ coinb2 j) in *.
  assert (length arbtx = 51%nat) as Hl by (rewrite <- Hs in H3; cbn in H3; unfold STAGE3_LEN in H3; lia).
  destruct (stage4_fields h Hh) as [[Hpl _] H4].
  pose proof (header_around_spec j _ Hj Hrl) as Hss. rewrite Hp, Ht in Hss.
  set (ss4 := header_around j (WorkItem.Spec.blake2b_256 (WorkItem.Spec.stage3 h))) in *.
  assert (put_nonce ss4 (nonce_of h) = WorkItem.Spec.stage4 h) as Hput
    by (rewrite Hss, H4; apply put_nonce_spec; [exact Hpl|reflexivity]).
  assert (length ss4 = 80%nat) as Hl4.
  { rewrite Hss, !length_app, Hpl, Hrl, length_replicate. unfold ntime_of. by lens. }
  exists ss4. split; [|split; [exact Hput|]].
  - unfold sia_build_stages. rewrite arbtx_spec. fold arbtx.
    destruct (Nat.ltb_spec (4 * STRATUM_MAX_CB) (length arbtx)); [unfold STRATUM_MAX_CB in *; lia|].
    rewrite Hl. cbn [Nat.add STAGE3_LEN Nat.eqb negb].
    unfold sia_merkle_root. rewrite Hb. cbn [foldl]. unfold sia_arbtx_leaf.
    rewrite take_ge by (unfold STRATUM_MAX_CB; lia). rewrite Hs, Hr. reflexivity.
  - intros Hk. rewrite (get_pow_hash_spec h Hh), Hm. cbn [Z.eqb]. apply f_equal.
    rewrite (pow_compare_spec ss4 _ Hl4), Hput. by apply pow_hash_no_key.
Qed.

(** The example header without a key, and the job a pool would send for it. *)
Definition plain_header : knots_header :=
  KnotsHeader 0x20000000 (seqZ 0 32) (seqZ 100 32) 1700000000 0x1903c2d4 7 8 0
    (seqZ 5 16) 0 3 4 11 (replicate 16 0) 969859 (seqZ 60 32).
Lemma wf_plain_header : wf_header plain_header.
Proof. constructor; solve [by_compute | cbn; lia]. Qed.
Definition plain_job : stratum_job :=
  StratumJob (str "1f") (prevhash_of plain_header)
    (replicate 3 0 ++ WorkItem.Spec.stage2 plain_header ++ seqZ 5 4) [] []
    (ntime_of plain_header) 0x1903c2d4 true 1.
Lemma plain_job_of_header :
  job_of_header plain_header plain_job (seqZ 9 4) (seqZ 13 8).
Proof.
  destruct (array_stage2 plain_header wf_plain_header) as [H2 B2].
  constructor; [| |reflexivity..].
  - constructor; cbn [job_id prevhash coinb1 coinb2 branches ntime nbits job_seq plain_job].
    + by vm_compute; lia.
    + apply stage4_fields, wf_plain_header.
    + split.
      * apply Forall_app; split; [apply bytes_zeros|]. apply Forall_app; split; [exact B2|by_compute].
      * rewrite !length_app, H2. cbv. lia.
    + split; [by constructor|cbv; lia].
    + split; [by constructor|cbv; lia].
    + split; [reflexivity|]. apply Forall_app; split; apply bytes_le_bytes.
    + by_compute.
    + by_compute.
  - change (m_extranonce plain_header) with (seqZ 5 4 ++ seqZ 9 4 ++ seqZ 13 8).
    unfold plain_job at 1. cbn [coinb1 coinb2]. rewrite app_nil_r, <- !app_assoc. reflexivity.
Qed.

Lemma sia_stages_are_knots_stages_witness :
  exists ss4,
    sia_build_stages plain_job (seqZ 9 4) (seqZ 13 8)
      = Some (WorkItem.Spec.stage3 plain_header, ss4,
              WorkItem.Spec.blake2b_256 (WorkItem.Spec.stage3 plain_header))
    /\ put_nonce ss4 (nonce_of plain_header) = WorkItem.Spec.stage4 plain_header
    /\ (m_xor_key plain_header = replicate 16 0 ->
        get_pow_hash plain_header = inr (sia_pow_compare ss4 (nonce_of plain_header))).
Proof.
  exact (sia_stages_are_knots_stages plain_header plain_job (seqZ 9 4) (seqZ 13 8)
    wf_plain_header eq_refl plain_job_of_header).
Defined.

(** Which jobs are refused: [sia_build_stages] gives work exactly when the
    arbitrary transaction is the 51 bytes the Knots core can hash, while
    [sia_build_header] accepts any that fits its 2048-byte buffer; on a job that
    both accept they give the same header and the same root. *)
Theorem sia_build_accepts (j : stratum_job) (en1 en2 : list Z) :
  let n := length (coinb1 j ++ en1 ++ en2 ++ coinb2 j) in
  (is_Some (sia_build_stages j en1 en2) <-> n = 51%nat)
  /\ (is_Some (sia_build_header j en1 en2) <-> (n <= 2048)%nat)
  /\ (forall ss3 ss4 root, sia_build_stages j en1 en2 = Some (ss3, ss4, root) ->
      length ss3 = STAGE3_LEN /\ sia_build_header j en1 en2 = Some (ss4, root)).
Proof.
  intros n. unfold sia_build_stages, sia_build_header. rewrite arbtx_spec.
  set (arbtx := coinb1 j ++ en1 ++ en2 ++ coinb2 j) in *. subst n.
  change (4 * STRATUM_MAX_CB)%nat with 2048%nat. unfold STAGE3_LEN.
  destruct (Nat.ltb_spec 2048 (length arbtx)).
  { split; [split; [by intros []|lia]|]. split; [split; [by intros []|lia]|]. done. }
  destruct (Nat.eqb_spec (length arbtx + 1) 52); cbn [negb].
  - split; [split; [lia|by eexists]|]. split; [split; [lia|by eexists]|].
    intros ss3 ss4 root [= <- <- <-]. cbn [length]. split; [lia|done].
  - split; [split; [by intros []|lia]|]. split; [split; [lia|by eexists]|]. done.
Qed.

(** The word each core reports for a nonce, against the value compared with
    the target: both come from the RFC 7693 digest of the header with the nonce
    in bytes 32 to 39. For Knots the compare value is the digest reversed and
    the reported word is the byte swap of its top 64 bits; for Siacoin the
    compare value is the digest itself and the reported word is its top 64
    bits. *)
Theorem sia_reported_words (header : list Z) (nonce : Z) :
  array 80 header ->
  let digest := Blake2b.Spec.blake2b (take 32 header ++ le_bytes 8 nonce ++ drop 40 header) 32 in
  sia_pow_compare header nonce = rev digest
  /\ sia_expected_top64 header nonce = le_val (take 8 (sia_pow_compare header nonce))
  /\ sia_chain_pow_compare header nonce = digest
  /\ sia_chain_expected_top64 header nonce = be_val (take 8 digest).
Proof.
  intros [Hl Hb] digest. pose proof (put_nonce_slot header nonce Hl) as Hput.
  assert (blake2b_nokey (put_nonce header nonce) 32 = digest) as Hd.
  { rewrite Hput. apply blake2b_nokey_rfc; [|len|lia].
    apply Forall_app; split; [by apply Forall_take|].
    apply Forall_app; split; [apply bytes_le_bytes|by apply Forall_drop]. }
  destruct (digest_array (put_nonce header nonce)) as [Hdl Hdb]; [by apply length_put_nonce|].
  rewrite expected_top64_spec, pow_compare_spec by done.
  unfold sia_chain_pow_compare, sia_chain_expected_top64.
  rewrite Hd in *. clear Hd Hput. clearbody digest. split; [done|]. split; [|split; [done|]].
  - rewrite be_val_rev. apply f_equal.
    rewrite <- (take_drop 24 digest) at 2. rewrite rev_app_distr.
    rewrite take_app_length'; [done|]. rewrite length_rev, length_drop. lia.
  - by rewrite load_be_at by (done || lia).
Qed.

Lemma sia_reported_words_witness :
  let header := seqZ 0 80 in
  let digest := Blake2b.Spec.blake2b (take 32 header ++ le_bytes 8 77 ++ drop 40 header) 32 in
  sia_pow_compare header 77 = rev digest
  /\ sia_expected_top64 header 77 = le_val (take 8 (sia_pow_compare header 77))
  /\ sia_chain_pow_compare header 77 = digest
  /\ sia_chain_expected_top64 header 77 = be_val (take 8 digest).
Proof. apply (sia_reported_words (seqZ 0 80) 77). by_compute. Defined.
End SiaStratum.
