(* ===== verification/Bech32.v ===== *)
(** * Bech32 and bech32m addresses (src/miner/bech32.c)

    The decoder as it scans the string, the encoder of BIP173/BIP350 as its
    reference, and the error detection of the checksum. Characters are their
    codes; a C string is the list of its characters before the NUL. *)
From S2P Require Import Prelude.

Module Bech32.
Local Open Scope word_scope.

Definition CHARSET : list Z := str "qpzry9x8gf2tvdw0s3jn54khce6mua7l".
Definition BECH32_CONST : Z := 1.
Definition BECH32M_CONST : Z := 0x2bc830a3.

Definition GEN : list Z := [0x3b6a57b2; 0x26508e6d; 0x1ea119fa; 0x3d4233dd; 0x2a1462b3].

(** One iteration of [polymod]'s loop. *)
Definition polymod_step (chk v : Z) : Z :=
  let top := chk ≫ 25 in
  let chk := u32 ((chk .& 0x1ffffff) ≪ 5) ^^ v in
  foldl (fun chk j => if negb ((top ≫ Z.of_nat j) .& 1 =? 0) then chk ^^ GEN !!! j else chk)
        chk (seq 0 5).
Definition polymod (values : list Z) : Z := foldl polymod_step 1 values.

(** The first index at which [CHARSET] holds [c]; [None] is -1. *)
Definition charset_index (c : Z) : option Z :=
  Z.of_nat ∘ fst <$> list_find (fun x => x = c) CHARSET.

(** ** 5-bit groups to bytes *)

(** [while (bits >= 8)]: [k] is how often it runs, [bits / 8]. *)
Fixpoint drain (k : nat) (acc bits : Z) (outsz : nat) (out : list Z) : option (Z * list Z) :=
  match k with
  | O => Some (bits, out)
  | S k =>
    let bits := bits - 8 in
    if (outsz <=? length out)%nat then None
    else drain k acc bits outsz (out ++ [u8 ((acc ≫ bits) .& 0xff)])
  end.

(** The loop [for (i = 0; i < inlen; ++i)] over the array [inp], with fuel.
    [None] is running out of fuel, [inl (-1)] the error return. *)
Fixpoint convert_loop (fuel : nat) (inp : list Z) (i inlen acc bits : Z) (outsz : nat)
    (out : list Z) : option (Z + Z * Z * list Z) :=
  if inlen <=? i then Some (inr (acc, bits, out))
  else
    match fuel with
    | O => None
    | S fuel =>
      let acc := u32 (acc ≪ 5) .| inp !!! Z.to_nat i in
      let bits := bits + 5 in
      match drain (Z.to_nat (bits / 8)) acc bits outsz out with
      | None => Some (inl (-1))
      | Some (bits, out) => convert_loop fuel inp (i + 1) inlen acc bits outsz out
      end
    end.

Definition convert5to8 (fuel : nat) (inp : list Z) (inlen : Z) (outsz : nat) : option (Z + list Z) :=
  match convert_loop fuel inp 0 inlen 0 0 outsz [] with
  | None => None
  | Some (inl rc) => Some (inl rc)
  | Some (inr (acc, bits, out)) =>
    if 5 <=? bits then Some (inl (-1))
    else if negb (u32 (acc ≪ (8 - bits)) .& 0xff =? 0) then Some (inl (-1))
    else Some (inr out)
  end.

(** ** Addresses *)
Record bech32_addr := Bech32Addr {
  hrp : list Z;                (* char[8] *)
  witver : Z;
  program : list Z             (* program_len bytes of 40 *)
}.
#[export] Instance bech32_addr_eq_dec : EqDecision bech32_addr.
Proof. solve_decision. Defined.
Definition BECH32_MAX_PROGRAM : nat := 40.

Definition is_lower (c : Z) : bool := (97 <=? c) && (c <=? 122).
Definition is_upper (c : Z) : bool := (65 <=? c) && (c <=? 90).
Definition to_lower (c : Z) : Z := if is_upper c then c - 65 + 97 else c.

(** [strrchr(buf, '1')]: what is before and after the last separator. *)
Fixpoint split_last (l : list Z) : option (list Z * list Z) :=
  match l with
  | [] => None
  | c :: l =>
    match split_last l with
    | Some (a, b) => Some (c :: a, b)
    | None => if c =? 49 then Some ([], l) else None
    end
  end.

(** The characters of the data part as 5-bit values. *)
Definition data_values (l : list Z) : option (list Z) := mapM charset_index l.

Definition hrp_expand (h : list Z) : list Z :=
  ((fun c => u8 (c ≫ 5)) <$> h) ++ [0] ++ ((fun c => u8 (c .& 31)) <$> h).

(** The part of [bech32_decode_addr] after the scan: [h] is the prefix, [vs] the
    values of the data part, [stack] what the uninitialised array [data[128]]
    holds. *)
Definition decode_data (stack h vs : list Z) : option (Z + bech32_addr) :=
  let fail := Some (inl (-1)) in
  let data := list_inserts 0 vs stack in
  let chk := polymod (hrp_expand h ++ vs) in
  let witver := data !!! 0%nat in
  if negb (chk =? (if witver =? 0 then BECH32_CONST else BECH32M_CONST)) then fail
  else if 16 <? witver then fail
  else
    (* size_t arithmetic: datalen - 1 - 6 wraps around for datalen = 6 *)
    let inlen := (Z.of_nat (length vs) - 1 - 6) mod 2 ^ 64 in
    match convert5to8 127 (drop 1 data) inlen BECH32_MAX_PROGRAM with
    | None => None
    | Some (inl _) => fail
    | Some (inr prog) =>
      let n := length prog in
      if ((n <? 2) || (40 <? n))%nat then fail
      else if (witver =? 0) && negb (n =? 20)%nat && negb (n =? 32)%nat then fail
      else Some (inr (Bech32Addr h witver prog))
    end.

Definition decode_on (stack : list Z) (addr : list Z) : option (Z + bech32_addr) :=
  let fail := Some (inl (-1)) in
  let len := length addr in
  if ((len <? 8) || (90 <? len))%nat then fail
  else if negb (forallb (fun c => (33 <=? c) && (c <=? 126)) addr) then fail
  else if existsb is_lower addr && existsb is_upper addr then fail
  else
    let buf := to_lower <$> addr in
    match split_last buf with
    | None => fail
    | Some (h, rest) =>
      let hrplen := length h in
      let datalen := length rest in
      if ((hrplen <? 1) || (8 <=? hrplen))%nat then fail
      else if (datalen <? 6)%nat then fail
      else
        match data_values rest with
        | None => fail
        | Some vs =>
          if (128 <? 2 * hrplen + 1 + datalen)%nat then fail else decode_data stack h vs
        end
    end.

Definition bech32_decode_addr (addr : list Z) : option (Z + bech32_addr) :=
  decode_on (replicate 128 0) addr.

(** The bytes written, [None] for -1. *)
Definition bech32_scriptpubkey (a : bech32_addr) (outsz : nat) : option (list Z) :=
  if (outsz <? length (program a) + 2)%nat then None
  else Some ((if witver a =? 0 then 0x00 else u8 (0x50 + witver a))
             :: u8 (Z.of_nat (length (program a))) :: program a).

(** ** BIP173 and BIP350 *)
Module Spec.
(** Numbers in base 32, most significant digit first. *)
Definition val32 (l : list Z) : Z := foldl (fun v d => 32 * v + d) 0 l.
Fixpoint digits32 (n : nat) (v : Z) : list Z :=
  match n with
  | O => []
  | S n => digits32 n (v / 32) ++ [v mod 32]
  end.

(** Bytes to 5-bit groups, the last one padded with zero bits. *)
Definition groups (prog : list Z) : list Z :=
  let n := ((8 * length prog + 4) / 5)%nat in
  digits32 n (be_val prog * 2 ^ (5 * Z.of_nat n - 8 * Z.of_nat (length prog))).

Definition const (witver : Z) : Z := if witver =? 0 then BECH32_CONST else BECH32M_CONST.
Definition checksum (witver : Z) (values : list Z) : list Z :=
  digits32 6 (Z.lxor (polymod (values ++ replicate 6 0)) (const witver)).

Definition char_of (v : Z) : Z := CHARSET !!! Z.to_nat v.
(** The values of the data part: version, program, checksum. *)
Definition values (a : bech32_addr) : list Z :=
  let data := witver a :: groups (program a) in
  data ++ checksum (witver a) (hrp_expand (hrp a) ++ data).
Definition encode (a : bech32_addr) : list Z := hrp a ++ 49 :: (char_of <$> values a).

(** The witness programs that the decoder admits. *)
Record valid (a : bech32_addr) : Prop := {
  valid_hrp : (1 <= length (hrp a) <= 7)%nat;
  valid_witver : 0 <= witver a <= 16;
  valid_program : bytes (program a) /\ (2 <= length (program a) <= 40)%nat;
  valid_v0 : witver a = 0 -> length (program a) = 20%nat \/ length (program a) = 32%nat
}.
(** Witness version and program of a scriptPubKey with one direct push. *)
Definition parse_script (s : list Z) : option (Z * list Z) :=
  match s with
  | op :: n :: prog =>
    if n =? Z.of_nat (length prog)
    then Some (if op =? 0 then 0 else op - 0x50, prog) else None
  | _ => None
  end.
(** Length, printable characters, one case. *)
Definition text_ok (addr : list Z) : bool :=
  negb ((length addr <? 8) || (90 <? length addr))%nat
  && forallb (fun c => (33 <=? c) && (c <=? 126)) addr
  && negb (existsb is_lower addr && existsb is_upper addr).
End Spec.

(** ** The checksum is linear *)
Abbreviation word30 := (is_word 30).
Abbreviation group := (is_word 5).

(** The generator words selected by the bits of [top]. *)
Definition select (top : Z) (j : nat) : Z := if Z.testbit top (Z.of_nat j) then GEN !!! j else 0.

Lemma land1_bit m b : 0 <= b -> negb ((m ≫ b) .& 1 =? 0) = Z.testbit m b.
Proof.
  intros Hb. change 1 with (Z.ones 1). rewrite Z.land_ones by lia.
  change (2 ^ 1) with 2. rewrite <- Z.bit0_mod, Z.shiftr_spec, Z.add_0_l by lia.
  by destruct (Z.testbit m b).
Qed.

Lemma shifted_word chk : 0 <= chk -> word30 ((chk .& 0x1ffffff) ≪ 5).
Proof.
  intros Hc. assert (is_word 25 (chk .& 0x1ffffff)) as Hw.
  { change 0x1ffffff with (Z.ones 25). rewrite Z.land_ones by lia. apply Z.mod_pos_bound. lia. }
  rewrite Z.shiftl_mul_pow2 by lia. unfold is_word in *. lia.
Qed.

Lemma polymod_step_select chk v :
  0 <= chk ->
  polymod_step chk v
  = foldl (fun a j => a ^^ select (chk ≫ 25) j) (((chk .& 0x1ffffff) ≪ 5) ^^ v) (seq 0 5).
Proof.
  intros Hc. unfold polymod_step.
  rewrite u32_small by (apply (is_word_le 30); [lia|by apply shifted_word]).
  apply foldl_ext. intros a j _. rewrite land1_bit by lia. unfold select.
  destruct (Z.testbit _ _); [done|]. by rewrite Z.lxor_0_r.
Qed.

Lemma select_word top j : word30 (select top j).
Proof.
  unfold select. case_match; [|done]. apply words_lookup_total; [lia|].
  by_compute.
Qed.
Lemma polymod_step_word chk v : 0 <= chk -> word30 v -> word30 (polymod_step chk v).
Proof.
  intros Hc Hv. rewrite polymod_step_select by done. cbn [seq foldl].
  repeat (apply is_word_lxor; [lia| |apply select_word]).
  apply is_word_lxor; [lia|by apply shifted_word|done].
Qed.

Lemma select_lxor a b j : select (Z.lxor a b) j = Z.lxor (select a j) (select b j).
Proof.
  unfold select. rewrite Z.lxor_spec.
  destruct (Z.testbit a _), (Z.testbit b _); cbn [xorb];
    rewrite ?Z.lxor_nilpotent, ?Z.lxor_0_r, ?Z.lxor_0_l; done.
Qed.

Lemma lxor_swap a b c d : Z.lxor (Z.lxor a b) (Z.lxor c d) = Z.lxor (Z.lxor a c) (Z.lxor b d).
Proof.
  rewrite <- !Z.lxor_assoc. f_equal. rewrite !Z.lxor_assoc. f_equal. apply Z.lxor_comm.
Qed.
Lemma foldl_lxor {A} (f g : A -> Z) (l : list A) x y :
  foldl (fun a j => a ^^ Z.lxor (f j) (g j)) (Z.lxor x y) l
  = Z.lxor (foldl (fun a j => a ^^ f j) x l) (foldl (fun a j => a ^^ g j) y l).
Proof.
  revert x y. induction l as [|j l IH]; intros x y; [done|]. cbn [foldl].
  by rewrite lxor_swap, IH.
Qed.

Lemma polymod_step_lxor a b v w :
  0 <= a -> 0 <= b ->
  polymod_step (Z.lxor a b) (Z.lxor v w) = Z.lxor (polymod_step a v) (polymod_step b w).
Proof.
  intros Ha Hb. rewrite !polymod_step_select by (done || by apply Z.lxor_nonneg).
  assert (Z.lxor a b .& 0x1ffffff = Z.lxor (a .& 0x1ffffff) (b .& 0x1ffffff)) as ->.
  { apply Z.bits_inj'. intros i _. rewrite !Z.lxor_spec, !Z.land_spec, !Z.lxor_spec.
    by destruct (Z.testbit a i), (Z.testbit b i), (Z.testbit _ i). }
  rewrite Z.shiftl_lxor, Z.shiftr_lxor, lxor_swap, <- foldl_lxor.
  apply foldl_ext. intros x j _. by rewrite select_lxor.
Qed.

Lemma polymod_fold_word l chk : word30 chk -> Forall group l -> word30 (foldl polymod_step chk l).
Proof.
  intros Hc Hl. revert chk Hc. induction Hl as [|v l Hv Hl IH]; intros chk Hc; [done|].
  cbn [foldl]. apply IH, polymod_step_word; [apply Hc|]. by apply (is_word_le 5).
Qed.

(** Two runs from two states over two strings of one length. *)
Lemma polymod_fold_lxor l k a b :
  length l = length k -> word30 a -> word30 b -> Forall group l -> Forall group k ->
  foldl polymod_step (Z.lxor a b) (zip_with Z.lxor l k)
  = Z.lxor (foldl polymod_step a l) (foldl polymod_step b k).
Proof.
  revert k a b. induction l as [|x l IH]; intros [|y k] a b Hlen Ha Hb Hl Hk; try done.
  injection Hlen as Hlen. apply Forall_cons in Hl as [Hx Hl], Hk as [Hy Hk].
  cbn [zip_with foldl]. rewrite polymod_step_lxor by (apply Ha || apply Hb).
  apply IH; [done| | |done|done]; apply polymod_step_word; try apply Ha; try apply Hb;
    by apply (is_word_le 5).
Qed.

(** ** Base 32 *)
Lemma val32_snoc l d : Spec.val32 (l ++ [d]) = 32 * Spec.val32 l + d.
Proof. unfold Spec.val32. by rewrite foldl_app. Qed.
Lemma length_digits32 n v : length (Spec.digits32 n v) = n.
Proof. revert v. induction n as [|n IH]; intros v; [done|]. cbn. rewrite length_app, IH. cbn. lia. Qed.
Lemma digits32_group n v : Forall group (Spec.digits32 n v).
Proof.
  revert v. induction n as [|n IH]; intros v; cbn; [constructor|].
  apply Forall_app; split; [apply IH|]. apply Forall_singleton.
  change 32 with (2 ^ 5). by apply Z.mod_pos_bound.
Qed.
Lemma val32_bound l : Forall group l -> 0 <= Spec.val32 l < 2 ^ (5 * Z.of_nat (length l)).
Proof.
  induction l as [|d l IH] using rev_ind; intros Hl; [done|].
  apply Forall_app in Hl as [Hl [Hd _]%Forall_cons]. specialize (IH Hl).
  rewrite val32_snoc, length_app. cbn [length].
  replace (5 * Z.of_nat (length l + 1)) with (5 + 5 * Z.of_nat (length l)) by lia.
  rewrite Z.pow_add_r by lia. unfold is_word in Hd. lia.
Qed.
Lemma digits32_val32 l : Forall group l -> Spec.digits32 (length l) (Spec.val32 l) = l.
Proof.
  induction l as [|d l IH] using rev_ind; intros Hl; [done|].
  apply Forall_app in Hl as [Hl [Hd _]%Forall_cons]. unfold is_word in Hd.
  rewrite length_app, val32_snoc. cbn [length]. rewrite Nat.add_1_r. cbn [Spec.digits32].
  replace (32 * Spec.val32 l + d) with (d + Spec.val32 l * 32) by lia.
  rewrite Z.div_add, Z.mod_add, Z.div_small, Z.mod_small, Z.add_0_l by lia. by rewrite IH.
Qed.
Lemma val32_digits32 n v : 0 <= v < 2 ^ (5 * Z.of_nat n) -> Spec.val32 (Spec.digits32 n v) = v.
Proof.
  revert v. induction n as [|n IH]; intros v Hv; [cbn in *; lia|].
  cbn [Spec.digits32]. rewrite val32_snoc, IH.
  - pose proof (Z.div_mod v 32). lia.
  - replace (5 * Z.of_nat (S n)) with (5 + 5 * Z.of_nat n) in Hv by lia.
    rewrite Z.pow_add_r in Hv by lia. split; [apply Z.div_pos; lia|].
    apply Z.div_lt_upper_bound; lia.
Qed.

(** Up to six groups run through the checksum register without feedback. *)
Lemma polymod_step_shift chk v :
  is_word 25 chk -> group v -> polymod_step chk v = 32 * chk + v.
Proof.
  intros Hc Hv. rewrite polymod_step_select by apply Hc.
  assert (chk ≫ 25 = 0) as ->.
  { rewrite Z.shiftr_div_pow2 by lia. by apply Z.div_small. }
  cbn [seq foldl]. unfold select. rewrite !Z.bits_0, !Z.lxor_0_r.
  change 0x1ffffff with (Z.ones 25). rewrite Z.land_ones, Z.mod_small by (done || lia).
  assert (Z.land (chk ≪ 5) v = 0) as Hd.
  { apply Z.bits_inj'. intros i Hi. rewrite Z.land_spec, Z.bits_0.
    destruct (Z.ltb_spec i 5); [by rewrite Z.shiftl_spec_low by lia|].
    apply is_word_testbit in Hv as [_ Hv]; [|lia]. rewrite Hv by lia. apply andb_false_r. }
  rewrite <- Z.add_nocarry_lxor by done. rewrite Z.shiftl_mul_pow2 by lia. lia.
Qed.
Lemma polymod_from_0 l :
  Forall group l -> (length l <= 6)%nat -> foldl polymod_step 0 l = Spec.val32 l.
Proof.
  induction l as [|d l IH] using rev_ind; intros Hl Hn; [done|].
  apply Forall_app in Hl as [Hl [Hd _]%Forall_cons]. rewrite length_app in Hn. cbn in Hn.
  rewrite foldl_app, IH, val32_snoc by (done || lia). cbn [foldl].
  apply polymod_step_shift; [|done]. pose proof (val32_bound l Hl) as Hb.
  unfold is_word. split; [lia|]. eapply Z.lt_le_trans; [apply Hb|]. apply Z.pow_le_mono_r; lia.
Qed.

Lemma zip_lxor_zeros (l : list Z) : zip_with Z.lxor (replicate (length l) 0) l = l.
Proof. induction l as [|x l IH]; [done|]. cbn. by rewrite IH. Qed.

(** Six trailing groups are added to the checksum of six zeros. *)
Lemma polymod_tail l c :
  Forall group l -> Forall group c -> length c = 6%nat ->
  polymod (l ++ c) = Z.lxor (polymod (l ++ replicate 6 0)) (Spec.val32 c).
Proof.
  intros Hl Hc H6. unfold polymod. rewrite !foldl_app. set (s := foldl polymod_step 1 l).
  assert (word30 s) as Hs by (apply polymod_fold_word; [by_compute|done]).
  rewrite <- (polymod_from_0 c) by (done || lia).
  rewrite <- polymod_fold_lxor; [|done|done|by_compute| |done].
  - rewrite Z.lxor_0_r. f_equal. rewrite <- H6. by rewrite zip_lxor_zeros.
  - by_compute.
Qed.

(** The checksum is the only six groups that give the constant. *)
Lemma checksum_unique l c w :
  Forall group l -> Forall group c -> length c = 6%nat ->
  polymod (l ++ c) = Spec.const w <-> c = Spec.checksum w l.
Proof.
  intros Hl Hc H6. rewrite polymod_tail by done. unfold Spec.checksum.
  set (p := polymod (l ++ replicate 6 0)).
  assert (word30 p) as Hp.
  { apply polymod_fold_word; [by_compute|]. apply Forall_app; split; [done|by_compute]. }
  assert (word30 (Spec.const w)) as Hw by (unfold Spec.const; case_match; by_compute).
  assert (word30 (Z.lxor p (Spec.const w))) as Hx by (by apply is_word_lxor).
  split.
  - intros He. rewrite <- He, <- Z.lxor_assoc, Z.lxor_nilpotent, Z.lxor_0_l, <- H6.
    symmetry. by apply digits32_val32.
  - intros ->. rewrite val32_digits32 by exact Hx.
    by rewrite <- Z.lxor_assoc, Z.lxor_nilpotent, Z.lxor_0_l.
Qed.

(** ** 5-bit groups to bytes *)
Lemma be_bytes_S n v : be_bytes (S n) v = be_bytes n (v ≫ 8) ++ [u8 v].
Proof. unfold be_bytes. by rewrite le_bytes_S. Qed.

(** Bits left over and bytes complete after [n] groups. *)
Definition left_over (n : nat) : Z := (5 * Z.of_nat n) mod 8.
Definition complete (n : nat) : nat := (5 * n / 8)%nat.

Lemma complete_bits n : 5 * Z.of_nat n = 8 * Z.of_nat (complete n) + left_over n.
Proof.
  unfold complete, left_over. rewrite Nat2Z.inj_div, Nat2Z.inj_mul.
  change (Z.of_nat 5) with 5. change (Z.of_nat 8) with 8. Z.div_mod_to_equations. lia.
Qed.
Lemma left_over_bound n : 0 <= left_over n < 8.
Proof. apply Z.mod_pos_bound. lia. Qed.
Lemma next_group n :
  if decide (left_over n + 5 < 8)
  then left_over (S n) = left_over n + 5 /\ complete (S n) = complete n
  else left_over (S n) = left_over n + 5 - 8 /\ complete (S n) = S (complete n).
Proof.
  pose proof (complete_bits n). pose proof (complete_bits (S n)).
  pose proof (left_over_bound n). pose proof (left_over_bound (S n)). case_decide; lia.
Qed.
Lemma complete_mono n m : (n <= m)%nat -> (complete n <= complete m)%nat.
Proof. intros. apply Nat.Div0.div_le_mono. lia. Qed.

(** The inner loop runs at most once. *)
Lemma drain_spec n acc outsz out :
  length out = complete n ->
  drain (Z.to_nat ((left_over n + 5) / 8)) acc (left_over n + 5) outsz out =
    if decide (complete (S n) = complete n) then Some (left_over (S n), out)
    else if (outsz <? complete (S n))%nat then None
    else Some (left_over (S n), out ++ [u8 ((acc ≫ left_over (S n)) .& 0xff)]).
Proof.
  intros Hout. pose proof (next_group n) as Hn. pose proof (left_over_bound n).
  destruct (decide (left_over n + 5 < 8)) as [Hb|Hb]; destruct Hn as [-> ->].
  - rewrite Z.div_small by lia. by rewrite decide_True.
  - replace ((left_over n + 5) / 8) with 1 by (Z.div_mod_to_equations; lia).
    rewrite decide_False by lia. change (Z.to_nat 1) with 1%nat. cbn [drain]. rewrite Hout.
    destruct (Nat.leb_spec outsz (complete n)), (Nat.ltb_spec outsz (S (complete n))); lia || done.
Qed.

(** The accumulator keeps the low 32 bits of the number read so far. *)
Lemma accumulate N v :
  0 <= N -> group v -> u32 ((N mod 2 ^ 32) ≪ 5) .| v = (32 * N + v) mod 2 ^ 32.
Proof.
  intros HN Hv. rewrite u32_mod, Z.shiftl_mul_pow2, Zmult_mod_idemp_l by lia.
  change (2 ^ 32) with (2 ^ 27 * 2 ^ 5). rewrite Z.mul_mod_distr_r by lia.
  rewrite <- Z.shiftl_mul_pow2, lor_add by (lia || done).
  unfold is_word in Hv. change (2 ^ 27 * 2 ^ 5) with (2 ^ 5 * 2 ^ 27).
  rewrite Z.rem_mul_r by lia. replace (32 * N + v) with (v + N * 2 ^ 5) by lia.
  rewrite Z.mod_add, Z.div_add, (Z.mod_small v), (Z.div_small v), Z.add_0_l by lia. lia.
Qed.

(** A byte at a small offset is within the low 32 bits. *)
Lemma low_byte X k : 0 <= k < 8 -> (X mod 2 ^ 32 / 2 ^ k) mod 2 ^ 8 = (X / 2 ^ k) mod 2 ^ 8.
Proof.
  intros Hk. apply Z.bits_inj'. intros i Hi. destruct (Z.ltb_spec i 8).
  - rewrite !Z.mod_pow2_bits_low, <- !Z.shiftr_div_pow2, !Z.shiftr_spec by lia.
    by rewrite Z.mod_pow2_bits_low by lia.
  - by rewrite !Z.mod_pow2_bits_high by lia.
Qed.

Definition read_bytes (vs : list Z) : list Z :=
  be_bytes (complete (length vs)) (Spec.val32 vs / 2 ^ left_over (length vs)).

Lemma read_bytes_snoc vs v :
  Forall group vs -> group v ->
  read_bytes (vs ++ [v]) =
    if decide (complete (S (length vs)) = complete (length vs)) then read_bytes vs
    else read_bytes vs ++
      [u8 (((Spec.val32 (vs ++ [v]) mod 2 ^ 32) ≫ left_over (S (length vs))) .& 0xff)].
Proof.
  intros Hvs Hv. unfold read_bytes. rewrite length_app. cbn [length]. rewrite Nat.add_1_r, val32_snoc.
  set (n := length vs). set (N := Spec.val32 vs). pose proof (next_group n) as Hn.
  pose proof (left_over_bound n). unfold is_word in Hv.
  assert ((32 * N + v) / 2 ^ (left_over n + 5) = N / 2 ^ left_over n) as Hd.
  { rewrite Z.add_comm, (Z.add_comm _ 5), Z.pow_add_r, <- Z.div_div by (try apply Z.pow_nonzero; lia).
    change (2 ^ 5) with 32. replace (v + 32 * N) with (v + N * 32) by lia.
    rewrite Z.div_add, (Z.div_small v), Z.add_0_l by lia. done. }
  destruct (decide (left_over n + 5 < 8)) as [Hb|Hb]; destruct Hn as [-> ->].
  - rewrite decide_True by done. by rewrite Hd.
  - rewrite decide_False by lia. rewrite be_bytes_S. rewrite Z.shiftr_div_pow2 by lia.
    set (s := left_over n + 5 - 8) in *. assert (0 <= s < 8) by lia.
    rewrite Z.div_div by (try apply Z.pow_nonzero; lia).
    rewrite <- Z.pow_add_r by lia. replace (s + 8) with (left_over n + 5) by lia.
    rewrite Hd. do 2 f_equal. change (?x .& 0xff) with (u8 x).
    rewrite (u8_small (u8 _)) by apply u8_word. rewrite !u8_mod, Z.shiftr_div_pow2 by lia.
    by rewrite low_byte by lia.
Qed.

Lemma length_read_bytes vs : length (read_bytes vs) = complete (length vs).
Proof. apply length_be_bytes. Qed.

Lemma convert_loop_spec outsz rest r p fuel :
  Forall group (p ++ r) -> (length r <= fuel)%nat -> (complete (length p) <= outsz)%nat ->
  convert_loop fuel (p ++ r ++ rest) (Z.of_nat (length p)) (Z.of_nat (length (p ++ r)))
    (Spec.val32 p mod 2 ^ 32) (left_over (length p)) outsz (read_bytes p)
  = if (outsz <? complete (length (p ++ r)))%nat then Some (inl (-1))
    else Some (inr (Spec.val32 (p ++ r) mod 2 ^ 32, left_over (length (p ++ r)), read_bytes (p ++ r))).
Proof.
  revert p fuel. induction r as [|v r IH]; intros p fuel Hg Hf Hc.
  { rewrite app_nil_r. destruct fuel; cbn [convert_loop]; rewrite (proj2 (Z.leb_le _ _)) by lia;
      by rewrite (proj2 (Nat.ltb_ge _ _)). }
  cbn [length] in Hf. destruct fuel as [|fuel]; [lia|]. cbn [convert_loop].
  rewrite (proj2 (Z.leb_gt _ _)) by (rewrite length_app; cbn [length]; lia).
  pose proof Hg as Hg'. apply Forall_app in Hg' as [Hp [Hv Hr]%Forall_cons].
  pose proof (val32_bound p Hp) as Hb.
  assert ((p ++ (v :: r) ++ rest) !!! Z.to_nat (Z.of_nat (length p)) = v) as ->.
  { rewrite Nat2Z.id, lookup_total_app_r, Nat.sub_diag by lia. done. }
  rewrite accumulate by (done || lia). rewrite <- val32_snoc.
  rewrite drain_spec by apply length_read_bytes.
  assert (read_bytes (p ++ [v]) = _) as Hs by (by apply read_bytes_snoc).
  assert (length (p ++ [v]) = S (length p)) as Hlen by (rewrite length_app; cbn; lia).
  specialize (IH (p ++ [v]) fuel). rewrite <- !app_assoc in IH. cbn [app] in *.
  rewrite Hlen in IH. replace (Z.of_nat (length p) + 1) with (Z.of_nat (S (length p))) by lia.
  destruct (decide (complete (S (length p)) = complete (length p))) as [He|He].
  - rewrite <- Hs. apply IH; [done|lia|lia].
  - destruct (Nat.ltb_spec outsz (complete (S (length p)))) as [Ho|Ho].
    + pose proof (complete_mono (S (length p)) (length (p ++ v :: r))) as Hm.
      rewrite (proj2 (Nat.ltb_lt _ _)); [done|].
      rewrite length_app in *. cbn [length] in *. lia.
    + rewrite <- Hs. apply IH; [done|lia|lia].
Qed.

(** The conversion of 5-bit groups: their number, shifted by the bits left over,
    which must be fewer than five and zero. *)
Lemma convert5to8_spec vs rest outsz fuel :
  Forall group vs -> (length vs <= fuel)%nat ->
  convert5to8 fuel (vs ++ rest) (Z.of_nat (length vs)) outsz
  = if (outsz <? complete (length vs))%nat then Some (inl (-1))
    else if 5 <=? left_over (length vs) then Some (inl (-1))
    else if Spec.val32 vs mod 2 ^ left_over (length vs) =? 0 then Some (inr (read_bytes vs))
    else Some (inl (-1)).
Proof.
  intros Hg Hf. unfold convert5to8.
  pose proof (convert_loop_spec outsz rest vs [] fuel Hg Hf ltac:(cbn; lia)) as Hl.
  cbn [app length] in Hl. change (Spec.val32 [] mod 2 ^ 32) with 0 in Hl.
  change (left_over 0) with 0 in Hl. change (read_bytes []) with (@nil Z) in Hl.
  change (Z.of_nat 0) with 0 in Hl. rewrite Hl.
  destruct (outsz <? complete (length vs))%nat; [done|].
  destruct (Z.leb_spec 5 (left_over (length vs))); [done|].
  pose proof (left_over_bound (length vs)) as Hb. set (k := left_over (length vs)) in *.
  assert ((u32 ((Spec.val32 vs mod 2 ^ 32) ≪ (8 - k)) .& 0xff =? 0)
    = (Spec.val32 vs mod 2 ^ k =? 0)) as ->; [|by destruct (_ =? 0)].
  set (N := Spec.val32 vs). change (?x .& 0xff) with (u8 x). rewrite u8_mod, u32_mod.
  rewrite Z.shiftl_mul_pow2, Zmult_mod_idemp_l by lia.
  pose proof (low_byte (N * 2 ^ (8 - k)) 0 ltac:(lia)) as Hlow.
  rewrite Z.pow_0_r, !Z.div_1_r in Hlow. rewrite Hlow.
  replace (2 ^ 8) with (2 ^ k * 2 ^ (8 - k)) by (rewrite <- Z.pow_add_r by lia; f_equal; lia).
  rewrite Z.mul_mod_distr_r by (apply Z.pow_nonzero; lia).
  pose proof (Z.pow_pos_nonneg 2 (8 - k)).
  destruct (Z.eqb_spec (N mod 2 ^ k) 0) as [->|]; [done|]. apply Z.eqb_neq. nia.
Qed.

(** Without a bound on the input the output buffer ends the loop: 66 groups are
    more than 40 bytes, whatever the array holds. *)
Lemma convert_loop_long inp inlen n fuel acc out :
  66 <= inlen -> (n <= 65)%nat -> (66 - n <= fuel)%nat -> length out = complete n ->
  convert_loop fuel inp (Z.of_nat n) inlen acc (left_over n) 40 out = Some (inl (-1)).
Proof.
  intros Hi. revert n acc out. induction fuel as [|fuel IH]; intros n acc out Hn Hf Hout; [lia|].
  cbn [convert_loop]. rewrite (proj2 (Z.leb_gt _ _)) by lia. rewrite drain_spec by done.
  replace (Z.of_nat n + 1) with (Z.of_nat (S n)) by lia.
  pose proof (next_group n) as Hs. case_decide as Hd; destruct Hs as [_ Hs].
  - rewrite decide_True by done. destruct (decide (n = 65%nat)) as [->|]; [done|].
    apply IH; lia.
  - rewrite decide_False by lia. destruct (Nat.ltb_spec 40 (complete (S n))); [done|].
    destruct (decide (n = 65%nat)) as [->|]; [exfalso; change (complete 66) with 41%nat in *; lia|].
    apply IH; [lia|lia|]. rewrite length_app. cbn [length]. lia.
Qed.

(** ** Groups and programs *)
Lemma group_count k n :
  5 * Z.of_nat n = 8 * Z.of_nat k + left_over n -> left_over n < 5 ->
  ((8 * k + 4) / 5)%nat = n.
Proof.
  intros H Hlt. pose proof (left_over_bound n). symmetry.
  apply (Nat.div_unique _ _ _ (Z.to_nat (4 - left_over n))); lia.
Qed.

Lemma groups_read vs :
  Forall group vs -> left_over (length vs) < 5 ->
  Spec.val32 vs mod 2 ^ left_over (length vs) = 0 -> Spec.groups (read_bytes vs) = vs.
Proof.
  intros Hg Hlt Hz. pose proof (complete_bits (length vs)) as Hc.
  pose proof (left_over_bound (length vs)). pose proof (val32_bound vs Hg) as Hb.
  unfold Spec.groups. rewrite length_read_bytes, (group_count _ (length vs)) by lia.
  replace (5 * Z.of_nat (length vs) - 8 * Z.of_nat (complete (length vs)))
    with (left_over (length vs)) by lia.
  unfold read_bytes. rewrite be_val_be_bytes. rewrite Hc in Hb.
  set (k := left_over (length vs)) in *. rewrite Z.pow_add_r in Hb by lia.
  assert (0 < 2 ^ k) by (apply Z.pow_pos_nonneg; lia).
  rewrite Z.mod_small by (split; [apply Z.div_pos; lia|apply Z.div_lt_upper_bound; lia]).
  pose proof (Z.div_mod (Spec.val32 vs) (2 ^ k) ltac:(lia)) as Hd. rewrite Hz in Hd.
  replace (Spec.val32 vs / 2 ^ k * 2 ^ k) with (Spec.val32 vs) by lia.
  by apply digits32_val32.
Qed.

Lemma read_groups prog :
  bytes prog ->
  let vs := Spec.groups prog in
  Forall group vs /\ length vs = ((8 * length prog + 4) / 5)%nat /\ complete (length vs) = length prog
  /\ left_over (length vs) < 5 /\ Spec.val32 vs mod 2 ^ left_over (length vs) = 0
  /\ read_bytes vs = prog.
Proof.
  intros Hp vs. assert (Forall group vs) as Hg by apply digits32_group.
  assert (length vs = ((8 * length prog + 4) / 5)%nat) as Hlen by apply length_digits32.
  set (n := length vs) in *. set (k := length prog) in *.
  assert (8 * k <= 5 * n < 8 * k + 5)%nat as Hn.
  { pose proof (Nat.div_mod (8 * k + 4) 5). pose proof (Nat.mod_upper_bound (8 * k + 4) 5). lia. }
  pose proof (complete_bits n) as Hc. pose proof (left_over_bound n) as Hl.
  assert (complete n = k) as Hk by lia.
  pose proof (be_val_bound prog Hp) as Hb. fold k in Hb.
  assert (Spec.val32 vs = be_val prog * 2 ^ left_over n) as Hv.
  { unfold vs, Spec.groups. fold k. rewrite <- Hlen.
    replace (5 * Z.of_nat n - 8 * Z.of_nat k) with (left_over n) by lia.
    apply val32_digits32. rewrite Hc, Hk, Z.pow_add_r by lia.
    pose proof (Z.pow_pos_nonneg 2 (left_over n)). nia. }
  assert (2 ^ left_over n <> 0) by (apply Z.pow_nonzero; lia).
  split; [done|]. split; [done|]. split; [done|]. split; [lia|]. rewrite Hv. split.
  - by apply Z.mod_mul.
  - unfold read_bytes. fold n. rewrite Hv, Z.div_mul, Hk by done. by apply be_bytes_be_val.
Qed.

(** ** The character set *)
Lemma NoDup_charset : NoDup CHARSET.
Proof. by_compute. Qed.
Lemma charset_chars : Forall (fun c => 33 <= c <= 126 /\ c <> 49 /\ is_upper c = false) CHARSET.
Proof. by_compute. Qed.
Lemma charset_lookup v : group v -> CHARSET !! Z.to_nat v = Some (Spec.char_of v).
Proof.
  intros Hv. apply list_lookup_lookup_total_lt. change (length CHARSET) with 32%nat.
  unfold is_word in Hv. lia.
Qed.
Lemma charset_index_spec c v : charset_index c = Some v <-> group v /\ Spec.char_of v = c.
Proof.
  unfold charset_index. split.
  - intros ([i x] & (Hi & -> & _)%list_find_Some & ->)%fmap_Some. cbn.
    pose proof (lookup_lt_Some _ _ _ Hi) as Hlt. change (length CHARSET) with 32%nat in Hlt.
    split; [unfold is_word; lia|]. unfold Spec.char_of. rewrite Nat2Z.id.
    by apply list_lookup_total_correct.
  - intros [Hv <-]. apply fmap_Some. exists (Z.to_nat v, Spec.char_of v). split.
    + apply list_find_Some. split; [by apply charset_lookup|]. split; [done|].
      intros j y Hj Hlt ->. pose proof (charset_lookup v Hv) as Hv'.
      pose proof (NoDup_lookup _ _ _ _ NoDup_charset Hj Hv'). lia.
    + cbn. unfold is_word in Hv. by rewrite Z2Nat.id by lia.
Qed.

Lemma data_values_spec l vs :
  data_values l = Some vs <-> Forall group vs /\ l = Spec.char_of <$> vs.
Proof.
  unfold data_values. rewrite mapM_Some. split.
  - induction 1 as [|c v l vs [Hv <-]%charset_index_spec _ [IH ->]]; [by split|].
    split; [by constructor|done].
  - intros [Hg ->]. induction Hg as [|v vs Hv Hg IH]; [constructor|].
    constructor; [|done]. by apply charset_index_spec.
Qed.

Lemma chars_not_sep vs : Forall group vs -> 49 ∉ (Spec.char_of <$> vs).
Proof.
  intros Hg [v [He Hv]]%list_elem_of_fmap. rewrite Forall_forall in Hg.
  pose proof (charset_lookup v (Hg v Hv)) as Hl.
  pose proof (proj1 (Forall_lookup _ _) charset_chars _ _ Hl) as (_ & Hne & _). by rewrite He in Hne.
Qed.

Lemma split_last_sound l :
  match split_last l with
  | Some (a, b) => l = a ++ 49 :: b /\ 49 ∉ b
  | None => 49 ∉ l
  end.
Proof.
  induction l as [|c l IH]; cbn; [apply not_elem_of_nil|].
  destruct (split_last l) as [[a b]|]; [by destruct IH as [-> ?]|].
  destruct (Z.eqb_spec c 49) as [->|Hc]; [done|].
  by apply not_elem_of_cons.
Qed.
Lemma split_last_app a b : 49 ∉ b -> split_last (a ++ 49 :: b) = Some (a, b).
Proof.
  intros Hb. induction a as [|c a IH]; cbn; [|by rewrite IH].
  pose proof (split_last_sound b) as Hs. destruct (split_last b) as [[x y]|]; [|done].
  destruct Hs as [-> _]. exfalso. apply Hb. set_solver.
Qed.

(** ** Guards *)
Lemma to_lower_lower c : 33 <= c <= 126 -> 33 <= to_lower c <= 126 /\ is_upper (to_lower c) = false.
Proof.
  intros Hc. unfold to_lower, is_upper.
  destruct (Z.leb_spec 65 c), (Z.leb_spec c 90); cbn [andb];
    rewrite ?andb_false_iff, ?Z.leb_gt; lia.
Qed.
Lemma hrp_expand_group h : Forall (fun c => 33 <= c <= 126) h -> Forall group (hrp_expand h).
Proof.
  intros Hh. unfold hrp_expand. apply Forall_app; split; [|apply Forall_cons; split; [by_compute|]];
    apply Forall_fmap; (eapply Forall_impl; [exact Hh|]); intros c Hc; unfold compose; cbn beta in *.
  - rewrite u8_small, Z.shiftr_div_pow2 by (lia || (apply is_word_shiftr; [lia..|unfold is_word; lia])).
    split; [apply Z.div_pos; lia|apply Z.div_lt_upper_bound; lia].
  - change 31 with (Z.ones 5). rewrite Z.land_ones by lia.
    pose proof (Z.mod_pos_bound c (2 ^ 5)). rewrite u8_small by (unfold is_word; lia).
    unfold is_word; lia.
Qed.
Lemma text_ok_chars addr :
  Spec.text_ok addr = true -> Forall (fun c => 33 <= c <= 126) addr /\ (8 <= length addr <= 90)%nat.
Proof.
  unfold Spec.text_ok. rewrite !andb_true_iff, !negb_true_iff, orb_false_iff.
  rewrite !Nat.ltb_ge, forallb_forall. intros [[Hl Hc] _]. split; [|lia].
  apply Forall_forall. intros c Hin. apply list_elem_of_In in Hin. specialize (Hc c Hin). lia.
Qed.

(** ** The data part *)
Lemma data_array (vs stack : list Z) :
  (length vs <= length stack)%nat -> list_inserts 0 vs stack = vs ++ drop (length vs) stack.
Proof. intros. by rewrite list_inserts_splice by lia. Qed.

(** The program's groups as the decoder passes them. *)
Lemma convert_data w g c stack :
  Forall group g -> length c = 6%nat -> (length g <= 81)%nat -> length stack = 128%nat ->
  let vs := w :: g ++ c in
  list_inserts 0 vs stack !!! 0%nat = w /\
  convert5to8 127 (drop 1 (list_inserts 0 vs stack)) ((Z.of_nat (length vs) - 1 - 6) mod 2 ^ 64)
    BECH32_MAX_PROGRAM
  = if (40 <? complete (length g))%nat then Some (inl (-1))
    else if 5 <=? left_over (length g) then Some (inl (-1))
    else if Spec.val32 g mod 2 ^ left_over (length g) =? 0 then Some (inr (read_bytes g))
    else Some (inl (-1)).
Proof.
  intros Hg Hc Hl Hs vs.
  assert (length vs = (length g + 7)%nat) as Hvs by (subst vs; cbn; rewrite length_app; lia).
  rewrite data_array by lia. rewrite Hvs. subst vs. cbn [app drop]. split; [done|].
  rewrite <- app_assoc. rewrite Z.mod_small by lia.
  replace (Z.of_nat (length g + 7) - 1 - 6) with (Z.of_nat (length g)) by lia.
  apply convert5to8_spec; [done|lia].
Qed.

Lemma convert_wrapped vs stack :
  length vs = 6%nat ->
  convert5to8 127 (drop 1 (list_inserts 0 vs stack)) ((Z.of_nat (length vs) - 1 - 6) mod 2 ^ 64)
    BECH32_MAX_PROGRAM = Some (inl (-1)).
Proof.
  intros Hl. rewrite Hl. change ((Z.of_nat 6 - 1 - 6) mod 2 ^ 64) with (2 ^ 64 - 1).
  unfold convert5to8.
  pose proof (convert_loop_long (drop 1 (list_inserts 0 vs stack)) (2 ^ 64 - 1) 0 127 0 []) as Hw.
  change (Z.of_nat 0) with 0 in Hw. change (left_over 0) with 0 in Hw.
  unfold BECH32_MAX_PROGRAM. rewrite Hw; [done|by vm_compute|lia|lia|done].
Qed.

Lemma data_split (vs : list Z) :
  (7 <= length vs)%nat ->
  exists w g c, vs = w :: g ++ c /\ length c = 6%nat /\ length g = (length vs - 7)%nat.
Proof.
  intros Hl. destruct vs as [|w vs]; [cbn in Hl; lia|]. cbn [length] in *.
  exists w, (take (length vs - 6) vs), (drop (length vs - 6) vs).
  rewrite take_drop, length_take, length_drop. split; [done|]. lia.
Qed.

Lemma length_groups prog : length (Spec.groups prog) = ((8 * length prog + 4) / 5)%nat.
Proof. apply length_digits32. Qed.
Lemma length_checksum w l : length (Spec.checksum w l) = 6%nat.
Proof. apply length_digits32. Qed.
Lemma values_group a : 0 <= witver a <= 16 -> Forall group (Spec.values a).
Proof.
  intros Hw. unfold Spec.values. apply Forall_app; split; [|apply digits32_group].
  constructor; [unfold is_word; lia|apply digits32_group].
Qed.

Section Data.
Context (stack : list Z) (Hstack : length stack = 128%nat).

Lemma decode_data_complete a :
  Spec.valid a -> Forall (fun c => 33 <= c <= 126) (hrp a) ->
  decode_data stack (hrp a) (Spec.values a) = Some (inr a).
Proof using Hstack.
  intros [Hh Hw [Hp Hn] H0] Hc. pose proof (values_group a Hw) as Hg.
  destruct (read_groups (program a) Hp) as (G1 & G2 & G3 & G4 & G5 & G6).
  assert (length (Spec.groups (program a)) <= 64)%nat as Hlen.
  { rewrite G2. apply Nat.lt_succ_r, Nat.Div0.div_lt_upper_bound. lia. }
  unfold decode_data, Spec.values in *. cbn [app] in *.
  set (c := Spec.checksum _ _) in *. set (g := Spec.groups (program a)) in *.
  destruct (convert_data (witver a) g c stack G1 (length_checksum _ _) ltac:(lia) Hstack) as [-> ->].
  rewrite G3, G5, G6. destruct (Nat.ltb_spec 40 (length (program a))); [lia|].
  rewrite (proj2 (Z.leb_gt _ _)) by done. cbn [Z.eqb].
  assert (polymod (hrp_expand (hrp a) ++ witver a :: g ++ c) = Spec.const (witver a)) as Hpm.
  { change (witver a :: g ++ c) with ((witver a :: g) ++ c). rewrite app_assoc.
    apply checksum_unique; [|apply digits32_group|apply length_checksum|done].
    apply Forall_app; split; [by apply hrp_expand_group|constructor; [unfold is_word; lia|done]]. }
  rewrite Hpm. unfold Spec.const. rewrite Z.eqb_refl. cbn [negb].
  rewrite (proj2 (Z.ltb_ge _ _)) by lia.
  destruct (Nat.ltb_spec (length (program a)) 2); [lia|]. cbn [orb].
  rewrite (proj2 (Nat.ltb_ge _ _)) by lia.
  destruct (Z.eqb_spec (witver a) 0) as [Hz|]; [|by destruct a]. cbn [andb].
  destruct (H0 Hz) as [->| ->]; by destruct a.
Qed.

Lemma decode_data_sound h vs :
  Forall (fun c => 33 <= c <= 126) h -> Forall group vs -> (1 <= length h <= 7)%nat ->
  (6 <= length vs <= 88)%nat ->
  match decode_data stack h vs with
  | Some (inr a) => Spec.valid a /\ hrp a = h /\ vs = Spec.values a
  | Some (inl rc) => rc = -1
  | None => False
  end.
Proof using Hstack.
  intros Hc Hg Hh Hl. unfold decode_data.
  destruct (Z.eqb_spec (polymod (hrp_expand h ++ vs))
    (if list_inserts 0 vs stack !!! 0%nat =? 0 then BECH32_CONST else BECH32M_CONST))
    as [Hp|]; [|done]. cbn [negb].
  destruct (Z.ltb_spec 16 (list_inserts 0 vs stack !!! 0%nat)) as [|Hw16]; [done|].
  destruct (decide (length vs = 6%nat)) as [H6|H6]; [by rewrite convert_wrapped|].
  destruct (data_split vs ltac:(lia)) as (w & g & c & -> & Hlc & Hlg).
  apply Forall_cons in Hg as [Hw [Hg Hgc]%Forall_app].
  destruct (convert_data w g c stack Hg Hlc ltac:(lia) Hstack) as [Hwv Hcv].
  rewrite Hcv, Hwv in *. clear Hcv Hwv.
  destruct (Nat.ltb_spec 40 (complete (length g))) as [|H40]; [done|].
  destruct (Z.leb_spec 5 (left_over (length g))) as [|Hlo]; [done|].
  destruct (Z.eqb_spec (Spec.val32 g mod 2 ^ left_over (length g)) 0) as [Hz|]; [|done].
  rewrite length_read_bytes. destruct (Nat.ltb_spec (complete (length g)) 2) as [|H2]; [done|].
  rewrite (proj2 (Nat.ltb_ge _ _)) by lia. cbn [orb].
  destruct (_ && _ && _) eqn:E; [done|]. cbn [hrp].
  assert (Spec.groups (read_bytes g) = g) as Hgr by (by apply groups_read).
  split; [|split; [done|]].
  - constructor; cbn [hrp witver program]; rewrite ?length_read_bytes; [done| |split; [apply bytes_be_bytes|lia]|].
    + unfold is_word in Hw. lia.
    + intros ->. cbn [Z.eqb andb] in E.
      destruct (Nat.eqb_spec (complete (length g)) 20), (Nat.eqb_spec (complete (length g)) 32); lia || done.
  - unfold Spec.values. cbn [hrp witver program]. rewrite Hgr. cbn [app]. do 2 f_equal.
    apply checksum_unique; [|done|done|].
    + apply Forall_app; split; [by apply hrp_expand_group|by constructor].
    + rewrite <- app_assoc. cbn [app]. exact Hp.
Qed.
End Data.

(** ** The whole address *)
Lemma encode_split a :
  0 <= witver a <= 16 ->
  split_last (Spec.encode a) = Some (hrp a, Spec.char_of <$> Spec.values a)
  /\ data_values (Spec.char_of <$> Spec.values a) = Some (Spec.values a).
Proof.
  intros Hw. pose proof (values_group a Hw) as Hg. split.
  - apply split_last_app. by apply chars_not_sep.
  - by apply data_values_spec.
Qed.

Lemma length_values a :
  length (Spec.values a) = (7 + (8 * length (program a) + 4) / 5)%nat.
Proof. unfold Spec.values. rewrite length_app, length_checksum. cbn [length]. rewrite length_groups. lia. Qed.

Lemma lower_chars addr :
  Forall (fun c => 33 <= c <= 126) addr -> Forall (fun c => 33 <= c <= 126) (to_lower <$> addr).
Proof.
  intros H. apply Forall_fmap. eapply Forall_impl; [exact H|]. intros c Hc.
  by apply to_lower_lower.
Qed.

Lemma decode_on_sound stack addr :
  length stack = 128%nat ->
  match decode_on stack addr with
  | Some (inr a) => Spec.text_ok addr = true /\ Spec.valid a /\ to_lower <$> addr = Spec.encode a
  | Some (inl rc) => rc = -1
  | None => False
  end.
Proof.
  intros Hs. unfold decode_on. pose proof (text_ok_chars addr) as Ht.
  assert (Spec.text_ok addr = negb ((length addr <? 8) || (90 <? length addr))%nat
    && negb (negb (forallb (fun c => (33 <=? c) && (c <=? 126)) addr))
    && negb (existsb is_lower addr && existsb is_upper addr)) as He
    by (unfold Spec.text_ok; by rewrite negb_involutive).
  destruct (_ || _)%nat; [done|]. destruct (negb (forallb _ _)); [done|].
  destruct (existsb is_lower addr && existsb is_upper addr); [done|]. cbn [negb andb] in He.
  destruct (Ht He) as [Hc Hlen]. apply lower_chars in Hc.
  pose proof (split_last_sound (to_lower <$> addr)) as Hsp.
  destruct (split_last _) as [[h rest]|]; [|done]. destruct Hsp as [Hsp Hn].
  assert (length addr = length h + 1 + length rest)%nat as Hla.
  { apply (f_equal length) in Hsp. rewrite length_fmap, length_app in Hsp. cbn in Hsp. lia. }
  rewrite Hsp in Hc. apply Forall_app in Hc as [Hc _].
  destruct (Nat.ltb_spec (length h) 1); [done|]. destruct (Nat.leb_spec 8 (length h)); [done|].
  cbn [orb]. destruct (Nat.ltb_spec (length rest) 6); [done|].
  destruct (data_values rest) as [vs|] eqn:Hd; [|done].
  apply data_values_spec in Hd as [Hg ->]. rewrite length_fmap in *.
  destruct (Nat.ltb_spec 128 (2 * length h + 1 + length vs)); [lia|].
  pose proof (decode_data_sound stack Hs h vs Hc Hg ltac:(lia) ltac:(lia)) as Hds.
  destruct (decode_data stack h vs) as [[rc|a]|]; [done| |done].
  destruct Hds as (Hv & <- & ->). split; [done|]. by split.
Qed.

Lemma decode_on_complete stack addr a :
  length stack = 128%nat -> Spec.text_ok addr = true -> Spec.valid a ->
  to_lower <$> addr = Spec.encode a -> decode_on stack addr = Some (inr a).
Proof.
  intros Hs Ht Hv He. destruct (text_ok_chars addr Ht) as [Hc Hlen]. apply lower_chars in Hc.
  pose proof (Spec.valid_hrp a Hv) as Hh. pose proof (Spec.valid_program a Hv) as [_ Hpl].
  destruct (encode_split a (Spec.valid_witver a Hv)) as [Hsp Hd].
  assert (length addr = length (hrp a) + 1 + length (Spec.values a))%nat as Hla.
  { apply (f_equal length) in He. unfold Spec.encode in He.
    rewrite length_fmap, length_app in He. cbn [length] in He. rewrite length_fmap in He. lia. }
  unfold Spec.text_ok in Ht. rewrite !andb_true_iff, !negb_true_iff in Ht.
  destruct Ht as [[H1 H2] H3]. unfold decode_on. rewrite H1, H2, H3. cbn [negb].
  rewrite He, Hsp. destruct (Nat.ltb_spec (length (hrp a)) 1); [lia|].
  destruct (Nat.leb_spec 8 (length (hrp a))); [lia|]. cbn [orb]. rewrite length_fmap.
  rewrite (proj2 (Nat.ltb_ge _ 6)) by (rewrite length_values; lia). rewrite Hd.
  rewrite (proj2 (Nat.ltb_ge _ _)) by lia.
  apply decode_data_complete; [done|done|]. rewrite He in Hc. by apply Forall_app in Hc as [Hc _].
Qed.

(** ** Error detection *)

(** Positions at which two texts differ. *)
Fixpoint distance (a b : list Z) : nat :=
  match a, b with
  | x :: a, y :: b => ((if (x =? y)%Z then 0 else 1) + distance a b)%nat
  | _, _ => 0%nat
  end.
Fixpoint weight (l : list Z) : nat :=
  match l with
  | [] => 0%nat
  | x :: l => ((if (x =? 0)%Z then 0 else 1) + weight l)%nat
  end.

(** The register run on without input. *)
Definition idle (n : nat) (s : Z) : Z := Nat.iter n (fun s => polymod_step s 0) s.

(** One nonzero symbol is not cancelled by another within 88 positions. *)
Fixpoint stays_large (k : nat) (s : Z) : bool :=
  match k with
  | O => true
  | S k => let s := polymod_step s 0 in (32 <=? s) && stays_large k s
  end.
Lemma stays_large_table : forallb (fun x => stays_large 88 (Z.of_nat x)) (seq 1 31) = true.
Proof. by vm_compute. Qed.
Lemma stays_large_idle k s n : stays_large k s = true -> (1 <= n <= k)%nat -> 32 <= idle n s.
Proof.
  revert s n. induction k as [|k IH]; intros s n H Hn; [lia|].
  cbn [stays_large] in H. apply andb_true_iff in H as [H1 H2].
  destruct n as [|[|n]]; [lia|by apply Z.leb_le|].
  assert (idle (S (S n)) s = idle (S n) (polymod_step s 0)) as ->.
  { unfold idle. by rewrite Nat.iter_succ_r. }
  apply IH; [done|lia].
Qed.
Lemma idle_large x n : group x -> x <> 0 -> (1 <= n <= 88)%nat -> 32 <= idle n x.
Proof.
  intros Hx Hnz Hn. unfold is_word in Hx. pose proof stays_large_table as H.
  rewrite forallb_forall in H. specialize (H (Z.to_nat x)). rewrite Z2Nat.id in H by lia.
  apply (stays_large_idle 88); [apply H, in_seq; lia|done].
Qed.

Lemma select_table :
  forallb (fun t => negb (foldl (fun a j => Z.lxor a (select (Z.of_nat t) j)) 0 (seq 0 5) mod 32 =? 0))
    (seq 1 31) = true.
Proof. by vm_compute. Qed.

Lemma foldl_lxor_start (f : nat -> Z) l x :
  foldl (fun a j => a ^^ f j) x l = Z.lxor x (foldl (fun a j => a ^^ f j) 0 l).
Proof.
  revert x. induction l as [|j l IH]; intros x; cbn [foldl]; [by rewrite Z.lxor_0_r|].
  rewrite IH, (IH (0 ^^ f j)), Z.lxor_0_l. by rewrite Z.lxor_assoc.
Qed.

(** The register loses nothing: only the zero state goes to zero. *)
Lemma polymod_step_zero s : word30 s -> polymod_step s 0 = 0 -> s = 0.
Proof.
  intros Hs Hz. rewrite polymod_step_select in Hz by apply Hs.
  rewrite Z.lxor_0_r, foldl_lxor_start in Hz. apply Z.lxor_eq in Hz.
  assert (0 <= s ≫ 25 < 32) as Ht.
  { rewrite Z.shiftr_div_pow2 by lia. unfold is_word in Hs.
    split; [apply Z.div_pos; lia|apply Z.div_lt_upper_bound; lia]. }
  destruct (decide (s ≫ 25 = 0)) as [H0|H0].
  - rewrite H0 in Hz. change (foldl _ 0 (seq 0 5)) with 0 in Hz.
    rewrite Z.shiftl_mul_pow2 in Hz by lia.
    change 0x1ffffff with (Z.ones 25) in Hz. rewrite Z.land_ones in Hz by lia.
    rewrite Z.shiftr_div_pow2 in H0 by lia. pose proof (Z.div_mod s (2 ^ 25)). lia.
  - pose proof select_table as H. rewrite forallb_forall in H.
    specialize (H (Z.to_nat (s ≫ 25))). rewrite Z2Nat.id in H by lia.
    rewrite <- Hz, Z.shiftl_mul_pow2, Z.mod_mul in H by lia.
    discriminate H. apply in_seq. lia.
Qed.

Lemma polymod_zeros s l :
  word30 s -> weight l = 0%nat -> foldl polymod_step s l = 0 -> s = 0.
Proof.
  revert s. induction l as [|x l IH]; intros s Hs Hw Hz; [done|]. cbn [weight foldl] in *.
  destruct (Z.eqb_spec x 0) as [->|]; [|lia].
  apply (IH (polymod_step s 0)) in Hz; [by apply polymod_step_zero| |lia].
  apply polymod_step_word; [apply Hs|by_compute].
Qed.

Lemma idle_word n x : word30 x -> word30 (idle n x).
Proof.
  intros Hx. induction n as [|n IH]; [done|]. cbn. apply polymod_step_word; [apply IH|by_compute].
Qed.

(** After one error, at most one more cannot bring the register to zero. *)
Lemma second_error x l n :
  group x -> x <> 0 -> Forall group l -> (weight l <= 1)%nat -> (n + length l <= 88)%nat ->
  foldl polymod_step (idle n x) l <> 0.
Proof.
  intros Hx Hnz Hl. revert n. induction Hl as [|y l Hy Hl IH]; intros n Hw Hn Hz.
  - cbn in Hz. destruct n as [|n]; [done|]. cbn [length] in Hn.
    pose proof (idle_large x (S n) Hx Hnz ltac:(lia)). lia.
  - cbn [weight foldl length] in *. destruct (Z.eqb_spec y 0) as [->|Hy0].
    + change (polymod_step (idle n x) 0) with (idle (S n) x) in Hz.
      apply IH in Hz; [done|lia|lia].
    + assert (word30 (idle n x)) as Hi by (apply idle_word, (is_word_le 5); [lia|done]).
      apply polymod_zeros in Hz; [|apply polymod_step_word; [apply Hi|by apply (is_word_le 5)]|lia].
      rewrite <- (Z.lxor_0_r (idle n x)), <- (Z.lxor_0_l y) in Hz.
      rewrite polymod_step_lxor in Hz by (apply Hi || lia).
      change (polymod_step (idle n x) 0) with (idle (S n) x) in Hz.
      rewrite polymod_step_shift, Z.mul_0_r, Z.add_0_l in Hz by (by_compute || done).
      apply Z.lxor_eq in Hz. pose proof (idle_large x (S n) Hx Hnz ltac:(lia)).
      unfold is_word in Hy. lia.
Qed.

Lemma two_errors l :
  Forall group l -> (weight l <= 2)%nat -> (length l <= 88)%nat ->
  foldl polymod_step 0 l = 0 -> weight l = 0%nat.
Proof.
  induction 1 as [|x l Hx Hl IH]; intros Hw Hn Hz; [done|].
  cbn [weight foldl length] in *. destruct (Z.eqb_spec x 0) as [->|Hnz].
  - change (polymod_step 0 0) with 0 in Hz. apply IH; [lia|lia|done].
  - exfalso. rewrite polymod_step_shift, Z.mul_0_r, Z.add_0_l in Hz by (by_compute || done).
    by apply (second_error x l 0) in Hz; [|done..|lia|lia].
Qed.

(** ** From characters to symbols *)
Lemma char_of_inj v w : group v -> group w -> Spec.char_of v = Spec.char_of w -> v = w.
Proof.
  intros Hv Hw He. apply (f_equal charset_index) in He.
  rewrite (proj2 (charset_index_spec _ v)), (proj2 (charset_index_spec _ w)) in He by done.
  by injection He.
Qed.
Lemma distance_app h a b : distance (h ++ a) (h ++ b) = distance a b.
Proof. induction h as [|x h IH]; [done|]. cbn. by rewrite Z.eqb_refl, IH. Qed.
Lemma distance_chars v w :
  Forall group v -> Forall group w ->
  distance (Spec.char_of <$> v) (Spec.char_of <$> w) = weight (zip_with Z.lxor v w).
Proof.
  intros Hv. revert w. induction Hv as [|x v Hx Hv IH]; intros [|y w] Hw; try done.
  apply Forall_cons in Hw as [Hy Hw]. cbn. rewrite <- IH by done. f_equal.
  destruct (Z.eqb_spec (Spec.char_of x) (Spec.char_of y)) as [He|He].
  - apply char_of_inj in He as ->; [|done..]. by rewrite Z.lxor_nilpotent.
  - destruct (Z.eqb_spec (Z.lxor x y) 0) as [Hz|]; [|done].
    apply Z.lxor_eq in Hz as ->. done.
Qed.
Lemma distance_0 a b : length a = length b -> distance a b = 0%nat -> a = b.
Proof.
  revert b. induction a as [|x a IH]; intros [|y b] Hl Hd; try done. cbn in *.
  destruct (Z.eqb_spec x y) as [->|]; [|done]. f_equal. apply IH; lia.
Qed.
Lemma zip_lxor_group a b : Forall group a -> Forall group b -> Forall group (zip_with Z.lxor a b).
Proof.
  intros Ha. revert b. induction Ha as [|x a Hx Ha IH]; intros [|y b] Hb; try constructor.
  - inversion Hb. by apply is_word_lxor.
  - apply IH. by inversion Hb.
Qed.

(** Two strings of values with the same prefix and the same checksum constant. *)
Lemma same_checksum_near p v w :
  Forall group p -> Forall group v -> Forall group w -> length v = length w ->
  (length v <= 88)%nat -> (distance (Spec.char_of <$> v) (Spec.char_of <$> w) <= 2)%nat ->
  polymod (p ++ v) = polymod (p ++ w) -> v = w.
Proof.
  intros Hp Hv Hw Hl Hn Hd He. unfold polymod in He. rewrite !foldl_app in He.
  set (s := foldl polymod_step 1 p) in *.
  assert (word30 s) as Hs by (apply polymod_fold_word; [by_compute|done]).
  assert (foldl polymod_step 0 (zip_with Z.lxor v w) = 0) as Hz.
  { pose proof (polymod_fold_lxor v w s s Hl Hs Hs Hv Hw) as H. by rewrite He, !Z.lxor_nilpotent in H. }
  rewrite distance_chars in Hd by done.
  apply two_errors in Hz; [|by apply zip_lxor_group|done|rewrite length_zip_with; lia].
  rewrite <- distance_chars in Hz by done.
  apply distance_0 in Hz; [|by rewrite !length_fmap].
  clear -Hv Hw Hz. revert w Hw Hz. induction Hv as [|x v Hx Hv IH]; intros [|y w] Hw Hz; try done.
  apply Forall_cons in Hw as [Hy Hw]. cbn in Hz. injection Hz as H1 H2.
  f_equal; [by apply char_of_inj|by apply IH].
Qed.

Lemma values_polymod a :
  Forall group (hrp_expand (hrp a)) -> 0 <= witver a <= 16 ->
  polymod (hrp_expand (hrp a) ++ Spec.values a) = Spec.const (witver a).
Proof.
  intros Hh Hw. unfold Spec.values. rewrite app_assoc.
  apply checksum_unique; [|apply digits32_group|apply length_checksum|done].
  apply Forall_app; split; [done|]. constructor; [unfold is_word; lia|apply digits32_group].
Qed.

Lemma values_head a : exists v, Spec.values a = witver a :: v.
Proof. by eexists. Qed.

(** Two texts that agree up to the version character and have no later
    separator have the same prefix and version. *)
Lemma same_prefix h h' w w' v v' t :
  Forall group (w :: v) -> Forall group (w' :: v') ->
  t = h' ++ 49 :: (Spec.char_of <$> w' :: v') ->
  take (length h + 2) t = h ++ [49; Spec.char_of w] -> 49 ∉ drop (length h + 2) t ->
  h' = h /\ w' = w.
Proof.
  intros Hg Hg' Ht Hp Hn.
  assert (t = h ++ 49 :: (Spec.char_of w :: drop (length h + 2) t)) as Ht'.
  { rewrite <- (take_drop (length h + 2) t) at 1. rewrite Hp, <- app_assoc. done. }
  pose proof (chars_not_sep _ Hg') as Hs'.
  assert (49 ∉ Spec.char_of w :: drop (length h + 2) t) as Hs.
  { apply not_elem_of_cons. split; [|done]. intros H49. apply (chars_not_sep _ Hg). rewrite H49. left. }
  pose proof (split_last_app h _ Hs) as S1. pose proof (split_last_app h' _ Hs') as S2.
  rewrite <- Ht' in S1. rewrite <- Ht, S1 in S2. injection S2 as -> Hc _.
  split; [done|]. apply char_of_inj; [by inversion Hg'|by inversion Hg|done].
Qed.

Lemma scriptpubkey_form a outsz :
  Spec.valid a -> (length (program a) + 2 <= outsz)%nat ->
  exists s, bech32_scriptpubkey a outsz = Some s
    /\ Spec.parse_script s = Some (witver a, program a)
    /\ bytes s /\ (4 <= length s <= 42)%nat /\ (length s <= outsz)%nat.
Proof.
  intros [Hh Hw [Hp Hn] H0] Ho. unfold bech32_scriptpubkey.
  rewrite (proj2 (Nat.ltb_ge _ _)) by done.
  eexists. split; [reflexivity|].
  assert (u8 (Z.of_nat (length (program a))) = Z.of_nat (length (program a))) as Hl
    by (apply u8_small; unfold is_word; lia).
  assert (u8 (0x50 + witver a) = 0x50 + witver a) as Hv by (apply u8_small; unfold is_word; lia).
  rewrite Hl. split; [|split; [|cbn [length]; lia]].
  - unfold Spec.parse_script. rewrite Z.eqb_refl. destruct (Z.eqb_spec (witver a) 0) as [->|]; [done|].
    rewrite Hv. destruct (Z.eqb_spec (80 + witver a) 0); [lia|]. do 2 f_equal. lia.
  - constructor; [destruct (_ =? 0); [by_compute|apply u8_word]|].
    constructor; [unfold is_word; lia|done].
Qed.

(** ** Properties *)



(** C24: the checksum protects the payout: changing one or two characters after
    the version character of an accepted address, to characters other than the
    separator [1], is always refused. A [1] among the new characters moves the
    separator, and the code reads another prefix and checksum: the example
    [moved_separator_is_accepted] changes two characters so. *)
Theorem bech32_detects_two_substitutions (stack addr addr' : list Z) (a : bech32_addr) :
  length stack = 128%nat -> decode_on stack addr = Some (inr a) ->
  length addr' = length addr ->
  let text := to_lower <$> addr in
  let text' := to_lower <$> addr' in
  take (length (hrp a) + 2) text' = take (length (hrp a) + 2) text ->
  49 ∉ drop (length (hrp a) + 2) text' ->
  text' <> text -> (distance text text' <= 2)%nat ->
  decode_on stack addr' = Some (inl (-1)).
Proof.
  intros Hs Ha Hlen text text' Hpre Hsep Hne Hd.
  pose proof (decode_on_sound stack addr Hs) as H. rewrite Ha in H. destruct H as (Ht & Hv & He).
  pose proof (decode_on_sound stack addr' Hs) as H'.
  destruct (decode_on stack addr') as [[rc|a']|]; [by subst| |done].
  destruct H' as (Ht' & Hv' & He'). exfalso. fold text in He. fold text' in He'.
  assert (length text = length text') as Hll by (subst text text'; by rewrite !length_fmap).
  pose proof (values_group a (Spec.valid_witver a Hv)) as Hg.
  pose proof (values_group a' (Spec.valid_witver a' Hv')) as Hg'.
  destruct (values_head a) as [va Hva]. destruct (values_head a') as [va' Hva'].
  assert (hrp a' = hrp a /\ witver a' = witver a) as [Hh Hw].
  { rewrite Hva in Hg. rewrite Hva' in Hg'.
    apply (same_prefix (hrp a) (hrp a') (witver a) (witver a') va va' text'); try done.
    - rewrite He'. unfold Spec.encode. by rewrite Hva'.
    - rewrite Hpre, He. unfold Spec.encode. rewrite Hva.
      rewrite take_app_ge by lia. f_equal. by replace (length (hrp a) + 2 - length (hrp a))%nat with 2%nat by lia. }
  pose proof (text_ok_chars addr Ht) as [Hc Hl90]. apply lower_chars in Hc. fold text in Hc.
  assert (Forall group (hrp_expand (hrp a))) as Hx.
  { apply hrp_expand_group. rewrite He in Hc. by apply Forall_app in Hc as [Hc _]. }
  rewrite He, He' in Hll, Hd, Hne. unfold Spec.encode in Hll, Hd, Hne. rewrite Hh in *.
  rewrite distance_app in Hd. cbn [distance] in Hd. rewrite Z.eqb_refl in Hd. cbn [Nat.add] in Hd.
  apply Hne. do 2 f_equal. symmetry. f_equal.
  rewrite !length_app in Hll. cbn [length] in Hll. rewrite !length_fmap in Hll.
  apply (same_checksum_near (hrp_expand (hrp a))); [done..|lia| |done|].
  - apply (f_equal length) in He. subst text. unfold Spec.encode in He.
    rewrite length_fmap, length_app in He. cbn [length] in He. rewrite length_fmap in He.
    pose proof (Spec.valid_hrp a Hv). lia.
  - rewrite (values_polymod a) by (done || apply Hv). rewrite <- Hh at 1.
    rewrite (values_polymod a'); [by rewrite Hw|by rewrite Hh|apply Hv'].
Qed.

Lemma bech32_detects_two_substitutions_witness :
  let addr := str "bc1qztsz84mn408vfklya05sgf8v4j2wtfrscszene" in
  let addr' := str "bc1qztsz84mn4q8vfklya05sgf8v4j2wtfrscszenx" in
  decode_on (replicate 128 0) addr' = Some (inl (-1)).
Proof.
  apply (bech32_detects_two_substitutions (replicate 128 0)
    (str "bc1qztsz84mn408vfklya05sgf8v4j2wtfrscszene") _
    (Bech32Addr (str "bc") 0 [18; 224; 35; 215; 115; 171; 206; 196; 219; 228; 235; 233; 4; 36;
                              236; 172; 148; 229; 164; 112])); by_compute.
Defined.

(** Two accepted addresses that differ in two characters, one of them a separator. *)
Example moved_separator_is_accepted :
  let addr := str "21pjjqqskpa0r28h70cx0qd63tc2yguggqqdd22j5vdtvcnph62fsy4nq4q0e0g2h" in
  let addr' := str "21pjj1qskpa0r28h70cx0qd63tcfyguggqqdd22j5vdtvcnph62fsy4nq4q0e0g2h" in
  let accepted := fun l => match decode_on (replicate 128 0) l with Some (inr a) => Some (hrp a) | _ => None end in
  distance addr addr' = 2%nat /\ accepted addr = Some (str "2") /\ accepted addr' = Some (str "21pjj").
Proof. vm_compute. done. Qed.

(** The scriptPubKey of an accepted address is the version opcode, one
    direct push of its length and the program, 4 to 42 bytes that determine the
    version and the program; it is refused exactly when it does not fit. *)
Theorem bech32_scriptpubkey_form (a : bech32_addr) (outsz : nat) :
  Spec.valid a ->
  if (outsz <? length (program a) + 2)%nat then bech32_scriptpubkey a outsz = None
  else exists s, bech32_scriptpubkey a outsz = Some s
    /\ Spec.parse_script s = Some (witver a, program a)
    /\ bytes s /\ (4 <= length s <= 42)%nat /\ (length s <= outsz)%nat.
Proof.
  intros Hv. destruct (Nat.ltb_spec outsz (length (program a) + 2)).
  - unfold bech32_scriptpubkey. by rewrite (proj2 (Nat.ltb_lt _ _)).
  - by apply scriptpubkey_form.
Qed.

Lemma bech32_scriptpubkey_form_witness :
  let a := Bech32Addr (str "bc") 1 (replicate 32 7) in
  exists s, bech32_scriptpubkey a 64 = Some s /\ Spec.parse_script s = Some (1, replicate 32 7)
    /\ bytes s /\ (4 <= length s <= 42)%nat /\ (length s <= 64)%nat.
Proof.
  apply (bech32_scriptpubkey_form (Bech32Addr (str "bc") 1 (replicate 32 7)) 64).
  constructor; cbn; [lia|lia|split; [by_compute|lia]|lia].
Defined.
End Bech32.
