(* ===== verification/Coinbase.v ===== *)
(** * The coinbase transaction (src/miner/coinbase.c)

    The transaction without and with its witness, byte by byte, the BIP34 height
    push and the hex decoding of the witness commitment, against a reader of
    Bitcoin transactions. *)
From S2P Require Import Prelude Sha256 Bech32.
From S2P Require Block.

Module Coinbase.
Import Sha256.
Local Open Scope word_scope.

Definition COINBASE_MAX : nat := 1024.

Definition put_u32le (v : Z) : list Z := [u8 v; u8 (v ≫ 8); u8 (v ≫ 16); u8 (v ≫ 24)].
Definition put_u64le (v : Z) : list Z := (fun i => u8 (v ≫ (8 * Z.of_nat i))) <$> seq 0 8.

Definition put_compact (v : Z) : list Z :=
  if v <? 0xfd then [u8 v]
  else if v <=? 0xffff then [0xfd; u8 v; u8 (v ≫ 8)]
  else if v <=? 0xffffffff then 0xfe :: put_u32le (u32 v)
  else 0xff :: put_u64le v.

(** [None] is -1. *)
Definition hexval (c : Z) : option Z :=
  if (48 <=? c) && (c <=? 57) then Some (c - 48)
  else if (97 <=? c) && (c <=? 102) then Some (c - 97 + 10)
  else if (65 <=? c) && (c <=? 70) then Some (c - 65 + 10)
  else None.

(** The loop over the digit pairs; the length has been checked to be even. *)
Fixpoint hex_pairs (hex : list Z) : option (list Z) :=
  match hex with
  | c :: d :: hex =>
    hi ← hexval c; lo ← hexval d; rest ← hex_pairs hex; Some (u8 ((hi ≪ 4) .| lo) :: rest)
  | _ => Some []
  end.

Definition hex2bin (hex : list Z) (outsz : nat) : option (list Z) :=
  let n := length hex in
  if negb (n mod 2 =? 0)%nat then None
  else if (outsz <? n / 2)%nat then None
  else hex_pairs hex.

(** [while (h) { tmp[n++] = h & 0xff; h >>= 8; }], with fuel. *)
Fixpoint height_bytes (fuel : nat) (h : Z) : option (list Z) :=
  if h =? 0 then Some []
  else match fuel with
  | O => None
  | S fuel => tmp ← height_bytes fuel (h ≫ 8); Some (u8 (h .& 0xff) :: tmp)
  end.

(** The push after the loop: a zero byte for zero, or for a set high bit. *)
Definition close_height (tmp : list Z) : list Z :=
  let n := length tmp in
  let tmp :=
    if (n =? 0)%nat then tmp ++ [0]
    else if negb (tmp !!! (n - 1)%nat .& 0x80 =? 0) then tmp ++ [0] else tmp in
  u8 (Z.of_nat (length tmp)) :: tmp.

Definition push_height (height : Z) : option (list Z) :=
  close_height <$> height_bytes 4 (u32 height).

Record coinbase_t := CoinbaseT {
  raw : list Z;             (* raw_len bytes of COINBASE_MAX *)
  stripped : list Z;        (* stripped_len bytes of COINBASE_MAX *)
  txid : list Z
}.
(** [memset(cb, 0, sizeof *cb)]. *)
Definition blank : coinbase_t := CoinbaseT [] [] (replicate 32 0).

Definition output (value : Z) (spk : list Z) : list Z :=
  put_u64le value ++ put_compact (Z.of_nat (length spk)) ++ spk.

(** What lies between version and locktime in both forms. *)
Definition tx_body (script : list Z) (value : Z) (spk wc : list Z) : list Z :=
  put_compact 1 ++ replicate 32 0 ++ put_u32le 0xffffffff
  ++ put_compact (Z.of_nat (length script)) ++ script ++ put_u32le 0xffffffff
  ++ put_compact (if (length wc =? 0)%nat then 1 else 2)
  ++ output value spk
  ++ (if (length wc =? 0)%nat then [] else output 0 wc).

Definition finish_tx (script : list Z) (value : Z) (spk wc : list Z) : coinbase_t :=
  let s := put_u32le 2 ++ tx_body script value spk wc ++ put_u32le 0 in
  let mid := (length s - 4 - 4)%nat in
  let w := put_u32le 2 ++ [0x00] ++ [0x01] ++ slice 4 mid s ++ put_compact 1
           ++ put_compact 32 ++ replicate 32 0 ++ put_u32le 0 in
  CoinbaseT w s (sha256d s).

(** The return code and the structure; [None] is a loop out of fuel. *)
Definition coinbase_build (address : list Z) (value height extranonce : Z)
    (witness_commitment_hex : option (list Z)) : option (Z * coinbase_t) :=
  match Bech32.bech32_decode_addr address with
  | None => None
  | Some (inl _) => Some (-2, blank)
  | Some (inr a) =>
    match Bech32.bech32_scriptpubkey a 64 with
    | None => Some (-3, blank)
    | Some spk =>
      let hex := default [] witness_commitment_hex in
      match (if (length hex =? 0)%nat then Some [] else hex2bin hex 64) with
      | None => Some (-4, blank)
      | Some wc =>
        script ← push_height height;
        Some (0, finish_tx (script ++ [8] ++ put_u64le extranonce) value spk wc)
      end
    end
  end.

(** ** The reader *)
Module Spec.
Import Block.Block.Spec.
Record txin := TxIn { prevout : list Z; index : Z; script_sig : list Z; sequence : Z }.
Record txout := TxOut { amount : Z; script_pubkey : list Z }.
Record tx := Tx { version : Z; vin : list txin; vout : list txout; locktime : Z }.

(** [n] items, and items preceded by their number. *)
Fixpoint items {A} (item : list Z -> option (A * list Z)) (n : nat) (l : list Z)
    : option (list A * list Z) :=
  match n with
  | O => Some ([], l)
  | S n => '(x, l) ← item l; '(xs, l) ← items item n l; Some (x :: xs, l)
  end.
Definition vector {A} (item : list Z -> option (A * list Z)) (l : list Z)
    : option (list A * list Z) :=
  '(n, l) ← compact_of l; items item (Z.to_nat n) l.
Definition string_of (l : list Z) : option (list Z * list Z) :=
  '(n, l) ← compact_of l; bytes_of (Z.to_nat n) l.

Definition txin_of (l : list Z) : option (txin * list Z) :=
  '(h, l) ← bytes_of 32 l; '(i, l) ← int_of 4 l; '(s, l) ← string_of l; '(q, l) ← int_of 4 l;
  Some (TxIn h i s q, l).
Definition txout_of (l : list Z) : option (txout * list Z) :=
  '(v, l) ← int_of 8 l; '(s, l) ← string_of l; Some (TxOut v s, l).

(** The legacy form, and the BIP144 form with marker, flag and one witness stack
    per input. *)
Definition legacy_of (l : list Z) : option (tx * list Z) :=
  '(v, l) ← int_of 4 l; '(ins, l) ← vector txin_of l; '(outs, l) ← vector txout_of l;
  '(t, l) ← int_of 4 l; Some (Tx v ins outs t, l).
Definition segwit_of (l : list Z) : option (tx * list (list (list Z)) * list Z) :=
  '(v, l) ← int_of 4 l; '(marker, l) ← bytes_of 2 l;
  if decide (marker = [0; 1]) then
    '(ins, l) ← vector txin_of l; '(outs, l) ← vector txout_of l;
    '(wit, l) ← items (vector string_of) (length ins) l;
    '(t, l) ← int_of 4 l; Some (Tx v ins outs t, wit, l)
  else None.

(** The coinbase transaction asked for. *)
Definition coinbase_tx (script : list Z) (value : Z) (spk wc : list Z) : tx :=
  Tx 2 [TxIn (replicate 32 0) 0xffffffff script 0xffffffff]
     (TxOut value spk :: if decide (wc = []) then [] else [TxOut 0 wc]) 0.

(** The number a script pushes (BIP62): little-endian, the top bit of the last
    byte is the sign; minimal when the last byte is needed. *)
Definition scriptnum_of (d : list Z) : Z :=
  let n := Z.of_nat (length d) in
  let v := le_val d in
  if v <? 2 ^ (8 * n - 1) then v else - (v - 2 ^ (8 * n - 1)).
Definition minimal (d : list Z) : Prop :=
  exists b rest, rev d = b :: rest /\
    (b mod 128 <> 0 \/ exists c rest', rest = c :: rest' /\ 128 <= c).

(** Hex text of bytes, in lower case. *)
Definition hex_digit (v : Z) : Z := if v <? 10 then 48 + v else 87 + v.
Definition hex_of (b : list Z) : list Z := b ≫= (fun x => [hex_digit (x / 16); hex_digit (x mod 16)]).
End Spec.

(** ** Reading back *)
Import Block.Block.Spec Spec.

Lemma u32le_spec v : put_u32le v = le_bytes 4 v.
Proof. done. Qed.
Lemma put_u64le_spec v : put_u64le v = le_bytes 8 v.
Proof. done. Qed.
Lemma put_compact_block v : 0 <= v -> put_compact v = Block.Block.put_compact v.
Proof.
  intros Hv. unfold put_compact, Block.Block.put_compact.
  destruct (Z.ltb_spec v 253); [done|]. destruct (Z.leb_spec v 65535); [|done].
  by rewrite u16_small by (unfold is_word; lia).
Qed.
Lemma compact_of_put v l : is_word 64 v -> compact_of (put_compact v ++ l) = Some (v, l).
Proof.
  intros Hv. rewrite put_compact_block by apply Hv. by apply Block.Block.compact_of_app.
Qed.
Lemma length_compact v : 0 <= v -> (1 <= length (put_compact v) <= 9)%nat.
Proof. intros Hv. rewrite put_compact_block by done. apply Block.Block.length_put_compact. Qed.
Lemma length_compact_1 v : 0 <= v < 253 -> length (put_compact v) = 1%nat.
Proof. intros Hv. unfold put_compact. by rewrite (proj2 (Z.ltb_lt _ _)) by lia. Qed.

Lemma string_of_put s l :
  Z.of_nat (length s) < 2 ^ 64 ->
  string_of (put_compact (Z.of_nat (length s)) ++ s ++ l) = Some (s, l).
Proof.
  intros Hs. unfold string_of. rewrite compact_of_put by (unfold is_word; lia).
  cbn [mbind option_bind]. rewrite Nat2Z.id. by apply Block.Block.bytes_of_app.
Qed.
Lemma txout_of_put v s l :
  is_word 64 v -> Z.of_nat (length s) < 2 ^ 64 ->
  txout_of (output v s ++ l) = Some (TxOut v s, l).
Proof.
  intros Hv Hs. unfold txout_of, output. rewrite <- !app_assoc, put_u64le_spec.
  rewrite Block.Block.int_of_app by done. cbn [mbind option_bind].
  rewrite string_of_put by done. done.
Qed.

(** The encoding of an input with a null previous output. *)
Definition null_input (script : list Z) : list Z :=
  replicate 32 0 ++ put_u32le 0xffffffff ++ put_compact (Z.of_nat (length script))
  ++ script ++ put_u32le 0xffffffff.
Lemma txin_of_put s l :
  Z.of_nat (length s) < 2 ^ 64 ->
  txin_of (null_input s ++ l) = Some (TxIn (replicate 32 0) 0xffffffff s 0xffffffff, l).
Proof.
  intros Hs. unfold txin_of, null_input. rewrite <- !app_assoc, !u32le_spec.
  rewrite Block.Block.bytes_of_app by done. cbn [mbind option_bind].
  rewrite Block.Block.int_of_app by done. cbn [mbind option_bind].
  rewrite string_of_put by done. cbn [mbind option_bind].
  rewrite Block.Block.int_of_app by done. done.
Qed.

Lemma tx_body_shape script value spk wc :
  tx_body script value spk wc =
    put_compact 1 ++ null_input script ++ put_compact (if (length wc =? 0)%nat then 1 else 2)
    ++ output value spk ++ (if (length wc =? 0)%nat then [] else output 0 wc).
Proof. unfold tx_body, null_input. by rewrite <- !app_assoc. Qed.

(** Inputs and outputs are read back from the body. *)
Lemma body_read script value spk wc l :
  (length script < 100)%nat -> (length spk < 100)%nat -> (length wc < 100)%nat ->
  is_word 64 value ->
  exists l', vector txin_of (tx_body script value spk wc ++ l)
             = Some (vin (coinbase_tx script value spk wc), l')
    /\ vector txout_of l' = Some (vout (coinbase_tx script value spk wc), l).
Proof.
  intros Hs Hk Hw Hv. rewrite tx_body_shape, <- !app_assoc.
  eexists. split.
  - unfold vector at 1. rewrite compact_of_put by done. cbn [mbind option_bind].
    change (Z.to_nat 1) with 1%nat. cbn [items]. rewrite txin_of_put by lia. reflexivity.
  - unfold vector, coinbase_tx. cbn [vout].
    destruct wc as [|b wc']; [rewrite decide_True by done|rewrite decide_False by done];
      cbn [length Nat.eqb]; rewrite compact_of_put by done; cbn [mbind option_bind].
    + change (Z.to_nat 1) with 1%nat. cbn [items app].
      rewrite txout_of_put by (done || lia). reflexivity.
    + change (Z.to_nat 2) with 2%nat. cbn [items].
      rewrite txout_of_put by (done || lia). cbn [mbind option_bind].
      rewrite (txout_of_put 0) by (done || (cbn [length] in *; lia)). reflexivity.
Qed.

Lemma slice_body script value spk wc :
  let s := put_u32le 2 ++ tx_body script value spk wc ++ put_u32le 0 in
  slice 4 (length s - 4 - 4) s = tx_body script value spk wc.
Proof.
  cbv zeta. rewrite slice_app_r by done. change (4 - length (put_u32le 2))%nat with 0%nat.
  rewrite slice_0, take_app_length'; [done|]. rewrite !length_app. cbn [length put_u32le]. lia.
Qed.

Lemma length_output v s : (length s < 100)%nat -> length (output v s) = (9 + length s)%nat.
Proof.
  intros Hs. unfold output. rewrite !length_app, length_compact_1 by lia.
  rewrite put_u64le_spec, length_le_bytes. lia.
Qed.

Section Finish.
Context (script : list Z) (value : Z) (spk wc : list Z).
Context (Hscript : (length script < 100)%nat) (Hspk : (length spk < 100)%nat)
  (Hwc : (length wc < 100)%nat) (Hvalue : is_word 64 value).

(** The legacy form reads back as the transaction, the witness form as the same
    transaction with a single stack of one 32-byte zero. *)
Lemma finish_reads :
  let cb := finish_tx script value spk wc in
  let t := coinbase_tx script value spk wc in
  legacy_of (stripped cb) = Some (t, [])
  /\ segwit_of (raw cb) = Some (t, [[replicate 32 0]], []).
Proof using Hscript Hspk Hwc Hvalue.
  cbv zeta. unfold finish_tx. cbn [stripped raw]. rewrite slice_body.
  unfold legacy_of, segwit_of. rewrite (u32le_spec 2), (u32le_spec 0). split.
  - rewrite Block.Block.int_of_app by done. cbn [mbind option_bind].
    destruct (body_read script value spk wc (le_bytes 4 0)) as (l' & H1 & H2); [done..|].
    rewrite H1. cbn [mbind option_bind]. rewrite H2. cbn [mbind option_bind].
    rewrite <- (app_nil_r (le_bytes 4 0)), Block.Block.int_of_app by done. reflexivity.
  - rewrite Block.Block.int_of_app by done. cbn [mbind option_bind].
    rewrite (app_assoc [0] [1]), (Block.Block.bytes_of_app 2) by done. cbn [mbind option_bind app].
    rewrite decide_True by done.
    set (l := put_compact 1 ++ put_compact 32 ++ _).
    destruct (body_read script value spk wc l) as (l' & H1 & H2); [done..|].
    rewrite H1. cbn [mbind option_bind]. rewrite H2. cbn [mbind option_bind vin coinbase_tx length items].
    unfold vector at 1. subst l. rewrite compact_of_put by done. cbn [mbind option_bind].
    change (Z.to_nat 1) with 1%nat. cbn [items].
    change 32 with (Z.of_nat (length (replicate 32 0))) at 1.
    rewrite string_of_put by done. cbn [mbind option_bind].
    rewrite <- (app_nil_r (le_bytes 4 0)), Block.Block.int_of_app by done. reflexivity.
Qed.

Lemma finish_bounds :
  let cb := finish_tx script value spk wc in
  (length (stripped cb) <= COINBASE_MAX)%nat /\ (length (raw cb) <= COINBASE_MAX)%nat.
Proof using Hscript Hspk Hwc.
  cbv zeta. unfold finish_tx. cbn [stripped raw]. rewrite slice_body, !length_app.
  rewrite tx_body_shape. unfold null_input. rewrite !length_app, length_output by done.
  rewrite length_compact_1 by (by vm_compute). rewrite (length_compact_1 (Z.of_nat _)) by lia.
  rewrite (length_compact_1 (if _ : bool then _ else _)) by (by case_match).
  rewrite (length_compact_1 32) by lia.
  assert (length (if (length wc =? 0)%nat then [] else output 0 wc) <= 109)%nat.
  { case_match; [cbn; lia|]. rewrite length_output by done. lia. }
  cbn [length put_u32le replicate]. unfold COINBASE_MAX. lia.
Qed.
End Finish.

(** ** The height push *)
Lemma high_bit b : is_byte b -> negb (b .& 0x80 =? 0) = (128 <=? b).
Proof.
  intros Hb. unfold is_word in Hb.
  assert (forallb (fun n => eqb (negb (Z.of_nat n .& 0x80 =? 0)) (128 <=? Z.of_nat n)) (seq 0 256)
    = true) as H by (by vm_compute).
  rewrite forallb_forall in H. specialize (H (Z.to_nat b)). rewrite Z2Nat.id in H by lia.
  apply eqb_prop, H, in_seq. lia.
Qed.

Lemma height_bytes_spec fuel h :
  is_word (8 * Z.of_nat fuel) h ->
  exists d, height_bytes fuel h = Some d /\ le_val d = h /\ bytes d /\ (length d <= fuel)%nat
    /\ (h = 0 -> d = []) /\ (h <> 0 -> exists b rest, rev d = b :: rest /\ b <> 0).
Proof.
  revert h. induction fuel as [|fuel IH]; intros h Hh; unfold is_word in Hh.
  { replace h with 0 by (cbn in Hh; lia). by exists []. }
  cbn [height_bytes]. destruct (Z.eqb_spec h 0) as [->|Hnz].
  { exists []. repeat split; [constructor|cbn; lia|done]. }
  replace (8 * Z.of_nat (S fuel)) with (8 + 8 * Z.of_nat fuel) in Hh by lia.
  rewrite Z.pow_add_r in Hh by lia.
  destruct (IH (h ≫ 8)) as (d & -> & Hd & Hb & Hl & Hz & Ht).
  { rewrite Z.shiftr_div_pow2 by lia. split; [apply Z.div_pos; lia|].
    apply Z.div_lt_upper_bound; lia. }
  rewrite Z.shiftr_div_pow2 in * by lia. pose proof (Z.div_mod h (2 ^ 8) ltac:(lia)).
  cbn [mbind option_bind]. exists (u8 (u8 h) :: d). change (h .& 0xff) with (u8 h).
  rewrite (u8_small (u8 h)) by apply u8_word. rewrite u8_mod.
  split; [done|]. split; [cbn [le_val]; rewrite Hd; lia|].
  split; [constructor; [apply Z.mod_pos_bound; lia|done]|]. split; [cbn; lia|].
  split; [done|]. intros _. cbn [rev]. destruct (decide (h / 2 ^ 8 = 0)) as [H0|H0].
  - rewrite (Hz H0). exists (h mod 2 ^ 8), []. split; [done|]. lia.
  - destruct (Ht H0) as (b & rest & -> & Hbz). by exists b, (rest ++ [h mod 2 ^ 8]).
Qed.

Lemma le_val_top d b rest :
  rev d = b :: rest -> bytes d ->
  is_byte b /\ bytes rest /\ length d = S (length rest)
  /\ le_val d = le_val (rev rest) + b * 2 ^ (8 * Z.of_nat (length rest))
  /\ d !!! (length d - 1)%nat = b /\ 0 <= le_val (rev rest) < 2 ^ (8 * Z.of_nat (length rest)).
Proof.
  intros Hr Hb. assert (d = rev rest ++ [b]) as -> by (rewrite <- (rev_involutive d), Hr; done).
  apply Forall_app in Hb as [Hb [Hbb _]%Forall_cons].
  rewrite length_app, le_val_app, length_rev. cbn [length le_val].
  split; [done|]. split; [rewrite <- (rev_involutive rest); by apply bytes_rev|].
  split; [lia|]. split; [lia|]. split.
  - rewrite lookup_total_app_r by (rewrite length_rev; lia). rewrite length_rev.
    by replace (length rest + 1 - 1 - length rest)%nat with 0%nat by lia.
  - rewrite <- (length_rev rest). by apply le_val_bound.
Qed.

Lemma close_height_spec d h :
  le_val d = h -> bytes d -> (length d <= 4)%nat -> (h = 0 -> d = []) ->
  (h <> 0 -> exists b rest, rev d = b :: rest /\ b <> 0) ->
  exists data, close_height d = Z.of_nat (length data) :: data
    /\ bytes data /\ (1 <= length data <= 5)%nat /\ scriptnum_of data = h
    /\ (h <> 0 -> minimal data).
Proof.
  intros Hd Hb Hl Hz Ht. unfold close_height.
  destruct (decide (h = 0)) as [->|Hnz].
  { rewrite (Hz eq_refl). exists [0]. split; [done|]. split; [by_compute|]. split; [cbn; lia|]. done. }
  destruct (Ht Hnz) as (b & rest & Hr & Hb0). clear Ht Hz.
  destruct (le_val_top d b rest Hr Hb) as (Hbb & Hbr & Hlen & Hv & Hlast & Hlow).
  destruct (Nat.eqb_spec (length d) 0); [lia|]. rewrite Hlast, high_bit by done.
  unfold is_word in Hbb. set (P := 2 ^ (8 * Z.of_nat (length rest))) in *.
  destruct (Z.leb_spec 128 b) as [Hhi|Hlo].
  - exists (d ++ [0]). rewrite length_app. cbn [length].
    split; [f_equal; apply u8_small; unfold is_word; lia|].
    split; [apply Forall_app; split; [done|by_compute]|]. split; [lia|]. split.
    + unfold scriptnum_of. rewrite length_app, le_val_app. cbn [length le_val].
      rewrite Z.mul_0_r, Z.add_0_r. rewrite (proj2 (Z.ltb_lt _ _)); [lia|].
      eapply Z.lt_le_trans; [apply (le_val_bound d Hb)|]. apply Z.pow_le_mono_r; lia.
    + intros _. exists 0, (b :: rest). rewrite rev_app_distr, Hr. split; [done|]. right. eauto.
  - exists d. split; [f_equal; apply u8_small; unfold is_word; lia|]. split; [done|].
    split; [lia|]. split.
    + unfold scriptnum_of. rewrite (proj2 (Z.ltb_lt _ _)); [done|]. rewrite Hv, Hlen.
      replace (8 * Z.of_nat (S (length rest)) - 1) with (8 * Z.of_nat (length rest) + 7) by lia.
      rewrite Z.pow_add_r by lia. fold P. nia.
    + intros _. exists b, rest. split; [done|]. left. rewrite Z.mod_small; lia.
Qed.

Lemma push_height_spec height :
  exists data, push_height height = Some (Z.of_nat (length data) :: data)
    /\ bytes data /\ (1 <= length data <= 5)%nat /\ scriptnum_of data = u32 height
    /\ (u32 height <> 0 -> minimal data).
Proof.
  unfold push_height.
  destruct (height_bytes_spec 4 (u32 height)) as (d & -> & H1 & H2 & H3 & H4 & H5); [apply u32_word|].
  destruct (close_height_spec d (u32 height)) as (data & H); [done..|].
  exists data. cbn [fmap option_fmap option_map]. by destruct H as [-> H].
Qed.

(** ** Hex *)
Lemma hexval_digit v : 0 <= v < 16 -> hexval (hex_digit v) = Some v.
Proof.
  intros Hv. assert (forallb (fun n => bool_decide (hexval (hex_digit (Z.of_nat n)) = Some (Z.of_nat n)))
    (seq 0 16) = true) as H by (by vm_compute).
  rewrite forallb_forall in H. specialize (H (Z.to_nat v)). rewrite Z2Nat.id in H by lia.
  apply bool_decide_eq_true in H; [done|]. apply in_seq. lia.
Qed.
Lemma length_hex_of b : length (hex_of b) = (2 * length b)%nat.
Proof. unfold hex_of. induction b as [|x b IH]; [done|]. cbn in *. lia. Qed.
Lemma hex_pairs_hex_of b : bytes b -> hex_pairs (hex_of b) = Some b.
Proof.
  induction 1 as [|x b Hx Hb IH]; [done|]. unfold is_word in Hx.
  change (hex_of (x :: b)) with (hex_digit (x / 16) :: hex_digit (x mod 16) :: hex_of b).
  cbn [hex_pairs]. rewrite !hexval_digit by (Z.div_mod_to_equations; lia).
  cbn [mbind option_bind]. rewrite IH. cbn [mbind option_bind].
  rewrite lor_add by (first [lia|apply Z.mod_pos_bound; lia]).
  do 2 f_equal. rewrite u8_small; unfold is_word; Z.div_mod_to_equations; lia.
Qed.
Lemma hex2bin_hex_of b n : bytes b -> (length b <= n)%nat -> hex2bin (hex_of b) n = Some b.
Proof.
  intros Hb Hn. unfold hex2bin. rewrite length_hex_of, (Nat.mul_comm 2).
  rewrite Nat.Div0.mod_mul, Nat.div_mul by lia. cbn [Nat.eqb negb].
  rewrite (proj2 (Nat.ltb_ge _ _)) by lia. by apply hex_pairs_hex_of.
Qed.
Lemma hex_pairs_length hex b :
  hex_pairs hex = Some b -> (2 * length b <= length hex)%nat /\ bytes b.
Proof.
  revert b. assert (forall n hex, (length hex <= n)%nat -> forall b,
    hex_pairs hex = Some b -> (2 * length b <= length hex)%nat /\ bytes b) as H; [|by eapply H].
  clear hex. induction n as [|n IH]; intros [|c [|d hex]] Hl b; cbn [hex_pairs length] in *;
    try (intros [= <-]; split; [cbn; lia|constructor]); try lia.
  destruct (hexval c) as [hi|]; [|done]. destruct (hexval d) as [lo|]; [|done].
  cbn [mbind option_bind]. destruct (hex_pairs hex) as [r|] eqn:E; [|done]. intros [= <-].
  destruct (IH hex ltac:(lia) r E). cbn [length]. split; [lia|]. constructor; [apply u8_word|done].
Qed.

Lemma hex2bin_length hex b n : hex2bin hex n = Some b -> (length b <= n)%nat.
Proof.
  unfold hex2bin. destruct (negb _); [done|].
  destruct (Nat.ltb_spec n (length hex / 2)) as [|Hn]; [done|].
  intros [H _]%hex_pairs_length.
  assert (length b <= length hex / 2)%nat by (apply Nat.div_le_lower_bound; lia). lia.
Qed.

Lemma accepted_address address :
  match Bech32.bech32_decode_addr address with
  | None => False
  | Some (inl rc) => rc = -1
  | Some (inr a) => exists spk, Bech32.bech32_scriptpubkey a 64 = Some spk
      /\ Bech32.Spec.parse_script spk = Some (Bech32.witver a, Bech32.program a)
      /\ (length spk <= 42)%nat
  end.
Proof.
  pose proof (Bech32.decode_on_sound (replicate 128 0) address eq_refl) as H.
  unfold Bech32.bech32_decode_addr. destruct (Bech32.decode_on _ _) as [[rc|a]|]; [done| |done].
  destruct H as (_ & Hv & _). destruct (Bech32.Spec.valid_program a Hv) as [_ Hp].
  destruct (Bech32.scriptpubkey_form a 64 Hv) as (s & Hs & Hq & _ & Hl); [lia|].
  exists s. split; [done|]. split; [done|]. lia.
Qed.

(** ** Properties *)

(** A result always; on success the id of the transaction it holds, within the buffer. *)
Lemma coinbase_build_total address value height extranonce commitment :
  exists rc cb, coinbase_build address value height extranonce commitment = Some (rc, cb)
  /\ (rc = 0 -> txid cb = sha256d (stripped cb) /\ (length (raw cb) <= COINBASE_MAX)%nat).
Proof.
  unfold coinbase_build. pose proof (accepted_address address) as Ha.
  destruct (Bech32.bech32_decode_addr address) as [[rc|a]|]; [|destruct Ha as (spk & -> & _ & Hl)|done].
  { subst rc. by eexists _, _. }
  destruct (push_height_spec height) as (data & -> & _ & Hd & _).
  set (hex := default [] commitment).
  assert (forall wc, (if (length hex =? 0)%nat then Some [] else hex2bin hex 64) = Some wc -> (length wc <= 64)%nat) as Hw.
  { intros wc. destruct (_ =? _)%nat; [intros [= <-]; cbn; lia|apply hex2bin_length]. }
  destruct (if (length hex =? 0)%nat then Some [] else hex2bin hex 64) as [wc|]; [|by eexists _, _].
  cbn [mbind option_bind]. eexists _, _. split; [reflexivity|]. intros _. split; [done|].
  specialize (Hw wc eq_refl). apply finish_bounds; try lia.
  rewrite put_u64le_spec, !length_app, length_le_bytes. cbn [length]. lia.
Qed.



(** The first push of the script is the height as BIP34 reads it: one direct
    push of one to five bytes whose script number is the height for every
    non-negative [int32_t], minimally encoded unless the height is zero. *)
Theorem push_height_bip34 (height : Z) :
  0 <= height < 2 ^ 31 ->
  exists data, push_height height = Some (Z.of_nat (length data) :: data)
    /\ bytes data /\ (1 <= length data <= 5)%nat /\ scriptnum_of data = height
    /\ (height <> 0 -> minimal data).
Proof.
  intros Hh. destruct (push_height_spec height) as (data & H).
  rewrite u32_small in H by (unfold is_word; lia). by exists data.
Qed.

Lemma push_height_bip34_witness :
  exists data, push_height 969859 = Some (Z.of_nat (length data) :: data)
    /\ bytes data /\ (1 <= length data <= 5)%nat /\ scriptnum_of data = 969859
    /\ (969859 <> 0 -> minimal data).
Proof. apply (push_height_bip34 969859). lia. Defined.
End Coinbase.
