(* ===== verification/Cdouble.v ===== *)
(** * C doubles

    The binary64 operations the program uses, on the specification floats of the
    standard library, the conversions to integers, and [strtod]. A conversion
    whose truncated value does not fit the integer type is undefined in C: its
    result is a parameter of every definition that converts. *)
From Stdlib Require Import SpecFloat.
From S2P Require Import Prelude.

Module Cdouble.
Definition double : Type := spec_float.
Definition prec : Z := 53.
Definition emax : Z := 1024.

Definition dadd : double -> double -> double := SFadd prec emax.
Definition dmul : double -> double -> double := SFmul prec emax.
Definition dlt : double -> double -> bool := SFltb.
Definition dle : double -> double -> bool := SFleb.
Definition of_Z (z : Z) : double := binary_normalize prec emax z 0 false.
Definition of_bool (b : bool) : double := if b then of_Z 1 else of_Z 0.

(** The value truncated towards zero, if there is one. *)
Definition trunc (d : double) : option Z :=
  match d with
  | S754_zero _ => Some 0
  | S754_finite s m e =>
    let a := if 0 <=? e then Z.pos m * 2 ^ e else Z.pos m / 2 ^ (- e) in
    Some (if s then - a else a)
  | _ => None
  end.

(** [(T)d] for an integer type with values [lo..hi]. *)
Definition cast (undef : double -> Z) (lo hi : Z) (d : double) : Z :=
  match trunc d with
  | Some z => if (lo <=? z) && (z <=? hi) then z else undef d
  | None => undef d
  end.

(** ** strtod *)
Definition is_space (c : Z) : bool := (c =? 32) || ((9 <=? c) && (c <=? 13)).
Definition lower (c : Z) : Z := if (65 <=? c) && (c <=? 90) then c + 32 else c.

(** The value of a digit below a base up to 16. *)
Definition digit (base c : Z) : option Z :=
  let v := if (48 <=? c) && (c <=? 57) then c - 48
           else if (97 <=? lower c) && (lower c <=? 102) then lower c - 87 else base in
  if v <? base then Some v else None.

(** Digits: their number, the accumulated value, the rest. *)
Fixpoint digits (base : Z) (p : list Z) (n v : Z) : Z * Z * list Z :=
  match p with
  | c :: q => match digit base c with
              | Some d => digits base q (n + 1) (base * v + d)
              | None => (n, v, p)
              end
  | [] => (n, v, [])
  end.

(** The mantissa, the number of its digits and of those after the point. *)
Definition mantissa (base : Z) (p : list Z) : Z * Z * Z * list Z :=
  let '(n, v, p) := digits base p 0 0 in
  match p with
  | 46 :: q => let '(k, v, q) := digits base q 0 v in (n + k, k, v, q)
  | _ => (n, 0, v, p)
  end.

(** An exponent part introduced by [mark], zero if there is none. *)
Definition exponent (mark : Z) (p : list Z) : Z :=
  match p with
  | c :: q =>
    if lower c =? mark then
      let '(sign, q) := match q with
                        | 45 :: r => (-1, r)
                        | 43 :: r => (1, r)
                        | _ => (1, q)
                        end in
      let '(n, v, _) := digits 10 q 0 0 in sign * v
    else 0
  | [] => 0
  end.

(** [m / d] correctly rounded. *)
Definition of_ratio (m d : positive) : double :=
  let '(q, e, loc) := SFdiv_core_binary prec emax (Z.pos m) 0 (Z.pos d) 0 in
  binary_round_aux prec emax false q e loc.

Definition of_decimal (m e : Z) : double :=
  match m with
  | Z.pos p =>
    if 0 <=? e then of_Z (m * 10 ^ e)
    else match 10 ^ (- e) with Z.pos d => of_ratio p d | _ => S754_nan end
  | _ => S754_zero false
  end.

Definition starts (s : list Z) (p : list Z) : bool :=
  bool_decide (lower <$> take (length s) p = s).

Definition unsigned (p : list Z) : double :=
  if starts (str "inf") p then S754_infinity false
  else if starts (str "nan") p then S754_nan
  else
    let hex := mantissa 16 (drop 2 p) in
    if starts (str "0x") p && (0 <? hex.1.1.1) then
      let '(n, k, v, q) := hex in binary_normalize prec emax v (exponent 112 q - 4 * k) false
    else
      let '(n, k, v, q) := mantissa 10 p in
      if 0 <? n then of_decimal v (exponent 101 q - k) else S754_zero false.

Fixpoint skip_space (p : list Z) : list Z :=
  match p with c :: q => if is_space c then skip_space q else p | [] => [] end.

Definition strtod (p : list Z) : double :=
  match skip_space p with
  | 45 :: q => SFopp (unsigned q)
  | 43 :: q => unsigned q
  | q => unsigned q
  end.
End Cdouble.
