(* ===== verification/StratumTarget.v ===== *)
(** * Share targets (src/miner/stratum.c, "target math")

    From the pool's difficulty, a C double, to the 256-bit share target: the
    bit-by-bit division of the difficulty 1 target, its shift, and the word for
    the FPGA. *)
From Stdlib Require Import SpecFloat.
From S2P Require Import Prelude Cdouble WorkItem.

Module StratumTarget.
Import Cdouble.
Local Open Scope word_scope.

Definition diff1_target : list Z := <[5%nat := 0xff]> (<[4%nat := 0xff]> (replicate 32 0)).

(** One iteration of the division: the remainder and the quotient bytes. *)
Definition div_bit (input : list Z) (divisor : Z) (st : Z * list Z) (i : nat) : Z * list Z :=
  let '(rem, out) := st in
  let byte := (i / 8)%nat in
  let bit := 7 - Z.of_nat (i mod 8) in
  let rem := u64 (rem ≪ 1) .| ((input !!! byte ≫ bit) .& 1) in
  if divisor <=? rem
  then (rem - divisor, <[byte := out !!! byte .| u8 (1 ≪ bit)]> out)
  else (rem, out).

Definition bn_div_u64 (input : list Z) (divisor : Z) : list Z :=
  let out := replicate 32 0 in
  if divisor =? 0 then out
  else snd (foldl (div_bit input divisor) (0, out) (seq 0 256)).

Definition bn_shl32 (input : list Z) : list Z := slice 4 28 input ++ replicate 4 0.

(** The literals [1e-9], [1.0], [4294967296.0] and [0.5]. *)
Definition d_1e_9 : double := S754_finite false 4835703278458517 (-82).
Definition d_1 : double := of_Z 1.
Definition d_2p32 : double := of_Z 4294967296.
Definition d_half : double := S754_finite false 4503599627370496 (-53).

(** [dscaled], with [undef] the result of an out-of-range conversion. *)
Definition scaled_difficulty (undef : double -> Z) (difficulty : double) : Z :=
  let d := if negb (dlt d_1e_9 difficulty) then d_1 else difficulty in
  let dscaled := cast undef 0 (2 ^ 64 - 1) (dadd (dmul d d_2p32) d_half) in
  if dscaled =? 0 then 1 else dscaled.

Definition stratum_target_full (undef : double -> Z) (difficulty : double) : list Z :=
  bn_shl32 (bn_div_u64 diff1_target (scaled_difficulty undef difficulty)).

Definition stratum_target_top64 (undef : double -> Z) (difficulty : double) : Z :=
  let t := stratum_target_full undef difficulty in
  foldl (fun v i => u64 (v ≪ 8) .| t !!! i) 0 (seq 0 8).

(** ** The division *)

(** The bits of [input] above position [i], most significant first. *)
Definition high_bits (input : list Z) (i : nat) : Z := be_val input / 2 ^ (256 - Z.of_nat i).

Lemma high_bits_S input i :
  array 32 input -> (i < 256)%nat ->
  high_bits input (S i)
  = 2 * high_bits input i
    + ((input !!! (i / 8)%nat ≫ (7 - Z.of_nat (i mod 8))) .& 1).
Proof.
  intros [Hl Hb] Hi. unfold high_bits.
  pose proof (be_val_bound input Hb) as Hv. rewrite Hl in Hv.
  replace (256 - Z.of_nat i) with (256 - Z.of_nat (S i) + 1) by lia.
  rewrite Z.pow_add_r, <- Z.div_div by (try apply Z.pow_nonzero; lia).
  set (k := 256 - Z.of_nat (S i)). assert (0 <= k) by lia.
  set (q := be_val input / 2 ^ k). pose proof (Z.div_mod q 2 ltac:(lia)) as Hq.
  change (2 ^ 1) with 2. rewrite Hq at 1. f_equal.
  rewrite <- Z.bit0_mod. change 1 with (Z.ones 1). rewrite Z.land_ones by lia.
  change (2 ^ 1) with 2. rewrite <- Z.bit0_mod. f_equal.
  subst q. rewrite <- Z.shiftr_div_pow2, !Z.shiftr_spec, !Z.add_0_l by lia.
  rewrite be_val_testbit by (done || (rewrite Hl; lia)). rewrite Hl.
  pose proof (Nat.div_mod i 8 ltac:(lia)) as Hd. pose proof (Nat.mod_upper_bound i 8 ltac:(lia)).
  assert (k / 8 = 31 - Z.of_nat (i / 8) /\ k mod 8 = 7 - Z.of_nat (i mod 8)) as [-> ->].
  { subst k. split; [symmetry; apply Z.div_unique with (7 - Z.of_nat (i mod 8)); lia|].
    symmetry. apply Z.mod_unique with (31 - Z.of_nat (i / 8)); lia. }
  assert (i / 8 < 32)%nat by (apply Nat.Div0.div_lt_upper_bound; lia).
  do 2 f_equal. lia.
Qed.

Lemma bit_bound x n : 0 <= (x ≫ n) .& 1 <= 1.
Proof.
  assert ((x ≫ n) .& 1 = (x ≫ n) mod 2 ^ 1) as -> by (apply (Z.land_ones _ 1); lia).
  pose proof (Z.mod_pos_bound (x ≫ n) (2 ^ 1)). lia.
Qed.

(** Setting the bit of position [i] adds its weight. *)
Lemma set_bit (out : list Z) (i : nat) :
  array 32 out -> (i < 256)%nat -> be_val out mod 2 ^ (256 - Z.of_nat i) = 0 ->
  let out' := <[(i / 8)%nat := out !!! (i / 8)%nat .| u8 (1 ≪ (7 - Z.of_nat (i mod 8)))]> out in
  array 32 out' /\ be_val out' = be_val out + 2 ^ (255 - Z.of_nat i).
Proof.
  intros Ha Hi Hz. set (pos := 255 - Z.of_nat i).
  pose proof (Nat.div_mod i 8 ltac:(lia)) as Hd. pose proof (Nat.mod_upper_bound i 8 ltac:(lia)).
  assert (i / 8 < 32)%nat by (apply Nat.Div0.div_lt_upper_bound; lia).
  assert (pos / 8 = 31 - Z.of_nat (i / 8) /\ pos mod 8 = 7 - Z.of_nat (i mod 8)) as [Hp1 Hp2].
  { subst pos. split; [symmetry; apply Z.div_unique with (7 - Z.of_nat (i mod 8)); lia|].
    symmetry. apply Z.mod_unique with (31 - Z.of_nat (i / 8)); lia. }
  assert (<[(i / 8)%nat := out !!! (i / 8)%nat .| u8 (1 ≪ (7 - Z.of_nat (i mod 8)))]> out
    = WorkItem.place_bit 1 pos out 0) as ->.
  { unfold WorkItem.place_bit. change (negb _) with true. cbv iota zeta. rewrite Z.add_0_r.
    rewrite (proj2 (Z.ltb_ge pos 0)), (proj2 (Z.leb_gt 256 pos)) by lia. cbn [orb].
    rewrite Hp1, Hp2. by replace (31 - Z.to_nat (31 - Z.of_nat (i / 8)))%nat with (i / 8)%nat by lia. }
  pose proof (WorkItem.place_bit_array 1 pos out 0 Ha) as Ha'. split; [done|].
  destruct Ha as [Hl Hb], Ha' as [Hl' Hb'].
  assert (Z.testbit (be_val out) pos = false) as Hclear.
  { pose proof (Z.mod_pow2_bits_low (be_val out) (256 - Z.of_nat i) pos ltac:(lia)) as Hlow.
    by rewrite Hz, Z.bits_0 in Hlow. }
  rewrite Z.add_nocarry_lxor.
  2: { apply Z.bits_inj'. intros j Hj. rewrite Z.land_spec, Z.bits_0, Z.pow2_bits_eqb by lia.
       destruct (Z.eqb_spec pos j) as [<-|]; [by rewrite Hclear|apply andb_false_r]. }
  apply Z.bits_inj'. intros j Hj. rewrite Z.lxor_spec, Z.pow2_bits_eqb by lia.
  destruct (Z.ltb_spec j 256).
  - rewrite WorkItem.place_bit_testbit by (done || lia). rewrite Z.add_0_r.
    change (Z.testbit 1 (Z.of_nat 0)) with true. cbn [andb]. rewrite (Z.eqb_sym pos).
    destruct (Z.eqb_spec j pos) as [->|]; [by rewrite Hclear|].
    by rewrite orb_false_r, xorb_false_r.
  - pose proof (be_val_bound _ Hb) as B1. pose proof (be_val_bound _ Hb') as B2.
    rewrite Hl in B1. rewrite Hl' in B2.
    apply (is_word_testbit 256) in B1 as [_ B1]; [|lia].
    apply (is_word_testbit 256) in B2 as [_ B2]; [|lia].
    rewrite B1, B2 by lia. by destruct (Z.eqb_spec pos j); [lia|].
Qed.

(** The long division: after [i] bits the remainder and the quotient so far. *)
Lemma div_loop input divisor i :
  array 32 input -> 0 < divisor <= 2 ^ 63 -> (i <= 256)%nat ->
  let '(rem, out) := foldl (div_bit input divisor) (0, replicate 32 0) (seq 0 i) in
  array 32 out /\ rem = high_bits input i mod divisor
  /\ be_val out = high_bits input i / divisor * 2 ^ (256 - Z.of_nat i).
Proof.
  intros Ha Hdv. induction i as [|i IH]; intros Hi.
  { assert (high_bits input 0 = 0) as H0.
    { unfold high_bits. apply Z.div_small. destruct Ha as [Hl Hb].
      pose proof (be_val_bound input Hb) as Hv. by rewrite Hl in Hv. }
    cbn [seq foldl]. rewrite H0, be_val_zeros. split; [split; [done|apply bytes_zeros]|].
    rewrite Z.mod_0_l, Z.div_0_l by lia. done. }
  specialize (IH ltac:(lia)). rewrite seq_S, foldl_app, Nat.add_0_l. cbn [foldl].
  destruct (foldl _ _ (seq 0 i)) as [rem out]. destruct IH as (Hout & Hrem & Hval).
  unfold div_bit. pose proof (bit_bound (input !!! (i / 8)%nat) (7 - Z.of_nat (i mod 8))) as Hbit.
  pose proof (high_bits_S input i Ha ltac:(lia)) as Hh. set (b := (_ ≫ _) .& 1) in *.
  pose proof (Z.mod_pos_bound (high_bits input i) divisor ltac:(lia)) as Hr. rewrite <- Hrem in Hr.
  assert (u64 (rem ≪ 1) .| b = 2 * rem + b) as ->.
  { rewrite Z.shiftl_mul_pow2 by lia. rewrite u64_small by (unfold is_word; lia).
    rewrite <- Z.shiftl_mul_pow2, lor_add by (lia || (unfold is_word; lia)). lia. }
  pose proof (Z.div_mod (high_bits input i) divisor ltac:(lia)) as Hdm. rewrite <- Hrem in Hdm.
  set (q := high_bits input i / divisor) in *.
  replace (256 - Z.of_nat i) with (256 - Z.of_nat (S i) + 1) in Hval by lia.
  rewrite Z.pow_add_r in Hval by lia. set (k := 256 - Z.of_nat (S i)) in *.
  destruct (Z.leb_spec divisor (2 * rem + b)).
  - destruct (set_bit out i Hout ltac:(lia)) as [Ha' Hv'].
    { rewrite Hval. replace (256 - Z.of_nat i) with (k + 1) by lia. rewrite Z.pow_add_r by lia.
      apply Z.mod_mul. pose proof (Z.pow_pos_nonneg 2 k). lia. }
    split; [done|]. rewrite Hv', Hval, Hh, Hdm. replace (255 - Z.of_nat i) with k by lia.
    assert (2 * (divisor * q + rem) + b = divisor * (2 * q + 1) + (2 * rem + b - divisor)) as Hs by lia.
    rewrite Hs. split.
    + apply Z.mod_unique with (2 * q + 1); lia.
    + rewrite <- (Z.div_unique _ divisor (2 * q + 1) (2 * rem + b - divisor)) by lia. lia.
  - split; [done|]. rewrite Hval, Hh, Hdm.
    assert (2 * (divisor * q + rem) + b = divisor * (2 * q) + (2 * rem + b)) as Hs by lia.
    rewrite Hs. split.
    + apply Z.mod_unique with (2 * q); lia.
    + rewrite <- (Z.div_unique _ divisor (2 * q) (2 * rem + b)) by lia. lia.
Qed.

Lemma bn_div_u64_spec input divisor :
  array 32 input -> 0 < divisor <= 2 ^ 63 ->
  array 32 (bn_div_u64 input divisor) /\ be_val (bn_div_u64 input divisor) = be_val input / divisor.
Proof.
  intros Ha Hd. unfold bn_div_u64. rewrite (proj2 (Z.eqb_neq _ _)) by lia.
  pose proof (div_loop input divisor 256 Ha Hd (le_n _)) as H.
  destruct (foldl _ _ _) as [rem out]. destruct H as (Ho & _ & Hv). cbn [snd].
  split; [done|]. rewrite Hv. unfold high_bits. rewrite Z.sub_diag. 
  change (2 ^ 0) with 1. by rewrite Z.div_1_r, Z.mul_1_r.
Qed.

Lemma bn_shl32_spec input :
  array 32 input ->
  array 32 (bn_shl32 input) /\ be_val (bn_shl32 input) = (be_val input * 2 ^ 32) mod 2 ^ 256.
Proof.
  intros [Hl Hb]. unfold bn_shl32.
  assert (slice 4 28 input = drop 4 input) as -> by (unfold slice; apply take_ge; len).
  assert (bytes (drop 4 input)) as Hd by (by apply Forall_drop).
  assert (length (drop 4 input) = 28%nat) as Hdl by len. split.
  { split; [len|]. apply Forall_app; split; [done|apply bytes_zeros]. }
  assert (be_val input = be_val (take 4 input) * 2 ^ 224 + be_val (drop 4 input)) as ->.
  { rewrite <- (take_drop 4 input) at 1. by rewrite be_val_app, Hdl. }
  pose proof (be_val_bound _ Hd) as B. rewrite Hdl in B.
  rewrite be_val_app, be_val_zeros, Z.add_0_r, length_replicate.
  change (8 * Z.of_nat 28) with 224 in B. change (8 * Z.of_nat 4) with 32.
  apply Z.mod_unique with (be_val (take 4 input)); [lia|].
  change (2 ^ 256) with (2 ^ 224 * 2 ^ 32). lia.
Qed.

Lemma diff1_value : array 32 diff1_target /\ be_val diff1_target = 0xffff * 2 ^ 208.
Proof. split; [by_compute|by vm_compute]. Qed.

Lemma target_full_spec undef d :
  0 < scaled_difficulty undef d <= 2 ^ 63 ->
  array 32 (stratum_target_full undef d)
  /\ be_val (stratum_target_full undef d) = 0xffff * 2 ^ 208 / scaled_difficulty undef d * 2 ^ 32.
Proof.
  intros Hs. unfold stratum_target_full. set (ds := scaled_difficulty undef d) in *.
  destruct diff1_value as [Ha Hv].
  destruct (bn_div_u64_spec diff1_target ds Ha Hs) as [Hqa Hq].
  destruct (bn_shl32_spec _ Hqa) as [Hta Ht]. split; [done|]. rewrite Ht, Hq, Hv.
  assert (0 <= 0xffff * 2 ^ 208 / ds <= 0xffff * 2 ^ 208).
  { split; [apply Z.div_pos; lia|]. apply Z.div_le_upper_bound; [lia|]. nia. }
  apply Z.mod_small. lia.
Qed.

(** Whatever the difficulty, the target is 32 bytes. *)
Lemma target_full_array undef d : array 32 (stratum_target_full undef d).
Proof.
  unfold stratum_target_full, bn_shl32, bn_div_u64.
  assert (array 32 (replicate 32 0)) as H0 by by_compute.
  enough (forall l st, array 32 st.2 -> array 32 (foldl (div_bit diff1_target (scaled_difficulty undef d)) st l).2) as H.
  { assert (forall q, array 32 q -> array 32 (slice 4 28 q ++ replicate 4 0)) as Hq.
    { intros q [Hl Hb]. split; [rewrite length_app, length_slice; cbn [length replicate]; lia|].
      apply Forall_app. split; [by apply bytes_slice|by_compute]. }
    destruct (_ =? 0); [by apply Hq|]. by apply Hq, H. }
  intros l. induction l as [|i l IH]; intros [rem out] Ho; [done|]. apply IH. unfold div_bit. destruct (_ <=? _); [|done].
  destruct Ho as [Hl Hb]. cbn [snd] in *. split; [by rewrite length_insert|]. apply bytes_insert; [|done].
  apply is_word_lor; [lia|by apply words_lookup_total|apply u8_word].
Qed.

(** ** Properties *)

(** C38: for every difficulty the share target is 32 bytes, the word for the FPGA is
    its top 64 bits, and a difficulty that is not a number or not above [1e-9] counts as
    1. For every difficulty whose fixed-point form [difficulty * 2^32] is at most [2^63],
    the 256-bit target is exactly the floor of the difficulty 1 target divided by it,
    shifted left by 32 bits. Beyond, the value is too small: [bn_div_u64_overflow]. *)
Theorem share_target_value (undef : double -> Z) (difficulty : double) :
  let ds := scaled_difficulty undef difficulty in
  let target := stratum_target_full undef difficulty in
  array 32 target
  /\ stratum_target_top64 undef difficulty = be_val target / 2 ^ 192
  /\ (dlt d_1e_9 difficulty = false -> ds = 2 ^ 32)
  /\ (0 < ds <= 2 ^ 63 -> be_val target = 0xffff * 2 ^ 208 / ds * 2 ^ 32).
Proof.
  intros ds target. pose proof (target_full_array undef difficulty) as [Hl Hb]. split; [done|]. split; [|split].
  - unfold stratum_target_top64. rewrite load_be_spec by (done || lia). by apply WorkItem.top64_div.
  - intros Hlt. unfold ds, scaled_difficulty. rewrite Hlt. by vm_compute.
  - intros Hds. apply (target_full_spec undef difficulty Hds).
Qed.

Lemma share_target_value_witness :
  let d := strtod (str "32") in
  be_val (stratum_target_full (fun _ => 0) d) = 0xffff * 2 ^ 208 / (32 * 2 ^ 32) * 2 ^ 32.
Proof.
  intros d. destruct (share_target_value (fun _ => 0) d) as (_ & _ & _ & H).
  assert (scaled_difficulty (fun _ => 0) d = 32 * 2 ^ 32) as E by (vm_compute; reflexivity).
  rewrite E in H. refine (H _). clear H E. split; [apply Z.ltb_lt|apply Z.leb_le]; reflexivity.
Defined.

(** The bound is needed: at difficulty three thousand million the running
    remainder no longer fits its 64 bits and the quotient comes out too small. *)
Lemma bn_div_u64_overflow :
  let ds := scaled_difficulty (fun _ => 0) (strtod (str "3000000000")) in
  ds = 3000000000 * 2 ^ 32
  /\ be_val (bn_div_u64 diff1_target ds) < be_val diff1_target / ds * 3 / 4.
Proof. by vm_compute. Qed.
End StratumTarget.
