(* ===== verification/Decimal.v ===== *)
(** * Decimal numbers

    What [printf] prints for an integer ([%d], [%llu], [%zu]), and that
    [Cdouble.strtod] followed by a conversion reads it back, exactly up to 2^53. *)
From Stdlib Require Import SpecFloat.
From S2P Require Import Prelude Cdouble.

Module Decimal.
Import Cdouble.

Fixpoint dec_loop (fuel : nat) (n : Z) (acc : list Z) : list Z :=
  match fuel with
  | O => acc
  | S fuel =>
    let acc := 48 + n mod 10 :: acc in
    if n / 10 =? 0 then acc else dec_loop fuel (n / 10) acc
  end.
(** Twenty digits are enough for 64 bits. *)
Definition dec (n : Z) : list Z := dec_loop 20 n [].
Definition dec_int (z : Z) : list Z := if z <? 0 then 45 :: dec (- z) else dec z.

(** ** The digits and their value *)
Definition is_digit (c : Z) : Prop := 48 <= c <= 57.
Definition dec_val (v : Z) (l : list Z) : Z := foldl (fun v c => 10 * v + (c - 48)) v l.

Lemma dec_val_app v a b : dec_val v (a ++ b) = dec_val (dec_val v a) b.
Proof. apply foldl_app. Qed.
Lemma dec_val_base v l : dec_val v l = v * 10 ^ Z.of_nat (length l) + dec_val 0 l.
Proof.
  revert v. induction l as [|c l IH]; intros v; cbn [dec_val foldl length]; [lia|].
  fold (dec_val (10 * v + (c - 48)) l). fold (dec_val (10 * 0 + (c - 48)) l).
  rewrite (IH (10 * v + (c - 48))), (IH (10 * 0 + (c - 48))).
  rewrite Nat2Z.inj_succ, Z.pow_succ_r by lia. lia.
Qed.

(** The digits of [n] before the accumulator: not empty, and a leading zero only
    for zero itself. *)
Lemma dec_loop_spec fuel n acc :
  0 <= n < 10 ^ Z.of_nat fuel ->
  (0 < fuel)%nat ->
  exists c l, dec_loop fuel n acc = (c :: l) ++ acc /\ Forall is_digit (c :: l)
    /\ dec_val 0 (c :: l) = n /\ (c = 48 -> l = []) /\ (length (c :: l) <= fuel)%nat.
Proof.
  revert n acc. induction fuel as [|fuel IH]; intros n acc Hn Hf; [lia|]. cbn [dec_loop].
  pose proof (Z.mod_pos_bound n 10 ltac:(lia)) as Hm. pose proof (Z.div_mod n 10 ltac:(lia)) as Hd.
  rewrite Nat2Z.inj_succ, Z.pow_succ_r in Hn by lia.
  assert (0 <= n / 10 < 10 ^ Z.of_nat fuel) as Hq
    by (split; [apply Z.div_pos; lia|apply Z.div_lt_upper_bound; lia]).
  destruct (Z.eqb_spec (n / 10) 0) as [H0|H0].
  - exists (48 + n mod 10), []. split_and!; [done| |cbn; lia|done|cbn; lia].
    apply Forall_singleton. unfold is_digit. lia.
  - destruct fuel as [|fuel]; [change (10 ^ Z.of_nat 0) with 1 in Hq; lia|].
    destruct (IH (n / 10) (48 + n mod 10 :: acc) Hq ltac:(lia)) as (c & l & -> & Hl & Hv & Hz & Hlen).
    exists c, (l ++ [48 + n mod 10]). split_and!.
    + cbn. by rewrite <- app_assoc.
    + apply Forall_cons in Hl as [Hc Hl]. apply Forall_cons. split; [done|].
      apply Forall_app. split; [done|]. apply Forall_singleton. unfold is_digit. lia.
    + rewrite app_comm_cons, dec_val_app, Hv. cbn. lia.
    + intros Hc. specialize (Hz Hc). subst. cbn in Hv. lia.
    + cbn [length] in *. rewrite length_app. cbn. lia.
Qed.
Lemma dec_spec n :
  0 <= n < 2 ^ 64 ->
  exists c l, dec n = c :: l /\ Forall is_digit (c :: l) /\ dec_val 0 (c :: l) = n
    /\ (c = 48 -> l = []) /\ (length (dec n) <= 20)%nat.
Proof.
  intros Hn. unfold dec.
  assert (10 ^ Z.of_nat 20 = 100000000000000000000) as H10 by by vm_compute.
  assert (2 ^ 64 = 18446744073709551616) as H64 by by vm_compute.
  destruct (dec_loop_spec 20 n [] ltac:(lia) ltac:(lia)) as (c & l & -> & H1 & H2 & H3 & H4).
  exists c, l. rewrite app_nil_r. split_and!; assumption || reflexivity.
Qed.
Lemma dec_inj m n : 0 <= m < 2 ^ 64 -> 0 <= n < 2 ^ 64 -> dec m = dec n -> m = n.
Proof.
  intros Hm Hn He. destruct (dec_spec m Hm) as (c & l & E & _ & Hv & _).
  destruct (dec_spec n Hn) as (d & k & E' & _ & Hv' & _). congruence.
Qed.

(** ** strtod on a printed number *)
Lemma digit_dec c : is_digit c -> digit 10 c = Some (c - 48).
Proof.
  intros Hc. unfold digit, is_digit in *.
  rewrite (proj2 (Z.leb_le 48 c)), (proj2 (Z.leb_le c 57)) by lia. cbn [andb].
  by rewrite (proj2 (Z.ltb_lt _ _)) by lia.
Qed.
(** The number ends where something that cannot continue it follows. *)
Definition ends_number (c : Z) : Prop := digit 10 c = None /\ c <> 46 /\ lower c <> 101 /\ lower c <> 120.
Definition number_end (r : list Z) : Prop := match r with [] => True | c :: _ => ends_number c end.

Lemma digits_dec l r n v :
  Forall is_digit l -> number_end r ->
  digits 10 (l ++ r) n v = (n + Z.of_nat (length l), dec_val v l, r).
Proof.
  intros Hl Hr. revert n v. induction Hl as [|c l Hc Hl IH]; intros n v.
  - cbn. rewrite Z.add_0_r. destruct r as [|c r]; [done|]. destruct Hr as [Hr _]. cbn. by rewrite Hr.
  - cbn [app digits]. rewrite digit_dec by done. rewrite IH. cbn [length dec_val foldl]. do 2 f_equal. lia.
Qed.
Lemma mantissa_dec l r :
  Forall is_digit l -> number_end r ->
  mantissa 10 (l ++ r) = (Z.of_nat (length l), 0, dec_val 0 l, r).
Proof.
  intros Hl Hr. unfold mantissa. rewrite digits_dec by done. destruct r as [|c r]; [done|].
  destruct Hr as (_ & H46 & _). destruct c as [|c|c]; try done.
  by repeat (destruct c as [c|c|]; try done).
Qed.
Lemma exponent_none r : number_end r -> exponent 101 r = 0.
Proof.
  destruct r as [|c r]; [done|]. intros (_ & _ & H & _). cbn. by rewrite (proj2 (Z.eqb_neq _ _)).
Qed.

Lemma not_letter c x : is_digit c -> 97 <= x -> lower c <> x.
Proof.
  unfold is_digit, lower. intros Hc Hx. destruct (Z.leb_spec 65 c); [lia|]. cbn [andb]. lia.
Qed.
Lemma starts_digit c l x s : is_digit c -> 97 <= x -> starts (x :: s) (c :: l) = false.
Proof.
  intros Hc Hx. unfold starts. apply bool_decide_eq_false_2. cbn [length take fmap list_fmap].
  intros [= H _]. by apply (not_letter c x).
Qed.

Lemma unsigned_dec n r :
  0 <= n < 2 ^ 64 -> number_end r -> unsigned (dec n ++ r) = of_decimal n 0.
Proof.
  intros Hn Hr. destruct (dec_spec n Hn) as (c & l & -> & Hl & Hv & Hz & _).
  pose proof (proj1 (proj1 (Forall_cons _ _ _) Hl)) as Hc. unfold unsigned. cbn [app].
  change (str "inf") with (105 :: str "nf"). change (str "nan") with (110 :: str "an").
  rewrite !starts_digit by (done || lia).
  assert (starts (str "0x") (c :: l ++ r) = false) as ->.
  { unfold starts. apply bool_decide_eq_false_2. change (str "0x") with [48; 120].
    cbn [length take fmap list_fmap]. intros [= H48 Hx].
    assert (c = 48) as ->.
    { unfold lower, is_digit in *. destruct (Z.leb_spec 65 c); [lia|done]. }
    rewrite (Hz eq_refl) in Hx. destruct r as [|d r]; [done|]. destruct Hr as (_ & _ & _ & Hr).
    by injection Hx. }
  cbn [andb]. change (c :: l ++ r) with ((c :: l) ++ r). rewrite mantissa_dec by done.
  rewrite (proj2 (Z.ltb_lt _ _)) by (cbn; lia). rewrite exponent_none by done. by rewrite Hv.
Qed.
Lemma strtod_dec n r :
  0 <= n < 2 ^ 64 -> number_end r -> strtod (dec n ++ r) = of_decimal n 0.
Proof.
  intros Hn Hr. rewrite <- (unsigned_dec n r) by done.
  destruct (dec_spec n Hn) as (c & l & -> & Hl & _).
  apply Forall_cons in Hl as [Hc _]. unfold strtod. cbn [app skip_space].
  assert (is_space c = false) as ->.
  { unfold is_space, is_digit in *. apply orb_false_iff. split; [lia|].
    apply andb_false_iff. right. lia. }
  unfold is_digit in Hc. destruct c as [|c|c]; try lia.
  repeat (destruct c as [c|c|]; try lia; try done).
Qed.

(** ** Integers below 2^53 are exact *)
Lemma digits2_bound p : 2 ^ (Z.pos (digits2_pos p) - 1) <= Z.pos p < 2 ^ Z.pos (digits2_pos p).
Proof.
  induction p as [p IH|p IH|]; cbn [digits2_pos]; [| |done];
    rewrite Pos2Z.inj_succ; unfold Z.succ;
    replace (Z.pos (digits2_pos p) + 1 - 1) with (Z.pos (digits2_pos p) - 1 + 1) by lia;
    rewrite !Z.pow_add_r by lia; change (2 ^ 1) with 2; lia.
Qed.
Lemma digits2_unique p k : 2 ^ (k - 1) <= Z.pos p < 2 ^ k -> 0 <= k -> Z.pos (digits2_pos p) = k.
Proof.
  intros [H1 H2] Hk. pose proof (digits2_bound p) as [B1 B2].
  destruct (Z.lt_trichotomy (Z.pos (digits2_pos p)) k) as [H|[H|H]]; [|done|].
  - pose proof (Z.pow_le_mono_r 2 (Z.pos (digits2_pos p)) (k - 1) ltac:(lia) ltac:(lia)). lia.
  - pose proof (Z.pow_le_mono_r 2 k (Z.pos (digits2_pos p) - 1) ltac:(lia) ltac:(lia)). lia.
Qed.
Lemma iter_xO p d : Z.pos (Pos.iter xO p d) = Z.pos p * 2 ^ Z.pos d.
Proof.
  induction d as [|d IH] using Pos.peano_ind; [cbn; lia|].
  rewrite Pos.iter_succ, Pos2Z.inj_succ, Z.pow_succ_r by lia.
  change (Z.pos (Pos.iter xO p d)~0) with (2 * Z.pos (Pos.iter xO p d)). rewrite IH. lia.
Qed.

(** A 53-bit mantissa is its own rounding. *)
Lemma round_exact m e :
  Z.pos (digits2_pos m) = 53 -> -1074 <= e <= 971 ->
  binary_round_aux prec emax false (Z.pos m) e loc_Exact = S754_finite false m e.
Proof.
  intros Hm He. unfold binary_round_aux, shr_fexp. cbn [shr_record_of_loc Zdigits2]. rewrite Hm.
  assert (fexp prec emax (53 + e) - e = 0) as H0 by (unfold fexp, emin, prec, emax; lia).
  rewrite H0. cbn [shr shr_m loc_of_shr_record round_nearest_even Zdigits2]. rewrite Hm, H0.
  cbn [shr shr_m shr_record_of_loc]. by rewrite (proj2 (Z.leb_le _ _)) by (unfold emax, prec; lia).
Qed.

Lemma trunc_of_Z n : 0 <= n < 2 ^ 53 -> trunc (of_Z n) = Some n.
Proof.
  intros Hn. unfold of_Z, binary_normalize. destruct n as [|p|p]; [done| |lia].
  unfold binary_round. pose proof (digits2_bound p) as [B1 B2].
  set (k := digits2_pos p) in *.
  assert (Z.pos k <= 53) as Hk.
  { apply Z.lt_succ_r. apply Z.pow_lt_mono_r_iff with 2; try lia.
    assert (2 ^ (Z.pos k - 1) < 2 ^ 53) as H%Z.pow_lt_mono_r_iff by lia; try lia.
    apply Z.pow_lt_mono_r; lia. }
  assert (fexp prec emax (Z.pos k + 0) - 0 = Z.pos k - 53) as Hf by (unfold fexp, emin, prec, emax; lia).
  unfold shl_align. rewrite Hf. destruct (Z.pos k - 53) as [|d|d] eqn:E; [|lia|].
  - rewrite round_exact by lia. cbn. f_equal. lia.
  - assert (fexp prec emax (Z.pos k + 0) = Z.neg d) as -> by lia.
    assert (Z.pos (digits2_pos (Pos.iter xO p d)) = 53) as Hd.
    { apply digits2_unique; [|lia]. rewrite iter_xO. replace (Z.pos d) with (53 - Z.pos k) by lia.
      replace (2 ^ (53 - 1)) with (2 ^ (Z.pos k - 1) * 2 ^ (53 - Z.pos k)) by (rewrite <- Z.pow_add_r by lia; f_equal; lia).
      replace (2 ^ 53) with (2 ^ Z.pos k * 2 ^ (53 - Z.pos k)) by (rewrite <- Z.pow_add_r by lia; f_equal; lia).
      assert (0 < 2 ^ (53 - Z.pos k)) by (apply Z.pow_pos_nonneg; lia). nia. }
    rewrite round_exact by lia. unfold trunc. cbn [Z.leb Z.compare Z.opp].
    rewrite iter_xO, Z.div_mul by (apply Z.pow_nonzero; lia). done.
Qed.

(** The conversion of a printed number of at most 53 bits to an integer type. *)
Lemma cast_strtod_dec undef lo hi n r :
  0 <= n < 2 ^ 53 -> lo <= 0 -> n <= hi -> number_end r -> cast undef lo hi (strtod (dec n ++ r)) = n.
Proof.
  intros Hn Hlo Hh Hr. assert (2 ^ 53 < 2 ^ 64) by done.
  rewrite strtod_dec by (done || lia). unfold cast.
  assert (of_decimal n 0 = of_Z n \/ n = 0) as [->| ->].
  { destruct n; [by right| |lia]. left. unfold of_decimal. cbn [Z.leb Z.compare].
    by rewrite Z.pow_0_r, Z.mul_1_r. }
  - rewrite trunc_of_Z by done.
    by rewrite (proj2 (Z.leb_le lo n)), (proj2 (Z.leb_le n hi)) by lia.
  - cbn. by rewrite (proj2 (Z.leb_le lo 0)), (proj2 (Z.leb_le 0 hi)) by lia.
Qed.
End Decimal.
