(* ===== verification/Json.v ===== *)
(** * The JSON scanner (src/miner/stratum.c, "JSON")

    A pointer into a line is the list of the characters of the memory from it on; NULL
    is [None]. The line ends at its first NUL, or where the list ends: a list without a
    NUL is a line whose terminator is not written, and a list with one is a line with
    its terminator and what lies behind it in memory, which the scanner must neither
    reach nor depend on. A loop over characters is a recursion on the text; the loops
    that move by whole values carry fuel, and running out of it is shown impossible.
    The reference is a printer of JSON values. *)
From S2P Require Import Prelude Cdouble Job.

Module Json.
Local Open Scope word_scope.

(** [*p] *)
Definition cur (p : list Z) : Z := match p with c :: _ => c | [] => 0 end.
(** [p + 1] *)
Definition next (p : list Z) : list Z := List.tl p.

Definition is_ws (c : Z) : bool := (c =? 32) || (c =? 9) || (c =? 13) || (c =? 10).

Fixpoint js_ws (p : list Z) : list Z :=
  match p with
  | c :: q => if is_ws c then js_ws q else p
  | [] => []
  end.

(** [while ( *p && *p != QUOTE) p += ( *p == BACKSLASH && p[1]) ? 2 : 1] *)
Fixpoint string_end (p : list Z) : list Z :=
  match p with
  | [] => []
  | c :: q =>
    if (c =? 0) || (c =? 34) then p
    else if c =? 92 then match q with [] => [] | d :: r => if d =? 0 then q else string_end r end
    else string_end q
  end.

(** The bracket loop; [inside] is set while its inner string loop runs. *)
Fixpoint brackets (open close : Z) (inside : bool) (depth : Z) (p : list Z) : option (list Z) :=
  match p with
  | [] => None
  | c :: q =>
    if c =? 0 then None
    else if inside then
      if c =? 34 then brackets open close false depth q
      else if c =? 92 then
        match q with [] => None | d :: r => if d =? 0 then None else brackets open close true depth r end
      else brackets open close true depth q
    else if c =? 34 then brackets open close true depth q
    else
      let depth := if c =? open then depth + 1 else depth in
      if c =? close then
        let depth := depth - 1 in
        if depth =? 0 then Some q else brackets open close false depth q
      else brackets open close false depth q
  end.

Definition ends_bare (c : Z) : bool := (c =? 44) || (c =? 93) || (c =? 125) || is_ws c.
Fixpoint bare_end (p : list Z) : list Z :=
  match p with
  | c :: q => if (c =? 0) || ends_bare c then p else bare_end q
  | [] => []
  end.

Definition js_skip (p : list Z) : option (list Z) :=
  let p := js_ws p in
  if cur p =? 34 then
    let p := string_end (next p) in
    if cur p =? 0 then None else Some (next p)
  else if (cur p =? 91) || (cur p =? 123) then
    brackets (cur p) (if cur p =? 91 then 93 else 125) false 0 p
  else
    let q := bare_end p in
    if (length q <? length p)%nat then Some q else None.

(** The member loop of [js_get], on its text [p]. *)
Fixpoint get_loop (fuel : nat) (p key : list Z) : option (list Z) :=
  match fuel with
  | O => None
  | S fuel =>
    let p := js_ws p in
    if negb (cur p =? 34) then None
    else
      let ks := next p in
      let ke := string_end ks in
      if cur ke =? 0 then None
      else
        let found := bool_decide (take (length ks - length ke) ks = key) in
        let p := js_ws (next ke) in
        if negb (cur p =? 58) then None
        else
          let p := js_ws (next p) in
          if found then Some p
          else
            match js_skip p with
            | None => None
            | Some p =>
              let p := js_ws p in
              if cur p =? 44 then get_loop fuel (next p) key else None
            end
  end.

Definition js_get (obj key : list Z) : option (list Z) :=
  let obj := js_ws obj in
  if negb (cur obj =? 123) then None
  else
    let p := js_ws (next obj) in
    if cur p =? 125 then None else get_loop (S (length p)) p key.

Fixpoint elem_loop (fuel : nat) (p : list Z) (i idx : Z) : option (list Z) :=
  match fuel with
  | O => None
  | S fuel =>
    if i =? idx then Some p
    else
      match js_skip p with
      | None => None
      | Some p =>
        let p := js_ws p in
        if negb (cur p =? 44) then None else elem_loop fuel (js_ws (next p)) (i + 1) idx
      end
  end.

Definition js_elem (arr : list Z) (idx : Z) : option (list Z) :=
  let arr := js_ws arr in
  if negb (cur arr =? 91) then None
  else
    let p := js_ws (next arr) in
    if cur p =? 93 then None else elem_loop (S (length p)) p 0 idx.

Fixpoint count_loop (fuel : nat) (p : list Z) (n : Z) : option Z :=
  match fuel with
  | O => None
  | S fuel =>
    let n := n + 1 in
    match js_skip p with
    | None => Some (-1)
    | Some p =>
      let p := js_ws p in
      if cur p =? 44 then count_loop fuel (js_ws (next p)) n
      else Some (if cur p =? 93 then n else -1)
    end
  end.

Definition js_count (arr : list Z) : Z :=
  let arr := js_ws arr in
  if negb (cur arr =? 91) then -1
  else
    let p := js_ws (next arr) in
    if cur p =? 93 then 0 else default (-1) (count_loop (S (length p)) p 0).

(** The characters the loop of [js_str] copies, where it stops, and whether it
    stops because the destination of [outlen] characters is full. *)
Fixpoint str_chars (outlen o : nat) (v : list Z) : list Z * list Z * bool :=
  match v with
  | [] => ([], [], false)
  | c :: q =>
    if (c =? 0) || (c =? 34) then ([], v, false)
    else if (outlen <=? o + 1)%nat then ([], v, true)
    else let '(s, r, full) := str_chars outlen (S o) q in (c :: s, r, full)
  end.

(** Whether the copy succeeds, and the destination array, whose length is
    [outlen]: a failed copy leaves what it wrote, without a terminator. *)
Definition js_str (v out : list Z) : bool * list Z :=
  let v := js_ws v in
  if negb (cur v =? 34) then (false, out)
  else
    let '(s, r, full) := str_chars (length out) 0 (next v) in
    let out := list_inserts 0 s out in
    if full || negb (cur r =? 34) then (false, out)
    else (true, <[length s := 0]> out).

(** A character array read as a C string. *)
Fixpoint cstr (l : list Z) : list Z :=
  match l with
  | c :: q => if c =? 0 then [] else c :: cstr q
  | [] => []
  end.

Definition hexval (c : Z) : option Z :=
  if (48 <=? c) && (c <=? 57) then Some (c - 48)
  else if (97 <=? c) && (c <=? 102) then Some (c - 97 + 10)
  else if (65 <=? c) && (c <=? 70) then Some (c - 65 + 10)
  else None.

(** The decoding loop of [js_hex] over the destination array: it stops at the
    first pair that is not hex, keeping the bytes written before it. *)
Fixpoint hex_into (out : list Z) (i : nat) (buf : list Z) : bool * list Z :=
  match buf with
  | c :: d :: buf =>
    match hexval c, hexval d with
    | Some hi, Some lo => hex_into (<[i := u8 ((hi ≪ 4) .| lo)]> out) (S i) buf
    | _, _ => (false, out)
    end
  | _ => (true, out)
  end.

(** The length decoded ([None] is -1, and [*outlen] is not set) and the
    destination array, which an error can leave partly overwritten. *)
Definition js_hex (v out : list Z) (maxlen : nat) : option nat * list Z :=
  let '(ok, buf) := js_str v (replicate (2 * Job.STRATUM_MAX_CB + 4) 0) in
  if negb ok then (None, out)
  else
    let buf := cstr buf in
    let n := length buf in
    if negb (n mod 2 =? 0)%nat then (None, out)
    else if (maxlen <? n / 2)%nat then (None, out)
    else
      let '(ok, out) := hex_into out 0 buf in
      (if ok then Some (n / 2)%nat else None, out).

Definition js_num (v : list Z) : Cdouble.double := Cdouble.strtod (js_ws v).
Definition js_true (v : list Z) : bool := bool_decide (take 4 (js_ws v) = str "true").

Definition bin2hex (b : list Z) : list Z :=
  b ≫= (fun x => let H := str "0123456789abcdef" in
                 [H !!! Z.to_nat (x ≫ 4); H !!! Z.to_nat (x .& 15)]).

(** ** Pointers stay in the text and move forward *)
Lemma suffix_length (p q : list Z) : p `suffix_of` q -> (length p <= length q)%nat.
Proof. apply suffix_length. Qed.
Lemma suffix_next p : next p `suffix_of` p.
Proof. destruct p as [|c p]; [done|]. by exists [c]. Qed.
Lemma length_next p : cur p <> 0 -> (length (next p) < length p)%nat.
Proof. destruct p; cbn; [done|lia]. Qed.
Lemma cur_nz p c : (cur p =? c) = true -> c <> 0 -> cur p <> 0.
Proof. rewrite Z.eqb_eq. congruence. Qed.

Lemma js_ws_suffix p : js_ws p `suffix_of` p.
Proof.
  induction p as [|c p IH]; [done|]. cbn. destruct (is_ws c); [|done].
  by apply suffix_cons_r.
Qed.
Lemma string_end_suffix p : string_end p `suffix_of` p.
Proof.
  assert (forall n p, (length p <= n)%nat -> string_end p `suffix_of` p) as H; [|by apply (H (length p))].
  clear p. induction n as [|n IH]; intros [|c p] Hn; cbn in *; try done; [lia|].
  destruct (_ || _); [done|]. destruct (c =? 92); [|apply suffix_cons_r, IH; lia].
  destruct p as [|d p]; [apply suffix_nil|]. cbn in Hn. destruct (d =? 0); [by apply suffix_cons_r|].
  by apply suffix_cons_r, suffix_cons_r, IH; lia.
Qed.
Lemma brackets_suffix open close inside depth p q :
  brackets open close inside depth p = Some q -> q `suffix_of` p /\ (length q < length p)%nat.
Proof.
  assert (forall n p inside depth, (length p <= n)%nat ->
    brackets open close inside depth p = Some q -> q `suffix_of` p /\ (length q < length p)%nat) as H;
    [|by apply (H (length p))].
  clear p inside depth. induction n as [|n IH]; intros [|c p] inside depth Hn; cbn in *; try done; [lia|].
  assert (forall i d, brackets open close i d p = Some q ->
    q `suffix_of` c :: p /\ (length q < S (length p))%nat) as Hstep.
  { intros i d Hb. apply IH in Hb as [? ?]; [|lia]. split; [by apply suffix_cons_r|lia]. }
  destruct (c =? 0); [done|]. destruct inside.
  - destruct (c =? 34); [apply Hstep|]. destruct (c =? 92); [|apply Hstep].
    destruct p as [|d p]; [done|]. destruct (d =? 0); [done|]. intros Hb. apply IH in Hb as [? ?]; [|cbn in *; lia].
    split; [by apply suffix_cons_r, suffix_cons_r|cbn; lia].
  - destruct (c =? 34); [apply Hstep|].
    destruct (c =? close); [|apply Hstep]. destruct (_ =? 0); [|apply Hstep].
    intros [= <-]. split; [by apply suffix_cons_r|lia].
Qed.
Lemma bare_end_suffix p : bare_end p `suffix_of` p.
Proof.
  induction p as [|c p IH]; [done|]. cbn. destruct (_ || _); [done|]. by apply suffix_cons_r.
Qed.

Lemma js_skip_suffix p q : js_skip p = Some q -> q `suffix_of` p /\ (length q < length p)%nat.
Proof.
  unfold js_skip. pose proof (js_ws_suffix p) as Hw. pose proof (suffix_length _ _ Hw).
  set (p1 := js_ws p) in *. destruct (cur p1 =? 34) eqn:E1.
  - pose proof (string_end_suffix (next p1)) as Hs. set (p2 := string_end (next p1)) in *.
    destruct (Z.eqb_spec (cur p2) 0); [done|]. intros [= <-].
    pose proof (length_next p2 n). pose proof (suffix_length _ _ Hs).
    pose proof (length_next p1 (cur_nz _ _ E1 ltac:(done))). split; [|lia].
    etrans; [apply suffix_next|]. etrans; [exact Hs|]. etrans; [apply suffix_next|done].
  - destruct (_ || _).
    + intros Hb. apply brackets_suffix in Hb as [? ?]. split; [by etrans|lia].
    + destruct (Nat.ltb_spec (length (bare_end p1)) (length p1)); [|done]. intros [= <-].
      split; [|lia]. etrans; [apply bare_end_suffix|done].
Qed.

(** Chains of suffixes. *)
#[local] Ltac suff := repeat first
  [ eassumption | reflexivity | etrans; [apply js_ws_suffix|] | etrans; [apply suffix_next|]
  | etrans; [apply string_end_suffix|] | etrans; [eassumption|] ].

Lemma get_loop_suffix fuel p key q : get_loop fuel p key = Some q -> q `suffix_of` p.
Proof.
  revert p. induction fuel as [|fuel IH]; intros p; [done|]. cbn [get_loop].
  destruct (negb _); [done|]. destruct (_ =? 0); [done|]. destruct (negb _); [done|].
  set (v := js_ws (next (js_ws (next (string_end (next (js_ws p))))))).
  assert (v `suffix_of` p) as Hv by (subst v; suff).
  destruct (bool_decide _); [by intros [= <-]|].
  destruct (js_skip v) as [p1|] eqn:E; [|done]. apply js_skip_suffix in E as [E _].
  destruct (_ =? 44); [|done]. intros Hq%IH. suff.
Qed.
Lemma js_get_suffix obj key q : js_get obj key = Some q -> q `suffix_of` obj.
Proof.
  unfold js_get. destruct (negb _); [done|]. destruct (_ =? 125); [done|].
  intros H%get_loop_suffix. suff.
Qed.
Lemma elem_loop_suffix fuel p i idx q : elem_loop fuel p i idx = Some q -> q `suffix_of` p.
Proof.
  revert p i. induction fuel as [|fuel IH]; intros p i; [done|]. cbn [elem_loop].
  destruct (i =? idx); [by intros [= <-]|].
  destruct (js_skip p) as [p1|] eqn:E; [|done]. apply js_skip_suffix in E as [E _].
  destruct (negb _); [done|]. intros Hq%IH. suff.
Qed.
Lemma js_elem_suffix arr idx q : js_elem arr idx = Some q -> q `suffix_of` arr.
Proof.
  unfold js_elem. destruct (negb _); [done|]. destruct (_ =? 93); [done|].
  intros H%elem_loop_suffix. suff.
Qed.

(** ** The fuel is enough: one more than the length of the text *)
Lemma js_ws_length p : (length (js_ws p) <= length p)%nat.
Proof. apply suffix_length, js_ws_suffix. Qed.
Lemma next_length p : (length (next p) <= length p)%nat.
Proof. apply suffix_length, suffix_next. Qed.

Lemma get_loop_fuel fuel fuel' p key :
  (length p < fuel)%nat -> (length p < fuel')%nat -> get_loop fuel p key = get_loop fuel' p key.
Proof.
  revert fuel' p. induction fuel as [|fuel IH]; intros [|fuel'] p Hf Hf'; [lia..|].
  cbn [get_loop]. destruct (negb _); [done|]. destruct (_ =? 0); [done|]. destruct (negb _); [done|].
  set (v := js_ws (next (js_ws (next (string_end (next (js_ws p))))))).
  assert (v `suffix_of` p) as Hv%suffix_length by (subst v; suff).
  destruct (bool_decide _); [done|]. destruct (js_skip v) as [p1|] eqn:E; [|done].
  apply js_skip_suffix in E as [_ E]. destruct (_ =? 44); [|done].
  pose proof (js_ws_length p1). pose proof (next_length (js_ws p1)). apply IH; lia.
Qed.
Lemma elem_loop_fuel fuel fuel' p i idx :
  (length p < fuel)%nat -> (length p < fuel')%nat -> elem_loop fuel p i idx = elem_loop fuel' p i idx.
Proof.
  revert fuel' p i. induction fuel as [|fuel IH]; intros [|fuel'] p i Hf Hf'; [lia..|].
  cbn [elem_loop]. destruct (i =? idx); [done|]. destruct (js_skip p) as [p1|] eqn:E; [|done].
  apply js_skip_suffix in E as [_ E]. destruct (negb _); [done|].
  pose proof (js_ws_length p1). pose proof (next_length (js_ws p1)).
  pose proof (js_ws_length (next (js_ws p1))). apply IH; lia.
Qed.
Lemma count_loop_fuel fuel p n : (length p < fuel)%nat -> exists m, count_loop fuel p n = Some m.
Proof.
  revert p n. induction fuel as [|fuel IH]; intros p n Hf; [lia|]. cbn [count_loop].
  destruct (js_skip p) as [p1|] eqn:E; [|by eexists].
  apply js_skip_suffix in E as [_ E]. destruct (_ =? 44); [|by eexists].
  pose proof (js_ws_length p1). pose proof (next_length (js_ws p1)).
  pose proof (js_ws_length (next (js_ws p1))). apply IH; lia.
Qed.

(** ** Printed values *)
#[local] Set Warnings "-register-all".
Module Spec.
(** A bare token is a number, [true], [false] or [null]; a string is given by
    the characters between its quotes. *)
Inductive json :=
  | JStr (s : list Z)
  | JBare (t : list Z)
  | JArr (l : list json)
  | JObj (l : list (list Z * json)).

Section Print.
(** The white space put between any two tokens. *)
Context (w : list Z).

Fixpoint separated (l : list (list Z)) : list Z :=
  match l with
  | [] => []
  | [x] => x ++ w
  | x :: l => x ++ w ++ [44] ++ w ++ separated l
  end.
Definition quoted (s : list Z) : list Z := [34] ++ s ++ [34].
Fixpoint print (v : json) : list Z :=
  match v with
  | JStr s => quoted s
  | JBare t => t
  | JArr l => [91] ++ w ++ separated (print <$> l) ++ [93]
  | JObj l =>
    [123] ++ w ++ separated ((fun kv => quoted kv.1 ++ w ++ [58] ++ w ++ print kv.2) <$> l) ++ [125]
  end.
End Print.

(** No quote, backslash or terminator in a string; no delimiter, quote or
    opening bracket in a token. *)
Definition plain (s : list Z) : Prop := Forall (fun c => c <> 34 /\ c <> 92 /\ c <> 0) s.
Definition bare_char (c : Z) : Prop :=
  ends_bare c = false /\ c <> 34 /\ c <> 91 /\ c <> 123 /\ c <> 0.

Fixpoint wf (v : json) : Prop :=
  match v with
  | JStr s => plain s
  | JBare t => t <> [] /\ Forall bare_char t
  | JArr l => foldr (fun v P => wf v /\ P) True l
  | JObj l => foldr (fun kv P => plain kv.1 /\ wf kv.2 /\ P) True l
  end.
#[export] Instance plain_dec s : Decision (plain s).
Proof. unfold plain. apply _. Defined.
#[export] Instance bare_char_dec c : Decision (bare_char c).
Proof. unfold bare_char. apply _. Defined.
#[export] Instance wf_dec : forall v, Decision (wf v) :=
  fix go v : Decision (wf v) :=
    match v return Decision (wf v) with
    | JStr s => plain_dec s
    | JBare t => @and_dec (t <> []) _ (Forall bare_char t) _
    | JArr l =>
      (fix gol l : Decision (wf (JArr l)) :=
         match l return Decision (wf (JArr l)) with [] => left I | v :: l => and_dec (go v) (gol l) end) l
    | JObj l =>
      (fix gol l : Decision (wf (JObj l)) :=
         match l return Decision (wf (JObj l)) with
         | [] => left I
         | kv :: l => and_dec (plain_dec kv.1) (and_dec (go kv.2) (gol l))
         end) l
    end.
End Spec.
Import Spec.

Lemma json_induction (P : json -> Prop) :
  (forall s, P (JStr s)) -> (forall t, P (JBare t)) ->
  (forall l, Forall P l -> P (JArr l)) ->
  (forall l, Forall (fun kv => P kv.2) l -> P (JObj l)) ->
  forall v, P v.
Proof.
  intros HS HB HA HO. fix IH 1. intros [s|t|l|l]; [apply HS|apply HB|apply HA|apply HO].
  - induction l as [|v l IHl]; constructor; [apply IH|exact IHl].
  - induction l as [|kv l IHl]; constructor; [apply IH|exact IHl].
Qed.

Lemma wf_arr l : wf (JArr l) <-> Forall wf l.
Proof.
  cbn. induction l as [|v l IH]; cbn; [by split|]. rewrite Forall_cons. by rewrite IH.
Qed.
Lemma wf_obj l : wf (JObj l) <-> Forall (fun kv => plain kv.1 /\ wf kv.2) l.
Proof.
  cbn. induction l as [|v l IH]; cbn; [by split|]. rewrite Forall_cons, IH. tauto.
Qed.

Section Printed.
Context (w : list Z) (Hw : Forall (fun c => is_ws c = true) w).

Lemma js_ws_skip p : js_ws (w ++ p) = js_ws p.
Proof using Hw. induction Hw as [|c l Hc Hl IH]; [done|]. cbn. by rewrite Hc, IH. Qed.
Lemma js_ws_stop p : is_ws (cur p) = false -> js_ws p = p.
Proof. destruct p as [|c p]; [done|]. cbn. by intros ->. Qed.

(** A value starts with something that is not white space. *)
Lemma print_start v : wf v -> exists c t, print w v = c :: t /\ is_ws c = false /\ c <> 0.
Proof.
  destruct v as [s|t|l|l]; cbn.
  - intros _. eexists 34, _. done.
  - intros [Hne Ht]. destruct t as [|c t]; [done|]. exists c, t. split; [done|].
    apply Forall_cons in Ht as [(He & _ & _ & _ & Hz) _]. split; [|done].
    unfold ends_bare in He. by destruct (is_ws c); rewrite ?orb_true_r in He.
  - intros _. eexists 91, _. done.
  - intros _. eexists 123, _. done.
Qed.
Lemma js_ws_print v r : wf v -> js_ws (print w v ++ r) = print w v ++ r.
Proof. intros Hv. destruct (print_start v Hv) as (c & t & -> & Hc & _). cbn. by rewrite Hc. Qed.

Lemma string_end_plain s r : plain s -> string_end (s ++ [34] ++ r) = [34] ++ r.
Proof.
  induction 1 as [|c s (H1 & H2 & H3) Hs IH]; [done|]. cbn.
  rewrite !(proj2 (Z.eqb_neq c _)) by done. exact IH.
Qed.

(** *** The bracket loop over a printed value *)
Context (open close : Z) (Hpair : (open, close) = (91, 93) \/ (open, close) = (123, 125)).

Definition other (c : Z) : Prop := c <> 0 /\ c <> 34 /\ c <> open /\ c <> close.
Lemma brackets_pass d l r : Forall other l -> brackets open close false d (l ++ r) = brackets open close false d r.
Proof.
  induction 1 as [|c l (H0 & H1 & H2 & H3) Hl IH]; [done|]. cbn.
  rewrite !(proj2 (Z.eqb_neq _ _)) by done. exact IH.
Qed.
Lemma brackets_inside d s r :
  plain s -> brackets open close true d (s ++ [34] ++ r) = brackets open close false d r.
Proof.
  induction 1 as [|c s (H1 & H2 & H3) Hs IH]; [done|]. cbn.
  rewrite !(proj2 (Z.eqb_neq _ _)) by done. exact IH.
Qed.
Lemma brackets_string d s r :
  plain s -> brackets open close false d (quoted s ++ r) = brackets open close false d r.
Proof. intros Hs. unfold quoted. rewrite <- !app_assoc. cbn. by apply brackets_inside. Qed.

Lemma ws_other : Forall other w.
Proof using Hw Hpair.
  eapply Forall_impl; [exact Hw|]. intros c Hc. unfold is_ws in Hc.
  rewrite !orb_true_iff, !Z.eqb_eq in Hc. unfold other.
  destruct Hpair as [[= -> ->]|[= -> ->]]; lia.
Qed.
Lemma sep_other c : c = 44 \/ c = 58 -> Forall other [c].
Proof using Hpair.
  intros Hc. apply Forall_singleton. unfold other.
  destruct Hpair as [[= -> ->]|[= -> ->]]; lia.
Qed.

Lemma brackets_separated d l r :
  Forall (fun x => forall r, brackets open close false d (x ++ r) = brackets open close false d r) l ->
  brackets open close false d (separated w l ++ r) = brackets open close false d r.
Proof using Hw Hpair.
  induction 1 as [|x l Hx Hl IH]; [done|]. destruct l as [|y l].
  - cbn. rewrite <- app_assoc, Hx. apply brackets_pass, ws_other.
  - change (separated w (x :: y :: l)) with (x ++ w ++ [44] ++ w ++ separated w (y :: l)).
    rewrite <- !app_assoc, Hx, brackets_pass by apply ws_other.
    rewrite brackets_pass by (apply sep_other; by left).
    rewrite brackets_pass by apply ws_other. exact IH.
Qed.

(** An enclosed group of the other kind, or of the same kind one level deeper. *)
Lemma brackets_group d o c r :
  1 <= d -> (o, c) = (91, 93) \/ (o, c) = (123, 125) ->
  (if decide (o = open) then
     brackets open close false d ([o] ++ r) = brackets open close false (d + 1) r
     /\ brackets open close false (d + 1) ([c] ++ r) = brackets open close false d r
   else brackets open close false d ([o] ++ r) = brackets open close false d r
     /\ brackets open close false d ([c] ++ r) = brackets open close false d r).
Proof using Hpair.
  intros Hd Hoc. destruct Hpair as [[= -> ->]|[= -> ->]], Hoc as [[= -> ->]|[= -> ->]];
    case_decide; try done; (split; [done|]).
  - change (brackets 91 93 false (d + 1) ([93] ++ r))
      with (if d + 1 - 1 =? 0 then Some r else brackets 91 93 false (d + 1 - 1) r).
    replace (d + 1 - 1) with d by lia. by rewrite (proj2 (Z.eqb_neq _ _)) by lia.
  - change (brackets 123 125 false (d + 1) ([125] ++ r))
      with (if d + 1 - 1 =? 0 then Some r else brackets 123 125 false (d + 1 - 1) r).
    replace (d + 1 - 1) with d by lia. by rewrite (proj2 (Z.eqb_neq _ _)) by lia.
Qed.

Lemma brackets_print v d r :
  wf v -> 1 <= d -> brackets open close false d (print w v ++ r) = brackets open close false d r.
Proof using Hw Hpair.
  revert d r. induction v as [s|t|l IH|l IH] using json_induction; intros d r Hv Hd.
  - by apply brackets_string.
  - destruct Hv as [_ Ht]. apply brackets_pass. eapply Forall_impl; [exact Ht|].
    intros c (He & H1 & H2 & H3 & H0). unfold ends_bare in He. unfold other.
    rewrite !orb_false_iff, !Z.eqb_neq in He.
    destruct Hpair as [[= -> ->]|[= -> ->]]; lia.
  - apply wf_arr in Hv. change (print w (JArr l)) with ([91] ++ w ++ separated w (print w <$> l) ++ [93]).
    rewrite <- !app_assoc.
    assert (forall d r, 1 <= d -> brackets open close false d (w ++ separated w (print w <$> l) ++ r)
      = brackets open close false d r) as Hin.
    { intros d' r' Hd'. rewrite brackets_pass by apply ws_other. apply brackets_separated.
      apply Forall_fmap. rewrite Forall_forall in *. intros x Hx. unfold compose. intros r0.
      apply IH; [done|by apply Hv|done]. }
    pose proof (fun r' => brackets_group d 91 93 r' Hd (or_introl eq_refl)) as Hg.
    destruct (decide (91 = open)).
    + rewrite (proj1 (Hg _)), Hin by lia. apply Hg.
    + rewrite (proj1 (Hg _)), Hin by lia. apply Hg.
  - apply wf_obj in Hv. set (pr := fun kv : list Z * json => quoted kv.1 ++ w ++ [58] ++ w ++ print w kv.2).
    change (print w (JObj l)) with ([123] ++ w ++ separated w (pr <$> l) ++ [125]).
    rewrite <- !app_assoc.
    assert (forall d r, 1 <= d -> brackets open close false d (w ++ separated w (pr <$> l) ++ r)
      = brackets open close false d r) as Hin.
    { intros d' r' Hd'. rewrite brackets_pass by apply ws_other. apply brackets_separated.
      apply Forall_fmap. rewrite Forall_forall in *. intros kv Hx. unfold compose. intros r0.
      destruct (Hv kv Hx) as [Hk Hval]. unfold pr. rewrite <- !app_assoc.
      rewrite brackets_string, brackets_pass by (done || apply ws_other).
      rewrite brackets_pass by (apply sep_other; by right).
      rewrite brackets_pass by apply ws_other. by apply IH. }
    pose proof (fun r' => brackets_group d 123 125 r' Hd (or_intror eq_refl)) as Hg.
    destruct (decide (123 = open)).
    + rewrite (proj1 (Hg _)), Hin by lia. apply Hg.
    + rewrite (proj1 (Hg _)), Hin by lia. apply Hg.
Qed.
End Printed.

(** ** The walkers on printed values *)
Section Walk.
Context (w : list Z) (Hw : Forall (fun c => is_ws c = true) w).

Definition delimited (r : list Z) : Prop := r = [] \/ ends_bare (cur r) = true.

Lemma bare_end_token t r : Forall bare_char t -> delimited r -> bare_end (t ++ r) = r.
Proof.
  intros Ht Hr. induction Ht as [|c t (He & _ & _ & _ & Hz) Ht IH]; cbn.
  - destruct Hr as [->|Hr]; [done|]. destruct r as [|c r]; [done|]. cbn in *. by rewrite Hr, orb_true_r.
  - by rewrite He, (proj2 (Z.eqb_neq _ _)).
Qed.

Lemma brackets_first open close q :
  (open, close) = (91, 93) \/ (open, close) = (123, 125) ->
  brackets open close false 0 (open :: q) = brackets open close false 1 q.
Proof. by intros [[= -> ->]|[= -> ->]]. Qed.
Lemma brackets_last open close q :
  (open, close) = (91, 93) \/ (open, close) = (123, 125) ->
  brackets open close false 1 (close :: q) = Some q.
Proof. by intros [[= -> ->]|[= -> ->]]. Qed.

Lemma js_skip_print v r :
  wf v -> delimited r -> js_skip (print w v ++ r) = Some r.
Proof using Hw.
  intros Hv Hr. unfold js_skip. rewrite js_ws_print by done.
  destruct v as [s|t|l|l].
  - cbn [print]. unfold quoted. rewrite <- !app_assoc.
    change ([34] ++ s ++ [34] ++ r) with (34 :: (s ++ [34] ++ r)).
    cbn [cur next List.tl Z.eqb Pos.eqb]. by rewrite string_end_plain.
  - destruct Hv as [Hne Ht]. cbn [print]. rewrite bare_end_token by done.
    destruct t as [|c t]; [done|]. apply Forall_cons in Ht as [(_ & H1 & H2 & H3 & _) _].
    cbn [app cur]. rewrite !(proj2 (Z.eqb_neq c _)) by done. cbn [orb].
    rewrite (proj2 (Nat.ltb_lt _ _)); [done|]. cbn [length]. rewrite length_app. lia.
  - change (print w (JArr l)) with ([91] ++ w ++ separated w (print w <$> l) ++ [93]).
    rewrite <- !app_assoc. cbn [app cur Z.eqb Pos.eqb orb].
    rewrite brackets_first by (by left). apply wf_arr in Hv.
    rewrite brackets_pass by (apply ws_other; [done|by left]).
    rewrite brackets_separated; [by apply brackets_last; left|done|by left|].
    apply Forall_fmap. rewrite Forall_forall in *. intros x Hx. unfold compose. intros r0.
    apply brackets_print; [done|by left|by apply Hv|lia].
  - set (pr := fun kv : list Z * json => quoted kv.1 ++ w ++ [58] ++ w ++ print w kv.2).
    change (print w (JObj l)) with ([123] ++ w ++ separated w (pr <$> l) ++ [125]).
    rewrite <- !app_assoc. cbn [app cur Z.eqb Pos.eqb orb].
    rewrite brackets_first by (by right). apply wf_obj in Hv.
    rewrite brackets_pass by (apply ws_other; [done|by right]).
    rewrite brackets_separated; [by apply brackets_last; right|done|by right|].
    apply Forall_fmap. rewrite Forall_forall in *. intros kv Hx. unfold compose. intros r0.
    destruct (Hv kv Hx) as [Hk Hval]. unfold pr. rewrite <- !app_assoc.
    rewrite brackets_string by (done || by right).
    rewrite brackets_pass by (apply ws_other; [done|by right]).
    rewrite brackets_pass by (apply sep_other; by right).
    rewrite brackets_pass by (apply ws_other; [done|by right]).
    apply brackets_print; [done|by right|done|lia].
Qed.

Lemma separated_cons x l :
  separated w (x :: l) = x ++ w ++ match l with [] => [] | _ => 44 :: w ++ separated w l end.
Proof. destruct l; cbn; [by rewrite app_nil_r|done]. Qed.

Lemma delimited_ws r : delimited r -> delimited (w ++ r).
Proof using Hw.
  intros Hr. destruct Hw as [|c l Hc Hl]; [done|]. right. cbn. unfold ends_bare.
  by rewrite Hc, orb_true_r.
Qed.
Lemma js_ws_cur c q : is_ws c = false -> js_ws (w ++ c :: q) = c :: q.
Proof using Hw. intros Hc. rewrite js_ws_skip by done. cbn. by rewrite Hc. Qed.

(** What follows an item: the rest of the items or the closing bracket. *)
Definition rest_of {A} (l : list A) (items : list Z) (c : Z) (r : list Z) : list Z :=
  match l with [] => c :: r | _ => 44 :: w ++ items ++ c :: r end.
Lemma rest_delimited {A} (l : list A) items c r :
  ends_bare c = true -> delimited (w ++ rest_of l items c r).
Proof using Hw. intros Hc. apply delimited_ws. right. by destruct l. Qed.
Lemma separated_rest {A} (f : A -> list Z) x l c r :
  separated w (f x :: (f <$> l)) ++ c :: r = f x ++ w ++ rest_of l (separated w (f <$> l)) c r.
Proof.
  rewrite separated_cons, <- !app_assoc. do 2 f_equal. destruct l; [done|]. cbn [fmap list_fmap rest_of].
  change ((44 :: ?a) ++ ?b) with (44 :: (a ++ b)). by rewrite <- app_assoc.
Qed.

Lemma js_ws_print_w v r : wf v -> js_ws (w ++ print w v ++ r) = print w v ++ r.
Proof using Hw. intros Hv. by rewrite js_ws_skip, js_ws_print. Qed.
Lemma cur_print v r c : wf v -> ends_bare c = true -> (cur (print w v ++ r) =? c) = false.
Proof.
  intros Hv Hc. apply Z.eqb_neq. destruct v as [s|t|l|l]; cbn.
  1, 3, 4: by intros <-.
  destruct Hv as [Hne Ht]. destruct t as [|d t]; [done|].
  apply Forall_cons in Ht as [[He _] _]. cbn. intros <-. by rewrite He in Hc.
Qed.

(** *** Arrays *)
(** The text of an array after its opening bracket and white space. *)
Definition items (l : list json) (r : list Z) : list Z := separated w (print w <$> l) ++ 93 :: r.
Lemma items_cons v l r :
  items (v :: l) r = print w v ++ w ++ rest_of l (separated w (print w <$> l)) 93 r.
Proof. unfold items. rewrite fmap_cons. apply separated_rest. Qed.
Lemma print_arr l r : print w (JArr l) ++ r = 91 :: w ++ items l r.
Proof.
  change (print w (JArr l)) with ([91] ++ w ++ separated w (print w <$> l) ++ [93]).
  unfold items. by rewrite <- !app_assoc.
Qed.
Lemma js_ws_items l r : Forall wf l -> js_ws (w ++ items l r) = items l r.
Proof using Hw.
  intros Hl. destruct Hl as [|v l Hv Hl]; [by apply js_ws_cur|].
  rewrite items_cons. by apply js_ws_print_w.
Qed.
Lemma cur_items l r : Forall wf l -> (cur (items l r) =? 93) = bool_decide (l = []).
Proof. intros Hl. destruct Hl as [|v l Hv Hl]; [done|]. rewrite items_cons. by apply cur_print. Qed.
Lemma js_skip_items v l r :
  wf v -> js_skip (items (v :: l) r) = Some (w ++ rest_of l (separated w (print w <$> l)) 93 r).
Proof using Hw.
  intros Hv. rewrite items_cons. apply js_skip_print; [done|]. by apply rest_delimited.
Qed.
Lemma js_ws_rest {A} (l : list A) (t : list Z) c r :
  is_ws c = false -> js_ws (w ++ rest_of l t c r) = rest_of l t c r.
Proof using Hw. intros Hc. rewrite js_ws_skip by done. destruct l; cbn; [by rewrite Hc|done]. Qed.
Lemma items_length l r : Forall wf l -> (length l <= length (items l r))%nat.
Proof.
  revert r. induction l as [|v l IH]; intros r Hl; [cbn; lia|]. apply Forall_cons in Hl as [Hv Hl].
  rewrite items_cons. destruct (print_start w v Hv) as (c & t & -> & _). specialize (IH r Hl).
  unfold items in IH. destruct l; [cbn; lia|]. cbn [rest_of]. cbn [length] in *.
  rewrite !length_app in *. cbn [length app] in *. rewrite !length_app in *. cbn [length] in *. lia.
Qed.

Lemma elem_loop_items l r k i fuel :
  Forall wf l -> l <> [] -> (i < fuel)%nat ->
  match l !! i with
  | Some v => exists r', delimited r' /\
      elem_loop fuel (items l r) k (k + Z.of_nat i) = Some (print w v ++ r')
  | None => elem_loop fuel (items l r) k (k + Z.of_nat i) = None
  end.
Proof using Hw.
  revert k i l. induction fuel as [|fuel IH]; intros k i l Hl Hne Hf; [lia|]. cbn [elem_loop].
  destruct Hl as [|v l Hv Hl]; [done|]. destruct i as [|i].
  - cbn [lookup list_lookup]. rewrite (proj2 (Z.eqb_eq _ _)) by lia. rewrite items_cons.
    eexists. split; [|done]. by apply rest_delimited.
  - rewrite (proj2 (Z.eqb_neq _ _)) by lia. rewrite js_skip_items, js_ws_rest by done.
    cbn [lookup list_lookup]. destruct l as [|v' l]; [done|].
    cbn [rest_of cur Z.eqb Pos.eqb negb next List.tl].
    change (separated w (print w <$> v' :: l) ++ 93 :: r) with (items (v' :: l) r).
    rewrite js_ws_items by done. specialize (IH (k + 1) i (v' :: l) Hl ltac:(done) ltac:(lia)).
    by replace (k + 1 + Z.of_nat i) with (k + Z.of_nat (S i)) in IH by lia.
Qed.

Lemma js_elem_print l r i :
  Forall wf l ->
  match l !! i with
  | Some v => exists r', delimited r' /\
      js_elem (print w (JArr l) ++ r) (Z.of_nat i) = Some (print w v ++ r')
  | None => js_elem (print w (JArr l) ++ r) (Z.of_nat i) = None
  end.
Proof using Hw.
  intros Hl. unfold js_elem. rewrite print_arr.
  cbn [js_ws is_ws Z.eqb Pos.eqb orb cur negb next List.tl].
  rewrite js_ws_items, cur_items by done. destruct l as [|v l]; [by destruct i|].
  cbn [bool_decide decide_rel]. rewrite bool_decide_eq_false_2 by done.
  pose proof (items_length (v :: l) r Hl) as Hlen.
  destruct (decide (i < S (length (items (v :: l) r)))%nat) as [Hi|Hi].
  - apply (elem_loop_items (v :: l) r 0 i); [done|done|lia].
  - rewrite lookup_ge_None_2 by lia.
    rewrite (elem_loop_fuel _ (S i)) by lia.
    pose proof (elem_loop_items (v :: l) r 0 i (S i) Hl ltac:(done) ltac:(lia)) as H.
    by rewrite lookup_ge_None_2 in H by lia.
Qed.

Lemma count_loop_items l r n fuel :
  Forall wf l -> l <> [] -> (length l < fuel)%nat ->
  count_loop fuel (items l r) n = Some (n + Z.of_nat (length l)).
Proof using Hw.
  revert n l. induction fuel as [|fuel IH]; intros n l Hl Hne Hf; [lia|]. cbn [count_loop].
  destruct Hl as [|v l Hv Hl]; [done|]. rewrite js_skip_items, js_ws_rest by done.
  destruct l as [|v' l].
  - cbn [rest_of cur Z.eqb Pos.eqb length]. done.
  - cbn [rest_of cur Z.eqb Pos.eqb next List.tl].
    change (separated w (print w <$> v' :: l) ++ 93 :: r) with (items (v' :: l) r).
    rewrite js_ws_items, IH by (done || (cbn in *; lia)). f_equal. cbn [length]. lia.
Qed.

Lemma js_count_print l r : Forall wf l -> js_count (print w (JArr l) ++ r) = Z.of_nat (length l).
Proof using Hw.
  intros Hl. unfold js_count. rewrite print_arr.
  cbn [js_ws is_ws Z.eqb Pos.eqb orb cur negb next List.tl].
  rewrite js_ws_items, cur_items by done. destruct l as [|v l]; [done|].
  rewrite bool_decide_eq_false_2 by done.
  pose proof (items_length (v :: l) r Hl).
  rewrite count_loop_items by (done || lia). done.
Qed.

(** *** Objects *)
Definition member (kv : list Z * json) : list Z := quoted kv.1 ++ w ++ [58] ++ w ++ print w kv.2.
Definition members (l : list (list Z * json)) (r : list Z) : list Z :=
  separated w (member <$> l) ++ 125 :: r.
Definition wf_member (kv : list Z * json) : Prop := plain kv.1 /\ wf kv.2.
#[export] Instance wf_member_dec kv : Decision (wf_member kv).
Proof. unfold wf_member. apply _. Defined.
Lemma members_cons k v l r :
  members ((k, v) :: l) r
  = 34 :: k ++ [34] ++ w ++ 58 :: w ++ print w v ++ w ++ rest_of l (separated w (member <$> l)) 125 r.
Proof.
  unfold members. rewrite fmap_cons, separated_rest. unfold member, quoted. cbn [fst snd].
  by rewrite <- !app_assoc.
Qed.
Lemma print_obj l r : print w (JObj l) ++ r = 123 :: w ++ members l r.
Proof.
  change (print w (JObj l)) with ([123] ++ w ++ separated w (member <$> l) ++ [125]).
  unfold members. by rewrite <- !app_assoc.
Qed.
Lemma js_ws_members l r : js_ws (w ++ members l r) = members l r.
Proof using Hw.
  destruct l as [|[k v] l]; [by apply js_ws_cur|]. rewrite members_cons. by apply js_ws_cur.
Qed.
Lemma members_length l r : (length l <= length (members l r))%nat.
Proof.
  revert r. induction l as [|[k v] l IH]; intros r; [cbn; lia|].
  rewrite members_cons. specialize (IH r). unfold members in IH.
  destruct l as [|kv l]; [cbn; lia|]. cbn [rest_of length] in *.
  repeat (rewrite !length_app in * || cbn [length] in *). lia.
Qed.

(** The value of the first member with a key. *)
Definition find_key (key : list Z) (l : list (list Z * json)) : option json :=
  snd <$> List.find (fun kv => bool_decide (kv.1 = key)) l.

Lemma take_before (k x : list Z) : take (length (k ++ x) - length x) (k ++ x) = k.
Proof. rewrite length_app. by rewrite Nat.add_sub, take_app_length. Qed.
Lemma get_loop_ws fuel p key : get_loop fuel (w ++ p) key = get_loop fuel p key.
Proof using Hw. destruct fuel; [done|]. cbn [get_loop]. by rewrite js_ws_skip. Qed.

Lemma get_loop_members l r key fuel :
  Forall wf_member l -> l <> [] -> (length l < fuel)%nat ->
  match find_key key l with
  | Some v => exists r', delimited r' /\ get_loop fuel (members l r) key = Some (print w v ++ r')
  | None => get_loop fuel (members l r) key = None
  end.
Proof using Hw.
  revert l. induction fuel as [|fuel IH]; intros l Hl Hne Hf; [lia|].
  destruct Hl as [|[k v] l [Hk Hv] Hl]; [done|]. cbn [fst snd] in Hk, Hv.
  rewrite members_cons. cbn [get_loop js_ws is_ws Z.eqb Pos.eqb orb cur negb next List.tl].
  rewrite string_end_plain by done. cbn [app cur Z.eqb Pos.eqb next List.tl].
  rewrite js_ws_cur by done. cbn [cur Z.eqb Pos.eqb negb next List.tl].
  rewrite js_ws_print_w, js_skip_print, js_ws_rest by (done || by apply rest_delimited).
  rewrite take_before. unfold find_key. cbn [List.find fst].
  destruct (bool_decide (k = key)).
  - cbn. eexists. split; [|done]. by apply rest_delimited.
  - fold (find_key key l). destruct l as [|[k' v'] l]; [done|].
    cbn [rest_of cur Z.eqb Pos.eqb next List.tl].
    change (separated w (member <$> (k', v') :: l) ++ 125 :: r) with (members ((k', v') :: l) r).
    rewrite get_loop_ws. apply IH; [done|done|cbn in *; lia].
Qed.

Lemma js_get_print l r key :
  Forall wf_member l ->
  match find_key key l with
  | Some v => exists r', delimited r' /\ js_get (print w (JObj l) ++ r) key = Some (print w v ++ r')
  | None => js_get (print w (JObj l) ++ r) key = None
  end.
Proof using Hw.
  intros Hl. unfold js_get. rewrite print_obj.
  cbn [js_ws is_ws Z.eqb Pos.eqb orb cur negb next List.tl]. rewrite js_ws_members.
  destruct l as [|[k v] l]; [done|]. pose proof (members_length ((k, v) :: l) r).
  assert ((cur (members ((k, v) :: l) r) =? 125) = false) as -> by by rewrite members_cons.
  apply get_loop_members; [done|done|lia].
Qed.
End Walk.

(** ** Strings and byte strings *)
Lemma str_chars_plain outlen o s r :
  plain s -> (o + length s < outlen)%nat ->
  str_chars outlen o (s ++ 34 :: r) = (s, 34 :: r, false).
Proof.
  intros Hs. revert o. induction Hs as [|c s (Hc & _ & Hz) Hs IH]; intros o Hl; [done|].
  cbn [app str_chars length] in *. rewrite !(proj2 (Z.eqb_neq c _)) by done. cbn [orb].
  rewrite (proj2 (Nat.leb_gt _ _)) by lia. by rewrite IH by lia.
Qed.
Lemma str_chars_full outlen o s r :
  plain s -> (o < outlen)%nat -> (outlen <= o + length s)%nat ->
  (str_chars outlen o (s ++ 34 :: r)).2 = true.
Proof.
  intros Hs. revert o. induction Hs as [|c s (Hc & _ & Hz) Hs IH]; intros o Ho Hl; [cbn in *; lia|].
  cbn [app str_chars length] in *. rewrite !(proj2 (Z.eqb_neq c _)) by done. cbn [orb].
  destruct (Nat.leb_spec outlen (o + 1)); [done|].
  specialize (IH (S o) ltac:(lia) ltac:(lia)). by destruct (str_chars _ _ _) as [[? ?] ?].
Qed.
(** The copy stays inside the destination, one place short of its end. *)
Lemma str_chars_length outlen o v :
  (o < outlen)%nat -> (o + length (str_chars outlen o v).1.1 < outlen)%nat.
Proof.
  revert o. induction v as [|c v IH]; intros o Ho; cbn [str_chars]; [cbn; lia|].
  destruct (_ || _); [cbn; lia|]. destruct (Nat.leb_spec outlen (o + 1)); [cbn; lia|].
  specialize (IH (S o) ltac:(lia)). destruct (str_chars _ _ _) as [[? ?] ?]. cbn in *. lia.
Qed.

Lemma js_str_quoted s r out :
  plain s -> (length s < length out)%nat ->
  js_str (quoted s ++ r) out = (true, s ++ 0 :: drop (S (length s)) out).
Proof.
  intros Hs Hl. unfold js_str, quoted. rewrite <- !app_assoc.
  cbn [app js_ws is_ws Z.eqb Pos.eqb orb cur negb next List.tl].
  rewrite str_chars_plain by done. cbn [orb negb cur Z.eqb Pos.eqb]. f_equal.
  rewrite list_inserts_splice by lia. rewrite take_0, Nat.add_0_l. cbn [app].
  rewrite insert_app_r_alt, Nat.sub_diag by lia. f_equal.
  destruct (drop (length s) out) as [|x l] eqn:E.
  - apply (f_equal length) in E. rewrite length_drop in E. cbn in E. lia.
  - cbn. f_equal. replace (S (length s)) with (length s + 1)%nat by lia.
    by rewrite <- drop_drop, E.
Qed.
Lemma js_str_too_long s r out :
  plain s -> (0 < length out <= length s)%nat -> (js_str (quoted s ++ r) out).1 = false.
Proof.
  intros Hs Hl. unfold js_str, quoted. rewrite <- !app_assoc.
  cbn [app js_ws is_ws Z.eqb Pos.eqb orb cur negb next List.tl].
  pose proof (str_chars_full (length out) 0 s r Hs ltac:(lia) ltac:(lia)) as Hf.
  destruct (str_chars _ _ _) as [[? ?] ?]. cbn in Hf. by subst.
Qed.
Lemma js_str_length v out : length (js_str v out).2 = length out.
Proof.
  unfold js_str. destruct (negb _); [done|]. destruct (str_chars _ _ _) as [[s r] full].
  destruct (full || _); cbn; by rewrite ?length_insert, length_inserts.
Qed.

Lemma cstr_app s l : Forall (fun c => c <> 0) s -> cstr (s ++ 0 :: l) = s.
Proof.
  induction 1 as [|c s Hc Hs IH]; [done|]. cbn. rewrite (proj2 (Z.eqb_neq _ _)) by done.
  by rewrite IH.
Qed.
Lemma plain_nz s : plain s -> Forall (fun c => c <> 0) s.
Proof. intros H. eapply Forall_impl; [exact H|]. by intros c (_ & _ & ?). Qed.

Lemma lower_digit_value (x : Z) : 0 <= x < 16 -> hexval (str "0123456789abcdef" !!! Z.to_nat x) = Some x.
Proof.
  intros Hx. assert (Forall (fun n => hexval (str "0123456789abcdef" !!! n) = Some (Z.of_nat n)) (seq 0 16)) as H
    by by_compute.
  rewrite Forall_forall in H. rewrite H by (apply elem_of_seq; lia). f_equal. lia.
Qed.
Lemma hex_digit_plain (x : Z) :
  0 <= x < 16 -> let c := str "0123456789abcdef" !!! Z.to_nat x in c <> 34 /\ c <> 92 /\ c <> 0.
Proof.
  intros Hx. assert (Forall (fun n => str "0123456789abcdef" !!! n <> 34 /\ str "0123456789abcdef" !!! n <> 92
      /\ str "0123456789abcdef" !!! n <> 0) (seq 0 16)) as H by by_compute.
  rewrite Forall_forall in H. apply H. apply elem_of_seq. lia.
Qed.
Lemma nibbles (x : Z) : is_byte x -> 0 <= x ≫ 4 < 16 /\ 0 <= x .& 15 < 16 /\ u8 (((x ≫ 4) ≪ 4) .| (x .& 15)) = x.
Proof.
  intros [Hx0 Hx]. change (2 ^ 8) with 256 in Hx.
  assert (x .& 15 = x mod 16) as -> by (apply (Z.land_ones x 4); lia).
  rewrite Z.shiftr_div_pow2 by lia. change (2 ^ 4) with 16.
  pose proof (Z.mod_pos_bound x 16). pose proof (Z.div_mod x 16).
  assert (0 <= x / 16 < 16) by (split; [apply Z.div_pos; lia|apply Z.div_lt_upper_bound; lia]).
  split_and!; try lia. rewrite lor_add by (unfold is_word; lia).
  rewrite u8_small; [lia|]. unfold is_word. lia.
Qed.
Lemma bin2hex_cons x b :
  bin2hex (x :: b) = str "0123456789abcdef" !!! Z.to_nat (x ≫ 4)
    :: str "0123456789abcdef" !!! Z.to_nat (x .& 15) :: bin2hex b.
Proof. done. Qed.
Lemma length_bin2hex b : length (bin2hex b) = (2 * length b)%nat.
Proof. induction b as [|x b IH]; [done|]. rewrite bin2hex_cons. cbn [length]. lia. Qed.
Lemma plain_bin2hex b : bytes b -> plain (bin2hex b).
Proof.
  induction 1 as [|x b Hx Hb IH]; [constructor|]. rewrite bin2hex_cons.
  destruct (nibbles x Hx) as (H1 & H2 & _).
  apply Forall_cons; split; [by apply hex_digit_plain|].
  apply Forall_cons; split; [by apply hex_digit_plain|done].
Qed.
Lemma hex_into_bin2hex b i out :
  bytes b -> hex_into out i (bin2hex b) = (true, list_inserts i b out).
Proof.
  intros Hb. revert i out. induction Hb as [|x b Hx Hb IH]; intros i out; [done|].
  rewrite bin2hex_cons. cbn [hex_into]. destruct (nibbles x Hx) as (H1 & H2 & H3).
  rewrite !lower_digit_value, H3, IH by done. cbn. by rewrite list_insert_inserts_lt by lia.
Qed.

Lemma js_hex_bin2hex b r out maxlen :
  bytes b -> (length b <= maxlen)%nat -> (length b < Job.STRATUM_MAX_CB + 2)%nat ->
  js_hex (quoted (bin2hex b) ++ r) out maxlen = (Some (length b), list_inserts 0 b out).
Proof.
  intros Hb Hm Hl. unfold js_hex. unfold Job.STRATUM_MAX_CB in *.
  pose proof (length_bin2hex b) as Hlen.
  rewrite js_str_quoted by (first [by apply plain_bin2hex|rewrite length_replicate; lia]).
  cbn [negb]. rewrite cstr_app by by apply plain_nz, plain_bin2hex.
  rewrite Hlen, Nat.mul_comm, Nat.Div0.mod_mul, Nat.div_mul by lia. cbn [Nat.eqb negb].
  rewrite (proj2 (Nat.ltb_ge _ _)) by lia. by rewrite hex_into_bin2hex.
Qed.

(** Whatever the text, [js_hex] keeps the destination an array of bytes and
    decodes at most [maxlen] of them. *)
Lemma hexval_range c v : hexval c = Some v -> 0 <= v < 16.
Proof.
  unfold hexval. repeat case_match; try done; intros [= <-];
    rewrite ?andb_true_iff, ?Z.leb_le in *; lia.
Qed.
Lemma hex_into_bytes out i buf : bytes out -> bytes (hex_into out i buf).2.
Proof.
  intros Hout. assert (forall n buf out i, (length buf <= n)%nat -> bytes out ->
    bytes (hex_into out i buf).2) as H; [|by apply (H (length buf))].
  clear. induction n as [|n IH]; intros [|c [|d buf]] out i Hn Hout; cbn in *; try done; try lia.
  destruct (hexval c); [|done]. destruct (hexval d); [|done].
  apply IH; [lia|]. apply bytes_insert; [apply u8_word|done].
Qed.
Lemma hex_into_length out i buf : length (hex_into out i buf).2 = length out.
Proof.
  assert (forall n buf out i, (length buf <= n)%nat ->
    length (hex_into out i buf).2 = length out) as H; [|by apply (H (length buf))].
  clear. induction n as [|n IH]; intros [|c [|d buf]] out i Hn; cbn in *; try done; try lia.
  destruct (hexval c); [|done]. destruct (hexval d); [|done].
  rewrite IH by lia. apply length_insert.
Qed.
Lemma js_hex_array v out maxlen n : array n out -> array n (js_hex v out maxlen).2.
Proof.
  intros [Hl Hb]. unfold js_hex. destruct (js_str _ _) as [ok buf].
  destruct ok; cbn [negb]; [|done]. destruct (negb _); [done|]. destruct (_ <? _)%nat; [done|].
  pose proof (hex_into_bytes out 0 (cstr buf) Hb). pose proof (hex_into_length out 0 (cstr buf)).
  destruct (hex_into _ _ _) as [? ?]. cbn in *. split; [congruence|done].
Qed.
Lemma js_hex_maxlen v out maxlen n out' : js_hex v out maxlen = (Some n, out') -> (n <= maxlen)%nat.
Proof.
  unfold js_hex. destruct (js_str _ _) as [ok buf]. destruct ok; cbn [negb]; [|done].
  destruct (negb _); [done|]. destruct (Nat.ltb_spec maxlen (length (cstr buf) / 2)); [done|].
  destruct (hex_into _ _ _) as [ok' ?]. destruct ok'; [|done]. intros [= <- <-]. done.
Qed.
Lemma js_true_true r : js_true (str "true" ++ r) = true.
Proof. unfold js_true. cbn [js_ws]. by apply bool_decide_eq_true_2. Qed.
Lemma js_true_false r : js_true (str "false" ++ r) = false.
Proof. unfold js_true. by apply bool_decide_eq_false_2. Qed.

(** ** The terminator

    The memory from a pointer [p] into a line, when [g] lies behind the terminator. *)
Section Behind.
Context (g : list Z).
Definition with_end (p : list Z) : list Z := p ++ 0 :: g.

Lemma cur_end p : cur (with_end p) = cur p.
Proof. by destruct p. Qed.
Lemma next_end p : cur p <> 0 -> next (with_end p) = with_end (next p).
Proof. by destruct p. Qed.
Lemma length_end p : length (with_end p) = (length p + S (length g))%nat.
Proof. apply length_app. Qed.
Lemma js_ws_end p : js_ws (with_end p) = with_end (js_ws p).
Proof. induction p as [|c p IH]; [done|]. cbn. by destruct (is_ws c). Qed.
Lemma bare_end_end p : bare_end (with_end p) = with_end (bare_end p).
Proof. induction p as [|c p IH]; [done|]. cbn. by destruct (_ || _). Qed.
Lemma string_end_end p : string_end (with_end p) = with_end (string_end p).
Proof.
  assert (forall n p, (length p <= n)%nat -> string_end (with_end p) = with_end (string_end p)) as H; [|by apply (H (length p))].
  clear p. induction n as [|n IH]; intros [|c p] Hn; cbn in *; try done; [lia|].
  destruct (_ || _); [done|]. destruct (c =? 92); [|apply IH; lia].
  destruct p as [|d p]; [done|]. cbn in *. destruct (d =? 0); [done|]. apply IH. lia.
Qed.
Lemma brackets_end open close inside depth p :
  brackets open close inside depth (with_end p) = with_end <$> brackets open close inside depth p.
Proof.
  assert (forall n p inside depth, (length p <= n)%nat ->
    brackets open close inside depth (with_end p) = with_end <$> brackets open close inside depth p) as H;
    [|by apply (H (length p))].
  clear p inside depth. induction n as [|n IH]; intros [|c p] inside depth Hn; cbn in *; try done; [lia|].
  pose proof (fun i d => IH p i d ltac:(lia)) as IHp. unfold with_end in IHp.
  destruct (c =? 0); [done|]. destruct inside.
  - destruct (c =? 34); [apply IHp|]. destruct (c =? 92); [|apply IHp].
    destruct p as [|d p]; [done|]. cbn in *. destruct (d =? 0); [done|]. apply IH. lia.
  - destruct (c =? 34); [apply IHp|]. destruct (c =? close); [destruct (_ =? 0); [done|]|]; apply IHp.
Qed.
Lemma js_skip_end p : js_skip (with_end p) = with_end <$> js_skip p.
Proof.
  unfold js_skip. rewrite js_ws_end, cur_end. set (q := js_ws p).
  destruct (Z.eqb_spec (cur q) 34) as [E|_].
  - rewrite next_end, string_end_end, cur_end by lia. destruct (Z.eqb_spec (cur (string_end (next q))) 0); [done|].
    cbn. by rewrite next_end.
  - destruct (_ || _); [apply brackets_end|]. rewrite bare_end_end, !length_end.
    destruct (Nat.ltb_spec (length (bare_end q)) (length q)) as [H|H]; [rewrite (proj2 (Nat.ltb_lt _ _)) by lia; done|].
    by rewrite (proj2 (Nat.ltb_ge _ _)) by lia.
Qed.
Lemma found_end ks ke :
  ke `suffix_of` ks ->
  take (length (with_end ks) - length (with_end ke)) (with_end ks) = take (length ks - length ke) ks.
Proof.
  intros [k ->]. unfold with_end. rewrite <- app_assoc, !length_app.
  replace (_ - _)%nat with (length k) by (cbn; lia). replace (length k + length ke - length ke)%nat with (length k) by lia.
  by rewrite !take_app_length.
Qed.
Lemma get_loop_end fuel p key : get_loop fuel (with_end p) key = with_end <$> get_loop fuel p key.
Proof.
  revert p. induction fuel as [|fuel IH]; intros p; [done|]. cbn [get_loop]. rewrite js_ws_end, cur_end.
  set (q := js_ws p). destruct (Z.eqb_spec (cur q) 34) as [E|_]; [|done]. cbn [negb].
  rewrite next_end, string_end_end, cur_end by lia. set (ke := string_end (next q)).
  destruct (Z.eqb_spec (cur ke) 0) as [|Ek]; [done|].
  rewrite found_end by apply string_end_suffix. rewrite next_end, js_ws_end, cur_end by done.
  destruct (Z.eqb_spec (cur (js_ws (next ke))) 58) as [Ec|_]; [|done]. cbn [negb].
  rewrite next_end, js_ws_end by lia. destruct (bool_decide _); [done|]. rewrite js_skip_end.
  destruct (js_skip _) as [r|]; [|done]. cbn [fmap option_fmap option_map]. rewrite js_ws_end, cur_end.
  destruct (Z.eqb_spec (cur (js_ws r)) 44); [|done]. rewrite next_end by lia. apply IH.
Qed.
Lemma elem_loop_end fuel p i idx : elem_loop fuel (with_end p) i idx = with_end <$> elem_loop fuel p i idx.
Proof.
  revert p i. induction fuel as [|fuel IH]; intros p i; [done|]. cbn [elem_loop]. destruct (i =? idx); [done|].
  rewrite js_skip_end. destruct (js_skip p) as [r|]; [|done]. cbn [fmap option_fmap option_map]. rewrite js_ws_end, cur_end.
  destruct (Z.eqb_spec (cur (js_ws r)) 44); [|done]. cbn [negb]. rewrite next_end, js_ws_end by lia. apply IH.
Qed.
Lemma count_loop_end fuel p n : count_loop fuel (with_end p) n = count_loop fuel p n.
Proof.
  revert p n. induction fuel as [|fuel IH]; intros p n; [done|]. cbn [count_loop].
  rewrite js_skip_end. destruct (js_skip p) as [r|]; [|done]. cbn [fmap option_fmap option_map]. rewrite js_ws_end, cur_end.
  destruct (Z.eqb_spec (cur (js_ws r)) 44); [|done]. rewrite next_end, js_ws_end by lia. apply IH.
Qed.
(** Turns that suffice for the longer text. *)
Lemma js_get_end p key : js_get (with_end p) key = with_end <$> js_get p key.
Proof.
  unfold js_get. rewrite js_ws_end, cur_end. destruct (Z.eqb_spec (cur (js_ws p)) 123); [|done]. cbn [negb].
  rewrite next_end, js_ws_end, cur_end by lia. set (q := js_ws (next (js_ws p))). destruct (_ =? 125); [done|].
  rewrite get_loop_end, length_end. f_equal. apply get_loop_fuel; lia.
Qed.
Lemma js_elem_end p idx : js_elem (with_end p) idx = with_end <$> js_elem p idx.
Proof.
  unfold js_elem. rewrite js_ws_end, cur_end. destruct (Z.eqb_spec (cur (js_ws p)) 91); [|done]. cbn [negb].
  rewrite next_end, js_ws_end, cur_end by lia. set (q := js_ws (next (js_ws p))). destruct (_ =? 93); [done|].
  rewrite elem_loop_end, length_end. f_equal. apply elem_loop_fuel; lia.
Qed.
Lemma count_loop_more fuel fuel' p n :
  (length p < fuel)%nat -> (length p < fuel')%nat -> count_loop fuel p n = count_loop fuel' p n.
Proof.
  revert fuel' p n. induction fuel as [|fuel IH]; intros [|fuel'] p n Hf Hf'; [lia..|]. cbn [count_loop].
  destruct (js_skip p) as [p1|] eqn:E; [|done]. apply js_skip_suffix in E as [_ E]. destruct (_ =? 44); [|done].
  pose proof (js_ws_length p1). pose proof (next_length (js_ws p1)). pose proof (js_ws_length (next (js_ws p1))). apply IH; lia.
Qed.
Lemma js_count_end p : js_count (with_end p) = js_count p.
Proof.
  unfold js_count. rewrite js_ws_end, cur_end. destruct (Z.eqb_spec (cur (js_ws p)) 91); [|done]. cbn [negb].
  rewrite next_end, js_ws_end, cur_end by lia. set (q := js_ws (next (js_ws p))). destruct (_ =? 93); [done|].
  rewrite count_loop_end, length_end. f_equal. apply count_loop_more; lia.
Qed.
Lemma str_chars_end outlen o p :
  str_chars outlen o (with_end p) = (let '(s, r, full) := str_chars outlen o p in (s, with_end r, full)).
Proof.
  revert o. induction p as [|c p IH]; intros o; [done|]. cbn. destruct (_ || _); [done|].
  destruct (_ <=? _)%nat; [done|]. unfold with_end in IH. rewrite IH. by destruct (str_chars _ _ _) as [[? ?] ?].
Qed.
Lemma js_str_end p out : js_str (with_end p) out = js_str p out.
Proof.
  unfold js_str. rewrite js_ws_end, cur_end. destruct (Z.eqb_spec (cur (js_ws p)) 34); [|done]. cbn [negb].
  rewrite next_end, str_chars_end by lia. destruct (str_chars _ _ _) as [[s r] full]. by rewrite cur_end.
Qed.
Lemma js_hex_end p out maxlen : js_hex (with_end p) out maxlen = js_hex p out maxlen.
Proof. unfold js_hex. by rewrite js_str_end. Qed.
End Behind.

(** ** Properties *)


(** C36: The scanner reads back any printed JSON value, nested to any depth and
    with any white space between tokens: [js_skip] moves past exactly the value,
    [js_count] counts the elements of an array, [js_elem] points at the text of the
    element with the index or fails past the end, and [js_get] points at the value
    of the first member with the key or fails when there is none. *)
Theorem scanner_reads_printed (w r : list Z) (v : json) (l : list json)
    (o : list (list Z * json)) (key : list Z) (i : nat) :
  Forall (fun c => is_ws c = true) w ->
  delimited r -> wf v -> Forall wf l -> Forall wf_member o ->
  js_skip (print w v ++ r) = Some r
  /\ js_count (print w (JArr l) ++ r) = Z.of_nat (length l)
  /\ match l !! i with
     | Some x => exists r', delimited r' /\
         js_elem (print w (JArr l) ++ r) (Z.of_nat i) = Some (print w x ++ r')
     | None => js_elem (print w (JArr l) ++ r) (Z.of_nat i) = None
     end
  /\ match find_key key o with
     | Some x => exists r', delimited r' /\
         js_get (print w (JObj o) ++ r) key = Some (print w x ++ r')
     | None => js_get (print w (JObj o) ++ r) key = None
     end.
Proof.
  intros Hw Hr Hv Hl Ho.
  split_and!; [by apply js_skip_print|by apply js_count_print|by apply js_elem_print|by apply js_get_print].
Qed.
Lemma scanner_reads_printed_witness :
  let v := JArr [JStr (str "a]b"); JObj [(str "k", JArr [JBare (str "1")])]; JBare (str "-2")] in
  let o := [(str "id", JBare (str "7")); (str "params", v)] in
  js_get (print (str " ") (JObj o) ++ [10]) (str "params") = Some (print (str " ") v ++ str " }" ++ [10])
  /\ js_skip (print (str " ") v ++ [10]) = Some [10].
Proof.
  set (v := JArr [JStr (str "a]b"); JObj [(str "k", JArr [JBare (str "1")])]; JBare (str "-2")]).
  split; [by vm_compute|].
  assert (wf v) as Hv by by_compute.
  refine (proj1 (scanner_reads_printed (str " ") [10] v [] [] [] 0 _ _ Hv _ _)).
  - by apply Forall_singleton.
  - by right.
  - constructor.
  - constructor.
Defined.

(** Hex fields round-trip: a byte string of at most [maxlen] (and at most 513)
    bytes printed by [bin2hex] between quotes, whatever follows, is decoded by
    [js_hex] to the same length and the same bytes at the start of the destination,
    whose other bytes are kept. A quoted string is copied by [js_str] exactly when
    it and its terminator fit, and [hexval] accepts upper case as well. *)
Theorem hex_roundtrip (b s r out : list Z) (maxlen : nat) :
  bytes b -> (length b <= maxlen)%nat -> (length b < Job.STRATUM_MAX_CB + 2)%nat ->
  plain s -> (0 < length out)%nat ->
  js_hex (quoted (bin2hex b) ++ r) out maxlen = (Some (length b), list_inserts 0 b out)
  /\ ((js_str (quoted s ++ r) out).1 = true <-> (length s < length out)%nat)
  /\ ((length s < length out)%nat -> cstr (js_str (quoted s ++ r) out).2 = s)
  /\ (forall x, 0 <= x < 16 -> hexval (str "0123456789ABCDEF" !!! Z.to_nat x) = Some x).
Proof.
  intros Hb Hm Hl Hs Ho. split_and!.
  - by apply js_hex_bin2hex.
  - destruct (decide (length s < length out)%nat).
    + by rewrite js_str_quoted.
    + rewrite js_str_too_long by (done || lia). done.
  - intros H. rewrite js_str_quoted by done. by apply cstr_app, plain_nz.
  - intros x Hx.
    assert (Forall (fun n => hexval (str "0123456789ABCDEF" !!! n) = Some (Z.of_nat n)) (seq 0 16)) as H
      by by_compute.
    rewrite Forall_forall in H. rewrite H by (apply elem_of_seq; lia). f_equal. lia.
Qed.
Lemma hex_roundtrip_witness :
  js_hex (quoted (bin2hex [0xde; 0xad; 0x00]) ++ str ",1]") (replicate 4 9) 4
    = (Some 3%nat, [0xde; 0xad; 0x00; 9])
  /\ (js_str (quoted (str "job") ++ str ",") (replicate 4 9)).1 = true.
Proof.
  assert (bytes [0xde; 0xad; 0x00]) as Hb by by_compute.
  assert (plain (str "job")) as Hs.
  { by_compute. }
  split.
  - apply (hex_roundtrip _ _ (str ",1]") (replicate 4 9) 4 Hb ltac:(cbn; lia) ltac:(cbn; lia) Hs ltac:(cbn; lia)).
  - apply (hex_roundtrip _ _ (str ",") (replicate 4 9) 4 Hb ltac:(cbn; lia) ltac:(cbn; lia) Hs ltac:(cbn; lia)).
    cbn; lia.
Defined.
End Json.
