(* ===== verification/Cstring.v ===== *)
(** * C strings and numbers (string.h, stdlib.h, stdio.h, arpa/inet.h as used)

    The library functions the template reader and the resolver call, on byte lists
    without the terminator: [strstr], [strchr], [strtoll], [strtoul] in base 16,
    [sscanf("%2x")], [inet_pton] and [inet_ntop] for IPv4. *)
From S2P Require Import Prelude Cdouble Decimal Json.

Module Cstring.
Import Cdouble Decimal.
Local Open Scope word_scope.

(** ** Searching: the suffix that starts with what was found *)
Definition starts_with (pat s : list Z) : bool := bool_decide (take (length pat) s = pat).
Fixpoint strstr (s pat : list Z) : option (list Z) :=
  if starts_with pat s then Some s
  else match s with [] => None | _ :: s => strstr s pat end.
Fixpoint strchr (s : list Z) (c : Z) : option (list Z) :=
  match s with
  | [] => None
  | b :: t => if b =? c then Some s else strchr t c
  end.

(** ** Numbers *)
Definition sign (p : list Z) : Z * list Z :=
  match p with
  | 45 :: q => (-1, q)
  | 43 :: q => (1, q)
  | _ => (1, p)
  end.
Definition LLONG_MAX : Z := 2 ^ 63 - 1.
Definition ULONG_MAX : Z := 2 ^ 64 - 1.
(** [strtoll(p, NULL, 10)] *)
Definition strtoll (p : list Z) : Z :=
  let '(s, q) := sign (skip_space p) in
  let '(n, v, _) := digits 10 q 0 0 in
  Z.max (- LLONG_MAX - 1) (Z.min LLONG_MAX (s * v)).
(** [strtoul(p, NULL, 16)] *)
Definition strtoul16 (p : list Z) : Z :=
  let '(s, q) := sign (skip_space p) in
  let q := match q with
           | 48 :: x :: d :: r => if (lower x =? 120) && (if digit 16 d is Some _ then true else false)
                                  then d :: r else q
           | _ => q
           end in
  let '(n, v, _) := digits 16 q 0 0 in
  if ULONG_MAX <? v then ULONG_MAX else u64 (s * v).
(** [sscanf(p, "%2x", &v)]: the value when the return value is 1. White space is
    skipped, a sign counts towards the two characters, and the two characters
    [0x] alone are not a number. *)
Definition scan_2x (p : list Z) : option Z :=
  match skip_space p with
  | c :: q =>
    if (c =? 45) || (c =? 43) then
      match q with
      | d :: _ => v ← digit 16 d; Some (u32 (if c =? 45 then - v else v))
      | [] => None
      end
    else
      v ← digit 16 c;
      match q with
      | d :: _ =>
        match digit 16 d with
        | Some w => Some (16 * v + w)
        | None => if (c =? 48) && (lower d =? 120) then None else Some v
        end
      | [] => Some v
      end
  | [] => None
  end.

(** ** IPv4 addresses *)
(** One octet of a dotted quad: one to three digits, no superfluous zero, at most
    255; the value and the rest. *)
Definition octet (p : list Z) : option (Z * list Z) :=
  let '(n, v, q) := digits 10 p 0 0 in
  if (n =? 0) || (3 <? n) || (255 <? v) || ((1 <? n) && (hd 0 p =? 48)) then None else Some (v, q).
Definition point (p : list Z) : option (list Z) :=
  match p with 46 :: q => Some q | _ => None end.
(** The four bytes of the address, [None] when [inet_pton] does not return 1. *)
Definition inet_pton (p : list Z) : option (list Z) :=
  '(a, p) ← octet p; p ← point p;
  '(b, p) ← octet p; p ← point p;
  '(c, p) ← octet p; p ← point p;
  '(d, p) ← octet p;
  if (length p =? 0)%nat then Some [a; b; c; d] else None.
Definition inet_ntop (a : list Z) : list Z :=
  dec (a !!! 0%nat) ++ [46] ++ dec (a !!! 1%nat) ++ [46] ++ dec (a !!! 2%nat) ++ [46] ++ dec (a !!! 3%nat).

(** ** Lemmas *)
(** Digits end before anything that is not one. *)
Definition no_digit (r : list Z) : Prop := match r with [] => True | c :: _ => digit 10 c = None end.
Lemma digits_run l r n v :
  Forall is_digit l -> no_digit r ->
  digits 10 (l ++ r) n v = (n + Z.of_nat (length l), dec_val v l, r).
Proof.
  intros Hl Hr. revert n v. induction Hl as [|c l Hc Hl IH]; intros n v.
  - cbn. rewrite Z.add_0_r. destruct r as [|c r]; [done|]. cbn in Hr |- *. by rewrite Hr.
  - cbn [app digits]. rewrite digit_dec by done. rewrite IH. cbn [length dec_val foldl]. do 2 f_equal. lia.
Qed.

(** The 256 octets. *)
Definition octet_text (v : Z) : bool :=
  (length (dec v) <=? 3)%nat && ((length (dec v) =? 1)%nat || negb (hd 0 (dec v) =? 48)).
Lemma octet_texts v : is_word 8 v -> octet_text v = true.
Proof.
  intros Hv. assert (forallb octet_text (Z.of_nat <$> seq 0 256) = true) as H by by vm_compute.
  rewrite forallb_forall in H. apply H, List.in_map_iff. exists (Z.to_nat v).
  unfold is_word in Hv. change (2 ^ 8) with 256 in Hv. split; [lia|]. apply in_seq. lia.
Qed.
Lemma octet_dec v r : is_word 8 v -> no_digit r -> octet (dec v ++ r) = Some (v, r).
Proof.
  intros Hv Hr. pose proof (octet_texts v Hv) as Ht. unfold octet_text in Ht.
  apply andb_true_iff in Ht as [Hl%Nat.leb_le Ht]. unfold is_word in Hv. change (2 ^ 8) with 256 in Hv.
  destruct (dec_spec v ltac:(change (2 ^ 64) with 18446744073709551616; lia)) as (c & l & E & Hd & Hval & Hz & _).
  unfold octet. rewrite E in *. rewrite digits_run by done. rewrite Hval, Z.add_0_l.
  rewrite (proj2 (Z.eqb_neq _ _)) by (cbn; lia). rewrite (proj2 (Z.ltb_ge 3 _)) by lia.
  rewrite (proj2 (Z.ltb_ge 255 v)) by lia. cbn [orb hd app] in *.
  destruct (Nat.eqb_spec (length (c :: l)) 1) as [E1|E1].
  - by rewrite E1.
  - cbn [orb] in Ht. apply negb_true_iff in Ht. by rewrite Ht, andb_false_r.
Qed.

(** The text of an address is read back. *)
Lemma inet_roundtrip a b c d :
  bytes [a; b; c; d] -> inet_pton (inet_ntop [a; b; c; d]) = Some [a; b; c; d].
Proof.
  intros H. rewrite !Forall_cons in H. destruct H as (Ha & Hb & Hc & Hd & _).
  unfold inet_ntop, inet_pton. cbn [lookup_total list_lookup_total].
  rewrite octet_dec by done. cbn [mbind option_bind app point].
  rewrite octet_dec by done. cbn [mbind option_bind app point].
  rewrite octet_dec by done. cbn [mbind option_bind app point].
  rewrite <- (app_nil_r (dec d)), octet_dec by done. done.
Qed.

(** A signed number is read back up to what cannot continue it. *)
Lemma strtoll_dec z r :
  - 2 ^ 63 <= z < 2 ^ 63 -> no_digit r -> strtoll (dec_int z ++ r) = z.
Proof.
  intros Hz Hr. unfold strtoll, dec_int, LLONG_MAX. change (2 ^ 63) with 9223372036854775808 in *.
  assert (forall n, 0 <= n <= 9223372036854775808 -> exists k, digits 10 (dec n ++ r) 0 0 = (k, n, r)) as Hn.
  { intros n Hn. destruct (dec_spec n ltac:(change (2 ^ 64) with 18446744073709551616; lia)) as (c & l & E & Hd & Hval & _ & _).
    rewrite E, digits_run by done. rewrite Hval. by eexists. }
  destruct (Z.ltb_spec z 0) as [H0|H0].
  - change (skip_space ((45 :: dec (- z)) ++ r)) with (45 :: (dec (- z) ++ r)). cbn [sign].
    destruct (Hn (- z) ltac:(lia)) as [k ->]. lia.
  - destruct (dec_spec z ltac:(change (2 ^ 64) with 18446744073709551616; lia)) as (c & l & E & Hd & _ & _ & _).
    destruct (Hn z ltac:(lia)) as [k Ek]. rewrite E in Ek |- *. apply Forall_cons in Hd as [Hc _].
    assert (skip_space ((c :: l) ++ r) = (c :: l) ++ r) as ->.
    { cbn [app skip_space]. unfold is_space, is_digit in *.
      rewrite (proj2 (Z.eqb_neq c 32)), (proj2 (Z.leb_gt c 13)) by lia. by rewrite andb_false_r. }
    assert (sign ((c :: l) ++ r) = (1, (c :: l) ++ r)) as ->.
    { unfold is_digit in Hc. unfold sign. cbn [app]. destruct c as [|c|c]; try lia.
      repeat (destruct c as [c|c|]; try lia; try done). }
    rewrite Ek. lia.
Qed.

(** An address has at most fifteen characters. *)
Lemma digits_count base p n v n' v' r :
  digits base p n v = (n', v', r) -> Z.of_nat (length p) = n' - n + Z.of_nat (length r).
Proof.
  revert n v. induction p as [|c p IH]; intros n v; cbn [digits].
  - intros [= <- _ <-]. cbn. lia.
  - destruct (digit base c); [|intros [= <- _ <-]; lia]. intros H%IH. cbn [length]. lia.
Qed.
Lemma octet_length p v r : octet p = Some (v, r) -> (length p <= 3 + length r)%nat.
Proof.
  unfold octet. destruct (digits 10 p 0 0) as [[n w] q] eqn:E. apply digits_count in E.
  destruct (n =? 0); [done|]. destruct (Z.ltb_spec 3 n); [done|]. cbn [orb].
  destruct (_ || _); [done|]. intros [= _ <-]. lia.
Qed.
Lemma point_length p r : point p = Some r -> length p = S (length r).
Proof.
  destruct p as [|c p]; [done|]. destruct c as [|c|c]; try done. cbn. repeat (destruct c as [c|c|]; try done).
  by intros [= ->].
Qed.
Lemma inet_pton_length p a : inet_pton p = Some a -> (length p <= 15)%nat.
Proof.
  unfold inet_pton.
  destruct (octet p) as [[v1 p1]|] eqn:E1; [|done]. cbn [mbind option_bind].
  destruct (point p1) as [q1|] eqn:F1; [|done]. cbn [mbind option_bind].
  destruct (octet q1) as [[v2 p2]|] eqn:E2; [|done]. cbn [mbind option_bind].
  destruct (point p2) as [q2|] eqn:F2; [|done]. cbn [mbind option_bind].
  destruct (octet q2) as [[v3 p3]|] eqn:E3; [|done]. cbn [mbind option_bind].
  destruct (point p3) as [q3|] eqn:F3; [|done]. cbn [mbind option_bind].
  destruct (octet q3) as [[v4 p4]|] eqn:E4; [|done]. cbn [mbind option_bind].
  destruct (Nat.eqb_spec (length p4) 0); [|done]. intros _.
  apply octet_length in E1, E2, E3, E4. apply point_length in F1, F2, F3. lia.
Qed.
End Cstring.
