(* ===== verification/Dns.v ===== *)
(** * The resolver (src/miner/dns.c)

    The name servers of /etc/resolv.conf, the query, and the reader of the reply
    with its bounds: a read past the received packet is the value [None], which the
    theorems exclude. The UDP exchange is an input. *)
From S2P Require Import Prelude Cdouble Decimal Cstring.

Module Dns.
Import Cstring.
Local Open Scope word_scope.

Definition MAX_NS : nat := 4.
Definition DNS_BUF : nat := 1500.
Definition TYPE_A : Z := 1.
Definition CLASS_IN : Z := 1.

(** The text an error buffer of [errlen] bytes receives. *)
Definition seterr (errlen : nat) (text : list Z) : list Z := take (errlen - 1) text.

(** ** /etc/resolv.conf *)
(** [fgets] into 256 bytes: the line, with its newline, and the rest. *)
Fixpoint fgets (room : nat) (f : list Z) : list Z * list Z :=
  match room, f with
  | S room, c :: f => if c =? 10 then ([c], f) else let '(l, f) := fgets room f in (c :: l, f)
  | _, _ => ([], f)
  end.
Fixpoint skip_blank (p : list Z) : list Z :=
  match p with c :: q => if (c =? 32) || (c =? 9) then skip_blank q else p | [] => [] end.
(** Up to the end of the string, the line or the word. *)
Fixpoint word (p : list Z) : list Z :=
  match p with
  | c :: q => if (c =? 0) || (c =? 10) || (c =? 13) || (c =? 32) || (c =? 9) then [] else c :: word q
  | [] => []
  end.
(** The address a line names, if it is a [nameserver] line with an IPv4 address. *)
Definition nameserver (line : list Z) : option (list Z) :=
  let p := skip_blank line in
  if starts_with (str "nameserver") p then
    let p := word (skip_blank (drop 10 p)) in
    if inet_pton p is Some _ then Some p else None
  else None.
Fixpoint read_nameservers (fuel : nat) (f : list Z) (ns : list (list Z)) : list (list Z) :=
  match fuel with
  | O => ns
  | S fuel =>
    if (length ns <? MAX_NS)%nat && negb (length f =? 0)%nat then
      let '(line, f) := fgets 255 f in
      read_nameservers fuel f (ns ++ option_list (nameserver line))
    else ns
  end.
(** [file] is [None] when it cannot be opened. Every line takes at least a byte. *)
Definition load_nameservers (file : option (list Z)) : list (list Z) :=
  let ns := match file with Some f => read_nameservers (length f) f [] | None => [] end in
  if (length ns =? 0)%nat then [str "1.1.1.1"; str "8.8.8.8"] else ns.

(** ** The query *)
(** A label: up to the next dot. *)
Fixpoint label (p : list Z) : list Z :=
  match p with c :: q => if c =? 46 then [] else c :: label q | [] => [] end.
Fixpoint labels_into (fuel : nat) (p buf : list Z) (buflen : nat) : option (list Z) :=
  match p, fuel with
  | [], _ => Some buf
  | _, O => None
  | _, S fuel =>
    let l := label p in
    if (length l =? 0)%nat || (63 <? length l)%nat then None
    else if (buflen <? length buf + 1 + length l + 1)%nat then None
    else
      let buf := buf ++ [u8 (Z.of_nat (length l))] ++ l in
      match drop (length l) p with
      | [] => Some buf
      | _ :: p => labels_into fuel p buf buflen
      end
  end.
Definition encode_qname (host : list Z) (buflen : nat) : option (list Z) :=
  buf ← labels_into (length host) host [] buflen;
  if (buflen <? length buf + 1)%nat then None else Some (buf ++ [0]).

Definition query (host : list Z) (id : Z) : option (list Z) :=
  let q := [u8 (id ≫ 8); u8 (id .& 0xff); 0x01; 0; 0; 0x01; 0; 0; 0; 0; 0; 0] in
  qn ← encode_qname host (DNS_BUF - length q - 4);
  Some (q ++ qn ++ [0; TYPE_A; 0; CLASS_IN]).

(** ** The reply *)
(** [Some (Some off)] past the name, [Some None] for -1, [None] for a read outside
    the packet. *)
Fixpoint skip_name (fuel : nat) (msg : list Z) (off : nat) : option (option nat) :=
  if (off <? length msg)%nat then
    match fuel with
    | O => None
    | S fuel =>
      l ← msg !! off;
      if l =? 0 then Some (Some (off + 1)%nat)
      else if l .& 0xc0 =? 0xc0 then Some (if (off + 2 <=? length msg)%nat then Some (off + 2)%nat else None)
      else if 63 <? l then Some None
      else skip_name fuel msg (off + 1 + Z.to_nat l)
    end
  else Some None.
Definition get16 (msg : list Z) (off : nat) : option Z :=
  a ← msg !! off; b ← msg !! (off + 1)%nat; Some ((a ≪ 8) .| b).

Fixpoint skip_questions (qd : nat) (msg : list Z) (off : nat) : option (list Z + nat) :=
  match qd with
  | O => Some (inr off)
  | S qd =>
    o ← skip_name (length msg) msg off;
    match o with
    | None => Some (inl (str "dns malformed question"))
    | Some off =>
      if (length msg <? off + 4)%nat then Some (inl (str "dns malformed question"))
      else skip_questions qd msg (off + 4)
    end
  end.
(** The first A record of four bytes. *)
Fixpoint scan_answers (an : nat) (host msg : list Z) (off : nat) : option (list Z + list Z) :=
  match an with
  | O => Some (inl (str "dns answer for " ++ host ++ str " carried no A record"))
  | S an =>
    o ← skip_name (length msg) msg off;
    match o with
    | None => Some (inl (str "dns malformed answer"))
    | Some off =>
      if (length msg <? off + 10)%nat then Some (inl (str "dns malformed answer"))
      else
        type ← get16 msg off;
        rdlen ← get16 msg (off + 8);
        let off := (off + 10)%nat in
        if (length msg <? off + Z.to_nat rdlen)%nat then Some (inl (str "dns rdata overruns packet"))
        else if (type =? TYPE_A) && (rdlen =? 4) then
          a ← msg !! off; b ← msg !! (off + 1)%nat; c ← msg !! (off + 2)%nat; d ← msg !! (off + 3)%nat;
          Some (inr (inet_ntop [a; b; c; d]))
        else scan_answers an host msg (off + Z.to_nat rdlen)
    end
  end.
(** [query_one] from [recv] on: an error text, or the address. *)
Definition read_reply (server host : list Z) (id : Z) (r : list Z) : option (list Z + list Z) :=
  if (length r <? 12)%nat then Some (inl (str "dns no reply from " ++ server))
  else
    rid ← get16 r 0;
    if negb (rid =? id) then Some (inl (str "dns id mismatch"))
    else
      r3 ← r !! 3%nat;
      let rcode := r3 .& 0x0f in
      if negb (rcode =? 0) then
        Some (inl (str "dns rcode " ++ Decimal.dec rcode ++ str " for " ++ host))
      else
        qd ← get16 r 4;
        an ← get16 r 6;
        if an <=? 0 then Some (inl (str "dns no answer for " ++ host))
        else
          o ← skip_questions (Z.to_nat qd) r 12;
          match o with
          | inl e => Some (inl e)
          | inr off => scan_answers (Z.to_nat an) host r off
          end.

(** ** Asking *)
Section Resolve.
Context (strerror : Z -> list Z).

(** What the calls of one query meet: [socket]'s errno, [sendto]'s, and the
    datagram, empty when [recv] fails. *)
Record exchange := Exchange {
  socket_errno : option Z;
  sendto_errno : option Z;
  datagram : list Z
}.

Definition query_one (server host : list Z) (id : Z) (x : exchange) : option (list Z + list Z) :=
  match query host id with
  | None => Some (inl (str "hostname too long for DNS: " ++ host))
  | Some q =>
    match socket_errno x with
    | Some e => Some (inl (str "dns socket: " ++ strerror e))
    | None =>
      match inet_pton server with
      | None => Some (inl (str "bad nameserver " ++ server))
      | Some _ =>
        match sendto_errno x with
        | Some e => Some (inl (str "dns sendto " ++ server ++ str ": " ++ strerror e))
        | None => read_reply server host id (take DNS_BUF (datagram x))
        end
      end
    end
  end.

(** The servers in turn; [last] is the last error, in 192 bytes. *)
Fixpoint ask (ns : list (list Z)) (host : list Z) (id : Z) (net : list Z -> Z -> exchange) (last : list Z)
    : option (list Z + list Z) :=
  match ns with
  | [] => Some (inl last)
  | server :: ns =>
    r ← query_one server host id (net server id);
    match r with
    | inr a => Some (inr a)
    | inl e => ask ns host (u16 (id + 1)) net (seterr 192 e)
    end
  end.

(** [inr] the address in [out] and return 0; [inl] the text in [err] and return -1.
    [addr] is the address of the argument string, [seq] the static counter. *)
Definition dns_resolve_a (host : option (list Z)) (errlen : nat) (addr seq : Z) (file : option (list Z))
    (net : list Z -> Z -> exchange) : option ((list Z + list Z) * Z) :=
  match host with
  | None | Some [] => Some (inl (seterr errlen (str "empty hostname")), seq)
  | Some host =>
    if inet_pton host is Some _ then Some (inr host, seq)
    else
      let ns := load_nameservers file in
      let seq := u16 (seq + 1) in
      let id := u16 ((addr ≫ 4) ^^ u16 (u32 (seq * 2654435761))) in
      r ← ask ns host id net [];
      Some (match r with
            | inr a => inr a
            | inl last =>
              inl (seterr errlen (str "resolve " ++ host ++ str " failed: "
                ++ (if (length last =? 0)%nat then str "no nameserver answered" else last)))
            end, seq)
  end.
End Resolve.

(** ** The reference message *)
Module Spec.
(** A name: labels, ended by the root or by a compression pointer. *)
Record name := Name { labels : list (list Z); pointer : option Z }.
Definition label_bytes (l : list Z) : list Z := Z.of_nat (length l) :: l.
Definition name_bytes (n : name) : list Z :=
  concat (label_bytes <$> labels n) ++ match pointer n with None => [0] | Some t => be_bytes 2 (0xc000 + t) end.
Definition wf_label (l : list Z) : Prop := (1 <= length l <= 63)%nat /\ bytes l.
Definition wf_name (n : name) : Prop :=
  Forall wf_label (labels n) /\ match pointer n with None => True | Some t => 0 <= t < 2 ^ 14 end.

#[global] Instance wf_name_dec n : Decision (wf_name n).
Proof. unfold wf_name, wf_label. destruct (pointer n); apply _. Defined.

Record question := Question { qname : name; qtype : Z; qclass : Z }.
Definition question_bytes (q : question) : list Z :=
  name_bytes (qname q) ++ be_bytes 2 (qtype q) ++ be_bytes 2 (qclass q).
Record rr := RR { owner : name; rtype : Z; rclass : Z; ttl : Z; rdata : list Z }.
Definition rr_bytes (r : rr) : list Z :=
  name_bytes (owner r) ++ be_bytes 2 (rtype r) ++ be_bytes 2 (rclass r) ++ be_bytes 4 (ttl r)
  ++ be_bytes 2 (Z.of_nat (length (rdata r))) ++ rdata r.
Definition wf_rr (r : rr) : Prop :=
  wf_name (owner r) /\ is_word 16 (rtype r) /\ is_word 16 (Z.of_nat (length (rdata r))) /\ bytes (rdata r).
#[global] Instance wf_rr_dec r : Decision (wf_rr r).
Proof. unfold wf_rr. apply _. Defined.

(** The message without its authority and additional records, which follow in [rest]. *)
Definition message (id flags other : Z) (qs : list question) (ans : list rr) (rest : list Z) : list Z :=
  be_bytes 2 id ++ be_bytes 2 flags ++ be_bytes 2 (Z.of_nat (length qs)) ++ be_bytes 2 (Z.of_nat (length ans))
  ++ be_bytes 4 other ++ concat (question_bytes <$> qs) ++ concat (rr_bytes <$> ans) ++ rest.
Definition is_A (r : rr) : bool := (rtype r =? 1) && (length (rdata r) =? 4)%nat.
Definition first_A (ans : list rr) : option (list Z) := rdata <$> List.find is_A ans.
End Spec.

(** ** Reading what was written *)
Lemma get16_app pre v post : is_word 16 v -> get16 (pre ++ be_bytes 2 v ++ post) (length pre) = Some v.
Proof.
  intros Hv. unfold get16. rewrite !(lookup_app_r pre) by lia. rewrite Nat.sub_diag.
  replace (length pre + 1 - length pre)%nat with 1%nat by lia.
  change (be_bytes 2 v) with [u8 (v ≫ 8); u8 (v ≫ 0)]. cbn [app lookup list_lookup mbind option_bind].
  rewrite Z.shiftr_0_r. f_equal. rewrite lor_add by (lia || apply u8_word).
  rewrite !u8_mod, Z.shiftr_div_pow2 by lia. unfold is_word in Hv.
  change (2 ^ 16) with (2 ^ 8 * 2 ^ 8) in Hv. rewrite (Z.mod_small (v / _)).
  - rewrite Z.mul_comm. symmetry. apply Z.div_mod. done.
  - split; [apply Z.div_pos; lia|apply Z.div_lt_upper_bound; lia].
Qed.

(** The two bits that tell a pointer from a label. *)
Lemma below_64 (f : Z -> bool) k :
  0 <= k < 64 -> forallb f (Z.of_nat <$> seq 0 64) = true -> f k = true.
Proof.
  intros Hk H. rewrite forallb_forall in H. apply H, List.in_map_iff. exists (Z.to_nat k).
  split; [lia|]. apply in_seq. lia.
Qed.
Lemma top_bits_label k : 0 <= k < 64 -> k .& 192 = 0.
Proof. intros Hk. by apply Z.eqb_eq, (below_64 (fun k => k .& 192 =? 0)). Qed.
Lemma top_bits_pointer k : 0 <= k < 64 -> (192 + k) .& 192 = 192.
Proof. intros Hk. by apply Z.eqb_eq, (below_64 (fun k => (192 + k) .& 192 =? 192)). Qed.

Lemma skip_name_app pre n post fuel :
  Spec.wf_name n -> (length (Spec.labels n) < fuel)%nat ->
  skip_name fuel (pre ++ Spec.name_bytes n ++ post) (length pre)
  = Some (Some (length (pre ++ Spec.name_bytes n))).
Proof.
  destruct n as [ls ptr]. intros [Hl Hp]. cbn [Spec.labels Spec.pointer] in *. unfold Spec.name_bytes.
  cbn [Spec.labels Spec.pointer]. revert pre fuel. induction Hl as [|l ls [Hl1 Hl2] Hl IH]; intros pre fuel Hf;
    (destruct fuel as [|fuel]; [lia|]); cbn [skip_name fmap list_fmap concat].
  - destruct ptr as [t|]; cbn [app].
    + change (be_bytes 2 (0xc000 + t)) with [u8 ((49152 + t) ≫ 8); u8 ((49152 + t) ≫ 0)].
      rewrite (proj2 (Nat.ltb_lt _ _)) by (rewrite length_app; cbn; lia).
      rewrite lookup_app_r, Nat.sub_diag by lia. cbn [app lookup list_lookup mbind option_bind].
      assert (exists k, u8 ((49152 + t) ≫ 8) = 192 + k /\ 0 <= k < 64) as (k & -> & Hk).
      { exists (t / 2 ^ 8). rewrite u8_mod, Z.shiftr_div_pow2 by lia.
        replace (49152 + t) with (t + 192 * 2 ^ 8) by lia. rewrite Z.div_add by lia.
        assert (0 <= t / 2 ^ 8 < 64) by (split; [apply Z.div_pos; lia|apply Z.div_lt_upper_bound; lia]).
        rewrite Z.mod_small by lia. lia. }
      rewrite (proj2 (Z.eqb_neq _ _)) by lia. rewrite top_bits_pointer by lia. rewrite Z.eqb_refl, (proj2 (Nat.leb_le _ _)) by (rewrite length_app; cbn; lia).
      by rewrite length_app.
    + rewrite (proj2 (Nat.ltb_lt _ _)) by (rewrite length_app; cbn; lia).
      rewrite lookup_app_r, Nat.sub_diag by lia. cbn. by rewrite length_app.
  - change (Spec.label_bytes l) with (Z.of_nat (length l) :: l). rewrite <- !app_assoc. cbn [app] in *.
    rewrite (proj2 (Nat.ltb_lt _ _)) by (rewrite length_app; cbn; lia).
    rewrite lookup_app_r, Nat.sub_diag by lia. cbn [lookup list_lookup mbind option_bind].
    rewrite (proj2 (Z.eqb_neq _ 0)) by lia.
    rewrite top_bits_label by lia. cbn [Z.eqb]. rewrite (proj2 (Z.ltb_ge _ _)), Nat2Z.id by lia.
    specialize (IH (pre ++ Z.of_nat (length l) :: l) fuel ltac:(cbn in Hf; lia)).
    rewrite !length_app in IH |- *. cbn [length] in IH |- *. rewrite <- !app_assoc in IH. cbn [app] in IH.
    replace (length pre + 1 + length l)%nat with (length pre + S (length l))%nat by lia.
    rewrite IH. do 2 f_equal. rewrite !length_app. cbn [length]. rewrite ?length_app. lia.
Qed.

(** A name takes at least a byte per label. *)
Lemma labels_length n : (length (Spec.labels n) < length (Spec.name_bytes n))%nat.
Proof.
  destruct n as [ls ptr]. unfold Spec.name_bytes. cbn [Spec.labels Spec.pointer].
  induction ls as [|l ls IH]; [destruct ptr; cbn; lia|].
  cbn [fmap list_fmap concat] in *. rewrite !length_app in *.
  change (length (Spec.label_bytes l)) with (S (length l)). cbn [length]. lia.
Qed.
Lemma skip_name_msg pre n post :
  Spec.wf_name n ->
  skip_name (length (pre ++ Spec.name_bytes n ++ post)) (pre ++ Spec.name_bytes n ++ post) (length pre)
  = Some (Some (length (pre ++ Spec.name_bytes n))).
Proof.
  intros Hn. apply skip_name_app; [done|]. pose proof (labels_length n). rewrite !length_app. lia.
Qed.

Lemma skip_questions_app pre qs post :
  Forall (fun q => Spec.wf_name (Spec.qname q)) qs ->
  skip_questions (length qs) (pre ++ concat (Spec.question_bytes <$> qs) ++ post) (length pre)
  = Some (inr (length (pre ++ concat (Spec.question_bytes <$> qs)))).
Proof.
  intros Hq. revert pre. induction Hq as [|q qs Hq _ IH]; intros pre; [by rewrite app_nil_r|].
  cbn [length skip_questions fmap list_fmap concat]. set (rest := concat (Spec.question_bytes <$> qs)) in *.
  unfold Spec.question_bytes. rewrite <- !app_assoc, skip_name_msg by done. cbn [mbind option_bind].
  specialize (IH (pre ++ Spec.question_bytes q)). unfold Spec.question_bytes in IH.
  rewrite (proj2 (Nat.ltb_ge _ _)) by (rewrite !length_app, !length_be_bytes; lia).
  rewrite <- !app_assoc in IH.
  replace (length (pre ++ Spec.name_bytes (Spec.qname q)) + 4)%nat
    with (length (pre ++ Spec.name_bytes (Spec.qname q) ++ be_bytes 2 (Spec.qtype q) ++ be_bytes 2 (Spec.qclass q)))
    by (rewrite !length_app, !length_be_bytes; lia).
  exact IH.
Qed.

(** The address of a record that has one. *)
Definition answer_text (host : list Z) (a : option (list Z)) : list Z + list Z :=
  match a with
  | Some rd => inr (inet_ntop rd)
  | None => inl (str "dns answer for " ++ host ++ str " carried no A record")
  end.

Lemma scan_answers_app pre ans post host :
  Forall Spec.wf_rr ans ->
  scan_answers (length ans) host (pre ++ concat (Spec.rr_bytes <$> ans) ++ post) (length pre)
  = Some (answer_text host (Spec.first_A ans)).
Proof.
  intros Ha. revert pre. induction Ha as [|r ans (Hn & Ht & Hl & Hb) _ IH]; intros pre; [done|].
  cbn [length scan_answers fmap list_fmap concat]. set (rest := concat (Spec.rr_bytes <$> ans)) in *.
  specialize (IH (pre ++ Spec.rr_bytes r)). unfold Spec.rr_bytes in IH |- *.
  rewrite <- !app_assoc in IH. rewrite <- !app_assoc, skip_name_msg by done. cbn [mbind option_bind].
  set (nm := Spec.name_bytes (Spec.owner r)) in *.
  rewrite (proj2 (Nat.ltb_ge _ _)) by (rewrite !length_app, !length_be_bytes; lia).
  rewrite (app_assoc pre nm), get16_app by done. cbn [mbind option_bind].
  set (head := (pre ++ nm) ++ be_bytes 2 (Spec.rtype r) ++ be_bytes 2 (Spec.rclass r) ++ be_bytes 4 (Spec.ttl r)).
  assert (length head = length (pre ++ nm) + 8)%nat as Hh
    by (subst head; rewrite !length_app, !length_be_bytes; lia).
  set (rd := Spec.rdata r) in *. set (msg := (pre ++ nm) ++ _).
  assert (msg = head ++ be_bytes 2 (Z.of_nat (length rd)) ++ rd ++ rest ++ post) as E.
  { subst msg head. by rewrite <- !app_assoc. }
  rewrite E, <- Hh, get16_app by done. cbn [mbind option_bind]. rewrite Nat2Z.id.
  set (head' := head ++ be_bytes 2 (Z.of_nat (length rd))).
  assert (length (pre ++ nm) + 10 = length head')%nat as ->
    by (subst head'; rewrite (length_app head), length_be_bytes; lia).
  assert (head ++ be_bytes 2 (Z.of_nat (length rd)) ++ rd ++ rest ++ post = head' ++ rd ++ rest ++ post) as ->
    by (subst head'; by rewrite <- app_assoc).
  rewrite (proj2 (Nat.ltb_ge _ _)) by (rewrite (length_app head'), (length_app rd); lia).
  unfold Spec.first_A. cbn [List.find]. unfold Spec.is_A at 1. unfold TYPE_A. fold rd.
  assert ((Z.of_nat (length rd) =? 4) = (length rd =? 4)%nat) as ->
    by (destruct (Nat.eqb_spec (length rd) 4), (Z.eqb_spec (Z.of_nat (length rd)) 4); lia || done).
  destruct (_ && _) eqn:EA.
  - apply andb_true_iff in EA as [_ EA%Nat.eqb_eq].
    destruct rd as [|a [|b [|c [|d [|]]]]] eqn:Erd; try done.
    rewrite !(lookup_app_r head') by lia. rewrite Nat.sub_diag.
    replace (length head' + 1 - length head')%nat with 1%nat by lia.
    replace (length head' + 2 - length head')%nat with 2%nat by lia.
    replace (length head' + 3 - length head')%nat with 3%nat by lia.
    cbn [app lookup list_lookup mbind option_bind fmap option_fmap option_map answer_text]. by rewrite <- Erd.
  - replace (length head' + length rd)%nat with (length (head' ++ rd)) by apply length_app.
    rewrite (app_assoc head'). subst head' head. rewrite <- !app_assoc. exact IH.
Qed.

(** ** The reader stays in the packet *)
Lemma skip_name_total fuel msg off :
  (length msg < off + fuel)%nat -> exists r, skip_name fuel msg off = Some r
  /\ match r with Some off' => (off < off' <= length msg)%nat | None => True end.
Proof.
  revert off. induction fuel as [|fuel IH]; intros off Hf; cbn [skip_name].
  { rewrite (proj2 (Nat.ltb_ge _ _)) by lia. by exists None. }
  destruct (Nat.ltb_spec off (length msg)) as [Ho|Ho]; [|by exists None].
  destruct (lookup_lt_is_Some_2 msg off Ho) as [l ->]. cbn [mbind option_bind].
  destruct (l =? 0); [eexists; split; [done|cbn; lia]|].
  destruct (_ =? _); [destruct (Nat.leb_spec (off + 2) (length msg)); eexists; (split; [done|]); cbn; lia || done|].
  destruct (63 <? l); [by exists None|].
  destruct (IH (off + 1 + Z.to_nat l)%nat ltac:(lia)) as (r & -> & Hr). exists r. split; [done|].
  destruct r; [lia|done].
Qed.
Lemma get16_in msg off : (off + 2 <= length msg)%nat -> exists v, get16 msg off = Some v.
Proof.
  intros Ho. unfold get16. destruct (lookup_lt_is_Some_2 msg off ltac:(lia)) as [a ->].
  destruct (lookup_lt_is_Some_2 msg (off + 1)%nat ltac:(lia)) as [b ->]. by eexists.
Qed.
Lemma skip_questions_total qd msg off :
  (0 < off)%nat -> exists r, skip_questions qd msg off = Some r
  /\ match r with inr off' => (0 < off')%nat | inl _ => True end.
Proof.
  revert off. induction qd as [|qd IH]; intros off Ho; cbn [skip_questions]; [by eexists|].
  destruct (skip_name_total (length msg) msg off ltac:(lia)) as (r & -> & Hr). cbn [mbind option_bind].
  destruct r as [off'|]; [|by eexists]. destruct (_ <? _)%nat; [by eexists|]. apply IH. lia.
Qed.
Lemma scan_answers_total an host msg off :
  (0 < off)%nat -> exists r, scan_answers an host msg off = Some r.
Proof.
  revert off. induction an as [|an IH]; intros off Ho; cbn [scan_answers]; [by eexists|].
  destruct (skip_name_total (length msg) msg off ltac:(lia)) as (r & -> & Hr). cbn [mbind option_bind].
  destruct r as [off'|]; [|by eexists]. destruct (Nat.ltb_spec (length msg) (off' + 10)) as [|Hl]; [by eexists|].
  destruct (get16_in msg off' ltac:(lia)) as [t ->]. destruct (get16_in msg (off' + 8) ltac:(lia)) as [rl ->].
  cbn [mbind option_bind].
  destruct (Nat.ltb_spec (length msg) (off' + 10 + Z.to_nat rl)) as [|Hd]; [by eexists|].
  destruct (_ && _) eqn:E; [|apply IH; lia].
  apply andb_true_iff in E as [_ ->%Z.eqb_eq]. change (Z.to_nat 4) with 4%nat in Hd.
  destruct (lookup_lt_is_Some_2 msg (off' + 10)%nat ltac:(lia)) as [a ->].
  destruct (lookup_lt_is_Some_2 msg (off' + 10 + 1)%nat ltac:(lia)) as [b ->].
  destruct (lookup_lt_is_Some_2 msg (off' + 10 + 2)%nat ltac:(lia)) as [c ->].
  destruct (lookup_lt_is_Some_2 msg (off' + 10 + 3)%nat ltac:(lia)) as [d ->]. by eexists.
Qed.
Lemma read_reply_total server host id r : exists x, read_reply server host id r = Some x.
Proof.
  unfold read_reply. destruct (Nat.ltb_spec (length r) 12) as [|Hl]; [by eexists|].
  destruct (get16_in r 0 ltac:(lia)) as [rid ->]. cbn [mbind option_bind]. destruct (negb _); [by eexists|].
  destruct (lookup_lt_is_Some_2 r 3%nat ltac:(lia)) as [r3 ->]. cbn [mbind option_bind].
  destruct (negb _); [by eexists|].
  destruct (get16_in r 4 ltac:(lia)) as [qd ->]. destruct (get16_in r 6 ltac:(lia)) as [an ->].
  cbn [mbind option_bind]. destruct (an <=? 0); [by eexists|].
  destruct (skip_questions_total (Z.to_nat qd) r 12 ltac:(lia)) as ([e|off] & -> & Ho); cbn [mbind option_bind];
    [by eexists|]. by apply scan_answers_total.
Qed.
Lemma ask_total strerror ns host id net last : exists r, ask strerror ns host id net last = Some r.
Proof.
  revert id last. induction ns as [|server ns IH]; intros id last; cbn [ask]; [by eexists|].
  assert (exists x, query_one strerror server host id (net server id) = Some x) as [x ->].
  { unfold query_one. destruct (query host id); [|by eexists]. destruct (socket_errno _); [by eexists|].
    destruct (inet_pton server); [|by eexists]. destruct (sendto_errno _); [by eexists|]. apply read_reply_total. }
  cbn [mbind option_bind]. destruct x as [e|a]; [apply IH|by eexists].
Qed.

(** C27: The resolver survives any reply. Whatever datagrams come back, of whatever
    length and content, no read leaves the received packet and every loop ends:
    [dns_resolve_a] returns an address or an error text that fits the caller's
    buffer. A dotted quad is returned as it is, without a query. *)
Theorem dns_stays_in_packet strerror host errlen addr seq file net :
  exists r seq', dns_resolve_a strerror host errlen addr seq file net = Some (r, seq')
  /\ match r with inl e => (length e <= errlen - 1)%nat | inr _ => True end
  /\ forall h a, host = Some h -> inet_pton h = Some a -> r = inr h /\ seq' = seq.
Proof.
  unfold dns_resolve_a, seterr. destruct host as [[|c h]|].
  - eexists _, _. split; [done|]. split; [rewrite length_take; lia|]. intros h a [= <-]. done.
  - destruct (inet_pton (c :: h)) as [a0|] eqn:E.
    { eexists _, _. split; [done|]. split; [done|]. by intros h' a [= <-] _. }
    destruct (ask_total strerror (load_nameservers file) (c :: h)
      (u16 ((addr ≫ 4) ^^ u16 (u32 (u16 (seq + 1) * 2654435761)))) net []) as [r Er].
    cbv zeta. rewrite Er. cbn [mbind option_bind]. destruct r as [last|a];
      (eexists _, _; split; [done|]; split; [|intros h' a' [= <-] Ha; congruence]);
      [rewrite length_take; lia|done].
  - eexists _, _. split; [done|]. split; [rewrite length_take; lia|done].
Qed.
Lemma dns_stays_in_packet_witness :
  exists r seq', dns_resolve_a (fun _ => []) (Some (str "10.0.0.7")) 192 0 0 None
      (fun _ _ => Exchange None None []) = Some (r, seq')
  /\ match r with inl e => (length e <= 192 - 1)%nat | inr _ => True end
  /\ forall h a, Some (str "10.0.0.7") = Some h -> inet_pton h = Some a -> r = inr h /\ seq' = 0.
Proof. apply dns_stays_in_packet. Defined.

(** C28: Against the wire format of RFC 1035. From any reply that carries the
    query's id, no error code, any questions and at least one answer, with names of
    any labels, compressed or not, [query_one] returns the address of the first A
    record of four bytes, past the CNAME and other records before it, and reports
    its absence if there is none. *)
Theorem reply_reads_first_A server host id flags other qs ans rest :
  is_word 16 id -> flags .& 0x0f = 0 -> is_word 16 (Z.of_nat (length qs)) ->
  0 < Z.of_nat (length ans) < 65536 ->
  Forall (fun q => Spec.wf_name (Spec.qname q)) qs -> Forall Spec.wf_rr ans ->
  read_reply server host id (Spec.message id flags other qs ans rest)
  = Some (answer_text host (Spec.first_A ans)).
Proof.
  intros Hid Hfl Hqs Hans Hq Ha. unfold Spec.message.
  set (h0 := be_bytes 2 id). set (h4 := be_bytes 2 (Z.of_nat (length qs))).
  set (h6 := be_bytes 2 (Z.of_nat (length ans))). set (h8 := be_bytes 4 other).
  set (Q := concat _). set (A := concat _). set (msg := h0 ++ _). unfold read_reply.
  assert (length msg = 12 + length (Q ++ A ++ rest))%nat as Hl.
  { subst msg h0 h4 h6 h8. by rewrite !(length_app (be_bytes _ _)), !length_be_bytes. }
  rewrite (proj2 (Nat.ltb_ge _ _)) by lia.
  assert (get16 msg 0 = Some id) as -> by exact (get16_app [] id _ Hid). cbn [mbind option_bind]. rewrite Z.eqb_refl. cbn [negb].
  assert (msg !! 3%nat = Some (u8 (flags ≫ 0))) as -> by done. cbn [mbind option_bind].
  assert (u8 (flags ≫ 0) .& 15 = 0) as ->.
  { rewrite Z.shiftr_0_r. unfold u8. rewrite <- Z.land_assoc. exact Hfl. }
  cbn [Z.eqb negb].
  assert (get16 msg 4 = Some (Z.of_nat (length qs))) as -> by exact (get16_app (h0 ++ be_bytes 2 flags) _ _ Hqs).
  assert (get16 msg 6 = Some (Z.of_nat (length ans))) as ->.
  { apply (get16_app (h0 ++ be_bytes 2 flags ++ h4) (Z.of_nat (length ans))). unfold is_word. lia. }
  cbn [mbind option_bind]. rewrite (proj2 (Z.leb_gt _ _)), !Nat2Z.id by lia.
  assert (skip_questions (length qs) msg 12 = Some (inr (12 + length Q)%nat)) as ->
    by exact (skip_questions_app (h0 ++ be_bytes 2 flags ++ h4 ++ h6 ++ h8) qs (A ++ rest) Hq).
  cbn [mbind option_bind]. fold Q.
  exact (scan_answers_app (h0 ++ be_bytes 2 flags ++ h4 ++ h6 ++ h8 ++ Q) ans rest host Ha).
Qed.
Lemma reply_reads_first_A_witness :
  let www := Spec.Name [str "pool"; str "example"] None in
  let alias := Spec.Name [str "eu"] (Some 12) in
  read_reply (str "1.1.1.1") (str "pool.example") 0xbeef
    (Spec.message 0xbeef 0x8180 0 [Spec.Question www 1 1]
       [Spec.RR (Spec.Name [] (Some 12)) 5 1 300 (Spec.name_bytes alias); Spec.RR alias 1 1 60 [203; 0; 113; 9]] [0])
  = Some (inr (str "203.0.113.9")).
Proof.
  cbv zeta. apply (reply_reads_first_A (str "1.1.1.1") (str "pool.example") 0xbeef 0x8180 0
    [Spec.Question (Spec.Name [str "pool"; str "example"] None) 1 1]
    [Spec.RR (Spec.Name [] (Some 12)) 5 1 300 (Spec.name_bytes (Spec.Name [str "eu"] (Some 12)));
     Spec.RR (Spec.Name [str "eu"] (Some 12)) 1 1 60 [203; 0; 113; 9]] [0]).
  1: unfold is_word; lia.
  1: reflexivity.
  1-2: cbn; unfold is_word; lia.
  1-2: by_compute.
Defined.

(** ** The question *)
(** Labels joined by dots: a host name. *)
Fixpoint dotted (ls : list (list Z)) : list Z :=
  match ls with
  | [] => []
  | [l] => l
  | l :: ls => l ++ [46] ++ dotted ls
  end.
Definition host_label (l : list Z) : Prop := (1 <= length l <= 63)%nat /\ Forall (fun c => c <> 46) l.

Lemma label_app l r :
  Forall (fun c => c <> 46) l -> (r = [] \/ hd 0 r = 46) -> label (l ++ r) = l.
Proof.
  intros Hl Hr. induction Hl as [|c l Hc _ IH]; cbn.
  - destruct r as [|c r]; [done|]. destruct Hr as [|Hr]; [done|]. cbn in Hr |- *. subst c. done.
  - by rewrite (proj2 (Z.eqb_neq _ _) Hc), IH.
Qed.
Lemma labels_into_dotted fuel ls buf buflen :
  ls <> [] -> Forall host_label ls -> (length ls <= fuel)%nat ->
  (length buf + length (dotted ls) + 2 <= buflen)%nat ->
  labels_into fuel (dotted ls) buf buflen = Some (buf ++ concat (Spec.label_bytes <$> ls)).
Proof.
  intros Hne Hl. revert buf fuel. induction Hl as [|l ls [Hl1 Hl2] Hl IH]; intros buf fuel Hf Hb; [done|].
  destruct fuel as [|fuel]; [cbn in Hf; lia|].
  assert (exists r, dotted (l :: ls) = l ++ r /\ (r = [] \/ hd 0 r = 46)
    /\ match r with [] => ls = [] | _ :: p => p = dotted ls /\ ls <> [] end) as (r & E & Hr & Hrest).
  { destruct ls as [|l' ls]; [exists []; rewrite app_nil_r; by auto|].
    exists (46 :: dotted (l' :: ls)). split; [done|]. split; [by right|done]. }
  rewrite E in *. rewrite length_app in Hb.
  assert (forall A (a b : A), match l ++ r with [] => a | _ => b end = b) as Hm by (by destruct l; [cbn in Hl1; lia|]).
  cbn [labels_into]. rewrite label_app by done. rewrite drop_app_length.
  destruct (l ++ r) as [|c0 p0] eqn:Elr; [by destruct l; [cbn in Hl1; lia|]|]. clear Hm.
  rewrite (proj2 (Nat.eqb_neq _ _)), (proj2 (Nat.ltb_ge _ _)), (proj2 (Nat.ltb_ge buflen _)) by lia.
  cbn [orb]. rewrite u8_small by (unfold is_word; change (2 ^ 8) with 256; lia).
  cbn [fmap list_fmap concat]. destruct r as [|d p].
  - subst ls. cbn. by rewrite app_nil_r.
  - destruct Hrest as [-> Hls]. rewrite IH; [by rewrite <- !app_assoc|done|cbn in Hf; lia|].
    rewrite !length_app. cbn in Hb |- *. lia.
Qed.

(** The query asks for the host: a name of labels of 1 to 63 bytes, up to 1400 bytes
    in all, is encoded as the name with those labels. *)
Theorem qname_is_host ls id :
  ls <> [] -> Forall host_label ls -> Z.of_nat (length (dotted ls)) <= 1400 ->
  query (dotted ls) id
  = Some ([u8 (id ≫ 8); u8 (id .& 0xff); 1; 0; 0; 1; 0; 0; 0; 0; 0; 0]
     ++ Spec.question_bytes (Spec.Question (Spec.Name ls None) 1 1)).
Proof.
  intros Hne Hl Hlen.
  assert (length ls <= length (dotted ls) /\ length (concat (Spec.label_bytes <$> ls)) = length (dotted ls) + 1)%nat as [H1 H2].
  { clear Hlen. induction Hl as [|l ls [Hl1 _] Hl IH]; [done|]. destruct ls as [|l' ls]; [cbn; rewrite app_nil_r; lia|].
    destruct IH as [IH1 IH2]; [done|]. set (k := l' :: ls) in *. cbn [fmap list_fmap concat].
    change (dotted (l :: k)) with (l ++ [46] ++ dotted k). rewrite !length_app, IH2.
    cbn [length Spec.label_bytes app]. change (length (Spec.label_bytes l)) with (S (length l)). lia. }
  unfold query, encode_qname. change (DNS_BUF - _ - 4)%nat with (Z.to_nat 1484).
  rewrite labels_into_dotted by (done || (cbn [length]; lia)). cbn [mbind option_bind app].
  rewrite (proj2 (Nat.ltb_ge _ _)) by lia. cbn [mbind option_bind].
  unfold Spec.question_bytes, Spec.name_bytes. cbn [Spec.qname Spec.labels Spec.pointer].
  change (be_bytes 2 _) with [0; 1]. reflexivity.
Qed.
End Dns.
