(* ===== verification/Stratum.v ===== *)
(** * The stratum session (src/miner/stratum.c, stratum.h)

    The client's state and its operations. Calls into the system appear as their
    outcomes: the result of a name lookup, of the steps of a connect, of each
    [send] and each [recv]. What is written to the socket is a result of the
    operation that writes it. The calls of [slog] are left out. *)
From Stdlib Require Import SpecFloat.
From S2P Require Import Prelude Cdouble Decimal Job Json StratumTarget.

Module Stratum.
Import Cdouble Decimal Job Json StratumTarget.
Local Open Scope word_scope.

Definition BACKOFF_MIN_S : Z := 2.
Definition BACKOFF_MAX_S : Z := 120.
Definition RX_SIZE : Z := 262144.

(** Character arrays that a failing [js_str] can overwrite in part are arrays;
    the others are C strings. [rx] holds the first [rx_len] bytes of its array. *)
Record stratum := StratumT {
  host : list Z;                 (* char[192] *)
  addr : list Z;                 (* char[INET_ADDRSTRLEN] *)
  port : Z;
  worker : list Z;               (* char[160] *)
  password : list Z;             (* char[160] *)
  fd : Z;
  rx : list Z;
  extranonce1 : list Z;          (* uint8_t[32] *)
  en1_len : nat;
  en2_size : Z;
  difficulty : double;
  job : stratum_job;
  have_job : bool;
  subscribed : bool;
  authorized : bool;
  next_id : Z;
  sub_id : Z;
  auth_id : Z;
  suggest_diff_id : Z;
  backoff_s : Z;
  retry_at : Z;
  reconnect_host : list Z;       (* char[128] *)
  reconnect_port : Z;
  reconnect_pending : bool;
  jobs_received : Z;
  shares_submitted : Z;
  shares_accepted : Z;
  shares_rejected : Z;
  reconnects : Z;
  last_error : list Z;           (* char[192] *)
  last_reject : list Z           (* char[128] *)
}.
#[export] Instance stratum_fields : Fields stratum := fun s =>
  StratumT (host s) (addr s) (port s) (worker s) (password s) (fd s) (rx s)
    (extranonce1 s) (en1_len s) (en2_size s) (difficulty s) (job s) (have_job s)
    (subscribed s) (authorized s) (next_id s) (sub_id s) (auth_id s) (suggest_diff_id s)
    (backoff_s s) (retry_at s) (reconnect_host s) (reconnect_port s) (reconnect_pending s)
    (jobs_received s) (shares_submitted s) (shares_accepted s) (shares_rejected s)
    (reconnects s) (last_error s) (last_reject s).

(** [snprintf(buf, size, "%s", text)] *)
Definition snprintf (size : nat) (text : list Z) : list Z := take (size - 1) text.

#[global] Arguments snprintf : simpl never.

Definition no_job : stratum_job :=
  StratumJob [] (replicate 32 0) [] [] [] (replicate 8 0) 0 false 0.

(** Arguments that may be NULL are options. *)
Definition stratum_init (host : option (list Z)) (port : Z) (worker password : option (list Z)) : stratum :=
  StratumT (snprintf 192 (default [] host)) [] port (snprintf 160 (default [] worker))
    (snprintf 160 (default (str "x") password)) (-1) [] (replicate 32 0) 0 8 d_1 no_job
    false false false 0 0 0 0 0 0 (replicate 128 0) 0 false 0 0 0 0 0 [] (replicate 128 0).

Definition drop (s : stratum) (why : option (list Z)) : stratum :=
  let s := if 0 <=? fd s then s <| fd := -1 |> else s in
  let s := s <| have_job := false |> <| authorized := false |> <| subscribed := false |> <| rx := [] |> in
  match why with
  | Some (c :: t) => s <| last_error := snprintf 192 (c :: t) |>
  | _ => s
  end.

#[global] Arguments drop : simpl never.
#[global] Arguments str : simpl never.

(** ** Sending *)

(** The outcome of one [send]: bytes accepted, EAGAIN or EWOULDBLOCK, an error. *)
Inductive sent := Sent (n : nat) | SendAgain | SendFailed.

(** The loop over [line + off]: success, the bytes written, the outcomes left.
    [None] when the outcomes end first: the call has not returned. *)
Fixpoint send_loop (sends : list sent) (left : list Z) : option (bool * list Z * list sent) :=
  match left, sends with
  | [], _ => Some (true, [], sends)
  | _, [] => None
  | _, SendAgain :: sends => send_loop sends left
  | _, SendFailed :: sends => Some (false, [], sends)
  | _, Sent n :: sends =>
    if (n =? 0)%nat then Some (false, [], sends)
    else '(ok, w, sends) ← send_loop sends (skipn n left); Some (ok, firstn n left ++ w, sends)
  end.

Definition send_line (sends : list sent) (s : stratum) (line : list Z)
    : option (bool * stratum * list Z * list sent) :=
  if fd s <? 0 then Some (false, s, [], sends)
  else
    '(ok, w, sends) ← send_loop sends line;
    Some (ok, if ok : bool then s else drop s (Some (str "send failed")), w, sends).

(** ** Dialling *)

(** [connect], then [select] and [getsockopt(SO_ERROR)] when it is in progress. *)
Inductive select_result := SelectReady (soerr : Z) | SelectTimeout | SelectFailed (errno : Z).
Inductive connect_result := Connected | ConnectFailed (errno : Z) | InProgress (r : select_result).
Definition ETIMEDOUT : Z := 110.

(** The [errno] of a failed connection. *)
Definition connect_errno (c : connect_result) : option Z :=
  match c with
  | Connected => None
  | ConnectFailed e => Some e
  | InProgress (SelectReady soerr) => if soerr =? 0 then None else Some soerr
  | InProgress SelectTimeout => Some ETIMEDOUT
  | InProgress (SelectFailed e) => Some e
  end.

(** What one attempt meets: [dns_resolve_a]'s error text or address, [socket]'s
    errno or descriptor, whether [inet_pton] takes the address, the connect. *)
Record attempt := Attempt {
  resolved : list Z + list Z;
  new_socket : Z + Z;
  parses : bool;
  connecting : connect_result
}.

Definition next_backoff (backoff : Z) : Z :=
  let b := if negb (backoff =? 0) then u32 (backoff * 2) else BACKOFF_MIN_S in
  if BACKOFF_MAX_S <? b then BACKOFF_MAX_S else b.
Definition back_off (s : stratum) (now : Z) : stratum :=
  let s := s <| backoff_s := next_backoff (backoff_s s) |> in
  s <| retry_at := u64 (now + backoff_s s) |>.

(** A text with every apostrophe read as a double quote. *)
Definition dq (s : String.string) : list Z := (fun c => if c =? 39 then 34 else c) <$> str s.

Definition subscribe_line (id : Z) : list Z :=
  snprintf 512 (dq "{'id':" ++ dec id
    ++ dq ",'method':'mining.subscribe','params':['osprey-blake2b/1.0']}" ++ [10]).
Definition authorize_line (id : Z) (worker password : list Z) : list Z :=
  snprintf 512 (dq "{'id':" ++ dec id ++ dq ",'method':'mining.authorize','params':['"
    ++ worker ++ dq "','" ++ password ++ dq "']}" ++ [10]).
Definition suggest_line (id : Z) : list Z :=
  snprintf 512 (dq "{'id':" ++ dec id ++ dq ",'method':'mining.suggest_difficulty','params':[32]}" ++ [10]).

Section System.
(** [strerror], and a conversion from double that C leaves undefined. *)
Context (strerror : Z -> list Z) (undef : double -> Z).

Definition connect_error (host : list Z) (port errno : Z) : list Z :=
  snprintf 192 (str "connect " ++ take 120 host ++ str ":" ++ dec_int port ++ str ": " ++ strerror errno).

(** The session after one attempt and what it wrote; [None] as for [send_loop]. *)
Definition greet (sends : list sent) (s : stratum) : option (stratum * list Z) :=
  let s := s <| next_id := u64 (next_id s + 1) |> in
  let s := s <| sub_id := next_id s |> in
  '(ok, s, w1, sends) ← send_line sends s (subscribe_line (sub_id s));
  if negb ok then Some (s, w1)
  else
    let s := s <| next_id := u64 (next_id s + 1) |> in
    let s := s <| auth_id := next_id s |> in
    '(ok, s, w2, sends) ← send_line sends s (authorize_line (auth_id s) (worker s) (password s));
    if negb ok then Some (s, w1 ++ w2)
    else
      let s := s <| next_id := u64 (next_id s + 1) |> in
      let s := s <| suggest_diff_id := next_id s |> in
      '(_, s, w3, _) ← send_line sends s (suggest_line (suggest_diff_id s));
      Some (s, w1 ++ w2 ++ w3).

(** The host, port and cached address of this attempt; the flag tells a redirect,
    whose address is not cached. *)
Definition dial_target (s : stratum) : list Z * Z * list Z * bool * stratum :=
  if reconnect_pending s
  then (cstr (reconnect_host s), reconnect_port s, [], true, s <| reconnect_pending := false |>)
  else (host s, port s, addr s, false, s).

Definition dial (a : attempt) (sends : list sent) (s : stratum) (now : Z) : option (stratum * list Z) :=
  if now <? retry_at s then Some (s, [])
  else
    let '(host, port, addr0, redirect, s) := dial_target s in
    let set_addr (x : list Z) (s : stratum) := if redirect : bool then s else s <| addr := x |> in
    let lookup := if negb (length addr0 =? 0)%nat then inr addr0 else resolved a in
    match lookup with
    | inl err =>
      let s := set_addr [] s in
      Some (back_off (s <| last_error := snprintf 192 err |>) now, [])
    | inr addr =>
      let s := set_addr addr s in
      match new_socket a with
      | inl errno => Some (s <| last_error := snprintf 192 (str "socket: " ++ strerror errno) |>, [])
      | inr fd' =>
        if negb (parses a)
        then Some ((set_addr [] s) <| last_error := str "bad pool address" |>, [])
        else
          match connect_errno (connecting a) with
          | Some errno =>
            Some (back_off (s <| last_error := connect_error host port errno |>) now, [])
          | None =>
            let s := s <| fd := fd' |> <| rx := [] |> <| backoff_s := 0 |> in
            greet sends (s <| reconnects := u64 (reconnects s + 1) |>)
          end
      end
    end.

(** ** Dispatch *)

Definition on_subscribe (s : stratum) (result : list Z) : stratum :=
  match js_elem result 1, js_elem result 2 with
  | Some en1, Some sz =>
    let '(got, e) := js_hex en1 (extranonce1 s) STRATUM_MAX_EN1 in
    let s := s <| extranonce1 := e |> in
    match got with
    | None => s
    | Some got =>
      let s := s <| en1_len := got |> in
      let n := js_num sz in
      if dlt n d_1 || dlt (of_Z (Z.of_nat STRATUM_MAX_EN2)) n then s
      else s <| en2_size := cast undef 0 (2 ^ 64 - 1) n |> <| subscribed := true |>
    end
  | _, _ => s
  end.

(** [js_hex] into a local array of [n] bytes, which must be filled. *)
Definition hex_exactly (n : nat) (p : list Z) : option (list Z) :=
  match js_hex p (replicate n 0) n with
  | (Some got, out) => if (got =? n)%nat then Some out else None
  | (None, _) => None
  end.
(** [js_hex] into a cleared array of [n] bytes: the bytes decoded. *)
Definition hex_upto (n : nat) (p : list Z) : option (list Z) :=
  match js_hex p (replicate n 0) n with
  | (Some got, out) => Some (take got out)
  | (None, _) => None
  end.

(** The job a [mining.notify] describes, [None] where the code returns early:
    no early return has changed the session. *)
Definition notify_job (seq : Z) (params : list Z) : option stratum_job :=
  if js_count params <? 9 then None
  else
    p_job ← js_elem params 0;
    p_prev ← js_elem params 1;
    p_cb1 ← js_elem params 2;
    p_cb2 ← js_elem params 3;
    p_br ← js_elem params 4;
    p_bits ← js_elem params 6;
    p_ntime ← js_elem params 7;
    let p_clean := js_elem params 8 in
    let '(ok, id) := js_str p_job (replicate 64 0) in
    if negb ok then None
    else
      prev ← hex_exactly 32 p_prev;
      cb1 ← hex_upto STRATUM_MAX_CB p_cb1;
      cb2 ← hex_upto STRATUM_MAX_CB p_cb2;
      let nb := js_count p_br in
      if (nb <? 0) || (Z.of_nat STRATUM_MAX_BRANCHES <? nb) then None
      else
        br ← mapM (fun i => e ← js_elem p_br (Z.of_nat i); hex_exactly 32 e) (List.seq 0 (Z.to_nat nb));
        nt ← hex_exactly 8 p_ntime;
        bits ← hex_exactly 4 p_bits;
        let nb := (bits !!! 3%nat ≪ 24) .| (bits !!! 2%nat ≪ 16) .| (bits !!! 1%nat ≪ 8) .| bits !!! 0%nat in
        Some (StratumJob (cstr id) prev cb1 cb2 br nt nb
                (match p_clean with Some p => js_true p | None => true end) seq).

Definition on_notify (s : stratum) (params : list Z) : stratum :=
  match notify_job (u64 (job_seq (job s) + 1)) params with
  | None => s
  | Some j => s <| job := j |> <| have_job := true |> <| jobs_received := u64 (jobs_received s + 1) |>
  end.

Definition set_difficulty (s : stratum) (params : list Z) : stratum :=
  match js_elem params 0 with
  | Some d => s <| difficulty := js_num d |>
  | None => s
  end.

Definition set_extranonce (s : stratum) (params : list Z) : stratum :=
  match js_elem params 0 with
  | None => s
  | Some e =>
    let '(got, en1) := js_hex e (extranonce1 s) STRATUM_MAX_EN1 in
    let s := s <| extranonce1 := en1 |> in
    match got with
    | None => s
    | Some got =>
      let s := s <| en1_len := got |> in
      let s :=
        match js_elem params 1 with
        | Some z =>
          let n := js_num z in
          if dle d_1 n && dle n (of_Z (Z.of_nat STRATUM_MAX_EN2))
          then s <| en2_size := cast undef 0 (2 ^ 64 - 1) n |> else s
        | None => s
        end in
      s <| have_job := false |>
    end
  end.

(** The wait of a [client.reconnect], in seconds, clamped to 0..300. *)
Definition clamp_wait (w : double) : double :=
  let w := if dlt w (S754_zero false) then S754_zero false else w in
  if dlt (of_Z 300) w then of_Z 300 else w.

Definition client_reconnect (s : stratum) (params : list Z) (now : Z) : stratum :=
  let wait := clamp_wait (match js_elem params 2 with Some w => js_num w | None => S754_zero false end) in
  let s :=
    match js_elem params 0 with
    | None => s
    | Some h =>
      let '(ok, out) := js_str h (reconnect_host s) in
      let s := s <| reconnect_host := out |> in
      if negb ok then s
      else
        let s := s <| reconnect_port := match js_elem params 1 with
                                        | Some p => cast undef (- 2 ^ 31) (2 ^ 31 - 1) (js_num p)
                                        | None => port s
                                        end |> in
        s <| reconnect_pending := true |> <| addr := [] |>
          <| retry_at := u64 (now + cast undef 0 (2 ^ 64 - 1) wait) |>
    end in
  drop s (Some (str "pool asked us to reconnect")).

Definition on_request (s : stratum) (m params : list Z) (now : Z) : stratum :=
  if bool_decide (m = str "mining.notify") then on_notify s params
  else if bool_decide (m = str "mining.set_difficulty") then set_difficulty s params
  else if bool_decide (m = str "mining.set_extranonce") then set_extranonce s params
  else if bool_decide (m = str "client.reconnect") then client_reconnect s params now
  else s.

Definition result_true (res : option (list Z)) : bool :=
  match res with Some r => js_true r | None => false end.
Definition opens_array (v : option (list Z)) : bool :=
  match v with Some r => cur (js_ws r) =? 91 | None => false end.

(** A verdict on a share. *)
Definition on_verdict (s : stratum) (res err : option (list Z)) : stratum :=
  if result_true res then s <| shares_accepted := u64 (shares_accepted s + 1) |>
  else
    let s := s <| shares_rejected := u64 (shares_rejected s + 1) |> in
    let s := s <| last_reject := <[0%nat := 0]> (last_reject s) |> in
    match err with
    | Some e =>
      if cur (js_ws e) =? 91 then
        match js_elem e 1 with
        | Some msg => s <| last_reject := (js_str msg (last_reject s)).2 |>
        | None => s
        end
      else s
    | None => s
    end.

Definition on_reply (s : stratum) (id : Z) (res err : option (list Z)) : stratum :=
  if id =? sub_id s then
    match res with
    | Some r => if cur (js_ws r) =? 91 then on_subscribe s r else s
    | None => s
    end
  else if id =? auth_id s then
    let s := s <| authorized := result_true res |> in
    if negb (authorized s)
    then s <| last_error := snprintf 192 (str "pool rejected worker " ++ worker s) |>
    else s
  else if id =? suggest_diff_id s then s
  else on_verdict s res err.

Definition on_line (s : stratum) (line : list Z) (now : Z) : stratum :=
  match js_get line (str "method") with
  | Some meth =>
    let '(ok, m) := js_str meth (replicate 64 0) in
    if negb ok then s
    else
      match js_get line (str "params") with
      | None => s
      | Some params => on_request s (cstr m) params now
      end
  | None =>
    match js_get line (str "id") with
    | None => s
    | Some idv =>
      let id := cast undef 0 (2 ^ 64 - 1) (js_num idv) in
      on_reply s id (js_get line (str "result")) (js_get line (str "error"))
    end
  end.

(** ** Polling *)

(** The outcome of one [recv]: bytes, the peer's close, EAGAIN, EINTR, an error. *)
Inductive received := Data (l : list Z) | Closed | RecvAgain | RecvIntr | RecvFailed (errno : Z).

(** The receive loop: [false] when the connection was dropped. [recv] delivers at
    most the room that is left; outcomes that end before the loop does stand for a
    socket with nothing to read. *)
Fixpoint recv_loop (recvs : list received) (s : stratum) : bool * stratum :=
  if RX_SIZE <=? Z.of_nat (length (rx s)) + 1
  then (false, drop s (Some (str "rx overflow with no line terminator")))
  else
    match recvs with
    | [] | RecvAgain :: _ => (true, s)
    | Data l :: recvs =>
      let got := firstn (Z.to_nat (RX_SIZE - Z.of_nat (length (rx s)) - 1)) l in
      if (length got =? 0)%nat then (false, drop s (Some (str "pool closed the connection")))
      else recv_loop recvs (s <| rx := rx s ++ got |>)
    | Closed :: _ => (false, drop s (Some (str "pool closed the connection")))
    | RecvIntr :: recvs => recv_loop recvs s
    | RecvFailed e :: _ => (false, drop s (Some (strerror e)))
    end.

(** [memchr(start, NEWLINE, n)]: the text before the newline and what follows. *)
Fixpoint split_line (l : list Z) : option (list Z * list Z) :=
  match l with
  | [] => None
  | c :: q => if c =? 10 then Some ([], q) else '(a, b) ← split_line q; Some (c :: a, b)
  end.

(** The dispatch loop from [start]; a line ends for its handler at its first
    zero byte. The loop leaves the buffer as it is when a handler drops the
    connection, which has emptied it; otherwise the tail is moved to its front. *)
Fixpoint dispatch (fuel : nat) (s : stratum) (start : list Z) (now : Z) : stratum :=
  match fuel with
  | O => s
  | S fuel =>
    match split_line start with
    | None => s <| rx := start |>
    | Some (line, rest) =>
      let s := if (0 <? length line)%nat then on_line s (cstr line) now else s in
      if fd s <? 0 then s else dispatch fuel s rest now
    end
  end.

Definition stratum_poll (a : attempt) (sends : list sent) (recvs : list received) (s : stratum) (now : Z)
    : option (stratum * list Z) :=
  if fd s <? 0 then dial a sends s now
  else
    let '(ok, s) := recv_loop recvs s in
    if negb ok then Some (s, [])
    else Some (dispatch (S (length (rx s))) s (rx s) now, []).

Definition stratum_ready (s : stratum) : bool :=
  (0 <=? fd s) && subscribed s && authorized s && have_job s.

(** ** Submitting *)
Definition submit_line (id : Z) (worker job_id en2 ntime nonce : list Z) : list Z :=
  snprintf 1024 (dq "{'id':" ++ dec id ++ dq ",'method':'mining.submit','params':['"
    ++ worker ++ dq "','" ++ job_id ++ dq "','" ++ bin2hex en2 ++ dq "','" ++ bin2hex ntime
    ++ dq "','" ++ bin2hex nonce ++ dq "']}" ++ [10]).

(** Success ([false] is -1), the session, the bytes written. *)
Definition stratum_submit (sends : list sent) (s : stratum) (job_id en2 ntime nonce : list Z)
    : option (bool * stratum * list Z) :=
  if fd s <? 0 then Some (false, s, [])
  else
    let s := s <| next_id := u64 (next_id s + 1) |> in
    '(ok, s, w, _) ← send_line sends s (submit_line (next_id s) (worker s) job_id en2 ntime nonce);
    if negb ok then Some (false, s, w)
    else Some (true, s <| shares_submitted := u64 (shares_submitted s + 1) |>, w).

Definition stratum_close (s : stratum) : stratum := drop s None.
End System.

(** ** The session's types are kept by everything *)
Record wf_session (s : stratum) : Prop := {
  wf_host : (length (host s) < 192)%nat;
  wf_addr : (length (addr s) < 16)%nat;
  wf_worker : (length (worker s) < 160)%nat;
  wf_password : (length (password s) < 160)%nat;
  wf_rx : Z.of_nat (length (rx s)) < RX_SIZE;
  wf_extranonce1 : array 32 (extranonce1 s);
  wf_en1_len : (en1_len s <= STRATUM_MAX_EN1)%nat;
  wf_session_job : wf_job (job s);
  wf_next_id : is_word 64 (next_id s);
  wf_backoff : 0 <= backoff_s s <= BACKOFF_MAX_S;
  wf_reconnect_host : length (reconnect_host s) = 128%nat;
  wf_last_error : (length (last_error s) < 192)%nat;
  wf_last_reject : length (last_reject s) = 128%nat
}.
(** A session without a connection is not usable and holds no input. *)
Definition down_is_clean (s : stratum) : Prop :=
  fd s < 0 -> subscribed s = false /\ authorized s = false /\ have_job s = false /\ rx s = [].

Lemma snprintf_length size text : (0 < size)%nat -> (length (snprintf size text) < size)%nat.
Proof. intros Hs. unfold snprintf. rewrite length_take. lia. Qed.

(** Break a [wf_session] goal on an updated session into its fields. *)
#[local] Ltac fields := match goal with H : wf_session _ |- _ => destruct H end;
  constructor; cbn; try assumption; try lia;
  try (apply snprintf_length; lia); try apply u64_word.

Lemma wf_init host port worker password : wf_session (stratum_init host port worker password).
Proof.
  constructor; cbn; try (apply snprintf_length; lia); try lia; try by_compute.
  constructor; cbn; by_compute.
Qed.
Lemma wf_drop s why : wf_session s -> wf_session (drop s why).
Proof.
  intros H. unfold drop. assert (wf_session (if 0 <=? fd s then s <| fd := -1 |> else s)) as H1
    by (destruct (0 <=? fd s); [fields|done]).
  set (s1 := if 0 <=? fd s then _ else s) in *. clearbody s1. clear H.
  destruct why as [[|c t]|]; fields.
Qed.
Lemma drop_fd s why : fd (drop s why) < 0.
Proof.
  unfold drop. destruct (Z.leb_spec 0 (fd s)); destruct why as [[|c t]|]; cbn; lia.
Qed.
Lemma drop_down s why : down_is_clean (drop s why).
Proof. intros _. unfold drop. destruct (0 <=? fd s); by destruct why as [[|c t]|]. Qed.

Lemma drop_facts s why :
  let s' := drop s why in
  fd s' < 0 /\ reconnect_pending s' = reconnect_pending s /\ reconnect_host s' = reconnect_host s
  /\ reconnect_port s' = reconnect_port s /\ addr s' = addr s /\ retry_at s' = retry_at s
  /\ host s' = host s /\ port s' = port s /\ stratum_ready s' = false /\ rx s' = [].
Proof.
  split; [apply drop_fd|]. unfold drop, stratum_ready.
  destruct (0 <=? fd s); destruct why as [[|c t]|]; cbn; rewrite ?andb_false_r; done.
Qed.

Lemma hex_exactly_array n p b : hex_exactly n p = Some b -> array n b.
Proof.
  unfold hex_exactly. pose proof (js_hex_array p (replicate n 0) n n) as H.
  destruct (js_hex _ _ _) as [[got|] out]; [|done]. destruct (_ =? _)%nat; [|done]. intros [= <-].
  apply H. split; [apply length_replicate|apply bytes_zeros].
Qed.
Lemma hex_upto_bytes n p b : hex_upto n p = Some b -> bytes b /\ (length b <= n)%nat.
Proof.
  unfold hex_upto. pose proof (js_hex_array p (replicate n 0) n n) as H.
  destruct (js_hex _ _ _) as [[got|] out]; [|done]. intros [= <-].
  destruct H as [Hl Hb]; [split; [apply length_replicate|apply bytes_zeros]|]. cbn in *.
  split; [by apply Forall_take|]. rewrite length_take. lia.
Qed.
Lemma cstr_length l i : (i < length l)%nat -> (length (cstr (<[i := 0%Z]> l)) <= i)%nat.
Proof.
  revert i. induction l as [|c l IH]; intros [|i] Hi; [cbn in *; lia..|].
  change (<[S i := 0]> (c :: l)) with (c :: <[i := 0]> l). cbn [length] in Hi.
  specialize (IH i ltac:(lia)). cbn [cstr]. destruct (c =? 0); cbn [length]; lia.
Qed.
Lemma js_str_cstr v out o :
  (0 < length out)%nat -> js_str v out = (true, o) -> (length (cstr o) < length out)%nat.
Proof.
  intros H0. unfold js_str. destruct (negb _); [done|].
  pose proof (str_chars_length (length out) 0 (next (js_ws v)) H0) as Hs.
  destruct (str_chars _ _ _) as [[s r] full]. cbn in Hs.
  destruct (full || _); [done|]. intros [= <-].
  pose proof (cstr_length (list_inserts 0 s out) (length s)) as H. rewrite length_inserts in H. lia.
Qed.

Lemma nbits_word b :
  array 4 b ->
  is_word 32 ((b !!! 3%nat ≪ 24) .| (b !!! 2%nat ≪ 16) .| (b !!! 1%nat ≪ 8) .| b !!! 0%nat).
Proof.
  intros [_ Hb].
  assert (forall i k, 0 <= k <= 24 -> is_word 32 (b !!! i ≪ k)) as H.
  { intros i k Hk. pose proof (words_lookup_total 8 b i ltac:(lia) Hb) as [B0 B]. rewrite Z.shiftl_mul_pow2 by lia.
    assert (0 < 2 ^ k <= 2 ^ 24) by (split; [apply Z.pow_pos_nonneg; lia|apply Z.pow_le_mono_r; lia]).
    change (2 ^ 24) with 16777216 in *. change (2 ^ 8) with 256 in *. split; [nia|].
    change (2 ^ 32) with 4294967296. nia. }
  repeat apply is_word_lor; try lia; try (apply H; lia).
  apply (is_word_le 8); [lia|]. by apply words_lookup_total.
Qed.
Lemma notify_job_wf seq params j :
  is_word 64 seq -> notify_job seq params = Some j -> wf_job j /\ job_seq j = seq.
Proof.
  intros Hseq. unfold notify_job. destruct (_ <? 9); [done|].
  destruct (js_elem params 0) as [p0|]; cbn [mbind option_bind]; [|done].
  destruct (js_elem params 1) as [p1|]; cbn [mbind option_bind]; [|done].
  destruct (js_elem params 2) as [p2|]; cbn [mbind option_bind]; [|done].
  destruct (js_elem params 3) as [p3|]; cbn [mbind option_bind]; [|done].
  destruct (js_elem params 4) as [p4|]; cbn [mbind option_bind]; [|done].
  destruct (js_elem params 6) as [p6|]; cbn [mbind option_bind]; [|done].
  destruct (js_elem params 7) as [p7|]; cbn [mbind option_bind]; [|done].
  destruct (js_str _ _) as [ok id] eqn:Eid. destruct ok; cbn [negb]; [|done].
  apply js_str_cstr in Eid; [|rewrite length_replicate; lia]. rewrite length_replicate in Eid.
  destruct (hex_exactly 32 _) as [prev|] eqn:E1; cbn [mbind option_bind]; [|done].
  destruct (hex_upto _ p2) as [cb1|] eqn:E2; cbn [mbind option_bind]; [|done].
  destruct (hex_upto _ p3) as [cb2|] eqn:E3; cbn [mbind option_bind]; [|done].
  destruct (_ || _) eqn:Enb; [done|]. apply orb_false_iff in Enb as [_ Enb]. apply Z.ltb_ge in Enb.
  destruct (mapM _ _) as [br|] eqn:E4; cbn [mbind option_bind]; [|done].
  destruct (hex_exactly 8 _) as [nt|] eqn:E5; cbn [mbind option_bind]; [|done].
  destruct (hex_exactly 4 _) as [bits|] eqn:E6; cbn [mbind option_bind]; [|done].
  intros [= <-]. split; [|done].
  apply mapM_Some in E4.
  constructor; cbn; eauto using hex_exactly_array, hex_upto_bytes, nbits_word.
  split.
  - clear -E4. induction E4 as [|i b il bs Hb _ IH]; constructor; [|done].
    destruct (js_elem _ _); cbn in Hb; [|done]. by eapply hex_exactly_array.
  - apply Forall2_length in E4. rewrite length_seq in E4. lia.
Qed.

Section Handlers.
Context (undef : double -> Z).

Lemma wf_on_subscribe s result : wf_session s -> wf_session (on_subscribe undef s result).
Proof.
  intros H. unfold on_subscribe. destruct (js_elem _ 1) as [en1|]; [|done].
  destruct (js_elem _ 2) as [sz|]; [|done].
  pose proof (js_hex_array en1 (extranonce1 s) STRATUM_MAX_EN1 32 (wf_extranonce1 s H)) as Ha.
  pose proof (js_hex_maxlen en1 (extranonce1 s) STRATUM_MAX_EN1) as Hm.
  destruct (js_hex _ _ _) as [[got|] e]; [|fields]. cbn in Ha. specialize (Hm _ _ eq_refl).
  destruct (_ || _); fields.
Qed.
Lemma wf_on_notify s params : wf_session s -> wf_session (on_notify s params).
Proof.
  intros H. unfold on_notify. destruct (notify_job _ _) as [j|] eqn:E; [|done].
  apply notify_job_wf in E as [Hj _]; [|apply u64_word]. fields.
Qed.
Lemma wf_set_extranonce s params : wf_session s -> wf_session (set_extranonce undef s params).
Proof.
  intros H. unfold set_extranonce. destruct (js_elem _ 0) as [e|]; [|done].
  pose proof (js_hex_array e (extranonce1 s) STRATUM_MAX_EN1 32 (wf_extranonce1 s H)) as Ha.
  pose proof (js_hex_maxlen e (extranonce1 s) STRATUM_MAX_EN1) as Hm.
  destruct (js_hex _ _ _) as [[got|] en1]; [|fields]. cbn in Ha. specialize (Hm _ _ eq_refl).
  destruct (js_elem _ 1); [destruct (_ && _)|]; fields.
Qed.
Lemma wf_client_reconnect s params now : wf_session s -> wf_session (client_reconnect undef s params now).
Proof.
  intros H. unfold client_reconnect. apply wf_drop. destruct (js_elem _ 0) as [h|]; [|done].
  pose proof (js_str_length h (reconnect_host s)) as Hl.
  destruct (js_str _ _) as [ok out]. cbn in Hl. destruct ok; cbn [negb]; fields; congruence.
Qed.
Lemma wf_on_request s m params now : wf_session s -> wf_session (on_request undef s m params now).
Proof.
  intros H. unfold on_request. repeat case_bool_decide;
    eauto using wf_on_notify, wf_set_extranonce, wf_client_reconnect.
  unfold set_difficulty. destruct (js_elem _ _); [fields|done].
Qed.
Lemma wf_on_verdict s res err : wf_session s -> wf_session (on_verdict s res err).
Proof.
  intros H. unfold on_verdict. destruct (result_true res); [fields|].
  set (s1 := s <| shares_rejected := _ |> <| last_reject := _ |>).
  assert (wf_session s1) as H1 by (subst s1; fields; by rewrite length_insert).
  clearbody s1. destruct err as [e|]; [|done]. destruct (_ =? 91); [|done].
  destruct (js_elem e 1) as [msg|]; [|done].
  pose proof (js_str_length msg (last_reject s1)). fields.
Qed.
Lemma wf_on_reply s id res err : wf_session s -> wf_session (on_reply undef s id res err).
Proof.
  intros H. unfold on_reply. destruct (id =? sub_id s).
  { destruct res as [r|]; [|done]. destruct (_ =? 91); [by apply wf_on_subscribe|done]. }
  destruct (id =? auth_id s).
  { destruct (negb _); fields. }
  destruct (id =? suggest_diff_id s); [done|]. by apply wf_on_verdict.
Qed.
Lemma wf_on_line s line now : wf_session s -> wf_session (on_line undef s line now).
Proof.
  intros H. unfold on_line. destruct (js_get line (str "method")) as [meth|].
  - destruct (js_str _ _) as [ok m]. destruct ok; cbn [negb]; [|done].
    destruct (js_get line (str "params")); [by apply wf_on_request|done].
  - destruct (js_get line (str "id")); [by apply wf_on_reply|done].
Qed.

(** A handler keeps the descriptor or drops the connection. *)
Definition kept_or_dropped (s s' : stratum) : Prop := fd s' = fd s \/ (fd s' < 0 /\ down_is_clean s').
Lemma on_line_fd s line now : kept_or_dropped s (on_line undef s line now).
Proof.
  unfold on_line. destruct (js_get line (str "method")) as [meth|].
  - destruct (js_str _ _) as [ok m]. destruct ok; cbn [negb]; [|by left].
    destruct (js_get line (str "params")) as [p|]; [|by left]. unfold on_request.
    repeat case_bool_decide; [| | | |by left].
    + left. unfold on_notify. by destruct (notify_job _ _).
    + left. unfold set_difficulty. by destruct (js_elem _ _).
    + left. unfold set_extranonce. destruct (js_elem _ 0) as [e|]; [|done].
      destruct (js_hex _ _ _) as [[got|] en1]; [|done].
      destruct (js_elem _ 1); [by destruct (_ && _)|done].
    + right. unfold client_reconnect. split; [apply drop_fd|apply drop_down].
  - left. destruct (js_get line (str "id")); [|done]. unfold on_reply.
    destruct (_ =? sub_id s).
    { destruct (js_get line (str "result")) as [r|]; [|done]. destruct (_ =? 91); [|done].
      unfold on_subscribe. destruct (js_elem _ 1); [|done]. destruct (js_elem _ 2); [|done].
      destruct (js_hex _ _ _) as [[got|] e]; [|done]. by destruct (_ || _). }
    destruct (_ =? auth_id s); [by destruct (negb _)|].
    destruct (_ =? suggest_diff_id s); [done|]. unfold on_verdict.
    destruct (result_true _); [done|]. destruct (js_get line (str "error")); [|done].
    destruct (_ =? 91); [|done]. by destruct (js_elem _ 1).
Qed.

Lemma split_line_spec l a b : split_line l = Some (a, b) -> l = a ++ 10 :: b /\ 10 ∉ a.
Proof.
  revert a. induction l as [|c l IH]; intros a; [done|]. cbn. destruct (Z.eqb_spec c 10) as [->|Hc].
  - intros [= <- <-]. split; [done|]. apply not_elem_of_nil.
  - destruct (split_line l) as [[a' b']|] eqn:E; cbn; [|done]. intros [= <- <-].
    destruct (IH a' eq_refl) as [-> H]. split; [done|]. by rewrite not_elem_of_cons.
Qed.
Lemma split_line_app a b : 10 ∉ a -> split_line (a ++ 10 :: b) = Some (a, b).
Proof.
  induction a as [|c a IH]; intros Ha; [done|]. apply not_elem_of_cons in Ha as [Hc Ha]. cbn.
  rewrite (proj2 (Z.eqb_neq _ _)) by congruence. by rewrite IH.
Qed.
Lemma split_line_none l : split_line l = None <-> 10 ∉ l.
Proof.
  split.
  - induction l as [|c l IH]; [intros _; apply not_elem_of_nil|]. cbn.
    destruct (Z.eqb_spec c 10); [done|]. destruct (split_line l) as [[? ?]|]; [done|].
    intros _. rewrite not_elem_of_cons. split; [congruence|by apply IH].
  - intros H. destruct (split_line l) as [[a b]|] eqn:E; [|done].
    apply split_line_spec in E as [-> _]. destruct H. rewrite elem_of_app, elem_of_cons. tauto.
Qed.

Lemma dispatch_inv fuel s start now :
  wf_session s -> 0 <= fd s -> Z.of_nat (length start) < RX_SIZE ->
  wf_session (dispatch undef fuel s start now) /\ down_is_clean (dispatch undef fuel s start now).
Proof.
  revert s start. induction fuel as [|fuel IH]; intros s start Hs Hfd Hl; cbn [dispatch].
  { split; [done|]. intros ?. lia. }
  destruct (split_line start) as [[line rest]|] eqn:E.
  2: { split; [fields|]. intros Hf. cbn in Hf. lia. }
  apply split_line_spec in E as [-> _]. rewrite length_app in Hl. cbn [length] in Hl.
  set (s1 := if (0 <? length line)%nat then _ else s).
  assert (wf_session s1 /\ kept_or_dropped s s1) as [H1 Hk].
  { subst s1. destruct (_ <? _)%nat; [|by split; [|left]]. split; [by apply wf_on_line|apply on_line_fd]. }
  clearbody s1. destruct (Z.ltb_spec (fd s1) 0) as [Hd|Hd].
  - split; [done|]. destruct Hk as [Hk|[_ Hk]]; [lia|done].
  - apply IH; [done|done|lia].
Qed.
End Handlers.

#[global] Arguments dispatch : simpl never.

Section Steps.
Context (strerror : Z -> list Z) (undef : double -> Z).

Lemma recv_loop_inv recvs s ok s' :
  wf_session s -> 0 <= fd s -> recv_loop strerror recvs s = (ok, s') ->
  wf_session s' /\ if ok then fd s' = fd s else fd s' < 0 /\ down_is_clean s'.
Proof.
  assert (forall s why, wf_session s -> wf_session (drop s why) /\ fd (drop s why) < 0 /\ down_is_clean (drop s why)) as Hd.
  { intros s0 why H0. split_and!; [by apply wf_drop|apply drop_fd|apply drop_down]. }
  revert s. induction recvs as [|e recvs IH]; intros s Hs Hfd; cbn [recv_loop];
    destruct (Z.leb_spec RX_SIZE (Z.of_nat (length (rx s)) + 1)) as [Hx|Hx]; try (intros [= <- <-]; first [by apply Hd|by split]).
  destruct e as [l| | | |n]; try (intros [= <- <-]; first [by apply Hd|by split]); [|by apply IH].
  set (got := firstn _ l). destruct (length got =? 0)%nat; [intros [= <- <-]; first [by apply Hd|by split]|].
  intros H. apply IH in H; [done| |done].
  assert (length got <= Z.to_nat (RX_SIZE - Z.of_nat (length (rx s)) - 1))%nat
    by (subst got; rewrite length_firstn; lia).
  fields. rewrite length_app. lia.
Qed.

Lemma next_backoff_bound b : 0 <= next_backoff b <= BACKOFF_MAX_S.
Proof.
  unfold next_backoff, BACKOFF_MAX_S, BACKOFF_MIN_S. destruct (negb (b =? 0)); [|done].
  pose proof (u32_word (b * 2)) as [Hb _]. destruct (Z.ltb_spec 120 (u32 (b * 2))); lia.
Qed.
Lemma wf_back_off s now : wf_session s -> wf_session (back_off s now).
Proof.
  intros H. unfold back_off. pose proof (next_backoff_bound (backoff_s s)). fields.
Qed.
Lemma send_line_inv sends s line ok s' w sends' :
  wf_session s -> 0 <= fd s -> send_line sends s line = Some (ok, s', w, sends') ->
  wf_session s' /\ if ok then s' = s else fd s' < 0 /\ down_is_clean s'.
Proof.
  intros Hs Hfd. unfold send_line. rewrite (proj2 (Z.ltb_ge _ _)) by done.
  destruct (send_loop _ _) as [[[ok' w'] r]|]; cbn [mbind option_bind]; [|done].
  intros [= <- <- <- <-]. destruct ok'; [done|].
  split_and!; [by apply wf_drop|apply drop_fd|apply drop_down].
Qed.

Definition good (s : stratum) : Prop := wf_session s /\ down_is_clean s.
Lemma good_up s : wf_session s -> 0 <= fd s -> good s.
Proof. intros H Hf. split; [done|]. intros ?. lia. Qed.

Lemma send_line_good sends s line r :
  wf_session s -> 0 <= fd s -> send_line sends s line = Some r ->
  good r.1.1.2 /\ (r.1.1.1 = true -> r.1.1.2 = s).
Proof.
  intros Hs Hfd. destruct r as [[[ok s'] w] sends']. intros H. cbn.
  apply send_line_inv in H as [H1 H2]; [|done..]. destruct ok.
  - subst. split; [by apply good_up|done].
  - split; [by split; [|apply H2]|done].
Qed.

Lemma greet_good sends s s' w : wf_session s -> 0 <= fd s -> greet sends s = Some (s', w) -> good s'.
Proof.
  intros Hs Hfd. unfold greet.
  set (s1 := _ <| sub_id := _ |>). assert (wf_session s1 /\ 0 <= fd s1) as [H1 F1] by (split; [fields|done]).
  clearbody s1. clear Hs Hfd s.
  destruct (send_line _ _ _) as [[[[ok s2] w1] r1]|] eqn:E1; cbn [mbind option_bind]; [|done].
  apply send_line_good in E1 as [G1 E1]; [|done..]. cbn in G1, E1.
  destruct ok; cbn [negb]; [|by intros [= <- <-]]. rewrite (E1 eq_refl). clear E1 G1 s2.
  set (s2 := _ <| auth_id := _ |>). assert (wf_session s2 /\ 0 <= fd s2) as [H2 F2] by (split; [fields|done]).
  clearbody s2. clear H1 F1 s1.
  destruct (send_line _ _ _) as [[[[ok s3] w2] r2]|] eqn:E2; cbn [mbind option_bind]; [|done].
  apply send_line_good in E2 as [G2 E2]; [|done..]. cbn in G2, E2.
  destruct ok; cbn [negb]; [|by intros [= <- <-]]. rewrite (E2 eq_refl). clear E2 G2 s3.
  set (s3 := _ <| suggest_diff_id := _ |>). assert (wf_session s3 /\ 0 <= fd s3) as [H3 F3] by (split; [fields|done]).
  clearbody s3. clear H2 F2 s2.
  destruct (send_line _ _ _) as [[[[ok s4] w3] r3]|] eqn:E3; cbn [mbind option_bind]; [|done].
  apply send_line_good in E3 as [G3 E3]; [|done..]. cbn in G3. by intros [= <- <-].
Qed.

(** What [dns_resolve_a] and [socket] return when they succeed. *)
Definition sound_attempt (a : attempt) : Prop :=
  match resolved a with inr x => (0 < length x < 16)%nat | inl _ => True end
  /\ match new_socket a with inr f => 0 <= f | inl _ => True end.

Lemma good_same s s' : good s -> wf_session s' -> fd s' = fd s -> subscribed s' = subscribed s ->
  authorized s' = authorized s -> have_job s' = have_job s -> rx s' = rx s -> good s'.
Proof.
  intros [_ Hd] Hs' E1 E2 E3 E4 E5. split; [done|]. unfold down_is_clean. rewrite E1, E2, E3, E4, E5.
  exact Hd.
Qed.

Lemma dial_good a sends s now s' w :
  good s -> sound_attempt a -> dial strerror a sends s now = Some (s', w) -> good s'.
Proof.
  intros Hg [Ha1 Ha2]. unfold dial. destruct (now <? retry_at s); [by intros [= <- <-]|].
  destruct (dial_target s) as [[[[h p] addr0] redirect] s1] eqn:Et.
  assert (good s1 /\ (redirect = false -> (length addr0 < 16)%nat)) as [Hg1 Hl].
  { unfold dial_target in Et. pose proof Hg as [Hs _]. destruct (reconnect_pending s); injection Et as <- <- <- <- <-.
    - split; [|done]. apply (good_same s); [done|fields|done..].
    - split; [done|]. intros _. apply Hs. }
  clear Et Hg s. rename s1 into s. pose proof (proj1 Hg1) as Hs.
  set (set_addr := fun (x : list Z) (s : stratum) => if redirect : bool then s else s <| addr := x |>).
  assert (forall x, (length x < 16)%nat -> good (set_addr x s)) as Hset.
  { intros x Hx. unfold set_addr. destruct redirect; [done|].
    apply (good_same s); [done|fields|done..]. }
  cbv zeta. destruct (if negb (length addr0 =? 0)%nat then inr addr0 else resolved a) as [err|ad] eqn:Er.
  { intros [= <- <-]. specialize (Hset [] ltac:(cbn; lia)). destruct Hset as [Hw Hd].
    eapply (good_same (set_addr [] s)); [done| |done..]. apply wf_back_off. fields. }
  assert (redirect = false -> (length ad < 16)%nat) as Had.
  { intros Hr. destruct (negb _); [injection Er as <-; by apply Hl|]. rewrite Er in Ha1. lia. }
  assert (good (set_addr ad s)) as Hg2.
  { unfold set_addr in *. destruct redirect; [done|]. apply (Hset ad). by apply Had. }
  destruct (new_socket a) as [e|f].
  { intros [= <- <-]. eapply (good_same (set_addr ad s)); [done| |done..]. destruct Hg2 as [Hw _]. fields. }
  destruct (negb (parses a)).
  { intros [= <- <-].
    assert (good (set_addr [] (set_addr ad s))) as Hg3.
    { unfold set_addr in *. destruct redirect; [done|]. destruct Hg2 as [Hw _].
      eapply (good_same (s <| addr := ad |>)); [by apply (Hset ad), Had|fields|done..]. }
    destruct Hg3 as [Hw Hd]. eapply (good_same (set_addr [] (set_addr ad s))); [done| |done..].
    fields; by_compute. }
  destruct (connect_errno _) as [e|].
  { intros [= <- <-]. destruct Hg2 as [Hw Hd]. eapply (good_same (set_addr ad s)); [done| |done..].
    apply wf_back_off. unfold connect_error. fields. }
  apply greet_good; [|done]. destruct Hg2 as [Hw _]. fields; unfold RX_SIZE, BACKOFF_MAX_S; lia.
Qed.

Lemma poll_good a sends recvs s now s' w :
  good s -> sound_attempt a -> stratum_poll strerror undef a sends recvs s now = Some (s', w) -> good s'.
Proof.
  intros Hg Ha. unfold stratum_poll. destruct (Z.ltb_spec (fd s) 0); [by apply dial_good|].
  destruct (recv_loop _ _ _) as [ok s1] eqn:E. apply recv_loop_inv in E as [H1 H2]; [|apply Hg|done].
  destruct ok; cbn [negb]; intros [= <- <-]; [|by split; [|apply H2]].
  apply dispatch_inv; [done|lia|apply H1].
Qed.
Lemma submit_good sends s j e t n ok s' w :
  good s -> stratum_submit sends s j e t n = Some (ok, s', w) -> good s'.
Proof.
  intros Hg. unfold stratum_submit. destruct (Z.ltb_spec (fd s) 0) as [|Hf]; [by intros [= <- <- <-]|].
  set (s1 := s <| next_id := _ |>). pose proof (proj1 Hg) as Hs.
  assert (wf_session s1 /\ 0 <= fd s1) as [H1 F1] by (split; [fields|done]). clearbody s1.
  destruct (send_line _ _ _) as [[[[ok1 s2] w1] r1]|] eqn:E1; cbn [mbind option_bind]; [|done].
  apply send_line_good in E1 as [G1 E1]; [|done..]. cbn in G1, E1.
  destruct ok1; cbn [negb]; intros [= <- <- <-]; [|done]. rewrite (E1 eq_refl).
  apply good_up; [fields|done].
Qed.
End Steps.

End Stratum.
