(* ===== verification/StratumMessages.v ===== *)
(** * The pool's messages (src/miner/stratum.c, dispatch and submit)

    What the handlers make of whole JSON messages, printed in any shape, and what
    the session prints itself. *)
From Stdlib Require Import SpecFloat.
From S2P Require Import Prelude Cdouble Decimal Job Json StratumTarget Stratum.

Module StratumMessages.
Import Cdouble Decimal Job Json StratumTarget Stratum.
Local Open Scope word_scope.

(** ** Reading printed requests *)
Import Json.Spec.

Lemma inserts_all (b : list Z) n : (length b <= n)%nat ->
  list_inserts 0 b (replicate n 0) = b ++ replicate (n - length b) 0.
Proof.
  intros Hn. rewrite list_inserts_splice by len. rewrite take_0, Nat.add_0_l. cbn [app]. by rewrite drop_replicate.
Qed.
Lemma hex_exactly_quoted n b r :
  array n b -> (n < STRATUM_MAX_CB + 2)%nat -> hex_exactly n (quoted (bin2hex b) ++ r) = Some b.
Proof.
  intros [Hl Hb] Hn. unfold hex_exactly. rewrite js_hex_bin2hex by (done || lia).
  rewrite Hl, Nat.eqb_refl, inserts_all by lia. by rewrite Hl, Nat.sub_diag, app_nil_r.
Qed.
Lemma hex_upto_quoted n b r :
  bytes b -> (length b <= n)%nat -> (length b < STRATUM_MAX_CB + 2)%nat ->
  hex_upto n (quoted (bin2hex b) ++ r) = Some b.
Proof.
  intros Hb Hn Hl. unfold hex_upto. rewrite js_hex_bin2hex by done.
  rewrite inserts_all by done. by rewrite take_app_length.
Qed.

Section Reading.
Context (w : list Z) (Hw : Forall (fun c => is_ws c = true) w).

(** An element of an array of printed values, as the text its pointer is at. *)
Lemma elem_at l r i v :
  Forall wf l -> l !! i = Some v ->
  exists r', delimited r' /\ js_elem (print w (JArr l) ++ r) (Z.of_nat i) = Some (print w v ++ r').
Proof using Hw. intros Hl Hi. pose proof (js_elem_print w Hw l r i Hl) as H. by rewrite Hi in H. Qed.
Lemma elem_none l r i :
  Forall wf l -> l !! i = None -> js_elem (print w (JArr l) ++ r) (Z.of_nat i) = None.
Proof using Hw. intros Hl Hi. pose proof (js_elem_print w Hw l r i Hl) as H. by rewrite Hi in H. Qed.
Lemma get_at o r k v :
  Forall wf_member o -> find_key k o = Some v ->
  exists r', delimited r' /\ js_get (print w (JObj o) ++ r) k = Some (print w v ++ r').
Proof using Hw. intros Ho Hk. pose proof (js_get_print w Hw o r k Ho) as H. by rewrite Hk in H. Qed.
Lemma get_none o r k :
  Forall wf_member o -> find_key k o = None -> js_get (print w (JObj o) ++ r) k = None.
Proof using Hw. intros Ho Hk. pose proof (js_get_print w Hw o r k Ho) as H. by rewrite Hk in H. Qed.

Definition json_hex (b : list Z) : json := JStr (bin2hex b).
Definition json_bool (b : bool) : json := JBare (if b then str "true" else str "false").
Lemma print_str s : print w (JStr s) = quoted s.
Proof. done. Qed.
Lemma print_hex b : print w (json_hex b) = quoted (bin2hex b).
Proof. done. Qed.
Lemma wf_hex b : bytes b -> wf (json_hex b).
Proof. apply plain_bin2hex. Qed.
Lemma wf_bool b : wf (json_bool b).
Proof. unfold json_bool, wf, bare_char. destruct b; by_compute. Qed.
Lemma js_true_bool b r : js_true (print w (json_bool b) ++ r) = b.
Proof. destruct b; [apply js_true_true|apply js_true_false]. Qed.

(** The parameters of the [mining.notify] for a job; [version] is ignored, and so
    is anything after the ninth parameter. *)
Definition notify_params (j : stratum_job) (version : json) (more : list json) : list json :=
  [JStr (job_id j); json_hex (prevhash j); json_hex (coinb1 j); json_hex (coinb2 j);
   JArr (json_hex <$> branches j); version; json_hex (le_bytes 4 (nbits j));
   json_hex (ntime j); json_bool (clean j)] ++ more.

Lemma wf_notify_params j version more :
  wf_job j -> plain (job_id j) -> wf version -> Forall wf more -> Forall wf (notify_params j version more).
Proof.
  intros Hj Hid Hv Hm. apply Forall_app. split; [|done].
  destruct (wf_prevhash j Hj) as [_ Hp], (wf_coinb1 j Hj) as [H1 _], (wf_coinb2 j Hj) as [H2 _].
  destruct (wf_ntime j Hj) as [_ Ht], (wf_branches j Hj) as [Hb _].
  repeat match goal with |- Forall wf (_ :: _) => apply Forall_cons; split end;
    try first [exact Hid|exact Hv|by apply wf_hex].
  - apply wf_arr. apply Forall_fmap. eapply Forall_impl; [exact Hb|].
    intros b [_ Hb']. by apply wf_hex.
  - apply wf_hex, bytes_le_bytes.
  - apply wf_bool.
  - constructor.
Qed.

Lemma read_branches l r :
  Forall (array 32) l ->
  mapM (fun i => e ← js_elem (print w (JArr (json_hex <$> l)) ++ r) (Z.of_nat i); hex_exactly 32 e)
    (List.seq 0 (length l)) = Some l.
Proof using Hw.
  intros Hl. assert (Forall wf (json_hex <$> l)) as Hwf.
  { apply Forall_fmap. eapply Forall_impl; [exact Hl|]. intros b [_ Hb]. by apply wf_hex. }
  apply mapM_Some. apply Forall2_same_length_lookup_2; [len|].
  intros i k b Hk Hb. apply lookup_seq in Hk as [-> _].
  rewrite Forall_lookup in Hl. pose proof (Hl _ _ Hb) as Hab.
  cbn beta. rewrite Nat.add_0_l.
  destruct (elem_at (json_hex <$> l) r i (json_hex b) Hwf) as (r' & _ & ->).
  { by rewrite list_lookup_fmap, Hb. }
  cbn [mbind option_bind print json_hex]. rewrite hex_exactly_quoted; [done|done|cbn; lia].
Qed.

(** The four bytes of [nbits] on the wire. *)
Lemma nbits_read v :
  is_word 32 v ->
  let b := le_bytes 4 v in
  (b !!! 3%nat ≪ 24) .| (b !!! 2%nat ≪ 16) .| (b !!! 1%nat ≪ 8) .| b !!! 0%nat = v.
Proof.
  intros Hv b. transitivity (le_val b); [|subst b; rewrite le_val_le_bytes; by apply Z.mod_small].
  pose proof (bytes_le_bytes 4 v) as Hb. fold b in Hb.
  assert (length b = 4%nat) as Hl by apply length_le_bytes.
  destruct b as [|b0 [|b1 [|b2 [|b3 [|]]]]]; try done.
  apply Forall_cons in Hb as [B0 Hb]. apply Forall_cons in Hb as [B1 Hb].
  apply Forall_cons in Hb as [B2 Hb]. apply Forall_cons in Hb as [B3 _].
  change (((b3 ≪ 24) .| (b2 ≪ 16) .| (b1 ≪ 8) .| b0) = le_val [b0; b1; b2; b3]).
  assert (forall x n, 0 <= n -> x ≪ (n + 8) = (x ≪ n) ≪ 8) as Hsh
    by (intros; rewrite Z.shiftl_shiftl by lia; f_equal; lia).
  change 24 with (16 + 8). change 16 with (8 + 8) at 2. rewrite !Hsh by lia.
  rewrite <- !Z.shiftl_lor. change 16 with (8 + 8). rewrite !Hsh by lia.
  rewrite <- !Z.shiftl_lor. rewrite !lor_add by (lia || done). cbn [le_val]. lia.
Qed.

Lemma notify_job_print j version more r :
  wf_job j -> plain (job_id j) -> wf version -> Forall wf more ->
  notify_job (job_seq j) (print w (JArr (notify_params j version more)) ++ r) = Some j.
Proof using Hw.
  intros Hj Hid Hv Hm. pose proof (wf_notify_params j version more Hj Hid Hv Hm) as Hwf.
  pose proof (fun i v => elem_at (notify_params j version more) r i v Hwf) as Hat.
  destruct (Hat 0%nat _ eq_refl) as (r0 & _ & E0), (Hat 1%nat _ eq_refl) as (r1 & _ & E1),
    (Hat 2%nat _ eq_refl) as (r2 & _ & E2), (Hat 3%nat _ eq_refl) as (r3 & _ & E3),
    (Hat 4%nat _ eq_refl) as (r4 & _ & E4), (Hat 6%nat _ eq_refl) as (r6 & _ & E6),
    (Hat 7%nat _ eq_refl) as (r7 & _ & E7), (Hat 8%nat _ eq_refl) as (r8 & _ & E8). clear Hat.
  change (Z.of_nat 0) with 0 in E0. change (Z.of_nat 1) with 1 in E1. change (Z.of_nat 2) with 2 in E2.
  change (Z.of_nat 3) with 3 in E3. change (Z.of_nat 4) with 4 in E4. change (Z.of_nat 6) with 6 in E6.
  change (Z.of_nat 7) with 7 in E7. change (Z.of_nat 8) with 8 in E8.
  unfold notify_job. rewrite js_count_print by done.
  rewrite (proj2 (Z.ltb_ge _ _)) by (unfold notify_params; rewrite length_app; cbn [length]; lia).
  rewrite E0, E1, E2, E3, E4, E6, E7, E8. cbn [mbind option_bind].
  clear E0 E1 E2 E3 E4 E6 E7 E8.
  destruct (wf_coinb1 j Hj) as [B1 L1], (wf_coinb2 j Hj) as [B2 L2], (wf_branches j Hj) as [Bb Lb].
  pose proof (wf_job_id j Hj) as Li. unfold STRATUM_MAX_CB, STRATUM_MAX_BRANCHES in *.
  rewrite print_str, js_str_quoted by (done || (rewrite length_replicate; lia)). cbn [negb].
  rewrite !print_hex.
  rewrite (hex_exactly_quoted 32 (prevhash j)) by (first [apply (wf_prevhash j Hj)|unfold STRATUM_MAX_CB; lia]). cbn [mbind option_bind].
  rewrite (hex_upto_quoted 512 (coinb1 j)), (hex_upto_quoted 512 (coinb2 j)) by (done || (unfold STRATUM_MAX_CB; lia)). cbn [mbind option_bind].
  rewrite js_count_print by (done || (apply Forall_fmap; eapply Forall_impl;
    [exact Bb|intros b [_ Hb]; by apply wf_hex])).
  rewrite length_fmap, (proj2 (Z.ltb_ge _ 0)), (proj2 (Z.ltb_ge _ _)) by lia. cbn [orb].
  rewrite Nat2Z.id, read_branches by done. cbn [mbind option_bind].
  rewrite (hex_exactly_quoted 8 (ntime j)) by (first [apply (wf_ntime j Hj)|unfold STRATUM_MAX_CB; lia]). cbn [mbind option_bind].
  rewrite (hex_exactly_quoted 4 (le_bytes 4 _)) by (first [split; [apply length_le_bytes|apply bytes_le_bytes]|unfold STRATUM_MAX_CB; lia]).
  cbn [mbind option_bind]. rewrite nbits_read by apply (wf_nbits j Hj).
  rewrite js_true_bool, cstr_app by by apply plain_nz. by destruct j.
Qed.
End Reading.

(** ** Numbers in messages *)
Lemma delimited_number r : delimited r -> number_end r.
Proof.
  intros [->|H]; [done|]. destruct r as [|c r]; [done|]. cbn [cur] in H. cbn [number_end].
  unfold ends_bare, is_ws in H. rewrite !orb_true_iff, !Z.eqb_eq in H.
  assert (c ∈ [44; 93; 125; 32; 9; 13; 10]) as Hin by (rewrite !elem_of_cons; tauto).
  assert (Forall (fun c => digit 10 c = None /\ c <> 46 /\ lower c <> 101 /\ lower c <> 120)
    [44; 93; 125; 32; 9; 13; 10]) as Hall by by_compute.
  rewrite Forall_forall in Hall. by apply Hall.
Qed.
Definition json_num (n : Z) : json := JBare (dec n).
Lemma wf_num n : 0 <= n < 2 ^ 64 -> wf (json_num n).
Proof.
  intros Hn. destruct (dec_spec n Hn) as (c & l & Hd & Hl & _).
  change (dec n <> [] /\ Forall bare_char (dec n)). rewrite Hd. split; [done|].
  eapply Forall_impl; [exact Hl|]. intros x Hx. unfold is_digit in Hx. unfold bare_char.
  split_and!; [|lia..]. unfold ends_bare, is_ws.
  rewrite !(proj2 (Z.eqb_neq _ _)) by lia. done.
Qed.
Lemma js_num_print w n r :
  0 <= n < 2 ^ 64 -> delimited r -> js_num (print w (json_num n) ++ r) = of_decimal n 0.
Proof.
  intros Hn Hr. unfold js_num. rewrite js_ws_print by by apply wf_num.
  cbn [print json_num]. by apply strtod_dec, delimited_number.
Qed.
Lemma cast_js_num undef w lo hi n r :
  0 <= n < 2 ^ 53 -> lo <= 0 -> n <= hi -> delimited r ->
  cast undef lo hi (js_num (print w (json_num n) ++ r)) = n.
Proof.
  intros Hn Hlo Hh Hr. assert (2 ^ 53 < 2 ^ 64) by done. rewrite js_num_print by (done || lia).
  rewrite <- (strtod_dec n []) by (done || lia). by apply cast_strtod_dec.
Qed.

(** The sizes [mining.subscribe] may announce. *)
Lemma en2_size_read undef n :
  1 <= n <= 32 ->
  let d := of_decimal n 0 in
  (dlt d d_1 || dlt (of_Z (Z.of_nat STRATUM_MAX_EN2)) d) = false
  /\ (dle d_1 d && dle d (of_Z (Z.of_nat STRATUM_MAX_EN2))) = true
  /\ cast undef 0 (2 ^ 64 - 1) d = n.
Proof.
  intros Hn d. split_and!.
  1, 2: assert (Forall (fun n => (dlt (of_decimal n 0) d_1 || dlt (of_Z (Z.of_nat STRATUM_MAX_EN2)) (of_decimal n 0)) = false
    /\ (dle d_1 (of_decimal n 0) && dle (of_decimal n 0) (of_Z (Z.of_nat STRATUM_MAX_EN2))) = true) (seqZ 1 32)) as H
    by by_compute; rewrite Forall_forall in H; apply H, elem_of_seqZ; lia.
  subst d. rewrite <- (strtod_dec n []) by (done || (assert (2 ^ 64 = 18446744073709551616) by done; lia)).
  apply cast_strtod_dec; [|lia|lia|done]. assert (2 ^ 53 = 9007199254740992) by done. lia.
Qed.
(** Waits of up to an hour, clamped to five minutes. *)
Lemma wait_read undef n :
  0 <= n <= 3600 -> cast undef 0 (2 ^ 64 - 1) (clamp_wait (of_decimal n 0)) = n `min` 300.
Proof.
  intros Hn. assert (Forall (fun n => trunc (clamp_wait (of_decimal n 0)) = Some (n `min` 300)) (seqZ 0 3601)) as H
    by by_compute.
  rewrite Forall_forall in H. unfold cast. rewrite H by (apply elem_of_seqZ; lia).
  assert (2 ^ 64 = 18446744073709551616) by done.
  by rewrite (proj2 (Z.leb_le 0 _)), (proj2 (Z.leb_le _ (2 ^ 64 - 1))) by lia.
Qed.

(** ** Whole messages *)
Section Messages.
Context (undef : double -> Z).
Context (w : list Z) (Hw : Forall (fun c => is_ws c = true) w).

(** A request line: its method and parameters, wherever they stand. *)
Lemma on_line_request s o r m params now :
  Forall wf_member o -> plain m -> (length m < 64)%nat -> wf params ->
  find_key (str "method") o = Some (JStr m) -> find_key (str "params") o = Some params ->
  exists r', delimited r' /\
    on_line undef s (print w (JObj o) ++ r) now = on_request undef s m (print w params ++ r') now.
Proof using Hw.
  intros Ho Hm Hl Hp Fm Fp. unfold on_line.
  destruct (get_at w Hw o r _ _ Ho Fm) as (r1 & _ & ->).
  rewrite print_str, js_str_quoted by (done || (rewrite length_replicate; lia)). cbn [negb].
  destruct (get_at w Hw o r _ _ Ho Fp) as (r2 & Hr2 & ->).
  exists r2. split; [done|]. by rewrite cstr_app by by apply plain_nz.
Qed.

(** A reply line: its identifier, result and error texts. *)
Definition member_text (v : option json) (t : option (list Z)) : Prop :=
  match v with
  | Some v => exists r', delimited r' /\ t = Some (print w v ++ r')
  | None => t = None
  end.
Lemma js_get_text o r k :
  Forall wf_member o -> member_text (find_key k o) (js_get (print w (JObj o) ++ r) k).
Proof using Hw.
  intros Ho. pose proof (js_get_print w Hw o r k Ho) as H. unfold member_text.
  destruct (find_key k o); done.
Qed.
Lemma on_line_reply s o r id now :
  Forall wf_member o -> 0 <= id < 2 ^ 53 ->
  find_key (str "method") o = None -> find_key (str "id") o = Some (json_num id) ->
  exists res err, member_text (find_key (str "result") o) res
    /\ member_text (find_key (str "error") o) err
    /\ on_line undef s (print w (JObj o) ++ r) now = on_reply undef s id res err.
Proof using Hw.
  intros Ho Hid Fm Fi. unfold on_line. rewrite (get_none w Hw o r _ Ho Fm).
  destruct (get_at w Hw o r _ _ Ho Fi) as (r1 & Hr1 & ->).
  assert (2 ^ 53 < 2 ^ 64) by done. rewrite cast_js_num by (done || lia).
  exists (js_get (print w (JObj o) ++ r) (str "result")), (js_get (print w (JObj o) ++ r) (str "error")).
  split_and!; [by apply js_get_text|by apply js_get_text|done].
Qed.

(** C11: A [mining.notify] is decoded exactly. Any JSON object whose method is
    mining.notify and whose params are the nine fields of a well-formed job, in any
    member order, with any white space, any version field and any further
    parameters, makes that job the session's job, with the next sequence number,
    and counts it; nothing else of the session changes. *)
Theorem notify_sets_job s o r j version more now :
  wf_job j -> plain (job_id j) -> wf version -> Forall wf more -> Forall wf_member o ->
  find_key (str "method") o = Some (JStr (str "mining.notify")) ->
  find_key (str "params") o = Some (JArr (notify_params j version more)) ->
  job_seq j = u64 (job_seq (job s) + 1) ->
  on_line undef s (print w (JObj o) ++ r) now
  = s <| job := j |> <| have_job := true |> <| jobs_received := u64 (jobs_received s + 1) |>.
Proof using Hw.
  intros Hj Hid Hv Hm Ho Fm Fp Hseq.
  destruct (on_line_request s o r (str "mining.notify") _ now Ho ltac:(by_compute) ltac:(vm_compute; lia)
    (proj2 (wf_arr _) (wf_notify_params j version more Hj Hid Hv Hm)) Fm Fp) as (r' & Hr' & ->).
  unfold on_request. rewrite bool_decide_eq_true_2 by done.
  unfold on_notify. rewrite <- Hseq. by rewrite notify_job_print.
Qed.

(** The session with a job accepted. *)
Definition given (j : stratum_job) (s : stratum) : stratum :=
  s <| job := j |> <| have_job := true |> <| jobs_received := u64 (jobs_received s + 1) |>.

(** C40: Whatever text arrives as the parameters of a [mining.notify], the session
    either is left exactly as it was or gets a well-formed job (every field within
    the bounds of its array, at most 32 branches of 32 bytes) whose sequence number
    is the next one; there is no partly decoded job. *)
Theorem notify_all_or_nothing s params :
  on_notify s params = s
  \/ exists j, wf_job j /\ job_seq j = u64 (job_seq (job s) + 1) /\ on_notify s params = given j s.
Proof.
  unfold on_notify. destruct (notify_job _ _) as [j|] eqn:E; [|by left].
  apply notify_job_wf in E as [H1 H2]; [|apply u64_word]. right. by exists j.
Qed.

Lemma on_reply_sub s r x en1 n more r' err :
  bytes en1 -> (length en1 <= STRATUM_MAX_EN1)%nat -> length (extranonce1 s) = 32%nat -> 1 <= n <= 32 ->
  wf x -> Forall wf more -> r = print w (JArr (x :: json_hex en1 :: json_num n :: more)) ++ r' ->
  on_reply undef s (sub_id s) (Some r) err
  = s <| extranonce1 := en1 ++ skipn (length en1) (extranonce1 s) |> <| en1_len := length en1 |>
      <| en2_size := n |> <| subscribed := true |>.
Proof using Hw.
  intros Hb Hl He Hn Hx Hm ->. unfold on_reply. rewrite Z.eqb_refl.
  assert (2 ^ 64 = 18446744073709551616) by done. unfold STRATUM_MAX_EN1 in *.
  assert (Forall wf (x :: json_hex en1 :: json_num n :: more)) as Hwf.
  { repeat match goal with |- Forall wf (_ :: _) => apply Forall_cons; split end; try done;
      [by apply wf_hex|apply wf_num; lia]. }
  rewrite js_ws_print by by apply wf_arr. set (l := x :: _) in *.
  change (cur (print w (JArr l) ++ r') =? 91) with true. cbv iota. unfold on_subscribe.
  destruct (elem_at w Hw _ r' 1%nat _ Hwf eq_refl) as (r1 & Hr1 & E1).
  destruct (elem_at w Hw _ r' 2%nat _ Hwf eq_refl) as (r2 & Hr2 & E2).
  change (Z.of_nat 1) with 1 in E1. change (Z.of_nat 2) with 2 in E2. rewrite E1, E2. clear E1 E2.
  rewrite print_hex, js_hex_bin2hex by (done || (unfold STRATUM_MAX_CB; lia)).
  rewrite js_num_print by (done || lia). destruct (en2_size_read undef n Hn) as (-> & _ & ->).
  rewrite list_inserts_splice by lia. by rewrite take_0.
Qed.

Lemma result_true_bool res b : member_text (Some (json_bool b)) res -> result_true res = b.
Proof. intros (r' & _ & ->). apply js_true_bool. Qed.

(** What [js_true] sees of a result: a token that starts with [true]. *)
Definition says_true (v : option json) : bool :=
  match v with Some (JBare t) => bool_decide (take 4 t = str "true") | _ => false end.
Definition is_array (v : option json) : bool := match v with Some (JArr _) => true | _ => false end.
Lemma true_prefix t r : Forall bare_char t -> delimited r -> bool_decide (take 4 (t ++ r) = str "true") = bool_decide (take 4 t = str "true").
Proof.
  intros Ht Hr. destruct (decide (4 <= length t)%nat) as [Hl|Hl]; [by rewrite take_app_le|].
  assert (take 4 t <> str "true") as Hn by (intros E; apply (f_equal length) in E; rewrite length_take in E; change (length (str "true")) with 4%nat in E; lia).
  rewrite (bool_decide_eq_false_2 (take 4 t = _)) by done. apply bool_decide_eq_false_2. intros E.
  destruct Hr as [->|Hr]; [by rewrite app_nil_r in E|]. destruct r as [|c r]; [done|]. cbn [cur] in Hr.
  assert (str "true" !! length t = Some c) as Hc.
  { rewrite <- E, lookup_take_lt by lia. by apply list_lookup_middle. }
  apply (f_equal (fmap ends_bare)) in Hc. cbn [fmap option_fmap option_map] in Hc. rewrite Hr in Hc. clear -Hc Hl.
  destruct (length t) as [|[|[|[|k]]]]; [done..|lia].
Qed.
Lemma js_true_print v r : wf v -> delimited r -> js_true (print w v ++ r) = says_true (Some v).
Proof using Hw.
  intros Hv Hr. unfold js_true. rewrite js_ws_print by done. destruct v as [t|t|l|l]; [by apply bool_decide_eq_false_2| |by apply bool_decide_eq_false_2..].
  apply true_prefix; [apply Hv|done].
Qed.
Lemma result_true_text v res : (forall x, v = Some x -> wf x) -> member_text v res -> result_true res = says_true v.
Proof using Hw.
  intros Hv. destruct v as [v|]; cbn [member_text]; [|by intros ->].
  intros (r & Hr & ->). apply js_true_print; [by apply Hv|done].
Qed.
Lemma opens_array_text v res : (forall x, v = Some x -> wf x) -> member_text v res -> opens_array res = is_array v.
Proof using Hw.
  intros Hv. destruct v as [v|]; cbn [member_text]; [|by intros ->]. intros (r & _ & ->). unfold opens_array.
  rewrite js_ws_print by by apply Hv. specialize (Hv v eq_refl). destruct v as [t|t|l|l]; [done| |done..].
  destruct Hv as [Hn Hb]. destruct t as [|c t]; [done|]. apply Forall_cons in Hb as [(_ & _ & Hc & _) _].
  cbn. by apply Z.eqb_neq.
Qed.
Lemma find_key_wf k o x : Forall wf_member o -> find_key k o = Some x -> wf x.
Proof.
  unfold find_key. intros Ho. destruct (List.find _ o) as [kv|] eqn:E; [|done]. intros [= <-].
  apply List.find_some in E as [E _]. rewrite Forall_forall in Ho. by apply (Ho kv), list_elem_of_In.
Qed.

(** A subscribe reply writes four fields, an authorize reply two. *)
Definition handshake_only (s s' : stratum) : Prop :=
  s' = s <| extranonce1 := extranonce1 s' |> <| en1_len := en1_len s' |> <| en2_size := en2_size s' |>
         <| subscribed := subscribed s' |> <| authorized := authorized s' |> <| last_error := last_error s' |>.
Lemma on_subscribe_frame s r : handshake_only s (on_subscribe undef s r).
Proof.
  unfold handshake_only, on_subscribe. destruct s. destruct (js_elem r 1); [|done]. destruct (js_elem r 2); [|done].
  destruct (js_hex _ _ _) as [[got|] e]; [|done]. by destruct (_ || _).
Qed.
Lemma on_reply_handshake s id res err :
  id ∈ [sub_id s; auth_id s; suggest_diff_id s] -> handshake_only s (on_reply undef s id res err).
Proof.
  intros Hin. unfold on_reply. destruct (Z.eqb_spec id (sub_id s)) as [|H1].
  { destruct res as [r|]; [destruct (_ =? 91); [apply on_subscribe_frame|]|]; by destruct s. }
  destruct (Z.eqb_spec id (auth_id s)) as [|H2]; [destruct (negb _); by destruct s|].
  destruct (Z.eqb_spec id (suggest_diff_id s)) as [|H3]; [by destruct s|].
  clear -Hin H1 H2 H3. exfalso. rewrite !elem_of_cons in Hin. destruct Hin as [?|[?|[?|?%elem_of_nil]]]; done.
Qed.

(** The reason of a rejection. *)
Lemma rejection_reason s e err :
  wf_session s -> (forall x, e = Some x -> wf x) -> member_text e err ->
  let t := s <| shares_rejected := u64 (shares_rejected s + 1) |> <| last_reject := <[0%nat := 0]> (last_reject s) |> in
  let s' := match err with
    | Some v => if cur (js_ws v) =? 91
                then match js_elem v 1 with Some msg => t <| last_reject := (js_str msg (last_reject t)).2 |> | None => t end
                else t
    | None => t
    end in
  s' = s <| shares_rejected := u64 (shares_rejected s + 1) |> <| last_reject := last_reject s' |>
  /\ (is_array e = false -> cstr (last_reject s') = [])
  /\ (forall x msg more, e = Some (JArr (x :: JStr msg :: more)) -> plain msg -> (length msg < 128)%nat ->
      cstr (last_reject s') = msg).
Proof using Hw.
  intros Hs He Ht t s'. pose proof (opens_array_text e err He Ht) as Ha. unfold opens_array in Ha.
  assert (length (<[0%nat:=0]> (last_reject s)) = 128%nat) as Hlen by (rewrite length_insert; apply (wf_last_reject s Hs)).
  split; [|split].
  - subst s' t. destruct err as [v|]; [destruct (_ =? 91); [destruct (js_elem v 1)|]|]; by destruct s.
  - intros Hn. rewrite Hn in Ha. assert (s' = t) as -> by (subst s'; destruct err; [by rewrite Ha|done]).
    change (last_reject t) with (<[0%nat:=0]> (last_reject s)). rewrite length_insert in Hlen. by destruct (last_reject s).
  - intros x msg more -> Hm Hl. specialize (He _ eq_refl). destruct Ht as (r' & _ & ->). subst s'. rewrite Ha.
    cbn [is_array]. apply wf_arr in He. destruct (elem_at w Hw _ r' 1%nat _ He eq_refl) as (r1 & Hr1 & E1).
    change (Z.of_nat 1) with 1 in E1. rewrite E1, print_str.
    change (last_reject (t <| last_reject := ?b |>)) with b. change (last_reject t) with (<[0%nat:=0]> (last_reject s)).
    rewrite js_str_quoted by (done || lia). by apply cstr_app, plain_nz.
Qed.

(** C33: Replies are matched by identifier. For a session whose three handshake
    requests have different identifiers, a reply line with no method, whatever its result
    is (an array, a token, anything else, or missing), is handled as follows. A reply to
    one of the three requests touches at most the extranonce, its sizes, the two
    handshake flags and the last error: no counter of shares and no reason of a
    rejection, whether the pool agrees or refuses. A well-formed subscribe reply sets the
    extranonce and its size and marks the session subscribed, one that is not an array
    changes nothing; the authorize reply sets [authorized] to its result and names the
    worker in the error if it is not true; the suggest_difficulty reply changes nothing.
    Any other reply is a verdict: it adds one to the accepted shares if its result is
    true, and otherwise adds one to the rejected shares and keeps the reason of the pool,
    or an empty one if the error is not an array; nothing else changes. *)
Theorem replies_matched s o r id now :
  Forall wf_member o -> 0 <= id < 2 ^ 53 ->
  find_key (str "method") o = None -> find_key (str "id") o = Some (json_num id) ->
  NoDup [sub_id s; auth_id s; suggest_diff_id s] -> wf_session s ->
  let s' := on_line undef s (print w (JObj o) ++ r) now in
  let result := find_key (str "result") o in
  (id ∈ [sub_id s; auth_id s; suggest_diff_id s] ->
     handshake_only s s' /\ shares_accepted s' = shares_accepted s /\ shares_rejected s' = shares_rejected s
     /\ last_reject s' = last_reject s)
  /\ (forall x en1 n more, id = sub_id s ->
     result = Some (JArr (x :: json_hex en1 :: json_num n :: more)) ->
     bytes en1 -> (length en1 <= STRATUM_MAX_EN1)%nat -> 1 <= n <= 32 -> wf x -> Forall wf more ->
     s' = s <| extranonce1 := en1 ++ skipn (length en1) (extranonce1 s) |> <| en1_len := length en1 |>
            <| en2_size := n |> <| subscribed := true |>)
  /\ (id = sub_id s -> is_array result = false -> s' = s)
  /\ (id = auth_id s -> says_true result = true -> s' = s <| authorized := true |>)
  /\ (id = auth_id s -> says_true result = false ->
     s' = s <| authorized := false |> <| last_error := snprintf 192 (str "pool rejected worker " ++ worker s) |>)
  /\ (id = suggest_diff_id s -> s' = s)
  /\ (id ∉ [sub_id s; auth_id s; suggest_diff_id s] -> says_true result = true ->
     s' = s <| shares_accepted := u64 (shares_accepted s + 1) |>)
  /\ (id ∉ [sub_id s; auth_id s; suggest_diff_id s] -> says_true result = false ->
     s' = s <| shares_rejected := u64 (shares_rejected s + 1) |> <| last_reject := last_reject s' |>
     /\ (is_array (find_key (str "error") o) = false -> cstr (last_reject s') = [])
     /\ (forall x msg more, find_key (str "error") o = Some (JArr (x :: JStr msg :: more)) ->
        plain msg -> (length msg < 128)%nat -> cstr (last_reject s') = msg)).
Proof using Hw.
  intros Ho Hid Fm Fi Hnd Hs s' result.
  destruct (on_line_reply s o r id now Ho Hid Fm Fi) as (res & err & Hres & Herr & Heq).
  subst s'. rewrite Heq. clear Heq. subst result. set (result := find_key (str "result") o) in *.
  assert (forall x, result = Some x -> wf x) as Hwr by (intros x; by apply find_key_wf).
  assert (forall x, find_key (str "error") o = Some x -> wf x) as Hwe by (intros x; by apply find_key_wf).
  pose proof (result_true_text _ _ Hwr Hres) as Ht. pose proof (opens_array_text _ _ Hwr Hres) as Ha.
  rewrite !NoDup_cons, !not_elem_of_cons in Hnd. destruct Hnd as ((N1 & N2 & _) & (N3 & _) & _).
  assert (id ∉ [sub_id s; auth_id s; suggest_diff_id s] -> on_reply undef s id res err = on_verdict s res err) as Hv.
  { rewrite !not_elem_of_cons. intros (H1 & H2 & H3 & _). unfold on_reply. by rewrite !(proj2 (Z.eqb_neq id _)). }
  split_and!.
  - intros Hin. pose proof (on_reply_handshake s id res err Hin) as E. split; [done|]. by rewrite E.
  - intros x en1 n more -> Fr Hb Hl Hn Hx Hm. rewrite Fr in Hres. destruct Hres as (r' & _ & ->).
    eapply on_reply_sub; eauto. apply (wf_extranonce1 s Hs).
  - intros -> Hf. unfold on_reply. rewrite Z.eqb_refl. rewrite Hf in Ha. destruct res as [x|]; [|done]. cbn in Ha. by rewrite Ha.
  - intros -> Hb. unfold on_reply. rewrite (proj2 (Z.eqb_neq _ _)), Z.eqb_refl, Ht, Hb by done. done.
  - intros -> Hb. unfold on_reply. rewrite (proj2 (Z.eqb_neq _ _)), Z.eqb_refl, Ht, Hb by done. done.
  - intros ->. unfold on_reply. rewrite !(proj2 (Z.eqb_neq (suggest_diff_id s) _)) by done. by rewrite Z.eqb_refl.
  - intros Hin Hb. rewrite Hv by done. unfold on_verdict. by rewrite Ht, Hb.
  - intros Hin Hb. rewrite Hv by done. unfold on_verdict. rewrite Ht, Hb. exact (rejection_reason s _ err Hs Hwe Herr).
Qed.

Lemma set_extranonce_read s params r' en1 n more :
  wf_session s -> Forall wf params -> params = json_hex en1 :: json_num n :: more ->
  bytes en1 -> (length en1 <= STRATUM_MAX_EN1)%nat -> 1 <= n <= 32 ->
  set_extranonce undef s (print w (JArr params) ++ r')
  = s <| extranonce1 := en1 ++ skipn (length en1) (extranonce1 s) |> <| en1_len := length en1 |>
      <| en2_size := n |> <| have_job := false |>.
Proof using Hw.
  intros Hs Hwf Hp Hb Hl Hr. unfold set_extranonce. assert (2 ^ 64 = 18446744073709551616) as H64 by done.
  destruct (elem_at w Hw params r' 0%nat (json_hex en1) Hwf) as (r1 & Hr1 & E1); [by rewrite Hp|].
  destruct (elem_at w Hw params r' 1%nat (json_num n) Hwf) as (r2 & Hr2 & E2); [by rewrite Hp|].
  change (Z.of_nat 0) with 0 in E1. change (Z.of_nat 1) with 1 in E2. rewrite E1, E2, print_hex.
  destruct (wf_extranonce1 s Hs) as [He _]. unfold STRATUM_MAX_EN1 in *.
  rewrite js_hex_bin2hex by (done || (unfold STRATUM_MAX_CB; lia)).
  rewrite js_num_print by (done || lia). destruct (en2_size_read undef n Hr) as (_ & -> & ->).
  rewrite list_inserts_splice by lia. by rewrite take_0.
Qed.
Lemma client_reconnect_read s params r' now h p wt more :
  wf_session s -> Forall wf params -> 0 <= now -> now + 300 < 2 ^ 64 ->
  params = JStr h :: json_num p :: json_num wt :: more ->
  (length h < 128)%nat -> plain h -> 0 <= p < 2 ^ 16 -> 0 <= wt <= 3600 ->
  let s' := client_reconnect undef s (print w (JArr params) ++ r') now in
  fd s' < 0 /\ reconnect_pending s' = true /\ cstr (reconnect_host s') = h /\ reconnect_port s' = p
  /\ addr s' = [] /\ retry_at s' = now + wt `min` 300 /\ host s' = host s /\ port s' = port s
  /\ stratum_ready s' = false /\ rx s' = [].
Proof using Hw.
  intros Hs Hwf Hn0 Hn Hp Hl Hh Hpr Hwt. unfold client_reconnect. assert (2 ^ 64 = 18446744073709551616) as H64 by done.
  destruct (elem_at w Hw params r' 0%nat (JStr h) Hwf) as (r1 & Hr1 & E1); [by rewrite Hp|].
  destruct (elem_at w Hw params r' 1%nat (json_num p) Hwf) as (r2 & Hr2 & E2); [by rewrite Hp|].
  destruct (elem_at w Hw params r' 2%nat (json_num wt) Hwf) as (r3 & Hr3 & E3); [by rewrite Hp|].
  change (Z.of_nat 0) with 0 in E1. change (Z.of_nat 1) with 1 in E2. change (Z.of_nat 2) with 2 in E3.
  rewrite E1, E2, E3, print_str.
  rewrite js_str_quoted by (done || (rewrite (wf_reconnect_host s Hs); lia)). cbn [negb].
  assert (2 ^ 16 = 65536) by done. assert (2 ^ 31 = 2147483648) by done.
  assert (2 ^ 53 = 9007199254740992) by done.
  rewrite (js_num_print w wt) by (done || lia). rewrite wait_read by done.
  rewrite u64_small by (unfold is_word; lia).
  rewrite (cast_js_num undef w _ _ p) by (done || lia).
  set (s1 := s <| reconnect_host := _ |> <| reconnect_port := _ |> <| reconnect_pending := _ |>
    <| addr := _ |> <| retry_at := _ |>).
  destruct (drop_facts s1 (Some (str "pool asked us to reconnect")))
    as (F1 & F2 & F3 & F4 & F5 & F6 & F7 & F8 & F9 & F10).
  rewrite F2, F3, F4, F5, F6, F7, F8, F9, F10.
  split_and!; try done. by apply cstr_app, plain_nz.
Qed.

(** The other requests. set_difficulty takes the number; set_extranonce with
    a usable extranonce and size installs both and drops the job, so the session
    is not ready until the next notify; client.reconnect with a host closes the
    connection, arms the one-time redirect to that host and port, forgets the cached
    address and schedules the dial after the wait, at most 300 seconds. *)
Theorem requests_obeyed s o r now m params :
  Forall wf_member o -> find_key (str "method") o = Some (JStr m) -> find_key (str "params") o = Some (JArr params) ->
  Forall wf params -> wf_session s -> 0 <= now -> now + 300 < 2 ^ 64 ->
  let s' := on_line undef s (print w (JObj o) ++ r) now in
  (forall n more, m = str "mining.set_difficulty" -> params = json_num n :: more -> 0 <= n < 2 ^ 64 ->
     s' = s <| difficulty := of_decimal n 0 |>)
  /\ (forall en1 n more, m = str "mining.set_extranonce" -> params = json_hex en1 :: json_num n :: more ->
     bytes en1 -> (length en1 <= STRATUM_MAX_EN1)%nat -> 1 <= n <= 32 ->
     s' = s <| extranonce1 := en1 ++ skipn (length en1) (extranonce1 s) |> <| en1_len := length en1 |>
            <| en2_size := n |> <| have_job := false |>
     /\ stratum_ready s' = false)
  /\ (forall h p wt more, m = str "client.reconnect" -> params = JStr h :: json_num p :: json_num wt :: more ->
     (length h < 128)%nat -> plain h -> 0 <= p < 2 ^ 16 -> 0 <= wt <= 3600 ->
     fd s' < 0 /\ reconnect_pending s' = true /\ cstr (reconnect_host s') = h /\ reconnect_port s' = p
     /\ addr s' = [] /\ retry_at s' = now + wt `min` 300 /\ host s' = host s /\ port s' = port s
     /\ stratum_ready s' = false /\ rx s' = []).
Proof using Hw.
  intros Ho Fm Fp Hwf Hs Hn0 Hn s'.
  assert (2 ^ 64 = 18446744073709551616) as H64 by done.
  assert (forall k, m = k -> plain k -> (length k < 64)%nat -> exists r', delimited r' /\
    s' = on_request undef s k (print w (JArr params) ++ r') now) as Hreq.
  { intros k -> Hk Hl. by apply on_line_request; try done; try apply wf_arr. }
  split_and!.
  - intros n more Hm Hp Hr. destruct (Hreq _ Hm ltac:(by_compute) ltac:(vm_compute; lia)) as (r' & _ & ->).
    unfold on_request. rewrite (bool_decide_eq_false_2 (_ = str "mining.notify")) by done.
    rewrite bool_decide_eq_true_2 by done. unfold set_difficulty.
    destruct (elem_at w Hw params r' 0%nat (json_num n) Hwf) as (r1 & Hr1 & E1); [by rewrite Hp|].
    change (Z.of_nat 0) with 0 in E1. by rewrite E1, js_num_print.
  - intros en1 n more Hm Hp Hb Hl Hr. destruct (Hreq _ Hm ltac:(by_compute) ltac:(vm_compute; lia)) as (r' & _ & ->).
    unfold on_request. rewrite (bool_decide_eq_false_2 (_ = str "mining.notify")) by done.
    rewrite (bool_decide_eq_false_2 (_ = str "mining.set_difficulty")) by done.
    rewrite bool_decide_eq_true_2 by done. rewrite (set_extranonce_read s params r' en1 n more) by done.
    split; [done|]. unfold stratum_ready. cbn. apply andb_false_r.
  - intros h p wt more Hm Hp Hl Hh Hpr Hwt.
    destruct (Hreq _ Hm ltac:(by_compute) ltac:(vm_compute; lia)) as (r' & _ & ->).
    unfold on_request. rewrite (bool_decide_eq_false_2 (_ = str "mining.notify")) by done.
    rewrite (bool_decide_eq_false_2 (_ = str "mining.set_difficulty")) by done.
    rewrite (bool_decide_eq_false_2 (_ = str "mining.set_extranonce")) by done.
    rewrite bool_decide_eq_true_2 by done. by apply (client_reconnect_read s params r' now h p wt more).
Qed.
End Messages.


(** The request of [stratum_submit] as a JSON object. *)
Definition submit_message (id : Z) (worker job_id en2 ntime nonce : list Z) : list (list Z * json) :=
  [(str "id", json_num id); (str "method", JStr (str "mining.submit"));
   (str "params", JArr [JStr worker; JStr job_id; json_hex en2; json_hex ntime; json_hex nonce])].

Lemma submit_text id wk j e t n :
  dq "{'id':" ++ dec id ++ dq ",'method':'mining.submit','params':['"
    ++ wk ++ dq "','" ++ j ++ dq "','" ++ bin2hex e ++ dq "','" ++ bin2hex t
    ++ dq "','" ++ bin2hex n ++ dq "']}" ++ [10]
  = print [] (JObj (submit_message id wk j e t n)) ++ [10].
Proof.
  unfold submit_message, json_num, json_hex.
  generalize (dec id) as i, (bin2hex e) as e', (bin2hex t) as t', (bin2hex n) as n'. intros.
  cbv -[app]. rewrite <- !app_assoc. cbn [app]. rewrite <- ?app_assoc. cbn [app]. reflexivity.
Qed.
Lemma submit_line_print id wk j e t n :
  0 <= id < 2 ^ 64 -> (length wk < 160)%nat -> (length j < 64)%nat -> (length e <= STRATUM_MAX_EN2)%nat ->
  length t = 8%nat -> length n = 8%nat ->
  submit_line id wk j e t n = print [] (JObj (submit_message id wk j e t n)) ++ [10].
Proof.
  intros Hid Hw Hj He Ht Hn. unfold submit_line, snprintf. rewrite <- submit_text.
  destruct (dec_spec id Hid) as (_ & _ & _ & _ & _ & _ & Hd). unfold STRATUM_MAX_EN2 in He.
  apply take_ge. rewrite !length_app, !length_bin2hex, Ht, Hn.
  change (length (dq "{'id':")) with 6%nat. change (length (dq ",'method':'mining.submit','params':['")) with 37%nat.
  change (length (dq "','")) with 3%nat. change (length (dq "']}")) with 3%nat. cbn [length]. lia.
Qed.

(** A reader of the submission, built from the scanner: what the pool sees. *)
Definition read_text (n : nat) (p : list Z) : option (list Z) :=
  let '(ok, o) := js_str p (replicate n 0) in if ok then Some (cstr o) else None.
Definition read_submit (undef : double -> Z) (wire : list Z)
    : option (Z * list Z * list Z * list Z * list Z * list Z * list Z) :=
  id ← js_get wire (str "id");
  m ← js_get wire (str "method") ≫= read_text 64;
  p ← js_get wire (str "params");
  wk ← js_elem p 0 ≫= read_text 160;
  j ← js_elem p 1 ≫= read_text 64;
  e ← js_elem p 2 ≫= hex_upto 32;
  t ← js_elem p 3 ≫= hex_exactly 8;
  n ← js_elem p 4 ≫= hex_exactly 8;
  Some (cast undef 0 (2 ^ 64 - 1) (js_num id), m, wk, j, e, t, n).

Lemma read_text_quoted n s r : plain s -> (length s < n)%nat -> read_text n (quoted s ++ r) = Some s.
Proof.
  intros Hs Hl. unfold read_text. rewrite js_str_quoted by (done || (rewrite length_replicate; lia)).
  by rewrite cstr_app by by apply plain_nz.
Qed.
(** Whatever the identifier; above 2^53 it reads as the nearest double. *)
Lemma read_submit_line undef id wk j e t n :
  0 <= id < 2 ^ 64 -> plain wk -> (length wk < 160)%nat -> plain j -> (length j < 64)%nat ->
  bytes e -> (length e <= 32)%nat -> array 8 t -> array 8 n ->
  exists id', read_submit undef (print [] (JObj (submit_message id wk j e t n)) ++ [10])
  = Some (id', str "mining.submit", wk, j, e, t, n)
  /\ (id < 2 ^ 53 -> id' = id).
Proof.
  intros Hid Pw Lw Pj Lj Be Le At An.
  set (params := [JStr wk; JStr j; json_hex e; json_hex t; json_hex n]).
  assert (Forall wf params) as Hwf.
  { destruct At as [_ Bt], An as [_ Bn]. unfold params.
    repeat match goal with |- Forall wf (_ :: _) => apply Forall_cons; split end;
      [exact Pw|exact Pj|by apply wf_hex..|constructor]. }
  assert (Forall wf_member (submit_message id wk j e t n)) as Ho.
  { assert (forall k, plain k -> forall v, wf v -> wf_member (k, v)) as Hm by done.
    apply Forall_cons; split; [apply Hm; [by_compute|apply wf_num; lia]|].
    apply Forall_cons; split; [apply Hm; by_compute|].
    apply Forall_cons; split; [apply Hm; [by_compute|by apply wf_arr]|constructor]. }
  pose proof (fun k v => get_at [] (Forall_nil_2 _) _ [10] k v Ho) as Hget.
  pose proof (fun r i v => elem_at [] (Forall_nil_2 _) params r i v Hwf) as Hel.
  unfold read_submit.
  destruct (Hget (str "id") (json_num id) eq_refl) as (r1 & Hr1 & ->). cbn [mbind option_bind].
  destruct (Hget (str "method") (JStr (str "mining.submit")) eq_refl) as (r2 & _ & ->). cbn [mbind option_bind].
  rewrite print_str, read_text_quoted by ((by_compute) || (vm_compute; lia)). cbn [mbind option_bind].
  destruct (Hget (str "params") (JArr params) eq_refl) as (r3 & _ & ->). cbn [mbind option_bind].
  destruct (Hel r3 0%nat _ eq_refl) as (q0 & _ & E0), (Hel r3 1%nat _ eq_refl) as (q1 & _ & E1),
    (Hel r3 2%nat _ eq_refl) as (q2 & _ & E2), (Hel r3 3%nat _ eq_refl) as (q3 & _ & E3),
    (Hel r3 4%nat _ eq_refl) as (q4 & _ & E4).
  change (Z.of_nat 0) with 0 in E0. change (Z.of_nat 1) with 1 in E1. change (Z.of_nat 2) with 2 in E2.
  change (Z.of_nat 3) with 3 in E3. change (Z.of_nat 4) with 4 in E4.
  rewrite E0, E1, E2, E3, E4. clear E0 E1 E2 E3 E4 Hel Hget. cbn [mbind option_bind].
  rewrite !print_str, !print_hex. rewrite (read_text_quoted 160 wk), (read_text_quoted 64 j) by done.
  rewrite (hex_upto_quoted 32 e) by (done || (unfold STRATUM_MAX_CB; lia)).
  rewrite (hex_exactly_quoted 8 t), (hex_exactly_quoted 8 n) by (done || (unfold STRATUM_MAX_CB; lia)).
  cbn [mbind option_bind]. eexists. split; [reflexivity|]. intros Hid'. by rewrite cast_js_num by (done || lia).
Qed.
Lemma read_submit_message undef id wk j e t n :
  0 <= id < 2 ^ 53 -> plain wk -> (length wk < 160)%nat -> plain j -> (length j < 64)%nat ->
  bytes e -> (length e <= 32)%nat -> array 8 t -> array 8 n ->
  read_submit undef (print [] (JObj (submit_message id wk j e t n)) ++ [10])
  = Some (id, str "mining.submit", wk, j, e, t, n).
Proof.
  intros Hid Pw Lw Pj Lj Be Le At An. assert (2 ^ 53 < 2 ^ 64) by done.
  destruct (read_submit_line undef id wk j e t n) as (id' & -> & E); [lia|done..|]. by rewrite E by lia.
Qed.


(** A session of the witnesses: connected as descriptor 3, subscribed with a
    two-byte extranonce. *)
Definition example_hex32 : list Z := Z.of_nat <$> List.seq 0 32.
Definition example_job : stratum_job :=
  StratumJob (str "j1") example_hex32 [1; 2] [] [example_hex32] [0; 0; 0; 0; 101; 0; 0; 0] 0x1d00ffff true 1.
Definition example_session : stratum :=
  (stratum_init (Some (str "pool")) 3333 (Some (str "wk")) None)
    <| fd := 3 |> <| sub_id := 1 |> <| auth_id := 2 |> <| suggest_diff_id := 3 |> <| next_id := 3 |>.
Lemma example_session_wf : wf_session example_session.
Proof. constructor; try by_compute. constructor; by_compute. Qed.
Definition example_notify : list (list Z * json) :=
  [(str "params", JArr (notify_params example_job (JStr []) [])); (str "id", JBare (str "null"));
   (str "method", JStr (str "mining.notify"))].

Lemma example_job_wf : wf_job example_job.
Proof. constructor; by_compute. Qed.
Lemma example_notify_wf : Forall wf_member example_notify.
Proof.
  by_compute.
Qed.

Lemma notify_sets_job_witness :
  job (on_line (fun _ => 0) example_session (print (str " ") (JObj example_notify) ++ []) 7) = example_job
  /\ on_line (fun _ => 0) example_session (print (str " ") (JObj example_notify) ++ []) 7
     = example_session <| job := example_job |> <| have_job := true |> <| jobs_received := u64 (0 + 1) |>.
Proof.
  split; [vm_compute; reflexivity|].
  apply (notify_sets_job (fun _ => 0) (str " ") ltac:(by_compute) example_session example_notify []
    example_job (JStr []) [] 7); [apply example_job_wf|by_compute|constructor|constructor
    |apply example_notify_wf|reflexivity|reflexivity|reflexivity].
Defined.

(** A reply with an identifier and a result. *)
Definition example_reply (id : Z) (result : json) : list (list Z * json) :=
  [(str "id", json_num id); (str "result", result)].
Lemma replies_matched_witness :
  let line := print [] (JObj (example_reply 2 (json_bool true))) ++ [] in
  authorized (on_line (fun _ => 0) example_session line 7) = true
  /\ on_line (fun _ => 0) example_session line 7 = example_session <| authorized := true |>.
Proof.
  split; [vm_compute; reflexivity|].
  assert (Forall wf_member (example_reply 2 (json_bool true))) as Ho.
  { by_compute. }
  refine (proj1 (proj2 (proj2 (proj2 (replies_matched (fun _ => 0) [] (Forall_nil_2 _) example_session
    (example_reply 2 (json_bool true)) [] 2 7 Ho _ eq_refl eq_refl _ example_session_wf)))) eq_refl eq_refl).
  - vm_compute. split; congruence.
  - by_compute.
Defined.

Definition example_request (m : list Z) (params : list json) : list (list Z * json) :=
  [(str "method", JStr m); (str "params", JArr params)].
Lemma requests_obeyed_witness :
  let params := [JStr (str "new.pool"); json_num 4444; json_num 900] in
  let s' := on_line (fun _ => 0) example_session
    (print [] (JObj (example_request (str "client.reconnect") params)) ++ []) 1000 in
  retry_at s' = 1300 /\ cstr (reconnect_host s') = str "new.pool" /\ reconnect_port s' = 4444.
Proof.
  intros params s'.
  assert (Forall wf params) as Hp.
  { by_compute. }
  assert (Forall wf_member (example_request (str "client.reconnect") params)) as Ho.
  { by_compute. }
  destruct (requests_obeyed (fun _ => 0) [] (Forall_nil_2 _) example_session _ [] 1000 _ params
    Ho eq_refl eq_refl Hp example_session_wf ltac:(lia) ltac:(by vm_compute)) as (_ & _ & H).
  destruct (H (str "new.pool") 4444 900 [] eq_refl eq_refl ltac:(by_compute)
    ltac:(by_compute) ltac:(by_compute) ltac:(by_compute)) as (_ & _ & H1 & H2 & _ & H3 & _).
  split; [exact H3|]. split; [exact H1|exact H2].
Defined.
End StratumMessages.
