(* ===== verification/StratumLink.v ===== *)
(** * The connection of the stratum session (src/miner/stratum.c, stratum.h)

    Reassembling lines from reads, sending whole lines, dialling with backoff and
    redirects, and the invariant of every state the program can reach. *)
From Stdlib Require Import SpecFloat.
From S2P Require Import Prelude Cdouble Decimal Job Json StratumTarget Stratum StratumMessages.

Module StratumLink.
Import Cdouble Decimal Job Json StratumTarget Stratum StratumMessages.
Import Json.Spec.
Local Open Scope word_scope.

(** ** Line reassembly *)

(** The complete lines of a stream and the unfinished one. *)
Fixpoint lines_of (l : list Z) : list (list Z) * list Z :=
  match l with
  | [] => ([], [])
  | c :: q =>
    let '(ls, tail) := lines_of q in
    if c =? 10 then ([] :: ls, tail)
    else match ls with
         | [] => ([], c :: tail)
         | a :: ls => ((c :: a) :: ls, tail)
         end
  end.

Section Lines.
Context (strerror : Z -> list Z) (undef : double -> Z).

(** The reference: every line that is not empty goes to the handler, in order,
    until one drops the connection. *)
Fixpoint run_lines (s : stratum) (ls : list (list Z)) (now : Z) : stratum :=
  match ls with
  | [] => s
  | a :: ls =>
    let s := match a with [] => s | _ => on_line undef s (cstr a) now end in
    if fd s <? 0 then s else run_lines s ls now
  end.
Definition keep_rest (s : stratum) (rest : list Z) : stratum :=
  if fd s <? 0 then s else s <| rx := rest |>.

Lemma lines_of_split l :
  lines_of l = match split_line l with
               | None => ([], l)
               | Some (a, b) => (a :: (lines_of b).1, (lines_of b).2)
               end.
Proof.
  induction l as [|c l IH]; [done|]. cbn [lines_of split_line].
  destruct (Z.eqb_spec c 10) as [->|Hc]; [by destruct (lines_of l)|].
  rewrite IH. destruct (split_line l) as [[a b]|]; done.
Qed.
Lemma lines_of_app a b :
  lines_of (a ++ b) = ((lines_of a).1 ++ (lines_of ((lines_of a).2 ++ b)).1, (lines_of ((lines_of a).2 ++ b)).2).
Proof.
  induction a as [|c a IH]; cbn [app lines_of fst snd]; [by destruct (lines_of b)|].
  rewrite IH. destruct (lines_of a) as [ls tail]. cbn [fst snd].
  destruct (c =? 10) eqn:E; [done|]. destruct ls as [|x ls]; [|done]. cbn [app lines_of fst snd].
  destruct (lines_of (tail ++ b)) as [ls' tail']. cbn [fst snd]. by rewrite E; destruct ls'.
Qed.

Lemma dispatch_run fuel s start now :
  0 <= fd s -> (length start < fuel)%nat ->
  dispatch undef fuel s start now
  = keep_rest (run_lines s (lines_of start).1 now) (lines_of start).2.
Proof.
  revert s start. induction fuel as [|fuel IH]; intros s start Hs Hf; [lia|].
  change (dispatch undef (S fuel) s start now) with
    (match split_line start with
     | None => s <| rx := start |>
     | Some (line, rest) =>
       let s := if (0 <? length line)%nat then on_line undef s (cstr line) now else s in
       if fd s <? 0 then s else dispatch undef fuel s rest now
     end).
  rewrite lines_of_split. destruct (split_line start) as [[a b]|] eqn:E.
  - apply split_line_spec in E as [-> _]. rewrite length_app in Hf. cbn [length fst snd] in *.
    cbn [run_lines].
    assert ((if (0 <? length a)%nat then on_line undef s (cstr a) now else s)
      = match a with [] => s | _ => on_line undef s (cstr a) now end) as -> by by destruct a.
    set (s1 := match a with [] => s | _ => _ end). cbv zeta.
    destruct (Z.ltb_spec (fd s1) 0) as [H1|H1].
    + unfold keep_rest. by rewrite (proj2 (Z.ltb_lt _ _)).
    + apply IH; [done|lia].
  - cbn [fst snd run_lines]. unfold keep_rest. by rewrite (proj2 (Z.ltb_ge _ _)).
Qed.

Lemma recv_loop_data chunks s :
  Forall (fun c => c <> []) chunks ->
  Z.of_nat (length (rx s) + length (concat chunks)) + 1 < RX_SIZE ->
  recv_loop strerror (Data <$> chunks) s = (true, s <| rx := rx s ++ concat chunks |>).
Proof.
  intros Hc. revert s. induction Hc as [|c chunks Hc Hcs IH]; intros s Hl.
  - cbn [fmap list_fmap recv_loop concat]. rewrite (proj2 (Z.leb_gt _ _)) by (cbn in Hl; lia).
    rewrite app_nil_r. by destruct s.
  - cbn [concat] in *. rewrite length_app in Hl. cbn [fmap list_fmap recv_loop].
    rewrite (proj2 (Z.leb_gt _ _)) by lia. rewrite firstn_all2 by lia.
    destruct c as [|x c]; [done|]. cbn [length Nat.eqb].
    rewrite IH; [|cbn; rewrite length_app; cbn in *; lia].
    change (rx (s <| rx := ?x |>)) with x. rewrite <- app_assoc. by destruct s.
Qed.

(** What the handlers do does not depend on the buffer. *)
Lemma drop_rx s x why : drop (s <| rx := x |>) why = drop s why.
Proof. unfold drop. cbn. destruct (0 <=? fd s); by destruct why as [[|c t]|]. Qed.
Lemma on_subscribe_rx s x r : on_subscribe undef (s <| rx := x |>) r = (on_subscribe undef s r) <| rx := x |>.
Proof.
  unfold on_subscribe. cbn. destruct (js_elem r 1); [|done]. destruct (js_elem r 2); [|done].
  destruct (js_hex _ _ _) as [[got|] e]; [|done]. by destruct (_ || _).
Qed.
Lemma on_notify_rx s x p : on_notify (s <| rx := x |>) p = (on_notify s p) <| rx := x |>.
Proof. unfold on_notify. cbn. by destruct (notify_job _ _). Qed.
Lemma set_extranonce_rx s x p :
  set_extranonce undef (s <| rx := x |>) p = (set_extranonce undef s p) <| rx := x |>.
Proof.
  unfold set_extranonce. cbn. destruct (js_elem p 0); [|done].
  destruct (js_hex _ _ _) as [[got|] e]; [|done]. destruct (js_elem p 1); [|done]. by destruct (_ && _).
Qed.
Lemma client_reconnect_rx s x p now :
  client_reconnect undef (s <| rx := x |>) p now = client_reconnect undef s p now.
Proof.
  unfold client_reconnect. cbn. destruct (js_elem p 0) as [h|]; [|apply drop_rx].
  destruct (js_str _ _) as [ok out]. destruct ok; cbn [negb];
    match goal with |- drop ?a _ = drop ?b _ => change a with (b <| rx := x |>) end; apply drop_rx.
Qed.
Lemma on_reply_rx s x id res err :
  on_reply undef (s <| rx := x |>) id res err = (on_reply undef s id res err) <| rx := x |>.
Proof.
  unfold on_reply. cbn. destruct (id =? sub_id s).
  { destruct res; [|done]. destruct (_ =? 91); [|done]. apply on_subscribe_rx. }
  destruct (id =? auth_id s); [by destruct (negb _)|]. destruct (id =? suggest_diff_id s); [done|].
  unfold on_verdict. destruct (result_true res); [done|]. destruct err; [|done].
  destruct (_ =? 91); [|done]. by destruct (js_elem _ 1).
Qed.
Lemma on_line_rx s x line now :
  0 <= fd s -> on_line undef (s <| rx := x |>) line now = keep_rest (on_line undef s line now) x.
Proof.
  intros Hfd.
  assert (on_line undef (s <| rx := x |>) line now = (on_line undef s line now) <| rx := x |>
    \/ (on_line undef (s <| rx := x |>) line now = on_line undef s line now
        /\ fd (on_line undef s line now) < 0)) as Hc.
  { unfold on_line. destruct (js_get line (str "method")) as [meth|].
    - destruct (js_str _ _) as [ok m]. destruct ok; cbn [negb]; [|by left].
      destruct (js_get line (str "params")) as [p|]; [|by left]. unfold on_request.
      repeat case_bool_decide; [| | | |by left].
      + left. apply on_notify_rx.
      + left. unfold set_difficulty. by destruct (js_elem p 0).
      + left. apply set_extranonce_rx.
      + right. split; [apply client_reconnect_rx|apply drop_fd].
    - left. destruct (js_get line (str "id")); [|done]. apply on_reply_rx. }
  unfold keep_rest. pose proof (on_line_fd undef s line now) as K1.
  pose proof (on_line_fd undef (s <| rx := x |>) line now) as K2.
  destruct (Z.ltb_spec (fd (on_line undef s line now)) 0) as [H|H].
  - destruct K1 as [K1|[_ K1]]; [lia|]. destruct (K1 H) as (_ & _ & _ & Hr).
    destruct Hc as [Hc|[Hc _]]; [|done]. rewrite Hc in K2 |- *. destruct K2 as [K2|[_ K2]]; cbn in K2; [lia|].
    destruct (K2 H) as (_ & _ & _ & Hx). cbn in Hx. rewrite Hx.
    clear -Hr. destruct (on_line undef s line now). cbn in Hr. by rewrite Hr.
  - destruct Hc as [Hc|[_ Hc]]; [done|lia].
Qed.

Lemma run_lines_rx s x ls now y :
  0 <= fd s -> keep_rest (run_lines (s <| rx := x |>) ls now) y = keep_rest (run_lines s ls now) y.
Proof.
  revert s x. induction ls as [|a ls IH]; intros s x Hfd.
  { cbn [run_lines]. unfold keep_rest. change (fd (s <| rx := x |>)) with (fd s).
    by rewrite (proj2 (Z.ltb_ge _ _)). }
  cbn [run_lines]. destruct a as [|c a].
  { change (fd (s <| rx := x |>)) with (fd s). rewrite (proj2 (Z.ltb_ge _ _)) by done. by apply IH. }
  rewrite on_line_rx by done. set (s1 := on_line undef s (cstr (c :: a)) now). clearbody s1.
  destruct (Z.ltb_spec (fd s1) 0) as [H|H].
  - assert (keep_rest s1 x = s1) as -> by (unfold keep_rest; by rewrite (proj2 (Z.ltb_lt _ _))).
    by rewrite (proj2 (Z.ltb_lt _ _)).
  - assert (keep_rest s1 x = s1 <| rx := x |>) as -> by (unfold keep_rest; by rewrite (proj2 (Z.ltb_ge _ _))).
    change (fd (s1 <| rx := x |>)) with (fd s1). rewrite (proj2 (Z.ltb_ge _ _)) by done. by apply IH.
Qed.
Lemma run_lines_app s ls ls' now :
  run_lines s (ls ++ ls') now
  = let s' := run_lines s ls now in if (fd s' <? 0) && negb (bool_decide (ls = [])) then s' else run_lines s' ls' now.
Proof.
  revert s. induction ls as [|a ls IH]; intros s.
  - cbn. by rewrite andb_false_r.
  - cbn [app run_lines]. set (s1 := match a with [] => s | _ => _ end). cbv zeta. clearbody s1.
    rewrite bool_decide_eq_false_2, andb_true_r by done.
    destruct (fd s1 <? 0) eqn:E; [by rewrite E|]. rewrite IH. cbv zeta.
    destruct ls as [|b ls]; [cbn [run_lines]; by rewrite E|].
    by rewrite bool_decide_eq_false_2, andb_true_r by done.
Qed.

Lemma poll_data a sends chunks s now :
  0 <= fd s -> Forall (fun c => c <> []) chunks ->
  Z.of_nat (length (rx s) + length (concat chunks)) + 1 < RX_SIZE ->
  stratum_poll strerror undef a sends (Data <$> chunks) s now
  = Some (keep_rest (run_lines s (lines_of (rx s ++ concat chunks)).1 now)
            (lines_of (rx s ++ concat chunks)).2, []).
Proof.
  intros Hfd Hc Hl. unfold stratum_poll. rewrite (proj2 (Z.ltb_ge _ _)) by done.
  rewrite recv_loop_data by done. cbn [negb].
  change (rx (s <| rx := ?x |>)) with x.
  rewrite dispatch_run by (done || lia). by rewrite run_lines_rx.
Qed.

(** The unfinished line is no longer than the stream. *)
Lemma length_tail l : (length (lines_of l).2 <= length l)%nat.
Proof.
  induction l as [|c l IH]; [done|]. cbn [lines_of]. destruct (lines_of l) as [xs t]. cbn [snd length] in *.
  destruct (c =? 10); [cbn; lia|]. destruct xs; cbn; lia.
Qed.

(** C14: The client's view of the line stream does not depend on how TCP cuts it, as
    long as the reads deliver data that fits the buffer. For a connected session and any
    division of the incoming bytes into such reads, one poll hands every complete
    non-empty line of the buffered bytes followed by the new ones to the dispatcher,
    once and in order, until a handler drops the connection, and keeps the unfinished
    line if none does. If none does, a second poll, at any later time, continues where
    the first one stopped: the lines of the two polls are the lines of the whole stream,
    neither lost, repeated nor split, and when the two have the same time, they do what
    one poll over all the reads does; if one does, one poll over all the reads does what
    the first poll does. Data in front of a close is outside of this: see
    [lines_before_close_are_lost]. *)
Theorem poll_reassembles_lines a a' sends sends' (chunks more : list (list Z)) s now now' :
  0 <= fd s -> Forall (fun c => c <> []) (chunks ++ more) ->
  Z.of_nat (length (rx s) + length (concat (chunks ++ more))) + 1 < RX_SIZE ->
  let poll := stratum_poll strerror undef in
  let '(first, tail) := lines_of (rx s ++ concat chunks) in
  let '(second, rest) := lines_of (tail ++ concat more) in
  let s1 := keep_rest (run_lines s first now) tail in
  lines_of (rx s ++ concat (chunks ++ more)) = (first ++ second, rest)
  /\ poll a sends (Data <$> chunks) s now = Some (s1, [])
  /\ (0 <= fd s1 ->
     poll a' sends' (Data <$> more) s1 now' = Some (keep_rest (run_lines (run_lines s first now) second now') rest, [])
     /\ poll a sends (Data <$> (chunks ++ more)) s now
        = Some (keep_rest (run_lines (run_lines s first now) second now) rest, []))
  /\ (fd s1 < 0 -> poll a sends (Data <$> (chunks ++ more)) s now = Some (s1, [])).
Proof.
  intros Hfd Hc Hl poll. pose proof Hc as [Hc1 Hc2]%Forall_app. rewrite concat_app, length_app in Hl.
  destruct (lines_of (rx s ++ concat chunks)) as [first tail] eqn:E1.
  destruct (lines_of (tail ++ concat more)) as [second rest] eqn:E2. intros s1.
  assert (lines_of (rx s ++ concat (chunks ++ more)) = (first ++ second, rest)) as E3.
  { rewrite concat_app, app_assoc, lines_of_app, E1. cbn [fst snd]. by rewrite E2. }
  assert (stratum_poll strerror undef a sends (Data <$> (chunks ++ more)) s now
    = Some (keep_rest (run_lines s (first ++ second) now) rest, [])) as E4.
  { rewrite poll_data by (done || rewrite concat_app, length_app; lia). by rewrite E3. }
  rewrite run_lines_app in E4. cbv zeta in E4.
  split; [exact E3|]. subst poll. split; [rewrite poll_data by (done || lia); by rewrite E1|].
  split; intros Hf1.
  2: { rewrite E4. subst s1. unfold keep_rest in *. destruct (Z.ltb_spec (fd (run_lines s first now)) 0) as [Hf|]; [|cbn in Hf1; lia].
       destruct first; [cbn in Hf; lia|]. cbn [andb negb bool_decide decide decide_rel].
       rewrite bool_decide_eq_false_2 by done. cbn [negb]. by rewrite (proj2 (Z.ltb_lt _ _)). }
  assert (s1 = (run_lines s first now) <| rx := tail |> /\ 0 <= fd (run_lines s first now)) as [Es Hf].
  { subst s1. unfold keep_rest in *. destruct (Z.ltb_spec (fd (run_lines s first now)) 0); [lia|done]. }
  pose proof (length_tail (rx s ++ concat chunks)) as Ht. rewrite E1, length_app in Ht. cbn [snd] in Ht.
  split.
  - rewrite Es, poll_data by (done || (cbn; lia)). cbn [fst snd]. change (rx (?x <| rx := tail |>)) with tail.
    rewrite E2. cbn [fst snd]. by rewrite run_lines_rx.
  - rewrite E4. by rewrite (proj2 (Z.ltb_ge _ _)).
Qed.
End Lines.

(** ** Sending *)
Lemma send_loop_spec sends l ok w r :
  send_loop sends l = Some (ok, w, r) -> if ok : bool then w = l else exists rest, rest <> [] /\ l = w ++ rest.
Proof.
  revert l ok w. induction sends as [|e sends IH]; intros [|c l] ok w; cbn [send_loop]; try done;
    try (intros [= <- <- <-]; done).
  destruct e as [n| |].
  - destruct n as [|n]; [intros [= <- <- <-]; by exists (c :: l)|]. cbn [Nat.eqb].
    destruct (send_loop sends _) as [[[ok' w'] r']|] eqn:E; cbn [mbind option_bind]; [|done].
    intros [= <- <- <-]. apply IH in E. destruct ok'.
    + subst. exact (firstn_skipn (S n) (c :: l)).
    + destruct E as (rest & Hr & E). exists rest. split; [done|].
      cbn [app]. rewrite <- app_assoc, <- E. symmetry. exact (firstn_skipn (S n) (c :: l)).
  - apply IH.
  - intros [= <- <- <-]. by exists (c :: l).
Qed.
(** Bytes the outcomes accept before anything fails. *)
Definition accepts (sends : list sent) : nat := foldr (fun e k => match e with Sent _ => S k | _ => k end) 0%nat sends.
Lemma send_loop_total sends l :
  Forall (fun e => e <> SendFailed /\ e <> Sent 0) sends -> (length l <= accepts sends)%nat ->
  exists r, send_loop sends l = Some (true, l, r).
Proof.
  intros Hs. revert l. induction Hs as [|e sends [H1 H2] Hs IH]; intros [|c l] Hl;
    cbn [accepts foldr] in Hl; try (cbn in Hl; lia); try (by eexists).
  destruct e as [n| |]; [| |done].
  - destruct n as [|n]; [done|]. cbn [send_loop Nat.eqb].
    destruct (IH (skipn (S n) (c :: l))) as [r Hr].
    { rewrite length_skipn. fold (accepts sends) in Hl. cbn [length] in *. lia. }
    rewrite Hr. exists r. cbn [mbind option_bind]. by rewrite (firstn_skipn (S n) (c :: l)).
  - apply IH. exact Hl.
Qed.

Lemma send_line_cases sends s line ok s' w r :
  0 <= fd s -> send_line sends s line = Some (ok, s', w, r) ->
  if ok : bool then s' = s /\ w = line
  else s' = drop s (Some (str "send failed")) /\ exists rest, rest <> [] /\ line = w ++ rest.
Proof.
  intros Hf. unfold send_line. rewrite (proj2 (Z.ltb_ge _ _)) by done.
  destruct (send_loop sends line) as [[[ok' w'] r']|] eqn:E; cbn [mbind option_bind]; [|done].
  intros [= <- <- <- <-]. apply send_loop_spec in E. by destruct ok'.
Qed.


(** ** Dialling again *)

(** An attempt in which the connection is refused, timed out or unreachable. *)
Definition refused (a : attempt) : Prop :=
  sound_attempt a /\ (exists x, resolved a = inr x) /\ (exists f, new_socket a = inr f)
  /\ parses a = true /\ connect_errno (connecting a) <> None.

(** Dials two minutes apart, none of which gets through. *)
Fixpoint redial (strerror : Z -> list Z) (dials : nat -> attempt) (s : stratum) (t0 : Z) (n : nat) : option stratum :=
  match n with
  | O => Some s
  | S n => s ← redial strerror dials s t0 n;
           '(s, _) ← dial strerror (dials n) [] s (t0 + BACKOFF_MAX_S * Z.of_nat n); Some s
  end.

Lemma dial_refused strerror a s now :
  refused a -> retry_at s <= now -> fd s < 0 -> 0 <= now -> now + 120 < 2 ^ 64 ->
  exists s', dial strerror a [] s now = Some (s', [])
    /\ backoff_s s' = next_backoff (backoff_s s) /\ retry_at s' = now + next_backoff (backoff_s s)
    /\ fd s' = fd s /\ reconnect_pending s' = false /\ host s' = host s /\ port s' = port s
    /\ (reconnect_pending s = true -> addr s' = addr s).
Proof.
  intros (_ & (x & Hx) & (f & Hf) & Hp & Hc) Hr Hfd Hn0 Hn. unfold dial.
  rewrite (proj2 (Z.ltb_ge _ _)) by done. unfold dial_target.
  destruct (connect_errno (connecting a)) as [e|]; [|done]. rewrite Hf, Hp. cbn [negb].
  pose proof (next_backoff_bound (backoff_s s)). unfold BACKOFF_MAX_S in *.
  assert (u64 (now + next_backoff (backoff_s s)) = now + next_backoff (backoff_s s)) as Hu
    by (apply u64_small; unfold is_word; lia).
  destruct (reconnect_pending s) eqn:Er; rewrite Hx.
  - eexists. split; [reflexivity|]. unfold back_off. cbn. by rewrite Hu.
  - destruct (negb _); eexists; (split; [reflexivity|]); unfold back_off; cbn; rewrite Hu, Er; split_and!; done.
Qed.

Lemma next_backoff_pow n :
  (0 < n)%nat -> next_backoff (2 ^ Z.of_nat n `min` 120) = 2 ^ Z.of_nat (S n) `min` 120.
Proof.
  intros Hn. rewrite Nat2Z.inj_succ, Z.pow_succ_r by lia.
  assert (2 <= 2 ^ Z.of_nat n) by (change 2 with (2 ^ 1) at 1; apply Z.pow_le_mono_r; lia).
  unfold next_backoff, BACKOFF_MAX_S. rewrite (proj2 (Z.eqb_neq _ _)) by lia. cbn [negb].
  rewrite u32_small by (unfold is_word; change (2 ^ 32) with 4294967296; lia).
  destruct (Z.ltb_spec 120 ((2 ^ Z.of_nat n `min` 120) * 2)); lia.
Qed.
Lemma redial_spec strerror dials s t0 n :
  fd s < 0 -> backoff_s s = 0 -> retry_at s <= t0 -> 0 <= t0 ->
  t0 + 120 * (Z.of_nat n + 1) < 2 ^ 64 -> (forall i, refused (dials i)) ->
  exists s', redial strerror dials s t0 n = Some s' /\ fd s' < 0
    /\ ((0 < n)%nat -> backoff_s s' = (2 ^ Z.of_nat n) `min` 120
        /\ retry_at s' = t0 + 120 * (Z.of_nat n - 1) + backoff_s s'
        /\ reconnect_pending s' = false /\ host s' = host s /\ port s' = port s)
    /\ (n = 0%nat -> s' = s).
Proof.
  intros Hfd Hb Hr Ht0 Hbig Hd. induction n as [|n IH]; [exists s; split_and!; (done || lia)|].
  destruct IH as (s1 & E1 & F1 & H1 & H0); [lia|]. cbn [redial]. rewrite E1. cbn [mbind option_bind].
  pose proof (next_backoff_bound (backoff_s s1)) as Hnb. unfold BACKOFF_MAX_S in *.
  assert (retry_at s1 <= t0 + 120 * Z.of_nat n) as Hready.
  { destruct n; [rewrite H0 by done; lia|]. destruct H1 as (B & -> & _); [lia|]. rewrite B. lia. }
  destruct (dial_refused strerror (dials n) s1 (t0 + 120 * Z.of_nat n))
    as (s2 & E2 & B2 & R2 & F2 & P2 & G2 & K2 & _); [done|lia..|].
  rewrite E2. cbn [mbind option_bind]. exists s2. split_and!; [done|lia| |done]. intros _.
  rewrite B2, R2, P2, G2, K2. destruct n.
  - rewrite H0 by done. rewrite Hb. split_and!; [done|lia|done..].
  - destruct H1 as (-> & _ & _ & -> & ->); [lia|].
    rewrite next_backoff_pow by lia. split_and!; [done|lia|done..].
Qed.
Lemma dial_connects strerror a sends s now f :
  retry_at s <= now -> (exists x, resolved a = inr x) -> new_socket a = inr f ->
  parses a = true -> connecting a = Connected ->
  exists s1, dial strerror a sends s now = greet sends s1 /\ fd s1 = f /\ backoff_s s1 = 0
    /\ next_id s1 = next_id s /\ worker s1 = worker s /\ password s1 = password s.
Proof.
  intros Hr (x & Hx) Hf Hp Hc. unfold dial. rewrite (proj2 (Z.ltb_ge _ _)) by done.
  rewrite Hx, Hf, Hp, Hc. unfold dial_target. cbn [negb connect_errno].
  destruct (reconnect_pending s); [|destruct (negb _)]; by eexists.
Qed.
Lemma greet_up sends s s' wire :
  0 <= fd s -> 0 <= next_id s -> next_id s + 3 < 2 ^ 64 -> greet sends s = Some (s', wire) -> 0 <= fd s' ->
  backoff_s s' = backoff_s s
  /\ wire = subscribe_line (next_id s + 1) ++ authorize_line (next_id s + 2) (worker s) (password s)
            ++ suggest_line (next_id s + 3)
  /\ [sub_id s'; auth_id s'; suggest_diff_id s'] = [next_id s + 1; next_id s + 2; next_id s + 3].
Proof.
  intros Hf H0 Hid. unfold greet.
  assert (forall k, 1 <= k <= 3 -> u64 (next_id s + k) = next_id s + k) as Hu
    by (intros k Hk; apply u64_small; unfold is_word; lia).
  set (s1 := _ <| sub_id := _ |>).
  assert (next_id s1 = next_id s + 1 /\ sub_id s1 = next_id s + 1) as [N1 I1] by (by rewrite <- Hu).
  destruct (send_line sends s1 _) as [[[[ok1 s1'] w1] r1]|] eqn:E1; cbn [mbind option_bind]; [|done].
  apply send_line_cases in E1; [|done].
  destruct ok1; cbn [negb]; destruct E1 as [-> E1];
    [|intros [= <- <-] Hd; pose proof (drop_fd s1 (Some (str "send failed"))); lia].
  set (s2 := _ <| auth_id := _ |>).
  assert (next_id s2 = next_id s + 2 /\ auth_id s2 = next_id s + 2) as [N2 I2].
  { subst s2. cbn -[s1]. rewrite N1. replace (next_id s + 1 + 1) with (next_id s + 2) by lia. by rewrite (Hu 2) by lia. }
  destruct (send_line r1 s2 _) as [[[[ok2 s2'] w2] r2]|] eqn:E2; cbn [mbind option_bind]; [|done].
  apply send_line_cases in E2; [|done].
  destruct ok2; cbn [negb]; destruct E2 as [-> E2];
    [|intros [= <- <-] Hd; pose proof (drop_fd s2 (Some (str "send failed"))); lia].
  set (s3 := _ <| suggest_diff_id := _ |>).
  assert (next_id s3 = next_id s + 3 /\ suggest_diff_id s3 = next_id s + 3) as [N3 I3].
  { subst s3. cbn -[s2]. rewrite N2. replace (next_id s + 2 + 1) with (next_id s + 3) by lia. by rewrite (Hu 3) by lia. }
  destruct (send_line r2 s3 _) as [[[[ok3 s3'] w3] r3]|] eqn:E3; cbn [mbind option_bind]; [|done].
  apply send_line_cases in E3; [|done].
  destruct ok3; destruct E3 as [-> E3]; intros [= <- <-] Hd;
    [|pose proof (drop_fd s3 (Some (str "send failed"))); lia].
  split; [done|]. split; [by rewrite E1, E2, E3, I1, I2, I3|].
  change (sub_id s3) with (sub_id s1). change (auth_id s3) with (auth_id s2). by rewrite I1, I2, I3.
Qed.


(** ** The life of a session *)

(** One call from the program: a poll in which everything the system does is
    arbitrary, a submission, a close. *)
Inductive step (strerror : Z -> list Z) (undef : double -> Z) (s : stratum) : stratum -> Prop :=
  | StepPoll a sends recvs now s' wire :
      sound_attempt a -> stratum_poll strerror undef a sends recvs s now = Some (s', wire) ->
      step strerror undef s s'
  | StepSubmit sends job_id en2 ntime nonce ok s' wire :
      stratum_submit sends s job_id en2 ntime nonce = Some (ok, s', wire) -> step strerror undef s s'
  | StepClose : step strerror undef s (stratum_close s).

Lemma step_good strerror undef s s' : good s -> step strerror undef s s' -> good s'.
Proof.
  intros Hg. destruct 1 as [a sends recvs now s' wire Ha Hp|sends j e t n ok s' wire Hp|].
  - by eapply poll_good.
  - by eapply submit_good.
  - split; [apply wf_drop, Hg|apply drop_down].
Qed.

(** Nothing heard from a pool is in force. *)
Definition unheard (s : stratum) : Prop :=
  subscribed s = false /\ authorized s = false /\ have_job s = false /\ rx s = [].
Lemma drop_unheard s why : unheard (drop s why).
Proof. apply drop_down, drop_fd. Qed.
Lemma send_line_unheard sends s line ok s' w r :
  send_line sends s line = Some (ok, s', w, r) -> unheard s -> unheard s'.
Proof.
  unfold send_line. destruct (fd s <? 0); [by intros [= <- <- <- <-]|].
  destruct (send_loop sends line) as [[[[] w'] r']|]; cbn [mbind option_bind]; [| |done];
    intros [= <- <- <- <-]; [done|]. intros _. apply drop_unheard.
Qed.
Lemma greet_unheard sends s s' wire : greet sends s = Some (s', wire) -> unheard s -> unheard s'.
Proof.
  unfold greet. intros E Hs. cbv zeta in E.
  set (s1 := _ <| sub_id := _ |>) in E. assert (unheard s1) as H1 by exact Hs. clearbody s1.
  destruct (send_line sends s1 _) as [[[[ok1 s2] w1] r1]|] eqn:E1; cbn [mbind option_bind] in E; [|done].
  apply send_line_unheard in E1; [|done]. destruct ok1; cbn [negb] in E; [|by injection E as <- <-].
  set (s3 := _ <| auth_id := _ |>) in E. assert (unheard s3) as H3 by exact E1. clearbody s3.
  destruct (send_line r1 s3 _) as [[[[ok2 s4] w2] r2]|] eqn:E2; cbn [mbind option_bind] in E; [|done].
  apply send_line_unheard in E2; [|done]. destruct ok2; cbn [negb] in E; [|by injection E as <- <-].
  set (s5 := _ <| suggest_diff_id := _ |>) in E. assert (unheard s5) as H5 by exact E2. clearbody s5.
  destruct (send_line r2 s5 _) as [[[[ok3 s6] w3] r3]|] eqn:E3; cbn [mbind option_bind] in E; [|done].
  apply send_line_unheard in E3; [|done]. by injection E as <- <-.
Qed.
Lemma dial_unheard strerror a sends s now s' wire :
  dial strerror a sends s now = Some (s', wire) -> unheard s -> unheard s'.
Proof.
  unfold dial. destruct (now <? retry_at s); [by intros [= <- <-]|].
  assert (unheard s -> unheard (dial_target s).2) as Ht by (unfold dial_target; by destruct (reconnect_pending s)).
  destruct (dial_target s) as [[[[h p] addr0] redirect] s1]. cbn [snd] in Ht. intros E Hs. specialize (Ht Hs). cbv zeta in E.
  assert (forall x, unheard (if redirect then s1 else s1 <| addr := x |>)) as Hset by (intros x; by destruct redirect).
  destruct (if negb (length addr0 =? 0)%nat then inr addr0 else resolved a) as [err|ad]; [injection E as <- <-; exact (Hset [])|].
  destruct (new_socket a) as [e|f]; [injection E as <- <-; exact (Hset ad)|].
  destruct (negb (parses a)); [injection E as <- <-; by destruct redirect|].
  destruct (connect_errno _) as [e|]; [injection E as <- <-; exact (Hset ad)|].
  apply greet_unheard in E; [done|]. destruct (Hset ad) as (H1 & H2 & H3 & _). done.
Qed.

(** A step of a connection that was up and stays up. *)
Definition up_step (strerror : Z -> list Z) (undef : double -> Z) (s s' : stratum) : Prop :=
  0 <= fd s /\ step strerror undef s s' /\ 0 <= fd s'.
(** A step that leaves the session connected continues the connection or dials one. *)
Lemma step_connected strerror undef s s' :
  step strerror undef s s' -> 0 <= fd s' ->
  up_step strerror undef s s' \/ fd s < 0 /\ exists a sends now wire, sound_attempt a /\ dial strerror a sends s now = Some (s', wire).
Proof.
  intros H Hf. destruct (Z.ltb_spec (fd s) 0) as [Hd|Hd]; [right|by left]. split; [done|].
  destruct H as [a sends recvs now s' wire Ha Hp|sends j e t n ok s' wire Hp|].
  - unfold stratum_poll in Hp. rewrite (proj2 (Z.ltb_lt _ _)) in Hp by done. by exists a, sends, now, wire.
  - unfold stratum_submit in Hp. rewrite (proj2 (Z.ltb_lt _ _)) in Hp by done. injection Hp as <- <- <-. lia.
  - pose proof (drop_fd s None). unfold stratum_close in Hf. lia.
Qed.

(** C12: In every state the program can reach from [stratum_init], whatever the
    network delivers and whenever it fails, each field is within the bounds of its
    C type (the line buffer keeps room for its terminator, every length fits its
    array, the job is well formed, the backoff is at most 120); a session without a
    connection is neither subscribed nor authorized, has no job in force and an empty
    buffer; and a connected session is what one dial and the steps since have made it,
    the dial leaving it unsubscribed, unauthorized, without a job and with an empty
    buffer. So a session is ready only by a subscription, an authorization and a job of
    the connection it has, and no half line of an old connection is read with the new
    one. The other fields outlive a connection: see [difficulty_outlives_connection]. *)
Theorem session_invariant strerror undef host port worker password s :
  let reachable := rtc (step strerror undef) (stratum_init host port worker password) in
  reachable s ->
  wf_session s /\ down_is_clean s /\ (stratum_ready s = true -> 0 <= fd s)
  /\ (0 <= fd s ->
     exists s0 a sends now s1 wire,
       reachable s0 /\ fd s0 < 0 /\ dial strerror a sends s0 now = Some (s1, wire)
       /\ unheard s1 /\ rtc (up_step strerror undef) s1 s).
Proof.
  intros reachable H. set (first := stratum_init host port worker password) in *.
  assert (forall x y, rtc (step strerror undef) x y -> good x -> good y) as Hgood.
  { intros x y Hxy. induction Hxy as [|x y z Hx _ IH]; [done|]. intros G. by eapply IH, step_good. }
  assert (good first) as H0 by (split; [apply wf_init|done]). destruct (Hgood _ _ H H0) as [H1 H2].
  split_and!; [done|done|unfold stratum_ready; rewrite !andb_true_iff, Z.leb_le; tauto|].
  clear H1 H2. revert s H. refine (rtc_ind_r _ first _ _); [intros Hf; cbn in Hf; lia|]. intros x y Hx Hs IH Hf.
  destruct (step_connected _ _ _ _ Hs Hf) as [U|(Hd & a & sends & now & wire & _ & E)].
  - destruct (IH (proj1 U)) as (s0 & a & sends & now & s1 & wire & R0 & D0 & E0 & U0 & R1).
    exists s0, a, sends, now, s1, wire. do 4 (split; [done|]). by eapply rtc_r.
  - exists x, a, sends, now, y, wire. split_and!; [done..| |done].
    apply (dial_unheard _ _ _ _ _ _ _ E), (Hgood _ _ Hx H0), Hd.
Qed.

(** The outcomes of a first dial and of the replies and job that follow. *)
Definition example_attempt : attempt := Attempt (inr (str "10.0.0.1")) (inr 3) true Connected.
Definition example_replies : list Z :=
  dq "{'id':1,'result':[[],'aabb',4]}" ++ [10] ++ dq "{'id':2,'result':true}" ++ [10]
  ++ print [] (JObj example_notify) ++ [10].
Definition example_up : stratum :=
  match dial (fun _ => []) example_attempt (replicate 3 (Sent 600))
          (stratum_init (Some (str "pool")) 3333 (Some (str "wk")) None) 5 with
  | Some (s, _) => s
  | None => example_session
  end.
Definition example_ready : stratum := dispatch (fun _ => 0) 1000 example_up example_replies 6.

Definition example_first : stratum := stratum_init (Some (str "pool")) 3333 (Some (str "wk")) None.
Lemma example_dial : exists w1,
  stratum_poll (fun _ => []) (fun _ => 0) example_attempt (replicate 3 (Sent 600)) [] example_first 5
  = Some (example_up, w1).
Proof. eexists. vm_compute. reflexivity. Qed.
Lemma example_receive :
  stratum_poll (fun _ => []) (fun _ => 0) example_attempt [] [Data example_replies] example_up 6
  = Some (example_ready, []).
Proof. vm_compute. reflexivity. Qed.
Lemma example_reachable : rtc (step (fun _ => []) (fun _ => 0)) example_first example_ready.
Proof.
  destruct example_dial as [w1 E1]. assert (sound_attempt example_attempt) as Ha by (split; [vm_compute; lia|done]).
  eapply rtc_l; [exact (StepPoll _ _ _ _ _ _ _ _ _ Ha E1)|].
  eapply rtc_l; [exact (StepPoll _ _ _ _ _ _ _ _ _ Ha example_receive)|]. apply rtc_refl.
Qed.

Lemma session_invariant_witness :
  stratum_ready example_ready = true
  /\ (wf_session example_ready /\ down_is_clean example_ready
      /\ exists s1, unheard s1 /\ rtc (up_step (fun _ => []) (fun _ => 0)) s1 example_ready).
Proof.
  split; [vm_compute; reflexivity|].
  destruct (session_invariant (fun _ => []) (fun _ => 0) (Some (str "pool")) 3333 (Some (str "wk")) None
    example_ready example_reachable) as (H1 & H2 & _ & H3).
  split; [exact H1|]. split; [exact H2|].
  destruct H3 as (_ & _ & _ & _ & s1 & _ & _ & _ & _ & H4 & H5); [vm_compute; discriminate|].
  exists s1. split; [exact H4|exact H5].
Defined.

(** The difficulty of a connection is in force on the next one, until its pool sets one. *)
Definition example_again : stratum :=
  let poll := fun sends recvs s now => default (s, []) (stratum_poll (fun _ => []) (fun _ => 0) example_attempt sends recvs s now) in
  let harder := dq "{'method':'mining.set_difficulty','params':[4096]}" ++ [10] in
  let s := stratum_close (poll [] [Data harder] example_ready 7).1 in
  let s := (poll (replicate 3 (Sent 600)) [] s 8).1 in
  (poll [] [Data (dq "{'id':4,'result':[[],'aabb',4]}" ++ [10] ++ dq "{'id':5,'result':true}" ++ [10]
    ++ print [] (JObj example_notify) ++ [10])] s 9).1.
Example difficulty_outlives_connection :
  stratum_ready example_again = true /\ reconnects example_again = 2
  /\ difficulty example_ready = of_Z 1 /\ difficulty example_again = of_Z 4096.
Proof. vm_compute. done. Qed.

Lemma poll_reassembles_lines_witness :
  let poll := stratum_poll (fun _ => []) (fun _ => 0) in
  let c1 := [dq "{'id':2,'res"; dq "ult':true}" ++ [10] ++ dq "{'id'"] in
  let c2 := [dq ":9,'result':true}" ++ [10; 10]] in
  let s1 := example_session <| authorized := true |> <| rx := dq "{'id'" |> in
  poll example_attempt [] (Data <$> c1) example_session 7 = Some (s1, [])
  /\ poll example_attempt [] (Data <$> c2) s1 7 = poll example_attempt [] (Data <$> c1 ++ c2) example_session 7.
Proof.
  set (c1 := [dq "{'id':2,'res"; dq "ult':true}" ++ [10] ++ dq "{'id'"]).
  set (c2 := [dq ":9,'result':true}" ++ [10; 10]]). cbv zeta.
  destruct (poll_reassembles_lines (fun _ => []) (fun _ => 0) example_attempt example_attempt [] [] c1 c2
    example_session 7 7 ltac:(by vm_compute) ltac:(by_compute) ltac:(by vm_compute)) as (_ & E1 & E2 & _).
  assert (keep_rest (run_lines (fun _ => 0) example_session (lines_of (rx example_session ++ concat c1)).1 7)
    (lines_of (rx example_session ++ concat c1)).2 = example_session <| authorized := true |> <| rx := dq "{'id'" |>) as Es
    by (vm_compute; reflexivity).
  split; [exact (eq_trans E1 (f_equal (fun s => Some (s, [])) Es))|].
  destruct E2 as [E2 E3]; [by vm_compute|]. rewrite E3. exact (eq_trans (f_equal (fun s => stratum_poll _ _ _ _ _ s 7) (eq_sym Es)) E2).
Defined.



(** A complete line that arrives before the end of the stream is seen in the same poll
    is not dispatched: dropping the connection empties the buffer. *)
Example lines_before_close_are_lost :
  let s := (stratum_init (Some (str "pool")) 3333 (Some (str "w")) None) <| fd := 3 |> in
  let a := Attempt (inl []) (inl 0) true Connected in
  let line := dq "{'id':null,'method':'mining.set_difficulty','params':[8]}" ++ [10] in
  let difficulty_after recvs :=
    (fun r => difficulty r.1) <$> stratum_poll (fun _ => []) (fun _ => 0) a [] recvs s 1000 in
  difficulty_after [Data line] = Some (of_Z 8) /\ difficulty_after [Data line; Closed] = Some d_1.
Proof. vm_compute. done. Qed.
End StratumLink.
