(* ===== verification/Uart.v ===== *)
(** * The UART Lite driver (src/miner/uio_uart.c, uio_uart.h)

    The driver against an interface to its surroundings: the registers of the
    device, the clocks and [usleep]. The busy-wait loops carry fuel and return
    [None] when it ends; theorems bound the fuel they need. The scripted device of
    the tests is modelled as the code has it. *)
From S2P Require Import Prelude.

Module Uart.
Local Open Scope word_scope.

(** ** The surroundings *)

(** Loads and stores of the mapped registers, CLOCK_MONOTONIC in microseconds,
    [time(NULL)] and [usleep]; each can change the world. *)
Class World (W : Type) := {
  reg_read : Z -> W -> Z * W;
  reg_write : Z -> Z -> W -> W;
  now_us : W -> Z * W;
  now_s : W -> Z * W;
  usleep : Z -> W -> W
}.

Definition UARTLITE_RX : Z := 0x00.
Definition UARTLITE_TX : Z := 0x04.
Definition UARTLITE_STAT : Z := 0x08.
Definition UARTLITE_CTRL : Z := 0x0c.
Definition STAT_RX_VALID : nat := 0.
Definition STAT_TX_EMPTY : nat := 2.
Definition STAT_TX_FULL : nat := 3.
Definition STAT_OVERRUN : nat := 5.
Definition CTRL_RST_TX : Z := 1.
Definition CTRL_RST_RX : Z := 2.
(** A flag of the status register. *)
Definition flag (s : Z) (bit : nat) : bool := Z.testbit s (Z.of_nat bit).

Record uio_uart := UioUart {
  tx_stall_us : Z;
  overruns : Z;
  rx_bytes : Z;
  tx_bytes : Z;
  sim_buf : list Z;              (* sim_len bytes *)
  sim_at_us : list Z;
  sim_pos : nat;
  sim_t0_us : Z
}.
#[export] Instance uio_uart_fields : Fields uio_uart := fun u =>
  UioUart (tx_stall_us u) (overruns u) (rx_bytes u) (tx_bytes u) (sim_buf u) (sim_at_us u)
    (sim_pos u) (sim_t0_us u).

Section Driver.
Context {W : Type} `{World W}.

(** [uart_open] when [open] and [mmap] succeed. *)
Definition uart_open : uio_uart := UioUart 0 0 0 0 [] [] 0 0.

Definition uart_open_sim (buf at_us : list Z) (w : W) : uio_uart * W :=
  let '(t, w) := now_us w in
  (UioUart 0 0 0 0 buf at_us 0 (if t =? 0 then 1 else t), w).

Definition uart_stat (w : W) : Z * W := reg_read UARTLITE_STAT w.
Definition uart_reset_fifos (w : W) : W := reg_write UARTLITE_CTRL (CTRL_RST_TX .| CTRL_RST_RX) w.

(** The wait for room: the time spun, and whether there is room. *)
Fixpoint put_wait (fuel : nat) (start spun timeout_us : Z) (w : W) : option (Z * bool * W) :=
  match fuel with
  | O => None
  | S fuel =>
    let '(s, w) := uart_stat w in
    if flag s STAT_TX_FULL then
      let '(t, w) := now_us w in
      let spun := u64 (t - start) in
      if timeout_us <? spun then Some (spun, false, w) else put_wait fuel start spun timeout_us w
    else Some (spun, true, w)
  end.

Definition uart_put (fuel : nat) (u : uio_uart) (b timeout_us : Z) (w : W) : option (bool * uio_uart * W) :=
  let '(start, w) := now_us w in
  '(spun, ok, w) ← put_wait fuel start 0 timeout_us w;
  let u := u <| tx_stall_us := u64 (tx_stall_us u + spun) |> in
  if negb ok then Some (false, u, w)
  else Some (true, u <| tx_bytes := u64 (tx_bytes u + 1) |>, reg_write UARTLITE_TX b w).

Definition uart_get_nb (u : uio_uart) (w : W) : option Z * uio_uart * W :=
  if negb (sim_t0_us u =? 0) then
    if (length (sim_buf u) <=? sim_pos u)%nat then (None, u, w)
    else
      let '(t, w) := now_us w in
      if u64 (t - sim_t0_us u) <? sim_at_us u !!! sim_pos u then (None, u, w)
      else (Some (sim_buf u !!! sim_pos u),
            u <| sim_pos := S (sim_pos u) |> <| rx_bytes := u64 (rx_bytes u + 1) |>, w)
  else
    let '(s, w) := uart_stat w in
    let u := if flag s STAT_OVERRUN then u <| overruns := u64 (overruns u + 1) |> else u in
    if negb (flag s STAT_RX_VALID) then (None, u, w)
    else
      let '(b, w) := reg_read UARTLITE_RX w in
      (Some (u8 (b .& 0xff)), u <| rx_bytes := u64 (rx_bytes u + 1) |>, w).

Fixpoint uart_write (fuel : nat) (u : uio_uart) (buf : list Z) (timeout_us : Z) (w : W)
    : option (bool * uio_uart * W) :=
  match buf with
  | [] => Some (true, u, w)
  | b :: buf =>
    '(ok, u, w) ← uart_put fuel u b timeout_us w;
    if negb ok then Some (false, u, w) else uart_write fuel u buf timeout_us w
  end.

Fixpoint drain_loop (fuel : nat) (start timeout_us : Z) (w : W) : option (bool * W) :=
  match fuel with
  | O => None
  | S fuel =>
    let '(s, w) := uart_stat w in
    if flag s STAT_TX_EMPTY then Some (true, w)
    else
      let '(t, w) := now_us w in
      if timeout_us <? u64 (t - start) then Some (false, w) else drain_loop fuel start timeout_us w
  end.
Definition uart_drain_tx (fuel : nat) (timeout_us : Z) (w : W) : option (bool * W) :=
  let '(start, w) := now_us w in drain_loop fuel start timeout_us w.

Fixpoint uart_purge_rx (fuel : nat) (u : uio_uart) (w : W) : option (uio_uart * W) :=
  match fuel with
  | O => None
  | S fuel =>
    match uart_get_nb u w with
    | (Some _, u, w) => uart_purge_rx fuel u w
    | (None, u, w) => Some (u, w)
    end
  end.

Fixpoint quiet_loop (fuel : nat) (u : uio_uart) (start last_activity idle_us timeout_us : Z) (w : W)
    : option (bool * uio_uart * W) :=
  match fuel with
  | O => None
  | S fuel =>
    let '(b, u, w) := uart_get_nb u w in
    let '(t, w) := now_us w in
    match b with
    | None =>
      if idle_us <=? u64 (t - last_activity) then Some (true, u, w)
      else
        let '(t, w) := now_us w in
        if timeout_us <? u64 (t - start) then Some (false, u, w)
        else quiet_loop fuel u start last_activity idle_us timeout_us w
    | Some _ =>
      let last_activity := t in
      let '(t, w) := now_us w in
      if timeout_us <? u64 (t - start) then Some (false, u, w)
      else quiet_loop fuel u start last_activity idle_us timeout_us w
    end
  end.
Definition uart_wait_quiet (fuel : nat) (u : uio_uart) (idle_us timeout_us : Z) (w : W)
    : option (bool * uio_uart * W) :=
  let '(start, w) := now_us w in quiet_loop fuel u start start idle_us timeout_us w.
End Driver.

(** ** What the device promises

    Time passes with every access and both clocks follow it, [usleep] sleeps at
    least as long as asked; the transmitter accepts a byte written while its FIFO has
    room, and the receiver hands out the byte it reports. A write to a full FIFO is
    discarded without a sign, so nothing is promised about it. *)
Definition access_bound : Z := 2 ^ 40.
Class Uartlite (W : Type) `{World W} := {
  elapsed : W -> Z;              (* nanoseconds *)
  boot : Z;                      (* time(NULL) when elapsed was 0 *)
  sent : W -> list Z;            (* bytes the transmitter has accepted *)
  room : W -> bool;
  received : W -> list Z;        (* bytes taken out of the receive FIFO *)
  boot_range : 0 <= boot < 2 ^ 62;
  now_s_value w : (now_s w).1 = u64 (boot + elapsed (now_s w).2 / 1000000000);
  now_s_takes_time w : elapsed w < elapsed (now_s w).2 <= elapsed w + access_bound;
  usleep_takes_time us w :
    0 <= us -> elapsed w + 1000 * us <= elapsed (usleep us w) <= elapsed w + 1000 * us + access_bound;
  stat_keeps_received w : received (reg_read UARTLITE_STAT w).2 = received w;
  write_keeps_received off v w : received (reg_write off v w) = received w;
  now_us_keeps_received w : received (now_us w).2 = received w;
  now_s_keeps_received w : received (now_s w).2 = received w;
  usleep_keeps_received us w : received (usleep us w) = received w;
  rx_is_received w :
    let '(s, w1) := reg_read UARTLITE_STAT w in
    flag s STAT_RX_VALID = true ->
    received (reg_read UARTLITE_RX w1).2 = received w1 ++ [u8 ((reg_read UARTLITE_RX w1).1 .& 0xff)];
  now_us_value w : (now_us w).1 = u64 (elapsed (now_us w).2 / 1000);
  elapsed_start w : 0 <= elapsed w;
  read_takes_time off w : elapsed w < elapsed (reg_read off w).2 <= elapsed w + access_bound;
  write_takes_time off v w : elapsed w < elapsed (reg_write off v w) <= elapsed w + access_bound;
  now_us_takes_time w : elapsed w < elapsed (now_us w).2 <= elapsed w + access_bound;
  read_keeps_sent off w : sent (reg_read off w).2 = sent w;
  now_us_keeps_sent w : sent (now_us w).2 = sent w;
  now_s_keeps_sent w : sent (now_s w).2 = sent w;
  usleep_keeps_sent us w : sent (usleep us w) = sent w;
  stat_shows_room w :
    flag (reg_read UARTLITE_STAT w).1 STAT_TX_FULL = false -> room (reg_read UARTLITE_STAT w).2 = true;
  put_is_sent b w : room w = true -> sent (reg_write UARTLITE_TX b w) = sent w ++ [b]
}.

Section Promises.
Context {W : Type} `{device : Uartlite W}.

Lemma put_wait_sent fuel start spun timeout w r :
  put_wait fuel start spun timeout w = Some r ->
  sent r.2 = sent w /\ (r.1.2 = true -> room r.2 = true).
Proof.
  revert spun w. induction fuel as [|fuel IH]; intros spun w; [done|]. cbn [put_wait].
  unfold uart_stat. pose proof (read_keeps_sent UARTLITE_STAT w) as Hs. pose proof (stat_shows_room w) as Hr.
  destruct (reg_read UARTLITE_STAT w) as [s w1]. cbn [fst snd] in *.
  destruct (flag s STAT_TX_FULL); [|intros [= <-]; by eauto].
  pose proof (now_us_keeps_sent w1) as Hn. destruct (now_us w1) as [t w2]. cbn [fst snd] in *.
  destruct (timeout <? _); [intros [= <-]; cbn; split; [congruence|done]|].
  intros Hp. apply IH in Hp as [-> Hp]. split; [congruence|done].
Qed.
Lemma uart_put_sent fuel u b timeout w ok u' w' :
  uart_put fuel u b timeout w = Some (ok, u', w') ->
  sent w' = sent w ++ (if ok : bool then [b] else [])
  /\ tx_bytes u' = if ok : bool then u64 (tx_bytes u + 1) else tx_bytes u.
Proof.
  unfold uart_put. pose proof (now_us_keeps_sent w) as Hn. destruct (now_us w) as [t w0]. cbn [fst snd] in Hn.
  destruct (put_wait _ _ _ _ _) as [[[spun ok'] w1]|] eqn:E; cbn [mbind option_bind]; [|done].
  apply put_wait_sent in E as [E1 E2]. cbn [fst snd] in *. destruct ok'; cbn [negb]; intros [= <- <- <-].
  - rewrite put_is_sent by by apply E2. split; [congruence|done].
  - rewrite app_nil_r. split; [congruence|done].
Qed.

(** Differences of clock readings, before the clock could have wrapped. *)
Lemma u64_difference a b : 0 <= a <= b -> b <= a + 1000 * 2 ^ 60 -> u64 (u64 (b / 1000) - u64 (a / 1000)) = b / 1000 - a / 1000.
Proof.
  intros Ha Hb. rewrite !u64_mod, <- Zminus_mod. apply Z.mod_small.
  pose proof (Z.div_le_mono a b 1000 ltac:(lia) ltac:(lia)).
  pose proof (Z.div_le_mono b (a + 2 ^ 60 * 1000) 1000 ltac:(lia) ltac:(lia)) as Hd.
  rewrite Z.div_add in Hd by lia. change (2 ^ 60) with 1152921504606846976 in Hd.
  change (2 ^ 64) with 18446744073709551616. lia.
Qed.
(** Not timed out: at most [timeout] and a bit of microseconds have passed. *)
Lemma not_timed_out a b timeout :
  0 <= a <= b -> b <= a + 1000 * 2 ^ 60 -> u64 (u64 (b / 1000) - u64 (a / 1000)) <= timeout ->
  b < a + 1000 * (timeout + 1).
Proof.
  intros Ha Hb. rewrite u64_difference by done. intros Ht.
  pose proof (Z.div_mod b 1000 ltac:(lia)). pose proof (Z.mod_pos_bound b 1000 ltac:(lia)).
  pose proof (Z.div_mod a 1000 ltac:(lia)). pose proof (Z.mod_pos_bound a 1000 ltac:(lia)). lia.
Qed.

(** The turns a wait of [timeout] microseconds can take: each takes at least two
    nanoseconds. *)
Definition spin_fuel (timeout : Z) : nat := Z.to_nat (500 * (timeout + 1) + 1).
Definition within (start timeout fuel : Z) (w : W) : Prop :=
  start <= elapsed w < start + 1000 * (timeout + 1)
  /\ start + 1000 * (timeout + 1) <= elapsed w + 2 * fuel.

Lemma put_wait_ends fuel start spun timeout w :
  0 <= start -> 0 <= timeout < 2 ^ 32 -> within start timeout (Z.of_nat fuel) w ->
  exists r, put_wait fuel (u64 (start / 1000)) spun timeout w = Some r.
Proof.
  intros Hstart Ht. revert spun w. induction fuel as [|fuel IH]; intros spun w [Hw Hf]; [lia|].
  cbn [put_wait]. unfold uart_stat. pose proof (read_takes_time UARTLITE_STAT w) as T1.
  destruct (reg_read UARTLITE_STAT w) as [s w1]. cbn [snd] in T1.
  destruct (flag s STAT_TX_FULL); [|by eexists].
  pose proof (now_us_takes_time w1) as T2. pose proof (now_us_value w1) as V.
  destruct (now_us w1) as [t w2]. cbn [fst snd] in *. subst t.
  destruct (Z.ltb_spec timeout (u64 (u64 (elapsed w2 / 1000) - u64 (start / 1000)))) as [Hlt|Hle]; [by eexists|].
  unfold access_bound in *. change (2 ^ 40) with 1099511627776 in *. change (2 ^ 32) with 4294967296 in *.
  apply not_timed_out in Hle; [|lia|change (2 ^ 60) with 1152921504606846976; lia].
  apply IH. split; lia.
Qed.
(** Whatever the fuel, a write that returns has sent a prefix of the buffer, all of
    it exactly when it reports success. *)
Lemma uart_write_sent fuel u buf timeout w ok u' w' :
  uart_write fuel u buf timeout w = Some (ok, u', w') ->
  exists k, sent w' = sent w ++ take k buf /\ (if ok : bool then k = length buf else (k < length buf)%nat).
Proof.
  revert u w. induction buf as [|b buf IH]; intros u w; cbn [uart_write].
  { intros [= <- <- <-]. exists 0%nat. by rewrite app_nil_r. }
  destruct (uart_put fuel u b timeout w) as [[[ok1 u1] w1]|] eqn:E; cbn [mbind option_bind]; [|done].
  apply uart_put_sent in E as [E _]. destruct ok1; cbn [negb].
  - intros (k & Hs & Hk)%IH. exists (S k). rewrite Hs, E, <- app_assoc. split; [done|].
    destruct ok; cbn [length]; lia.
  - intros [= <- <- <-]. exists 0%nat. rewrite E. split; [done|]. cbn [length]. lia.
Qed.
(** A transmitter that stalls: polled again and again for more than [timeout]
    microseconds, its FIFO was full every time. *)
Inductive full_polls (w0 : W) : W -> Prop :=
  | no_full_poll : full_polls w0 w0
  | full_poll w s w1 : full_polls w0 w -> uart_stat w = (s, w1) -> flag s STAT_TX_FULL = true -> full_polls w0 (now_us w1).2.
Definition stalled (timeout : Z) (w0 w : W) : Prop := full_polls w0 w /\ 1000 * timeout < elapsed w - elapsed w0.
Lemma full_polls_time w0 w : full_polls w0 w -> elapsed w0 <= elapsed w.
Proof using device.
  induction 1 as [|w s w1 _ IH Es _]; [lia|]. pose proof (read_takes_time UARTLITE_STAT w) as T1. unfold uart_stat in Es.
  rewrite Es in T1. cbn [snd] in T1. pose proof (now_us_takes_time w1). lia.
Qed.
Lemma timed_out a b timeout :
  a <= b -> timeout < u64 (u64 (b / 1000) - u64 (a / 1000)) -> 1000 * timeout < b - a.
Proof.
  intros Hab. rewrite !u64_mod, <- Zminus_mod. pose proof (Z.div_le_mono a b 1000 ltac:(lia) Hab).
  pose proof (Z.mod_le (b / 1000 - a / 1000) (2 ^ 64) ltac:(lia) ltac:(lia)).
  pose proof (Z.div_mod b 1000 ltac:(lia)). pose proof (Z.mod_pos_bound b 1000 ltac:(lia)).
  pose proof (Z.div_mod a 1000 ltac:(lia)). pose proof (Z.mod_pos_bound a 1000 ltac:(lia)). lia.
Qed.
Lemma put_wait_stalled fuel w0 spun timeout w spun' w' :
  full_polls w0 w -> put_wait fuel (u64 (elapsed w0 / 1000)) spun timeout w = Some (spun', false, w') -> stalled timeout w0 w'.
Proof using device.
  revert spun w. induction fuel as [|fuel IH]; intros spun w Hp; [done|]. cbn [put_wait].
  destruct (uart_stat w) as [s w1] eqn:Es. destruct (flag s STAT_TX_FULL) eqn:Ef; [|done].
  pose proof (full_poll _ _ _ _ Hp Es Ef) as Hp'. pose proof (now_us_value w1) as V. destruct (now_us w1) as [t w2]. cbn [fst snd] in *.
  destruct (Z.ltb_spec timeout (u64 (t - u64 (elapsed w0 / 1000)))) as [Hlt|_]; [|by apply IH].
  intros [= _ <-]. split; [done|]. rewrite V in Hlt. apply timed_out, Hlt. by apply full_polls_time.
Qed.
Lemma uart_put_stalled fuel u b timeout w u' w' :
  uart_put fuel u b timeout w = Some (false, u', w') -> exists w0, stalled timeout w0 w'.
Proof using device.
  unfold uart_put. pose proof (now_us_value w) as V. destruct (now_us w) as [t w0]. cbn [fst snd] in V. rewrite V.
  destruct (put_wait _ _ _ _ _) as [[[spun ok] w1]|] eqn:E; cbn [mbind option_bind]; [|done]. destruct ok; [done|].
  intros [= _ <-]. exists w0. by apply put_wait_stalled in E; [|constructor].
Qed.
(** A write fails only where the transmitter stalls. *)
Lemma uart_write_stalled fuel u buf timeout w u' w' :
  uart_write fuel u buf timeout w = Some (false, u', w') -> exists w0, stalled timeout w0 w'.
Proof using device.
  revert u w. induction buf as [|b buf IH]; intros u w; cbn [uart_write]; [done|].
  destruct (uart_put fuel u b timeout w) as [[[ok u1] w1]|] eqn:E; cbn [mbind option_bind]; [|done].
  destruct ok; cbn [negb]; [apply IH|]. intros [= _ <-]. by eapply uart_put_stalled.
Qed.

Lemma uart_put_ends u b timeout w :
  0 <= timeout < 2 ^ 32 -> exists r, uart_put (spin_fuel timeout) u b timeout w = Some r.
Proof using All.
  intros Ht. unfold uart_put. pose proof (now_us_value w) as V. pose proof (elapsed_start (now_us w).2) as E.
  destruct (now_us w) as [t w0]. cbn [fst snd] in *. subst t.
  destruct (put_wait_ends (spin_fuel timeout) (elapsed w0) 0 timeout w0) as [[[spun ok] w1] ->]; [done..| |].
  { unfold within, spin_fuel. split; lia. }
  cbn [mbind option_bind]. destruct ok; by eexists.
Qed.

(** C23: Pushing a work item loses no byte. For any UART Lite that keeps its
    promises, [uart_write] comes back within its time-out per byte; if it reports
    success the transmitter has accepted exactly the bytes of the buffer, in order,
    after what it had accepted before, and counted them; if it fails, it has
    accepted a proper prefix of the buffer and nothing else, so the receiver's byte
    count is known. *)
Theorem uart_write_lossless u buf timeout w :
  0 <= timeout < 2 ^ 32 -> is_word 64 (tx_bytes u) ->
  exists ok u' w' k, uart_write (spin_fuel timeout) u buf timeout w = Some (ok, u', w')
  /\ sent w' = sent w ++ take k buf
  /\ (if ok : bool then k = length buf else (k < length buf)%nat)
  /\ tx_bytes u' = u64 (tx_bytes u + Z.of_nat k).
Proof.
  intros Ht. revert u w. induction buf as [|b buf IH]; intros u w Hu.
  { exists true, u, w, 0%nat. cbn. rewrite app_nil_r, Z.add_0_r, u64_small; done. }
  cbn [uart_write]. destruct (uart_put_ends u b timeout w Ht) as [[[ok u1] w1] E]. rewrite E.
  apply uart_put_sent in E as [E1 E2]. cbn [mbind option_bind]. destruct ok; cbn [negb].
  - destruct (IH u1 w1) as (ok & u2 & w2 & k & -> & S2 & K2 & T2); [rewrite E2; apply u64_word|].
    exists ok, u2, w2, (S k). rewrite S2, E1, T2, E2, <- app_assoc, u64_add_l. cbn [take app length].
    split_and!; [done|done|destruct ok; lia|f_equal; lia].
  - exists false, u1, w1, 0%nat. cbn. rewrite E1, E2, Z.add_0_r, u64_small by done. split_and!; [done|done|lia|done].
Qed.

(** ** The other waits *)
(** The bytes a reader has taken off the line so far, of a real or a scripted device. *)
Definition taken (u : uio_uart) (w : W) : list Z :=
  if sim_t0_us u =? 0 then received w else take (sim_pos u) (sim_buf u).

Lemma now_us_taken u w : taken u (now_us w).2 = taken u w.
Proof. unfold taken. by rewrite now_us_keeps_received. Qed.
Lemma now_s_taken u w : taken u (now_s w).2 = taken u w.
Proof. unfold taken. by rewrite now_s_keeps_received. Qed.
Lemma usleep_taken u us w : taken u (usleep us w) = taken u w.
Proof. unfold taken. by rewrite usleep_keeps_received. Qed.

(** A read takes the byte it returns, and nothing else. *)
Lemma get_nb_taken u w b u' w' :
  uart_get_nb u w = (b, u', w') ->
  taken u' w' = taken u w ++ option_list b.
Proof.
  unfold uart_get_nb, uart_stat, taken. destruct (Z.eqb_spec (sim_t0_us u) 0) as [H0|H0]; cbn [negb].
  - pose proof (rx_is_received w) as Hrx. pose proof (stat_keeps_received w) as Hst.
    destruct (reg_read UARTLITE_STAT w) as [s w1]. cbn [snd] in Hst.
    set (u1 := if flag s STAT_OVERRUN then _ else u).
    assert (sim_t0_us u1 = 0) as H1 by (subst u1; by destruct (flag s STAT_OVERRUN)).
    destruct (flag s STAT_RX_VALID); cbn [negb].
    + specialize (Hrx eq_refl). destruct (reg_read UARTLITE_RX w1) as [v w2]. cbn [fst snd] in Hrx.
      intros [= <- <- <-]. cbn. rewrite H1. cbn. by rewrite Hrx, Hst.
    + intros [= <- <- <-]. rewrite H1. cbn. by rewrite Hst, app_nil_r.
  - destruct (Nat.leb_spec (length (sim_buf u)) (sim_pos u)) as [Hl|Hl].
    { intros [= <- <- <-]. rewrite (proj2 (Z.eqb_neq _ _) H0). by rewrite app_nil_r. }
    destruct (now_us w) as [t w1]. destruct (_ <? _).
    { intros [= <- <- <-]. rewrite (proj2 (Z.eqb_neq _ _) H0). by rewrite app_nil_r. }
    intros [= <- <- <-]. cbn. rewrite (proj2 (Z.eqb_neq _ _) H0).
    apply take_S_r. by rewrite list_lookup_lookup_total_lt.
Qed.

(** Sending takes nothing off the line; waiting for quiet drops what it reads. *)
Lemma put_wait_taken fuel start spun timeout w r u :
  put_wait fuel start spun timeout w = Some r -> taken u r.2 = taken u w.
Proof using device.
  revert spun w. induction fuel as [|fuel IH]; intros spun w; [done|]. cbn [put_wait]. unfold uart_stat.
  pose proof (stat_keeps_received w) as H1. destruct (reg_read UARTLITE_STAT w) as [s w1]. cbn [snd] in H1.
  assert (taken u w1 = taken u w) as K1 by (unfold taken; by rewrite H1).
  destruct (flag s STAT_TX_FULL); [|intros [= <-]; exact K1].
  pose proof (now_us_taken u w1) as K2. destruct (now_us w1) as [t w2]. cbn [snd] in K2.
  destruct (_ <? _); [intros [= <-]; cbn; congruence|]. intros K3%IH. congruence.
Qed.
Lemma uart_put_taken fuel u b timeout w ok u' w' :
  uart_put fuel u b timeout w = Some (ok, u', w') -> taken u' w' = taken u w.
Proof using device.
  unfold uart_put. pose proof (now_us_taken u w) as K1. destruct (now_us w) as [t w0]. cbn [snd] in K1.
  destruct (put_wait _ _ _ _ _) as [[[spun ok'] w1]|] eqn:E; cbn [mbind option_bind]; [|done].
  apply (put_wait_taken _ _ _ _ _ _ u) in E. cbn [snd] in E.
  destruct ok'; cbn [negb]; intros [= <- <- <-]; unfold taken in *; cbn [sim_t0_us sim_pos sim_buf update uio_uart_fields];
    rewrite ?write_keeps_received; congruence.
Qed.
Lemma uart_write_taken fuel u buf timeout w ok u' w' :
  uart_write fuel u buf timeout w = Some (ok, u', w') -> taken u' w' = taken u w.
Proof using device.
  revert u w. induction buf as [|b buf IH]; intros u w; cbn [uart_write]; [by intros [= <- <- <-]|].
  destruct (uart_put fuel u b timeout w) as [[[ok1 u1] w1]|] eqn:E; cbn [mbind option_bind]; [|done].
  apply uart_put_taken in E. destruct (negb ok1); [by intros [= <- <- <-]|]. intros K%IH. congruence.
Qed.
Lemma drain_tx_taken fuel timeout w r u : uart_drain_tx fuel timeout w = Some r -> taken u r.2 = taken u w.
Proof using device.
  unfold uart_drain_tx. pose proof (now_us_taken u w) as K0. destruct (now_us w) as [start w0]. cbn [snd] in K0.
  rewrite <- K0. clear K0 w. revert w0. induction fuel as [|fuel IH]; intros w; cbn [drain_loop]; [done|]. unfold uart_stat.
  pose proof (stat_keeps_received w) as H1. destruct (reg_read UARTLITE_STAT w) as [s w1]. cbn [snd] in H1.
  assert (taken u w1 = taken u w) as K1 by (unfold taken; by rewrite H1).
  destruct (flag s STAT_TX_EMPTY); [by intros [= <-]|]. pose proof (now_us_taken u w1) as K2.
  destruct (now_us w1) as [t w2]. cbn [snd] in K2. destruct (_ <? _); [intros [= <-]; cbn; congruence|]. intros K3%IH. congruence.
Qed.
Lemma wait_quiet_taken fuel u idle timeout w ok u' w' :
  uart_wait_quiet fuel u idle timeout w = Some (ok, u', w') -> exists lost, taken u' w' = taken u w ++ lost.
Proof using device.
  unfold uart_wait_quiet. pose proof (now_us_taken u w) as K0. destruct (now_us w) as [start w0]. cbn [snd] in K0.
  rewrite <- K0. clear K0 w. generalize start at 2 as last. revert u w0.
  induction fuel as [|fuel IH]; intros u w last; cbn [quiet_loop]; [done|].
  destruct (uart_get_nb u w) as [[b u1] w1] eqn:E. apply get_nb_taken in E.
  pose proof (now_us_taken u1 w1) as K2. destruct (now_us w1) as [t w2]. cbn [snd] in K2.
  pose proof (now_us_taken u1 w2) as K3. destruct (now_us w2) as [t' w3]. cbn [snd] in K3.
  assert (forall last, quiet_loop fuel u1 start last idle timeout w3 = Some (ok, u', w') ->
    exists lost, taken u' w' = taken u w ++ lost) as Hrec.
  { intros last' (lost & K)%IH. exists (option_list b ++ lost). by rewrite K, K3, K2, E, <- app_assoc. }
  destruct b; [|destruct (_ <=? _); [intros [= <- <- <-]; exists []; by rewrite K2, E|]];
    (destruct (_ <? _); [intros [= <- <- <-]; eexists; by rewrite K3, K2, E|apply Hrec]).
Qed.

Lemma get_nb_sent u w : sent (uart_get_nb u w).2 = sent w.
Proof using device.
  unfold uart_get_nb, uart_stat. destruct (negb _).
  - destruct (_ <=? _)%nat; [done|]. pose proof (now_us_keeps_sent w). destruct (now_us w). by case_match.
  - pose proof (read_keeps_sent UARTLITE_STAT w). destruct (reg_read UARTLITE_STAT w) as [s w1].
    destruct (negb _); [done|]. pose proof (read_keeps_sent UARTLITE_RX w1).
    destruct (reg_read UARTLITE_RX w1). cbn in *. congruence.
Qed.
(** The waits of the driver send nothing. *)
Lemma drain_loop_sent fuel start timeout w r : drain_loop fuel start timeout w = Some r -> sent r.2 = sent w.
Proof using device.
  revert w. induction fuel as [|fuel IH]; intros w; cbn [drain_loop]; [done|]. unfold uart_stat.
  pose proof (read_keeps_sent UARTLITE_STAT w) as H1. destruct (reg_read UARTLITE_STAT w) as [s w1].
  destruct (flag s STAT_TX_EMPTY); [by intros [= <-]|]. pose proof (now_us_keeps_sent w1) as H2.
  destruct (now_us w1) as [t w2]. cbn [snd] in *. destruct (_ <? _); [intros [= <-]; cbn; congruence|].
  intros H3%IH. congruence.
Qed.
Lemma drain_tx_sent fuel timeout w r : uart_drain_tx fuel timeout w = Some r -> sent r.2 = sent w.
Proof using device.
  unfold uart_drain_tx. pose proof (now_us_keeps_sent w) as H1. destruct (now_us w) as [t w1]. cbn [snd] in H1.
  intros H2%drain_loop_sent. congruence.
Qed.
Lemma quiet_loop_sent fuel u start last idle timeout w r :
  quiet_loop fuel u start last idle timeout w = Some r -> sent r.2 = sent w.
Proof using device.
  revert u last w. induction fuel as [|fuel IH]; intros u last w; cbn [quiet_loop]; [done|].
  pose proof (get_nb_sent u w) as H1. destruct (uart_get_nb u w) as [[b u1] w1]. cbn [snd] in H1.
  pose proof (now_us_keeps_sent w1) as H2. destruct (now_us w1) as [t w2]. cbn [snd] in H2.
  pose proof (now_us_keeps_sent w2) as H3. destruct (now_us w2) as [t' w3]. cbn [snd] in H3.
  destruct b; [|destruct (_ <=? _); [intros [= <-]; cbn; congruence|]];
    (destruct (_ <? _); [intros [= <-]; cbn; congruence|]; intros H4%IH; congruence).
Qed.
Lemma wait_quiet_sent fuel u idle timeout w r :
  uart_wait_quiet fuel u idle timeout w = Some r -> sent r.2 = sent w.
Proof using device.
  unfold uart_wait_quiet. pose proof (now_us_keeps_sent w) as H1. destruct (now_us w) as [t w1]. cbn [snd] in H1.
  intros H2%quiet_loop_sent. congruence.
Qed.

Lemma get_nb_time u w :
  let r := uart_get_nb u w in elapsed w <= elapsed r.2 <= elapsed w + 2 * access_bound.
Proof using device.
  unfold uart_get_nb, access_bound. destruct (negb _).
  - destruct (_ <=? _)%nat; [cbn; lia|]. pose proof (now_us_takes_time w) as T. unfold access_bound in T.
    destruct (now_us w) as [t w1]. cbn in T. destruct (_ <? _); cbn; lia.
  - unfold uart_stat. pose proof (read_takes_time UARTLITE_STAT w) as T. unfold access_bound in T.
    destruct (reg_read UARTLITE_STAT w) as [st w1]. cbn [snd] in T.
    set (u1 := if flag st STAT_OVERRUN then _ else u). destruct (negb _); [cbn; lia|].
    pose proof (read_takes_time UARTLITE_RX w1) as T'. unfold access_bound in T'.
    destruct (reg_read UARTLITE_RX w1) as [b w2]. cbn in *. lia.
Qed.

Lemma drain_loop_ends fuel start timeout w :
  0 <= start -> 0 <= timeout < 2 ^ 32 -> within start timeout (Z.of_nat fuel) w ->
  exists ok w', drain_loop fuel (u64 (start / 1000)) timeout w = Some (ok, w').
Proof using device.
  intros Hstart Ht. revert w. induction fuel as [|fuel IH]; intros w [Hw Hf]; [lia|].
  cbn [drain_loop]. unfold uart_stat. pose proof (read_takes_time UARTLITE_STAT w) as T1.
  destruct (reg_read UARTLITE_STAT w) as [s w1]. cbn [snd] in T1.
  destruct (flag s STAT_TX_EMPTY); [by do 2 eexists|].
  pose proof (now_us_takes_time w1) as T2. pose proof (now_us_value w1) as V.
  destruct (now_us w1) as [t w2]. cbn [fst snd] in *. subst t.
  destruct (Z.ltb_spec timeout (u64 (u64 (elapsed w2 / 1000) - u64 (start / 1000)))) as [Hlt|Hle]; [by do 2 eexists|].
  unfold access_bound in *. change (2 ^ 40) with 1099511627776 in *. change (2 ^ 32) with 4294967296 in *.
  apply not_timed_out in Hle; [|lia|change (2 ^ 60) with 1152921504606846976; lia].
  apply IH. split; lia.
Qed.

(** The quiet wait, and what its success means: [idle] microseconds have passed
    since the start or the last byte, with the line empty at the end. *)
Lemma quiet_loop_spec fuel u start last idle timeout w :
  0 <= start -> 0 <= timeout < 2 ^ 32 -> within start timeout (Z.of_nat fuel) w -> 0 <= last <= elapsed w ->
  start <= last ->
  exists ok u' w', quiet_loop fuel u (u64 (start / 1000)) (u64 (last / 1000)) idle timeout w = Some (ok, u', w')
  /\ (ok = true -> exists t u0 w0 w1, last <= t /\ uart_get_nb u0 w0 = (None, u', w1) /\ w' = (now_us w1).2
     /\ idle <= elapsed w' / 1000 - t / 1000).
Proof using device.
  intros Hstart Ht. revert u w last. induction fuel as [|fuel IH]; intros u w last [Hw Hf] Hl Hsl; [lia|].
  cbn [quiet_loop]. pose proof (get_nb_time u w) as T0. cbv zeta in T0.
  destruct (uart_get_nb u w) as [[ob u1] w1] eqn:Eg. cbn [snd] in T0.
  pose proof (now_us_takes_time w1) as T1. pose proof (now_us_value w1) as V1.
  destruct (now_us w1) as [t1 w2] eqn:E1. cbn [fst snd] in *. subst t1.
  pose proof (now_us_takes_time w2) as T2. pose proof (now_us_value w2) as V2.
  unfold access_bound in *. change (2 ^ 40) with 1099511627776 in *. change (2 ^ 32) with 4294967296 in *.
  assert (forall x, 0 <= x <= elapsed w2 -> start <= x ->
    u64 (u64 (elapsed w2 / 1000) - u64 (x / 1000)) = elapsed w2 / 1000 - x / 1000) as Hd.
  { intros x Hx Hx'. apply u64_difference; [lia|]. change (2 ^ 60) with 1152921504606846976. lia. }
  assert (forall last', last <= last' <= elapsed w2 ->
    exists ok u' w', (let '(t, w) := now_us w2 in
      if timeout <? u64 (t - u64 (start / 1000)) then Some (false, u1, w)
      else quiet_loop fuel u1 (u64 (start / 1000)) (u64 (last' / 1000)) idle timeout w) = Some (ok, u', w')
    /\ (ok = true -> exists t u0 w0 w1, last <= t /\ uart_get_nb u0 w0 = (None, u', w1) /\ w' = (now_us w1).2
       /\ idle <= elapsed w' / 1000 - t / 1000)) as Hrest.
  { intros last' Hl'. destruct (now_us w2) as [t2 w3]. cbn [fst snd] in *. subst t2.
    destruct (Z.ltb_spec timeout (u64 (u64 (elapsed w3 / 1000) - u64 (start / 1000)))) as [Hlt|Hle];
      [by do 3 eexists|].
    apply not_timed_out in Hle; [|lia|change (2 ^ 60) with 1152921504606846976; lia].
    destruct (IH u1 w3 last') as (ok & u' & w' & -> & Hok); [split; lia|lia|lia|].
    do 3 eexists. split; [done|]. intros Ho. destruct (Hok Ho) as (t & u0 & w0 & w4 & Ht4 & Hrest).
    exists t, u0, w0, w4. split; [lia|done]. }
  destruct ob as [b|]; [apply Hrest; lia|].
  destruct (Z.leb_spec idle (u64 (u64 (elapsed w2 / 1000) - u64 (last / 1000)))) as [Hi|Hi]; [|apply Hrest; lia].
  do 3 eexists. split; [done|]. intros _. exists last, u, w, w1. rewrite E1. cbn [snd].
  rewrite Hd in Hi by lia. done.
Qed.

(** No wait of the driver hangs. Whatever the device does, [uart_put],
    [uart_drain_tx] and [uart_wait_quiet] return once their time-out has passed;
    [uart_wait_quiet] reports quiet only after the line has been empty at a poll at
    least [idle] microseconds after the last byte it read, or after its start. *)
Theorem uart_waits_end u b idle timeout w :
  0 <= timeout < 2 ^ 32 ->
  (exists r, uart_put (spin_fuel timeout) u b timeout w = Some r)
  /\ (exists ok w', uart_drain_tx (spin_fuel timeout) timeout w = Some (ok, w'))
  /\ exists ok u' w', uart_wait_quiet (spin_fuel timeout) u idle timeout w = Some (ok, u', w')
     /\ (ok = true -> exists t u0 w0 w1, elapsed w < t /\ uart_get_nb u0 w0 = (None, u', w1)
        /\ w' = (now_us w1).2 /\ idle <= elapsed w' / 1000 - t / 1000).
Proof using device.
  intros Ht. split; [by apply uart_put_ends|].
  unfold uart_drain_tx, uart_wait_quiet.
  pose proof (now_us_value w) as V. pose proof (elapsed_start (now_us w).2) as E.
  pose proof (now_us_takes_time w) as T. destruct (now_us w) as [t w0]. cbn [fst snd] in *. subst t.
  assert (within (elapsed w0) timeout (Z.of_nat (spin_fuel timeout)) w0) as Hw.
  { unfold within, spin_fuel. split; lia. }
  split; [by apply drain_loop_ends|].
  destruct (quiet_loop_spec (spin_fuel timeout) u (elapsed w0) (elapsed w0) idle timeout w0)
    as (ok & u' & w' & Hq & Hok); [done|done|done|lia|lia|].
  exists ok, u', w'. split; [done|]. intros Ho.
  destruct (Hok Ho) as (t & u0 & w1 & w2 & Ht2 & Hrest). exists t, u0, w1, w2. split; [lia|done].
Qed.
End Promises.

(** ** A device that keeps the promises

    A sixteen-byte transmit FIFO that shifts a byte out every 86.8 microseconds and
    discards what is written to it while it is full, and a receiver whose bytes
    arrive at given times; every access takes one microsecond. *)
Module Fifo.
Record fifo := FifoT {
  ns : Z;
  queue : list Z;
  accepted : list Z;
  line : list (Z * Z);           (* the arrival time and the byte *)
  popped : list Z
}.
#[global] Instance fifo_fields : Fields fifo := fun d =>
  FifoT (ns d) (queue d) (accepted d) (line d) (popped d).
Definition depth : nat := 16.
Definition advance (dt : Z) (d : fifo) : fifo :=
  let t := Z.max 0 (ns d) + Z.max 1 dt in
  FifoT t (if ns d / 86800 <? t / 86800 then List.tl (queue d) else queue d) (accepted d)
    (line d) (popped d).
Lemma advance_ns dt d : ns (advance dt d) = Z.max 0 (ns d) + Z.max 1 dt.
Proof. done. Qed.
Definition has_room (d : fifo) : bool := (length (queue d) <? depth)%nat.
(** The byte at the head of the receive FIFO, if it has arrived. *)
Definition arrived (d : fifo) : option Z :=
  match line d with
  | (at_ns, b) :: _ => if at_ns <=? ns d then Some (u8 b) else None
  | [] => None
  end.
Definition status (d : fifo) : Z :=
  (if arrived d is Some _ then 1 else 0) .| (match queue d with [] => 4 | _ => 0 end) .| (if has_room d then 0 else 8).

#[global] Instance fifo_world : World fifo := {
  reg_read off d :=
    let d := advance 1000 d in
    if off =? UARTLITE_STAT then (status d, d)
    else if off =? UARTLITE_RX then
      match arrived d with
      | Some b => (b, d <| line := List.tl (line d) |> <| popped := popped d ++ [b] |>)
      | None => (0, d)
      end
    else (0, d);
  reg_write off v d :=
    let r := has_room d in
    let d := advance 1000 d in
    if (off =? UARTLITE_TX) && r
    then d <| queue := queue d ++ [v] |> <| accepted := accepted d ++ [v] |> else d;
  now_us d := let d := advance 1000 d in (u64 (ns d / 1000), d);
  now_s d := let d := advance 1000 d in (u64 (1700000000 + ns d / 1000000000), d);
  usleep us d := advance (1000 * us) d
}.

Lemma status_room d : flag (status d) STAT_TX_FULL = false -> has_room d = true.
Proof. unfold status, flag. destruct (arrived d), (queue d), (has_room d); done. Qed.
Lemma status_valid d : flag (status d) STAT_RX_VALID = true -> exists b, arrived d = Some b.
Proof. unfold status, flag. destruct (arrived d) as [b|], (queue d), (has_room d); try done; by exists b. Qed.
Lemma arrived_later dt d b : 0 <= ns d -> arrived d = Some b -> arrived (advance dt d) = Some b /\ u8 (b .& 0xff) = b.
Proof.
  unfold arrived. intros Hn. cbn [line advance ns]. destruct (line d) as [|[t x] l]; [done|].
  destruct (Z.leb_spec t (ns d)); [|done]. intros [= <-]. split.
  - rewrite (proj2 (Z.leb_le _ _)); [done|lia].
  - change (x .& 0xff) with (u8 x). change (u8 (u8 x)) with (u8 (u8 x)).
    unfold u8. rewrite <- !Z.land_assoc. done.
Qed.
Lemma read_ns off d : ns (reg_read off d).2 = ns (advance 1000 d).
Proof.
  cbn [reg_read fifo_world]. destruct (off =? _); [done|]. destruct (off =? _); [|done].
  by destruct (arrived _).
Qed.

#[global] Program Instance fifo_uartlite : Uartlite fifo := {
  elapsed d := Z.max 0 (ns d);
  boot := 1700000000;
  sent := accepted;
  room := has_room;
  received := popped
}.
Next Obligation. done. Qed.
Next Obligation. intros d. cbn [now_s fifo_world fst snd]. rewrite Z.max_r; [done|rewrite advance_ns; lia]. Qed.
Next Obligation. intros d. cbn [now_s fifo_world snd]. rewrite advance_ns. unfold access_bound. lia. Qed.
Next Obligation. intros us d Hus. cbn [usleep fifo_world]. rewrite advance_ns. unfold access_bound. lia. Qed.
Next Obligation. done. Qed.
Next Obligation. intros off v d. cbn [reg_write fifo_world]. by destruct (_ && _). Qed.
Next Obligation. done. Qed.
Next Obligation. done. Qed.
Next Obligation. done. Qed.
Next Obligation.
  intros d. cbn [reg_read fifo_world Z.eqb UARTLITE_STAT]. intros Hv.
  apply status_valid in Hv as [b Hb]. apply (arrived_later 1000) in Hb as [Hb Hu]; [|rewrite advance_ns; lia].
  change (UARTLITE_RX =? UARTLITE_STAT) with false. change (UARTLITE_RX =? UARTLITE_RX) with true.
  cbv beta iota. rewrite Hb. cbn [fst snd]. rewrite Hu. done.
Qed.
Next Obligation. intros d. cbn [now_us fifo_world fst snd]. rewrite Z.max_r; [done|rewrite advance_ns; lia]. Qed.
Next Obligation. intros d. cbn. lia. Qed.
Next Obligation. intros off d. cbn beta. rewrite read_ns, advance_ns. unfold access_bound. lia. Qed.
Next Obligation.
  intros off v d. cbn [reg_write fifo_world].
  destruct (_ && _); cbn [ns update]; rewrite advance_ns; unfold access_bound; lia.
Qed.
Next Obligation. intros d. cbn [now_us fifo_world snd]. rewrite advance_ns. unfold access_bound. lia. Qed.
Next Obligation.
  intros off d. cbn [reg_read fifo_world]. destruct (off =? _); [done|]. destruct (off =? _); [|done].
  by destruct (arrived _).
Qed.
Next Obligation. done. Qed.
Next Obligation. done. Qed.
Next Obligation. done. Qed.
Next Obligation. intros d. cbn. apply status_room. Qed.
Next Obligation. intros b d Hr. cbn [reg_write fifo_world]. by rewrite Hr. Qed.

(** An item written to an idle device: the FIFO fills, and the driver waits. *)
Definition idle : fifo := FifoT 0 [] [] [] [].
Definition twenty : list Z := map Z.of_nat (seq 0 20).
Example write_waits_for_room :
  ('(ok, u, d) ← uart_write 200 uart_open twenty 1000000 idle;
   Some (ok, tx_bytes u, accepted d, 0 <? tx_stall_us u)) = Some (true, 20, twenty, true).
Proof. vm_compute. reflexivity. Qed.
(** Without the gate, the bytes that find the FIFO full are lost. *)
Example ungated_writes_are_lost :
  accepted (fold_left (fun d b => reg_write UARTLITE_TX b d) twenty idle) = take 16 twenty.
Proof. vm_compute. reflexivity. Qed.
End Fifo.

(** A host without a device, whose clock advances by twenty microseconds when it is
    read: the world of the scripted tests. *)
Module Clock.
Record clock := ClockT { us : Z }.
Definition wait (dt : Z) (c : clock) : clock := ClockT (us c + dt).
#[global] Instance clock_world : World clock := {
  reg_read _ c := (0, c);
  reg_write _ _ c := c;
  now_us c := (us c, wait 20 c);
  now_s c := (us c / 1000000, wait 20 c);
  usleep := wait
}.
Definition start : clock := ClockT 1000000000.
End Clock.

Lemma uart_write_lossless_witness :
  exists ok u' w' k,
    uart_write (spin_fuel 1000) uart_open Fifo.twenty 1000 Fifo.idle = Some (ok, u', w')
    /\ sent w' = sent Fifo.idle ++ take k Fifo.twenty
    /\ (if ok : bool then k = length Fifo.twenty else (k < length Fifo.twenty)%nat)
    /\ tx_bytes u' = u64 (tx_bytes uart_open + Z.of_nat k).
Proof. apply (uart_write_lossless uart_open Fifo.twenty 1000 Fifo.idle); [lia|split; reflexivity]. Defined.

Lemma uart_waits_end_witness :
  (exists r, uart_put (spin_fuel 5000) uart_open 7 5000 Fifo.idle = Some r)
  /\ (exists ok w', uart_drain_tx (spin_fuel 5000) 5000 Fifo.idle = Some (ok, w'))
  /\ exists ok u' w', uart_wait_quiet (spin_fuel 5000) uart_open 300 5000 Fifo.idle = Some (ok, u', w')
     /\ (ok = true -> exists t u0 w0 w1, elapsed Fifo.idle < t /\ uart_get_nb u0 w0 = (None, u', w1)
        /\ w' = (now_us w1).2 /\ 300 <= elapsed w' / 1000 - t / 1000).
Proof. apply (uart_waits_end uart_open 7 300 5000 Fifo.idle). lia. Defined.
End Uart.
