(* ===== verification/Log.v ===== *)
(** * The log (src/miner/miner.c: logf_line; src/miner/stratum.c: slog)

    What a message appends to the file of [--log] and writes to the terminal, the sink
    that the stratum code is handed, and that the file reads back as its messages with
    their times. Which message is logged where is not part of the other files. *)
From S2P Require Import Prelude Decimal Stratum Uart.

Module Log.
Import Decimal.

(** ** The code *)
Section Line.
Context {W : Type} `{Uart.World W}.
(** [text] is the formatted message, [opened] whether [fopen] succeeded; the results are
    the file and what goes to [stderr]. *)
Definition logf_line (opened : bool) (text log : list Z) (w : W) : list Z * list Z * W :=
  let buf := Stratum.snprintf 512 text in
  if opened then
    let '(t, w) := Uart.now_s w in
    (log ++ str "[" ++ dec t ++ str "] " ++ buf ++ [10], buf ++ [10], w)
  else (log, buf ++ [10], w).
(** [g_sink]; NULL drops the message. *)
Definition slog (g_sink : option (list Z -> list Z -> W -> list Z * list Z * W)) (text log : list Z) (w : W) :
    list Z * list Z * W :=
  match g_sink with
  | Some sink => sink (Stratum.snprintf 512 text) log w
  | None => (log, [], w)
  end.
Definition worksrc_log_sink (opened : bool) (line log : list Z) (w : W) : list Z * list Z * W := logf_line opened line log w.

(** Messages one after the other. *)
Fixpoint logged (messages : list (bool * list Z)) (log : list Z) (w : W) : list Z * W :=
  match messages with
  | [] => (log, w)
  | (opened, text) :: messages => let '(log, _, w) := logf_line opened text log w in logged messages log w
  end.
(** The message and the time it is given, for those that reach the file. *)
Fixpoint stamped (messages : list (bool * list Z)) (w : W) : list (Z * list Z) :=
  match messages with
  | [] => []
  | (true, text) :: messages => let '(t, w) := Uart.now_s w in (t, take 511 text) :: stamped messages w
  | (false, _) :: messages => stamped messages w
  end.
End Line.

(** ** Reading the file *)
Fixpoint lines (line p : list Z) : list (list Z) :=
  match p with
  | [] => []
  | c :: p => if c =? 10 then line :: lines [] p else lines (line ++ [c]) p
  end.
Fixpoint digits (p : list Z) : list Z * list Z :=
  match p with
  | c :: q => if (48 <=? c) && (c <=? 57) then let '(d, r) := digits q in (c :: d, r) else ([], p)
  | [] => ([], [])
  end.
Definition entry (line : list Z) : option (Z * list Z) :=
  match line with
  | 91 :: p => match digits p with (d, 93 :: 32 :: text) => Some (dec_val 0 d, text) | _ => None end
  | _ => None
  end.
Definition read_log (log : list Z) : list (option (Z * list Z)) := entry <$> lines [] log.

(** ** It reads back *)
Definition complete (log : list Z) : Prop := log = [] \/ exists l, log = l ++ [10].
Lemma lines_line line text p : 10 ∉ text -> lines line (text ++ 10 :: p) = (line ++ text) :: lines [] p.
Proof.
  revert line. induction text as [|c text IH]; intros line Ht; cbn [app lines]; [by rewrite app_nil_r|].
  apply not_elem_of_cons in Ht as [Hc Ht].
  destruct (Z.eqb_spec c 10) as [->|_]; [done|]. rewrite IH by done. by rewrite <- app_assoc.
Qed.
Lemma lines_complete line l p : lines line ((l ++ [10]) ++ p) = lines line (l ++ [10]) ++ lines [] p.
Proof. revert line. induction l as [|c l IH]; intros line; cbn [app lines]; [done|]. destruct (c =? 10); by rewrite IH. Qed.
Lemma read_log_app log p : complete log -> read_log (log ++ p) = read_log log ++ read_log p.
Proof. intros [->|[l ->]]; [done|]. unfold read_log. by rewrite lines_complete, fmap_app. Qed.
Lemma digits_app d r : Forall is_digit d -> digits (d ++ 93 :: r) = (d, 93 :: r).
Proof.
  induction 1 as [|c d Hc _ IH]; [done|]. cbn [app digits]. unfold is_digit in Hc.
  rewrite (proj2 (Z.leb_le 48 c)), (proj2 (Z.leb_le c 57)) by lia. cbn [andb]. by rewrite IH.
Qed.
Lemma read_entry t text :
  0 <= t < 2 ^ 64 -> 10 ∉ text -> read_log (str "[" ++ dec t ++ str "] " ++ text ++ [10]) = [Some (t, text)].
Proof.
  intros Ht Hn. pose proof (dec_spec t Ht) as (c & l & E & Hd & Hv & _).
  replace (str "[" ++ dec t ++ str "] " ++ text ++ [10]) with ((91 :: dec t ++ 93 :: 32 :: text) ++ [10])
    by (change (str "[") with [91]; change (str "] ") with [93; 32]; cbn [app]; by rewrite <- app_assoc).
  unfold read_log. rewrite E, lines_line.
  - cbn [app lines fmap list_fmap entry]. rewrite app_comm_cons, digits_app by done. by rewrite Hv.
  - rewrite Forall_forall in Hd. intros [?|[H%Hd|[?|[?|?]%elem_of_cons]%elem_of_cons]%elem_of_app]%elem_of_cons; [lia| |lia..|done].
    unfold is_digit in H. lia.
Qed.
Lemma entry_complete log t text : complete (log ++ str "[" ++ dec t ++ str "] " ++ text ++ [10]).
Proof. right. exists (log ++ str "[" ++ dec t ++ str "] " ++ text). by rewrite <- !app_assoc. Qed.

(** Messages without a newline are found in the log, after what was there, in their
    order and with their times, cut at 511 bytes. *)
Theorem log_reads_back {W : Type} `{Uart.Uartlite W} messages (log : list Z) (w : W) :
  complete log -> Forall (fun m => 10 ∉ m.2) messages ->
  read_log (logged messages log w).1 = read_log log ++ (Some <$> stamped messages w).
Proof.
  intros Hl Hm. revert log w Hl. induction Hm as [|[opened text] messages Ht _ IH]; intros log w Hl; [by rewrite app_nil_r|].
  cbn [logged stamped]. unfold logf_line, Stratum.snprintf. change (512 - 1)%nat with 511%nat. destruct opened; [|by apply IH].
  pose proof (Uart.now_s_value w) as Hv. destruct (Uart.now_s w) as [t w1]. cbn [fst] in Hv.
  rewrite IH by apply entry_complete. rewrite read_log_app by done. rewrite read_entry.
  - by rewrite <- app_assoc.
  - rewrite Hv. apply u64_word.
  - intros Hin. apply Ht. by apply (subseteq_take 511).
Qed.
Lemma log_reads_back_witness :
  read_log (logged [(true, str "frame_sync: line quiet"); (false, str "lost"); (true, str "SELFTEST uart PASS")] [] Uart.Fifo.idle).1
  = read_log [] ++ (Some <$> stamped [(true, str "frame_sync: line quiet"); (false, str "lost"); (true, str "SELFTEST uart PASS")] Uart.Fifo.idle).
Proof. apply log_reads_back; [by left|]. by apply (bool_decide_unpack _). Defined.

(** The node's refusal is logged as it came, newline included: its line ends the entry
    early and an empty line follows. *)
Example refusal_breaks_entry :
  read_log (logf_line true (str "SUBMIT: rejected: x" ++ [10]) [] Uart.Clock.start).1.1
  = [Some (u64 (1000000000 / 1000000), str "SUBMIT: rejected: x"); None].
Proof. vm_compute. done. Qed.
End Log.
