(* ===== verification/Framing.v ===== *)
(** * Framing the reply stream (src/miner/miner.c: frame_sync, framing_make,
      selftest_framing)

    The FPGA's replies are 17-byte frames without delimiters. [frame_sync] finds a
    frame boundary from an idle gap, from silence, or from the period of the flag
    byte, over the UART driver and the clocks of [Uart]. The caller's buffer is a
    capacity: storing past it is the error [Overrun]. *)
From S2P Require Import Prelude Sha256 Blake2b WorkItem Uart.

Module Framing.
Import WorkItem Uart.
Local Open Scope word_scope.

(** ** Outcomes *)
Inductive res (A : Type) :=
  | Ok (a : A)
  | NoFuel
  | Overrun.                     (* a store past the end of the caller's object *)
Arguments Ok {A}.
Arguments NoFuel {A}.
Arguments Overrun {A}.
#[export] Instance res_ret : MRet res := @Ok.
#[export] Instance res_bind : MBind res := fun A B k m =>
  match m with Ok a => k a | NoFuel => NoFuel | Overrun => Overrun end.
Definition fuelled {A} (m : option A) : res A := from_option Ok NoFuel m.

(** The framing counters of [st]. *)
Record framing_stats := FramingStats {
  sync_quiet : Z;
  sync_gap : Z;
  sync_locked : Z;
  sync_failed : Z
}.
#[export] Instance framing_stats_fields : Fields framing_stats := fun s =>
  FramingStats (sync_quiet s) (sync_gap s) (sync_locked s) (sync_failed s).

Definition NSYNC : nat := 512.

Section Sync.
Context {W : Type} `{World W}.

(** ** Collecting *)
Inductive collected :=
  | Gap (buf : list Z)           (* bytes, then silence *)
  | Quiet                        (* silence, no byte read *)
  | Full (buf : list Z).         (* the time or the buffer ran out *)

Fixpoint collect (fuel : nat) (quiet_ok : bool) (deadline idle_us : Z) (buf : list Z) (u : uio_uart) (w : W)
    : option (collected * uio_uart * W) :=
  match fuel with
  | O => None
  | S fuel =>
    let '(t, w) := now_s w in
    if deadline <? t then Some (Full buf, u, w)
    else
      let '(b, u, w) := uart_get_nb u w in
      match b with
      | Some b =>
        let buf := if (length buf <? NSYNC)%nat then buf ++ [b] else buf in
        if (NSYNC <=? length buf)%nat then Some (Full buf, u, w)
        else collect fuel quiet_ok deadline 0 buf u w
      | None =>
        let w := usleep 200 w in
        let idle_us := u32 (idle_us + 200) in
        if (3000 <=? idle_us) && (0 <? length buf)%nat then Some (Gap buf, u, w)
        else if (3000 <=? idle_us) && (length buf =? 0)%nat && quiet_ok then Some (Quiet, u, w)
        else if (NSYNC <=? length buf)%nat then Some (Full buf, u, w)
        else collect fuel quiet_ok deadline idle_us buf u w
      end
  end.

(** ** The period of the flag byte *)
Definition histogram (buf : list Z) : list Z :=
  foldl (fun bucket i =>
    if buf !!! i =? 0x01
    then <[(i mod RESULT_LEN)%nat := u32 (bucket !!! (i mod RESULT_LEN)%nat + 1)]> bucket
    else bucket) (replicate RESULT_LEN 0) (seq 0 (length buf)).
Definition best_residue (bucket : list Z) : nat :=
  foldl (fun best i => if bucket !!! best <? bucket !!! i then i else best) 0%nat (seq 1 (RESULT_LEN - 1)).
Definition skip_of (best got : nat) : nat :=
  Z.to_nat (Z.rem ((Z.of_nat best - Z.of_nat (got mod RESULT_LEN)) + Z.of_nat RESULT_LEN) (Z.of_nat RESULT_LEN)).

(** Discard [n] bytes; [false] when the time ran out. *)
Fixpoint skip_bytes (fuel n : nat) (skip_deadline : Z) (u : uio_uart) (w : W) : option (bool * uio_uart * W) :=
  match n with
  | O => Some (true, u, w)
  | S n' =>
    match fuel with
    | O => None
    | S fuel =>
      let '(b, u, w) := uart_get_nb u w in
      match b with
      | Some _ => skip_bytes fuel n' skip_deadline u w
      | None =>
        let '(t, w) := now_s w in
        if skip_deadline <? t then Some (false, u, w) else skip_bytes fuel n skip_deadline u w
      end
    end
  end.

(** Read up to [want] bytes, [out] those read so far. *)
Fixpoint read_frames (fuel want : nat) (rd_deadline : Z) (out : list Z) (u : uio_uart) (w : W)
    : option (list Z * uio_uart * W) :=
  match fuel with
  | O => None
  | S fuel =>
    if (want <=? length out)%nat then Some (out, u, w)
    else
      let '(t, w) := now_s w in
      if rd_deadline <? t then Some (out, u, w)
      else
        let '(b, u, w) := uart_get_nb u w in
        read_frames fuel want rd_deadline (out ++ option_list b) u w
  end.

(** [memcpy(out_buf, out, n)] into an object of [cap] bytes. *)
Definition hand_back {A} (cap : nat) (out : list Z) (r : A) : res A :=
  if (length out <=? cap)%nat then Ok r else Overrun.

(** The dense stream: lock on the period of the flag byte in [buf], discard up to the
    next frame and read a run of frames. *)
Definition lock_on (fuel : nat) (buf : list Z) (u : uio_uart) (cap : option nat) (st : framing_stats) (w : W)
    : res (Z * list Z * uio_uart * framing_stats * W) :=
  let got := length buf in
  if (got <? RESULT_LEN * 4)%nat then
    Ok (-1, [], u, st <| sync_failed := u64 (sync_failed st + 1) |>, w)
  else
    let bucket := histogram buf in
    let best := best_residue bucket in
    let frames := Z.of_nat (got / RESULT_LEN) in
    if u32 (bucket !!! best * 2) <? frames then
      Ok (-1, [], u, st <| sync_failed := u64 (sync_failed st + 1) |>, w)
    else
      let '(t, w) := now_s w in
      '(ok, u, w) ← fuelled (skip_bytes fuel (skip_of best got) (u64 (t + 2)) u w);
      if negb ok then Ok (-1, [], u, st, w)
      else
        let st := st <| sync_locked := u64 (sync_locked st + 1) |> in
        match cap with
        | Some cap =>
          let '(t, w) := now_s w in
          '(out, u, w) ← fuelled (read_frames fuel (RESULT_LEN * 8) (u64 (t + 3)) [] u w);
          hand_back cap out (0, out, u, st, w)
        | None => Ok (0, [], u, st, w)
        end.

(** The return code, the bytes in [out_buf] ([out_len] of them), the driver's
    state and the counters. [cap] is the size of the caller's buffer, [None] when
    [out_buf] is NULL. *)
Definition frame_sync (fuel : nat) (u : uio_uart) (timeout_s : Z) (cap : option nat) (quiet_ok : bool)
    (st : framing_stats) (w : W) : res (Z * list Z * uio_uart * framing_stats * W) :=
  let '(t, w) := now_s w in
  let deadline := u64 (t + timeout_s) in
  '(c, u, w) ← fuelled (collect fuel quiet_ok deadline 0 [] u w);
  match c with
  | Gap buf =>
    let st := st <| sync_gap := u64 (sync_gap st + 1) |> in
    match cap with
    | Some cap => hand_back cap buf (0, buf, u, st, w)
    | None => Ok (0, [], u, st, w)
    end
  | Quiet => Ok (0, [], u, st <| sync_quiet := u64 (sync_quiet st + 1) |>, w)
  | Full buf => lock_on fuel buf u cap st w
  end.

(** ** The frame the test sends *)
Definition framing_make (nonce hash : Z) : list Z :=
  0x01 :: ((fun i => u8 (nonce ≫ (8 * Z.of_nat i))) <$> seq 0 8)
       ++ ((fun i => u8 (hash ≫ (8 * Z.of_nat i))) <$> seq 0 8).

(** ** The selftest: six scripted arrival patterns, [out] an array of 512 bytes *)
Definition kNonce : Z := 0xe000000000763b60.
Definition kHash : Z := 0x4f753d7193417e00.
Definition frame : list Z := framing_make kNonce kHash.
Definition NF : nat := 40.

(** Back to back at 87 microseconds a byte. *)
Definition at_us_from (start : Z) (n : nat) : list Z := (fun i => start + Z.of_nat i * 87) <$> seq 0 n.

(** A reply that is not the frame sent counts as one failure. *)
Definition check_frame (got : list Z) : Z :=
  let '(rc, r) := parse_result got in
  if negb (rc =? 0) then 1
  else if negb (nonce r =? kNonce) || negb (hash_top64 r =? kHash) then 1 else 0.

(** The scripted line, [frame_sync] on it, and what the case does with the result. *)
Definition on_line (fuel : nat) (buf at_us : list Z) (quiet_ok : bool) (st : framing_stats) (w : W)
    (check : Z -> list Z -> uio_uart -> W -> res (Z * W)) : res (Z * framing_stats * W) :=
  let '(u, w) := uart_open_sim buf at_us w in
  '(rc, out, u, st, w) ← frame_sync fuel u 2 (Some 512%nat) quiet_ok st w;
  '(bad, w) ← check rc out u w;
  Ok (bad, st, w).

Definition case_quiet_line (fuel : nat) (st : framing_stats) (w : W) : res (Z * framing_stats * W) :=
  on_line fuel [] [] true st w (fun rc out u w =>
    Ok (if negb (rc =? 0) then 1
        else if negb (length out =? 0)%nat then 1
        else if negb (rx_bytes u =? 0) then 1 else 0, w)).

Definition case_quiet_then_frame (fuel : nat) (st : framing_stats) (w : W) : res (Z * framing_stats * W) :=
  on_line fuel frame (at_us_from 50000 RESULT_LEN) true st w (fun rc out u w =>
    if negb (rc =? 0) then Ok (1, w)
    else
      let got := take RESULT_LEN out in
      let '(t, w) := now_s w in
      '(got, u, w) ← fuelled (read_frames fuel RESULT_LEN (u64 (t + 2)) got u w);
      Ok (if negb (length got =? RESULT_LEN)%nat then 1 else check_frame got, w)).

Definition case_gap_path (fuel : nat) (st : framing_stats) (w : W) : res (Z * framing_stats * W) :=
  on_line fuel frame (at_us_from 0 RESULT_LEN) true st w (fun rc out u w =>
    Ok (if negb (rc =? 0) then 1
        else if negb (length out =? RESULT_LEN)%nat || negb (bool_decide (out = frame)) then 1 else 0, w)).

Definition case_dense_path (fuel : nat) (st : framing_stats) (w : W) : res (Z * framing_stats * W) :=
  let buf := concat ((fun f => drop (if (f =? 0)%nat then 5 else 0) frame) <$> seq 0 NF) in
  on_line fuel buf (at_us_from 0 (length buf)) true st w (fun rc out u w =>
    Ok (if negb (rc =? 0) then 1
        else if (RESULT_LEN <=? length out)%nat
        then if negb ((parse_result out).1 =? 0) then 1 else 0 else 0, w)).

Definition case_loopback_guard (fuel : nat) (st : framing_stats) (w : W) : res (Z * framing_stats * W) :=
  on_line fuel [] [] false st w (fun rc out u w => Ok (if rc =? 0 then 1 else 0, w)).

(** Parseable frames from [pos] to the end of [out]. *)
Fixpoint count_frames (fuel : nat) (out : list Z) (frames : nat) : nat :=
  match fuel with
  | O => frames
  | S fuel =>
    if negb (RESULT_LEN <=? length out)%nat then frames
    else if negb (check_frame out =? 0) then frames
    else count_frames fuel (drop RESULT_LEN out) (S frames)
  end.

Definition case_partial_lead (fuel : nat) (st : framing_stats) (w : W) : res (Z * framing_stats * W) :=
  let buf := drop 5 frame ++ frame ++ frame in
  on_line fuel buf (at_us_from 0 (length buf)) true st w (fun rc out u w =>
    Ok (if negb (rc =? 0) then 1
        else
          let whole := (length out / RESULT_LEN * RESULT_LEN)%nat in
          (if (whole <? length out)%nat && ((parse_result out).1 =? 0) then 1 else 0)
          + (if (count_frames (length out) (drop (length out - whole) out) 0 =? whole / RESULT_LEN)%nat
             then 0 else 1), w)).

Definition selftest_framing (fuel : nat) (st : framing_stats) (w : W) : res (Z * framing_stats * W) :=
  '(b1, st, w) ← case_quiet_line fuel st w;
  '(b2, st, w) ← case_quiet_then_frame fuel st w;
  '(b3, st, w) ← case_gap_path fuel st w;
  '(b4, st, w) ← case_dense_path fuel st w;
  '(b5, st, w) ← case_loopback_guard fuel st w;
  '(b6, st, w) ← case_partial_lead fuel st w;
  Ok (b1 + b2 + b3 + b4 + b5 + b6, st, w).
End Sync.

(** ** The residue with the most flag bytes *)
Definition is_flag (buf : list Z) (r i : nat) : bool := (i mod RESULT_LEN =? r)%nat && (buf !!! i =? 0x01).
(** The flag bytes at offsets congruent to [r]. *)
Definition flags_at (buf : list Z) (r : nat) : nat :=
  length (List.filter (is_flag buf r) (seq 0 (length buf))).

Lemma histogram_spec buf r :
  (r < RESULT_LEN)%nat -> (length buf <= NSYNC)%nat -> histogram buf !!! r = Z.of_nat (flags_at buf r).
Proof.
  intros Hr Hl. unfold histogram, flags_at.
  set (f := fun (bucket : list Z) (i : nat) => _).
  assert (forall n, (n <= length buf)%nat -> length (foldl f (replicate RESULT_LEN 0) (seq 0 n)) = RESULT_LEN
    /\ foldl f (replicate RESULT_LEN 0) (seq 0 n) !!! r = Z.of_nat (length (List.filter (is_flag buf r) (seq 0 n)))) as Hn;
    [|by apply Hn].
  induction n as [|n IH]; intros Hle.
  { split; [done|]. cbn [seq foldl List.filter length]. by rewrite lookup_total_replicate_2. }
  destruct IH as [IH1 IH2]; [lia|]. rewrite seq_S, foldl_app, List.filter_app, length_app.
  cbn [foldl Nat.add List.filter]. unfold is_flag at 2. unfold f at 1 3.
  destruct (Z.eqb_spec (buf !!! n) 1) as [Hb|Hb]; [|by rewrite andb_false_r, IH2, Nat.add_0_r].
  rewrite length_insert. split; [done|]. rewrite andb_true_r.
  destruct (Nat.eqb_spec (n mod RESULT_LEN) r) as [Hm|Hm].
  - rewrite Hm, list_lookup_total_insert_eq by lia. rewrite IH2. cbn [length].
    pose proof (List.filter_length_le (is_flag buf r) (seq 0 n)) as Hc. rewrite length_seq in Hc.
    clear -Hc Hle Hl. unfold NSYNC in Hl. set (k := length (List.filter _ _)) in *. clearbody k.
    rewrite u32_small; [lia|]. unfold is_word. change (2 ^ 32) with 4294967296. lia.
  - rewrite list_lookup_total_insert_ne by done. cbn [length]. by rewrite IH2, Nat.add_0_r.
Qed.

Lemma best_residue_spec bucket :
  let b := best_residue bucket in
  (b < RESULT_LEN)%nat /\ forall i, (i < RESULT_LEN)%nat ->
    bucket !!! i <= bucket !!! b /\ ((i < b)%nat -> bucket !!! i < bucket !!! b).
Proof.
  unfold best_residue. change RESULT_LEN with (S (RESULT_LEN - 1)) at 2 3.
  generalize (RESULT_LEN - 1)%nat as n. cbv zeta.
  set (f := fun (best i : nat) => _). induction n as [|n [IH1 IH2]].
  { cbn. split; [lia|]. intros i Hi. replace i with 0%nat by lia. split; lia. }
  rewrite seq_S, foldl_app. cbn [foldl Nat.add]. set (b := foldl f 0%nat (seq 1 n)) in *. unfold f.
  destruct (Z.ltb_spec (bucket !!! b) (bucket !!! S n)) as [H1|H1]; (split; [lia|]); intros i Hi.
  - destruct (decide (i = S n)) as [->|Hne]; [split; lia|].
    destruct (IH2 i ltac:(lia)) as [H2 _]. split; lia.
  - destruct (decide (i = S n)) as [->|Hne]; [split; lia|]. apply IH2. lia.
Qed.

(** The residue [r] holds the most flags of [buf], and is the first to. *)
Definition most_flags (buf : list Z) (r : nat) : Prop :=
  (r < RESULT_LEN)%nat /\ forall i, (i < RESULT_LEN)%nat ->
    (flags_at buf i <= flags_at buf r)%nat /\ (i < r -> flags_at buf i < flags_at buf r)%nat.
Lemma best_has_most_flags buf :
  (length buf <= NSYNC)%nat -> most_flags buf (best_residue (histogram buf)).
Proof.
  intros Hl. destruct (best_residue_spec (histogram buf)) as [H1 H2]. split; [done|].
  intros i Hi. destruct (H2 i Hi) as [H3 H4]. rewrite !histogram_spec in H3, H4 by done.
  split; [lia|]. intros Hb. specialize (H4 Hb). lia.
Qed.

Lemma skip_of_spec best got :
  (best < RESULT_LEN)%nat ->
  (skip_of best got < RESULT_LEN)%nat /\ ((got + skip_of best got) mod RESULT_LEN = best)%nat.
Proof.
  intros Hb. unfold skip_of. pose proof (Nat.mod_upper_bound got RESULT_LEN ltac:(done)) as Hg.
  pose proof (Nat.div_mod got RESULT_LEN ltac:(done)) as Hd.
  set (q := (got / RESULT_LEN)%nat) in *. set (m := (got mod RESULT_LEN)%nat) in *. clearbody q m.
  unfold RESULT_LEN in *. rewrite Z.rem_mod_nonneg by lia.
  destruct (decide (m <= best)%nat) as [Hm|Hm].
  - replace (Z.of_nat best - Z.of_nat m + Z.of_nat 17) with (Z.of_nat (best - m) + 1 * Z.of_nat 17) by lia.
    rewrite Z.mod_add, Z.mod_small, Nat2Z.id by lia. split; [lia|].
    replace (got + (best - m))%nat with (best + q * 17)%nat by lia. rewrite Nat.Div0.mod_add. by apply Nat.mod_small.
  - rewrite Z.mod_small by lia.
    replace (Z.to_nat (Z.of_nat best - Z.of_nat m + Z.of_nat 17)) with (best + 17 - m)%nat by lia. split; [lia|].
    replace (got + (best + 17 - m))%nat with (best + (q + 1) * 17)%nat by lia.
    rewrite Nat.Div0.mod_add. by apply Nat.mod_small.
Qed.

(** ** What the loops do, for any device that keeps its promises *)
Section Promises.
Context {W : Type} `{device : Uartlite W}.

(** The wall clock in nanoseconds. *)
Definition G : Z := 1000000000.
Definition now (w : W) : Z := boot * G + elapsed w.
(** The years in which [time(NULL)] and the deadlines fit 64 bits. *)
Definition in_range (w : W) : Prop := now w < 2 ^ 62 * G.

Lemma now_nonneg w : 0 <= now w.
Proof using device. unfold now, G. pose proof boot_range. pose proof (elapsed_start w). lia. Qed.
Lemma now_s_ticks w : exists t w1, now_s w = (t, w1)
  /\ t = u64 (now w1 / G) /\ now w < now w1 <= now w + access_bound /\ forall u, taken u w1 = taken u w.
Proof using device.
  pose proof (now_s_value w) as V. pose proof (now_s_takes_time w) as T.
  pose proof (fun u => now_s_taken u w) as K. destruct (now_s w) as [t w1]. cbn [fst snd] in *.
  exists t, w1. split; [done|]. split; [|unfold now; split; [lia|done]].
  unfold now. rewrite V. change 1000000000 with G. rewrite Z.add_comm, Z.div_add_l by done. f_equal. lia.
Qed.
Lemma get_nb_ticks u w : exists b u1 w1, uart_get_nb u w = (b, u1, w1)
  /\ taken u1 w1 = taken u w ++ option_list b /\ now w <= now w1 <= now w + 2 * access_bound.
Proof using device.
  pose proof (get_nb_time u w) as T. cbv zeta in T. destruct (uart_get_nb u w) as [[b u1] w1] eqn:E.
  exists b, u1, w1. split; [done|]. split; [by apply get_nb_taken|]. unfold now. cbn [snd] in T. lia.
Qed.
Lemma usleep_ticks w : now w + 200000 <= now (usleep 200 w) <= now w + 200000 + access_bound
  /\ forall u, taken u (usleep 200 w) = taken u w.
Proof using device.
  pose proof (usleep_takes_time 200 w). unfold now. split; [lia|]. intros u. apply usleep_taken.
Qed.

(** A reading not past a deadline bounds the time; one past it means it has passed. *)
Lemma reading_in_time w deadline :
  0 <= deadline < 2 ^ 63 -> now w < (deadline + 1) * G + 2 ^ 58 ->
  (deadline <? u64 (now w / G)) = negb (now w <? (deadline + 1) * G).
Proof using device.
  intros Hd Hw. pose proof (now_nonneg w) as Hn.
  rewrite u64_small.
  - destruct (Z.ltb_spec (now w) ((deadline + 1) * G)) as [H1|H1]; cbn [negb].
    + apply Z.ltb_ge. assert (now w / G < deadline + 1); [|lia]. apply Z.div_lt_upper_bound; unfold G in *; lia.
    + apply Z.ltb_lt. assert (deadline + 1 <= now w / G); [|lia]. apply Z.div_le_lower_bound; unfold G in *; lia.
  - split; [apply Z.div_pos; unfold G; lia|]. apply Z.div_lt_upper_bound; [done|].
    unfold G in *. change (2 ^ 63) with 9223372036854775808 in *. change (2 ^ 58) with 288230376151711744 in *.
    change (2 ^ 64) with 18446744073709551616. lia.
Qed.
(** A deadline [s] seconds after a reading. *)
Lemma deadline_after w s :
  0 <= s < 2 ^ 40 -> now w < 2 ^ 62 * G + 2 ^ 58 ->
  let d := u64 (u64 (now w / G) + s) in
  0 <= d < 2 ^ 63 /\ d = now w / G + s /\ now w + s * G < (d + 1) * G <= now w + (s + 1) * G.
Proof using device.
  intros Hs Hw. pose proof (now_nonneg w) as Hn. cbv zeta. rewrite u64_add_l.
  pose proof (Z.div_mod (now w) G ltac:(done)) as Hm. pose proof (Z.mod_pos_bound (now w) G ltac:(done)) as Hb.
  set (q := now w / G) in *. set (r := now w mod G) in *. clearbody q r. unfold G in *.
  change (2 ^ 62) with 4611686018427387904 in *. change (2 ^ 58) with 288230376151711744 in *.
  change (2 ^ 40) with 1099511627776 in *. change (2 ^ 63) with 9223372036854775808.
  rewrite u64_small by (unfold is_word; change (2 ^ 64) with 18446744073709551616; lia). lia.
Qed.

(** The polls of the collection and what each of them saw; a sleep follows an empty one. *)
Inductive polls (u0 : uio_uart) (w0 : W) : list (option Z) -> uio_uart -> W -> Prop :=
  | no_poll : polls u0 w0 [] u0 w0
  | one_poll seen u w t w1 b u' w' :
      polls u0 w0 seen u w -> now_s w = (t, w1) -> uart_get_nb u w1 = (b, u', w') ->
      polls u0 w0 (seen ++ [b]) u' (match b with Some _ => w' | None => usleep 200 w' end).
(** The bytes seen, and the empty polls since the last of them. *)
Definition got (seen : list (option Z)) : list Z := omap id seen.
Definition idle (seen : list (option Z)) : nat := foldl (fun n b => match b with Some _ => 0 | None => S n end)%nat 0%nat seen.
Lemma got_snoc seen b : got (seen ++ [b]) = got seen ++ option_list b.
Proof. unfold got. rewrite omap_app. by destruct b. Qed.
Lemma idle_snoc seen b : idle (seen ++ [b]) = match b with Some _ => 0%nat | None => S (idle seen) end.
Proof. unfold idle. by rewrite foldl_app. Qed.
Lemma polls_taken u0 w0 seen u w : polls u0 w0 seen u w -> taken u w = taken u0 w0 ++ got seen /\ elapsed w0 <= elapsed w.
Proof using device.
  induction 1 as [|seen u w t w1 b u' w' _ [IH1 IH2] Ht Hg]; [split; [by rewrite app_nil_r|lia]|].
  destruct (now_s_ticks w) as (t' & w1' & Ht' & _ & T1 & K1). rewrite Ht in Ht'. injection Ht' as <- <-.
  destruct (get_nb_ticks u w1) as (b' & u1 & w2 & Hg' & K2 & T2). rewrite Hg in Hg'. injection Hg' as <- <- <-.
  rewrite got_snoc, app_assoc, <- IH1, <- (K1 u), <- K2. destruct (usleep_ticks w') as [T3 K3]. unfold now in *.
  destruct b; [split; [done|lia]|]. rewrite K3. split; [done|lia].
Qed.
(** Fifteen empty polls are more than three milliseconds of silence. *)
Lemma polls_silence u0 w0 n u w : polls u0 w0 (replicate n None) u w -> elapsed w0 + 200000 * Z.of_nat n <= elapsed w.
Proof using device.
  intros Hp. remember (replicate n None) as seen eqn:E. revert n E.
  induction Hp as [|seen u w t w1 b u' w' _ IH Ht Hg]; intros n E; [destruct n; [lia|done]|].
  destruct n as [|n]; [by destruct seen|]. rewrite replicate_S_end in E. apply app_inj_tail in E as [-> ->].
  specialize (IH n eq_refl).
  destruct (now_s_ticks w) as (t' & w1' & Ht' & _ & T1 & _). rewrite Ht in Ht'. injection Ht' as <- <-.
  destruct (get_nb_ticks u w1) as (b' & u1 & w2 & Hg' & _ & T2). rewrite Hg in Hg'. injection Hg' as <- <- <-.
  destruct (usleep_ticks w') as [T3 _]. unfold now in *. lia.
Qed.
(** The line is framed: silent for fifteen polls, after bytes or for a caller that
    accepts silence. *)
Definition framed (quiet_ok : bool) (seen : list (option Z)) : bool :=
  (15 <=? idle seen)%nat && ((0 <? length (got seen))%nat || quiet_ok).
Definition never_framed (quiet_ok : bool) (seen : list (option Z)) : Prop :=
  forall before after, seen = before ++ after -> framed quiet_ok before = false.
Definition first_framed (quiet_ok : bool) (seen : list (option Z)) : Prop :=
  framed quiet_ok seen = true /\ exists before b, seen = before ++ [b] /\ never_framed quiet_ok before.
Lemma never_framed_snoc quiet_ok seen b :
  never_framed quiet_ok seen -> framed quiet_ok (seen ++ [b]) = false -> never_framed quiet_ok (seen ++ [b]).
Proof.
  intros Hs Hb before after E. destruct after as [|x after _] using rev_ind; [by rewrite app_nil_r in E; subst|].
  rewrite app_assoc in E. apply app_inj_tail in E as [-> _]. by eapply Hs.
Qed.

(** Framing sends nothing. *)
Lemma now_s_sent w t w1 : now_s w = (t, w1) -> sent w1 = sent w.
Proof using device. intros E. pose proof (now_s_keeps_sent w) as H1. by rewrite E in H1. Qed.
Lemma get_sent u w b u1 w1 : uart_get_nb u w = (b, u1, w1) -> sent w1 = sent w.
Proof using device. intros E. pose proof (get_nb_sent u w) as H1. by rewrite E in H1. Qed.
Lemma collect_sent fuel quiet_ok deadline idle buf u w r :
  collect fuel quiet_ok deadline idle buf u w = Some r -> sent r.2 = sent w.
Proof using device.
  revert idle buf u w. induction fuel as [|fuel IH]; intros idle buf u w; cbn [collect]; [done|].
  destruct (now_s w) as [t w1] eqn:E1. apply now_s_sent in E1.
  destruct (deadline <? t); [by intros [= <-]|].
  destruct (uart_get_nb u w1) as [[b u1] w2] eqn:E2. apply get_sent in E2.
  destruct b as [b|].
  - destruct (_ <=? _)%nat; [intros [= <-]; cbn; congruence|].
    intros H3%IH. congruence.
  - pose proof (usleep_keeps_sent 200 w2) as E3.
    destruct (_ && _); [intros [= <-]; cbn; congruence|]. destruct (_ && _ && _); [intros [= <-]; cbn; congruence|].
    destruct (_ <=? _)%nat; [intros [= <-]; cbn; congruence|]. intros H4%IH. congruence.
Qed.
Lemma skip_bytes_sent fuel n deadline u w r :
  skip_bytes fuel n deadline u w = Some r -> sent r.2 = sent w.
Proof using device.
  revert n u w. induction fuel as [|fuel IH]; intros n u w; (destruct n as [|n]; cbn [skip_bytes]; [by intros [= <-]|]); [done|].
  destruct (uart_get_nb u w) as [[b u1] w1] eqn:E2. apply get_sent in E2.
  destruct b; [intros H3%IH; congruence|]. destruct (now_s w1) as [t w2] eqn:E1. apply now_s_sent in E1.
  destruct (_ <? _); [intros [= <-]; cbn; congruence|]. intros H3%IH. congruence.
Qed.
Lemma read_frames_sent fuel want deadline out u w r :
  read_frames fuel want deadline out u w = Some r -> sent r.2 = sent w.
Proof using device.
  revert out u w. induction fuel as [|fuel IH]; intros out u w; cbn [read_frames]; [done|].
  destruct (_ <=? _)%nat; [by intros [= <-]|]. destruct (now_s w) as [t w1] eqn:E1. apply now_s_sent in E1.
  destruct (_ <? _); [by intros [= <-]|]. destruct (uart_get_nb u w1) as [[b u1] w2] eqn:E2. apply get_sent in E2.
  intros H3%IH. congruence.
Qed.
Lemma hand_back_ok {A} cap out (r r' : A) : hand_back cap out r = Ok r' -> r' = r /\ (length out <= cap)%nat.
Proof. unfold hand_back. destruct (Nat.leb_spec (length out) cap); [by intros [= <-]|done]. Qed.
Lemma lock_on_sent fuel buf u cap st w r : lock_on fuel buf u cap st w = Ok r -> sent r.2 = sent w.
Proof using device.
  unfold lock_on. destruct (_ <? _)%nat; [by intros [= <-]|]. destruct (_ <? _); [by intros [= <-]|].
  destruct (now_s w) as [t w1] eqn:E1. apply now_s_sent in E1.
  destruct (skip_bytes _ _ _ _ _) as [[[ok u1] w2]|] eqn:E2; [|done]. apply skip_bytes_sent in E2.
  cbn [fuelled from_option mbind res_bind] in *. destruct ok; cbn [negb]; [|intros [= <-]; cbn in *; congruence].
  destruct cap as [cap|]; [|intros [= <-]; cbn in *; congruence].
  destruct (now_s w2) as [t' w3] eqn:E3. apply now_s_sent in E3.
  destruct (read_frames _ _ _ _ _ _) as [[[out u2] w4]|] eqn:E4; [|done]. apply read_frames_sent in E4.
  cbn [from_option mbind res_bind]. intros [-> _]%hand_back_ok. cbn in *. congruence.
Qed.
Lemma frame_sync_sent fuel u timeout cap quiet_ok st w r :
  frame_sync fuel u timeout cap quiet_ok st w = Ok r -> sent r.2 = sent w.
Proof using device.
  unfold frame_sync. destruct (now_s w) as [t w1] eqn:E1. apply now_s_sent in E1.
  destruct (collect _ _ _ _ _ _ _) as [[[c u1] w2]|] eqn:E2; [|done]. apply collect_sent in E2.
  cbn [fuelled from_option mbind res_bind fst snd] in *. destruct c as [buf| |buf].
  - destruct cap as [cap|]; [intros [-> _]%hand_back_ok; cbn; congruence|intros [= <-]; cbn; congruence].
  - intros [= <-]. cbn. congruence.
  - intros E3%lock_on_sent. congruence.
Qed.

(** Whatever the fuel, a call that returns accounts for the bytes it took: those it
    hands back are the last ones. *)
Lemma now_s_takes u w t w1 : now_s w = (t, w1) -> taken u w1 = taken u w.
Proof using device. intros E. pose proof (now_s_taken u w) as H1. by rewrite E in H1. Qed.
Lemma collect_taken fuel quiet_ok deadline idle buf u w c u' w' :
  collect fuel quiet_ok deadline idle buf u w = Some (c, u', w') -> (length buf < NSYNC)%nat ->
  exists bs, taken u' w' = taken u w ++ bs
  /\ match c with Gap out | Full out => out = buf ++ bs | Quiet => buf ++ bs = [] end.
Proof using device.
  revert idle buf u w. induction fuel as [|fuel IH]; intros idle buf u w; cbn [collect]; [done|].
  destruct (now_s w) as [t w1] eqn:E1. apply (now_s_takes u) in E1.
  destruct (deadline <? t). { intros [= <- <- <-] _. exists []. by rewrite E1, !app_nil_r. }
  destruct (uart_get_nb u w1) as [[b u1] w2] eqn:E2. apply get_nb_taken in E2. rewrite E1 in E2. destruct b as [b|]; cbn [option_list] in E2.
  - intros E Hl. rewrite (proj2 (Nat.ltb_lt _ _) Hl) in E. revert E.
    destruct (Nat.leb_spec NSYNC (length (buf ++ [b]))); [intros [= <- <- <-]; by exists [b]|].
    intros (bs & K & Hc)%IH; [|done]. exists (b :: bs). rewrite K, E2, <- app_assoc. split; [done|].
    by rewrite <- app_assoc in Hc.
  - rewrite app_nil_r in E2. pose proof (usleep_taken u1 200 w2) as E3. rewrite E2 in E3.
    destruct (_ && _); [intros [= <- <- <-] _; exists []; by rewrite E3, !app_nil_r|].
    destruct (Nat.eqb_spec (length buf) 0) as [H0|_]; [|rewrite andb_false_r; cbn [andb]].
    { apply nil_length_inv in H0 as ->. destruct (_ && _); [intros [= <- <- <-] _; exists []; by rewrite E3, !app_nil_r|].
      destruct (_ <=? _)%nat; [intros [= <- <- <-] _; exists []; by rewrite E3, !app_nil_r|].
      intros H4 Hl. destruct (IH _ _ _ _ H4 Hl) as (bs & K & Hc). exists bs. by rewrite K, E3. }
    destruct (_ <=? _)%nat; [intros [= <- <- <-] _; exists []; by rewrite E3, !app_nil_r|].
    intros H4 Hl. destruct (IH _ _ _ _ H4 Hl) as (bs & K & Hc). exists bs. by rewrite K, E3.
Qed.
Lemma skip_bytes_taken fuel n deadline u w ok u' w' :
  skip_bytes fuel n deadline u w = Some (ok, u', w') -> exists bs, taken u' w' = taken u w ++ bs.
Proof using device.
  revert n u w. induction fuel as [|fuel IH]; intros n u w;
    (destruct n as [|n]; cbn [skip_bytes]; [intros [= <- <- <-]; exists []; by rewrite app_nil_r|]); [done|].
  destruct (uart_get_nb u w) as [[b u1] w1] eqn:E2. apply get_nb_taken in E2.
  destruct b as [b|]; cbn [option_list] in E2; [intros (bs & K)%IH; exists (b :: bs); by rewrite K, E2, <- app_assoc|].
  rewrite app_nil_r in E2. destruct (now_s w1) as [t w2] eqn:E1. apply (now_s_takes u1) in E1.
  destruct (_ <? _); [intros [= <- <- <-]; exists []; by rewrite E1, E2, app_nil_r|].
  intros (bs & K)%IH. exists bs. by rewrite K, E1, E2.
Qed.
Lemma read_frames_taken fuel want deadline out u w out' u' w' :
  read_frames fuel want deadline out u w = Some (out', u', w') ->
  exists bs, taken u' w' = taken u w ++ bs /\ out' = out ++ bs.
Proof using device.
  revert out u w. induction fuel as [|fuel IH]; intros out u w; cbn [read_frames]; [done|].
  destruct (_ <=? _)%nat; [intros [= <- <- <-]; exists []; by rewrite !app_nil_r|].
  destruct (now_s w) as [t w1] eqn:E1. apply (now_s_takes u) in E1.
  destruct (_ <? _); [intros [= <- <- <-]; exists []; by rewrite E1, !app_nil_r|].
  destruct (uart_get_nb u w1) as [[b u1] w2] eqn:E2. apply get_nb_taken in E2.
  intros (bs & K & ->)%IH. exists (option_list b ++ bs). by rewrite K, E2, E1, <- !app_assoc.
Qed.
Lemma frame_sync_taken fuel u timeout cap quiet_ok st w rc out u' st' w' :
  frame_sync fuel u timeout (Some cap) quiet_ok st w = Ok (rc, out, u', st', w') ->
  (length out <= cap)%nat /\ exists lost, taken u' w' = taken u w ++ lost ++ out.
Proof using device.
  unfold frame_sync. destruct (now_s w) as [t w1] eqn:E1. apply (now_s_takes u) in E1.
  destruct (collect _ _ _ _ _ _ _) as [[[c u1] w2]|] eqn:E2; [|done].
  apply collect_taken in E2 as (bs & K2 & Hc); [|unfold NSYNC; cbn; lia]. rewrite E1 in K2.
  cbn [fuelled from_option mbind res_bind app] in *. destruct c as [buf| |buf].
  - intros [[= -> -> -> -> ->] Hl]%hand_back_ok. split; [done|]. exists []. by rewrite K2, Hc.
  - intros [= <- <- <- <- <-]. split; [cbn; lia|]. exists []. by rewrite K2, Hc.
  - subst buf. unfold lock_on. destruct (_ <? _)%nat.
    { intros [= <- <- <- <- <-]. split; [cbn; lia|]. exists bs. by rewrite K2, app_nil_r. }
    destruct (_ <? _).
    { intros [= <- <- <- <- <-]. split; [cbn; lia|]. exists bs. by rewrite K2, app_nil_r. }
    destruct (now_s w2) as [t2 w3] eqn:E3. apply (now_s_takes u1) in E3.
    destruct (skip_bytes _ _ _ _ _) as [[[ok u2] w4]|] eqn:E4; [|done]. apply skip_bytes_taken in E4 as [b4 K4].
    cbn [fuelled from_option mbind res_bind]. destruct ok; cbn [negb].
    2:{ intros [= <- <- <- <- <-]. split; [cbn; lia|]. exists (bs ++ b4). by rewrite K4, E3, K2, app_nil_r, app_assoc. }
    destruct (now_s w4) as [t4 w5] eqn:E5. apply (now_s_takes u2) in E5.
    destruct (read_frames _ _ _ _ _ _) as [[[o u3] w6]|] eqn:E6; [|done]. apply read_frames_taken in E6 as (b6 & K6 & ->).
    cbn [from_option mbind res_bind app]. intros [[= -> -> -> -> ->] Hl]%hand_back_ok. split; [done|].
    exists (bs ++ b4). by rewrite K6, E5, K4, E3, K2, <- !app_assoc.
Qed.

(** What the collection ends with: the polls [seen] since [u0] and [w0]. *)
Definition collected_ok (quiet_ok : bool) (deadline : Z) (u0 : uio_uart) (w0 : W) (c : collected) (seen : list (option Z))
    (u : uio_uart) (w1 w : W) : Prop :=
  polls u0 w0 seen u w1 /\
  match c with
  | Gap out => out = got seen /\ (0 < length out < NSYNC)%nat /\ first_framed quiet_ok seen /\ w = w1
  | Quiet => got seen = [] /\ quiet_ok = true /\ first_framed quiet_ok seen /\ w = w1
  | Full out => out = got seen /\ never_framed quiet_ok seen
      /\ (length out = NSYNC /\ w = w1 \/ (length out < NSYNC)%nat /\ w = (now_s w1).2 /\ (deadline + 1) * G <= now w)
  end.

(** The counter of idle time against the polls. *)
Lemma idle_time n : u32 (u32 (200 * Z.of_nat n) + 200) = u32 (200 * Z.of_nat (S n)).
Proof. rewrite u32_add_l. f_equal. lia. Qed.
Lemma idle_enough n : 3000 <= u32 (200 * Z.of_nat n) -> (15 <= n)%nat.
Proof.
  rewrite u32_mod. pose proof (Z.mod_le (200 * Z.of_nat n) (2 ^ 32) ltac:(lia) ltac:(lia)). lia.
Qed.
Lemma idle_short n : (n < 15)%nat -> u32 (200 * Z.of_nat (S n)) < 3000 -> (S n < 15)%nat.
Proof. intros Hn. rewrite u32_small; [lia|]. unfold is_word. change (2 ^ 32) with 4294967296. lia. Qed.
Lemma still_unframed quiet_ok seen :
  framed quiet_ok seen = false -> u32 (200 * Z.of_nat (S (idle seen))) < 3000 -> framed quiet_ok (seen ++ [None]) = false.
Proof.
  unfold framed. rewrite got_snoc, idle_snoc, app_nil_r. destruct (_ || _); [|by rewrite !andb_false_r]. rewrite !andb_true_r.
  intros H1%Nat.leb_gt H2. by apply Nat.leb_gt, idle_short.
Qed.

Lemma collect_spec fuel quiet_ok deadline u0 w0 seen u w :
  0 <= deadline < 2 ^ 63 -> now w < (deadline + 1) * G + 2 ^ 50 ->
  Z.max 0 ((deadline + 1) * G - now w) < Z.of_nat fuel -> (length (got seen) < NSYNC)%nat ->
  polls u0 w0 seen u w -> never_framed quiet_ok seen ->
  exists c u' w1 w' seen',
    collect fuel quiet_ok deadline (u32 (200 * Z.of_nat (idle seen))) (got seen) u w = Some (c, u', w')
  /\ now w <= now w' < (deadline + 1) * G + 2 ^ 51 /\ collected_ok quiet_ok deadline u0 w0 c seen' u' w1 w'.
Proof using device.
  intros Hd. revert seen u w. induction fuel as [|fuel IH]; intros seen u w Hw Hf Hb Hp Hn; [lia|].
  cbn [collect]. destruct (now_s_ticks w) as (t & w1 & Et & -> & T1 & K1). rewrite Et.
  unfold access_bound in *. change (2 ^ 40) with 1099511627776 in *.
  change (2 ^ 50) with 1125899906842624 in *. change (2 ^ 51) with 2251799813685248 in *.
  rewrite reading_in_time by (try done; change (2 ^ 58) with 288230376151711744; lia).
  destruct (Z.ltb_spec (now w1) ((deadline + 1) * G)) as [H1|H1]; cbn [negb].
  2:{ exists (Full (got seen)), u, w, w1, seen. split; [done|]. split; [lia|]. do 3 (split; [done|]). right. by rewrite Et. }
  destruct (get_nb_ticks u w1) as (b & u1 & w2 & Eg & _ & T2). rewrite Eg.
  pose proof (one_poll _ _ _ _ _ _ _ _ _ _ Hp Et Eg) as Hp'. pose proof (Hn seen [] ltac:(by rewrite app_nil_r)) as Hs.
  unfold access_bound in *. change (2 ^ 40) with 1099511627776 in *.
  destruct b as [b|].
  - rewrite (proj2 (Nat.ltb_lt _ _)) by done. change [b] with (option_list (Some b)). rewrite <- got_snoc.
    assert (never_framed quiet_ok (seen ++ [Some b])) as Hn'.
    { apply never_framed_snoc; [done|]. unfold framed. by rewrite idle_snoc. }
    destruct (Nat.leb_spec NSYNC (length (got (seen ++ [Some b])))) as [Hl|Hl].
    { exists (Full (got (seen ++ [Some b]))), u1, w2, w2, (seen ++ [Some b]). split; [done|]. split; [lia|].
      do 3 (split; [done|]). left. split; [|done]. rewrite got_snoc, length_app in *. cbn in *. lia. }
    destruct (IH (seen ++ [Some b]) u1 w2) as (c & u' & w3 & w' & seen' & E & T & R); [lia|lia|done..|].
    rewrite idle_snoc in E. exists c, u', w3, w', seen'. split; [exact E|]. split; [lia|done].
  - destruct (usleep_ticks w2) as [T3 _]. unfold access_bound in *. change (2 ^ 40) with 1099511627776 in *.
    rewrite idle_time. rewrite (proj2 (Nat.leb_gt _ _)) by done.
    assert (got (seen ++ [None]) = got seen) as Hg by (by rewrite got_snoc, app_nil_r).
    assert (idle (seen ++ [None]) = S (idle seen)) as Hi by apply idle_snoc.
    assert (framed quiet_ok (seen ++ [None]) = false ->
      exists c u' w1 w' seen', collect fuel quiet_ok deadline (u32 (200 * Z.of_nat (S (idle seen)))) (got seen) u1 (usleep 200 w2) = Some (c, u', w')
      /\ now w <= now w' < (deadline + 1) * G + 2251799813685248 /\ collected_ok quiet_ok deadline u0 w0 c seen' u' w1 w') as Hgo.
    { intros Hu. destruct (IH (seen ++ [None]) u1 (usleep 200 w2)) as (c & u' & w3 & w' & seen' & E & T & R);
        [lia|lia|by rewrite Hg|done|by apply never_framed_snoc|].
      rewrite Hg, Hi in E. exists c, u', w3, w', seen'. split; [exact E|]. split; [lia|done]. }
    destruct (Z.leb_spec 3000 (u32 (200 * Z.of_nat (S (idle seen))))) as [H3|H3]; cbn [andb]; [|by apply Hgo, still_unframed].
    apply idle_enough in H3.
    assert (framed quiet_ok (seen ++ [None]) = (0 <? length (got seen))%nat || quiet_ok) as Hfr
      by (unfold framed; by rewrite Hg, Hi, (proj2 (Nat.leb_le _ _)) by done).
    assert (framed quiet_ok (seen ++ [None]) = true -> first_framed quiet_ok (seen ++ [None])) as Hff
      by (intros; split; [done|by exists seen, None]).
    destruct (Nat.ltb_spec 0 (length (got seen))) as [Hl|Hl].
    { eexists (Gap (got seen)), u1, (usleep 200 w2), (usleep 200 w2), (seen ++ [None]). split; [done|]. split; [lia|].
      split; [done|]. rewrite Hg. split_and!; by auto. }
    destruct (got seen) as [|x l] eqn:Egs; [|cbn in Hl; lia]. cbn [length Nat.eqb andb].
    destruct quiet_ok; [|by apply Hgo].
    eexists Quiet, u1, (usleep 200 w2), (usleep 200 w2), (seen ++ [None]). split; [done|]. split; [lia|]. split; [done|].
    split_and!; by auto.
Qed.

Lemma skip_bytes_spec fuel n deadline u w :
  0 <= deadline < 2 ^ 63 -> (n < 17)%nat -> now w + 2 ^ 42 * Z.of_nat n < (deadline + 1) * G + 2 ^ 50 ->
  Z.of_nat n + Z.max 0 ((deadline + 1) * G - now w) < Z.of_nat fuel ->
  exists ok u' w' bs, skip_bytes fuel n deadline u w = Some (ok, u', w')
  /\ taken u' w' = taken u w ++ bs /\ now w <= now w' < (deadline + 1) * G + 2 ^ 51
  /\ (if ok : bool then length bs = n else (length bs < n)%nat /\ (deadline + 1) * G <= now w').
Proof using device.
  intros Hd. revert n u w. induction fuel as [|fuel IH]; intros n u w Hn Hw Hf; [lia|].
  change (2 ^ 50) with 1125899906842624 in *. change (2 ^ 51) with 2251799813685248 in *.
  change (2 ^ 42) with 4398046511104 in *.
  destruct n as [|n]; cbn [skip_bytes].
  { exists true, u, w, []. rewrite app_nil_r. split; [done|]. split; [done|]. split; [lia|done]. }
  destruct (get_nb_ticks u w) as (b & u1 & w1 & Eg & K1 & T1). rewrite Eg.
  unfold access_bound in *. change (2 ^ 40) with 1099511627776 in *.
  destruct b as [b|]; cbn [option_list] in K1.
  - destruct (IH n u1 w1) as (ok & u' & w' & bs & -> & K & T & R); [lia|lia|lia|].
    exists ok, u', w', (b :: bs). rewrite K, K1, <- app_assoc. split; [done|]. split; [done|].
    split; [lia|]. cbn [length]. destruct ok; lia.
  - rewrite app_nil_r in K1. destruct (now_s_ticks w1) as (t & w2 & Et & -> & T2 & K2). rewrite Et.
    unfold access_bound in *. change (2 ^ 40) with 1099511627776 in *.
    rewrite reading_in_time by (try done; change (2 ^ 58) with 288230376151711744; lia).
    destruct (Z.ltb_spec (now w2) ((deadline + 1) * G)) as [H1|H1]; cbn [negb].
    + destruct (IH (S n) u1 w2) as (ok & u' & w' & bs & -> & K & T & R); [lia|lia|lia|].
      exists ok, u', w', bs. rewrite K, K2, K1. split; [done|]. split; [done|]. split; [lia|done].
    + exists false, u1, w2, []. rewrite K2, K1, app_nil_r. split; [done|]. split; [done|]. split; [lia|]. cbn. lia.
Qed.

Lemma read_frames_spec fuel want deadline out u w :
  0 <= deadline < 2 ^ 63 -> now w < (deadline + 1) * G + 2 ^ 50 ->
  Z.max 0 ((deadline + 1) * G - now w) < Z.of_nat fuel -> (length out <= want)%nat ->
  exists u' w' bs, read_frames fuel want deadline out u w = Some (out ++ bs, u', w')
  /\ taken u' w' = taken u w ++ bs /\ now w <= now w' < (deadline + 1) * G + 2 ^ 51
  /\ (length (out ++ bs) = want \/ (length (out ++ bs) < want)%nat /\ (deadline + 1) * G <= now w').
Proof using device.
  intros Hd. revert out u w. induction fuel as [|fuel IH]; intros out u w Hw Hf Ho; [lia|].
  change (2 ^ 50) with 1125899906842624 in *. change (2 ^ 51) with 2251799813685248 in *.
  cbn [read_frames]. destruct (Nat.leb_spec want (length out)) as [Hl|Hl].
  { exists u, w, []. rewrite !app_nil_r. split; [done|]. split; [done|]. split; [lia|left; lia]. }
  destruct (now_s_ticks w) as (t & w1 & Et & -> & T1 & K1). rewrite Et.
  unfold access_bound in *. change (2 ^ 40) with 1099511627776 in *.
  rewrite reading_in_time by (try done; change (2 ^ 58) with 288230376151711744; lia).
  destruct (Z.ltb_spec (now w1) ((deadline + 1) * G)) as [H1|H1]; cbn [negb].
  2:{ exists u, w1, []. rewrite !app_nil_r, K1. split; [done|]. split; [done|]. split; [lia|right; lia]. }
  destruct (get_nb_ticks u w1) as (b & u1 & w2 & Eg & K2 & T2). rewrite Eg.
  unfold access_bound in *. change (2 ^ 40) with 1099511627776 in *.
  destruct (IH (out ++ option_list b) u1 w2) as (u' & w' & bs & -> & K & T & R); [lia|lia|rewrite length_app; destruct b; cbn; lia|].
  exists u', w', (option_list b ++ bs). rewrite <- app_assoc in R |- *. rewrite K, K2, K1, <- app_assoc.
  split; [done|]. split; [done|]. split; [lia|done].
Qed.

(** What a call promises, from the polls [seen] of its collection and the time [spent] on
    it: the bytes [bs] it took off the line, its return code, the bytes handed back, the
    counters after it. *)
Definition undecided (quiet_ok : bool) (timeout : Z) (seen : list (option Z)) (spent : Z) : Prop :=
  never_framed quiet_ok seen
  /\ (length (got seen) = NSYNC \/ (length (got seen) < NSYNC)%nat /\ timeout * G <= spent).
Definition dominant (buf : list Z) (r : nat) : Prop :=
  (4 * RESULT_LEN <= length buf)%nat /\ most_flags buf r /\ (length buf / RESULT_LEN <= 2 * flags_at buf r)%nat.
Inductive sync_outcome (quiet_ok : bool) (timeout : Z) (st : framing_stats) (seen : list (option Z)) (spent : Z)
    : list Z -> Z -> list Z -> framing_stats -> Prop :=
  | on_silence :
      first_framed quiet_ok seen -> got seen = [] -> quiet_ok = true ->
      sync_outcome quiet_ok timeout st seen spent [] 0 [] (st <| sync_quiet := u64 (sync_quiet st + 1) |>)
  | on_gap :
      first_framed quiet_ok seen -> (0 < length (got seen) < NSYNC)%nat ->
      sync_outcome quiet_ok timeout st seen spent (got seen) 0 (got seen) (st <| sync_gap := u64 (sync_gap st + 1) |>)
  | on_period r skipped out :
      undecided quiet_ok timeout seen spent -> dominant (got seen) r ->
      (length skipped < RESULT_LEN)%nat -> (length (got seen ++ skipped) mod RESULT_LEN = r)%nat ->
      ((length out = 8 * RESULT_LEN)%nat \/ (length out < 8 * RESULT_LEN)%nat /\ 3 * G <= spent) ->
      sync_outcome quiet_ok timeout st seen spent (got seen ++ skipped ++ out) 0 out
        (st <| sync_locked := u64 (sync_locked st + 1) |>)
  | on_starvation :
      undecided quiet_ok timeout seen spent -> (length (got seen) < 4 * RESULT_LEN)%nat ->
      sync_outcome quiet_ok timeout st seen spent (got seen) (-1) [] (st <| sync_failed := u64 (sync_failed st + 1) |>)
  | on_noise r :
      undecided quiet_ok timeout seen spent -> (4 * RESULT_LEN <= length (got seen))%nat ->
      most_flags (got seen) r -> (2 * flags_at (got seen) r < length (got seen) / RESULT_LEN)%nat ->
      sync_outcome quiet_ok timeout st seen spent (got seen) (-1) [] (st <| sync_failed := u64 (sync_failed st + 1) |>)
  | on_stop r skipped :
      undecided quiet_ok timeout seen spent -> dominant (got seen) r ->
      (length skipped < skip_of r (length (got seen)))%nat -> 2 * G <= spent ->
      sync_outcome quiet_ok timeout st seen spent (got seen ++ skipped) (-1) [] st.

(** A deadline set by reading the clock, with room for the loop that follows. *)
Lemma deadline_set w s :
  0 <= s < 2 ^ 40 -> now w < 2 ^ 62 * G + 2 ^ 57 ->
  exists t w1, now_s w = (t, w1) /\ now w <= now w1 <= now w + access_bound
  /\ (forall u, taken u w1 = taken u w)
  /\ 0 <= u64 (t + s) < 2 ^ 63 /\ now w1 + s * G < (u64 (t + s) + 1) * G <= now w1 + (s + 1) * G.
Proof using device.
  intros Hs Hw. destruct (now_s_ticks w) as (t & w1 & Et & -> & T1 & K1).
  exists (u64 (now w1 / G)), w1. split; [done|]. split; [lia|]. split; [done|].
  destruct (deadline_after w1 s Hs) as (D1 & _ & D2); [|done].
  unfold access_bound, G in *. change (2 ^ 40) with 1099511627776 in *.
  change (2 ^ 57) with 144115188075855872 in *. change (2 ^ 58) with 288230376151711744 in *. lia.
Qed.

(** Locking on the bytes collected, [early] nanoseconds after the call began. *)
Lemma lock_run quiet_ok timeout seen early u st w fuel :
  now w < 2 ^ 62 * G + 2 ^ 56 -> (length (got seen) <= NSYNC)%nat -> 4 * G + 100 < Z.of_nat fuel ->
  0 <= early -> undecided quiet_ok timeout seen early ->
  exists rc out u' st' w' bs,
    (forall cap, lock_on fuel (got seen) u (Some cap) st w = hand_back cap out (rc, out, u', st', w'))
  /\ taken u' w' = taken u w ++ bs /\ now w <= now w'
  /\ sync_outcome quiet_ok timeout st seen (early + (now w' - now w)) (got seen ++ bs) rc out st'.
Proof using device.
  intros Hw Hl Hf He [Hn Hu]. assert (forall w', now w <= now w' -> undecided quiet_ok timeout seen (early + (now w' - now w))) as Hund
    by (intros w' Hw'; split; [done|lia]).
  unfold lock_on. destruct (Nat.ltb_spec (length (got seen)) (RESULT_LEN * 4)) as [H1|H1].
  { eexists (-1), [], u, _, w, []. rewrite !app_nil_r. split; [done|]. split; [done|]. split; [done|].
    apply on_starvation; [by apply Hund|lia]. }
  pose proof (best_has_most_flags (got seen) Hl) as Hb. pose proof (proj1 Hb) as Hb1.
  rewrite histogram_spec by done. set (best := best_residue (histogram (got seen))) in *.
  assert (flags_at (got seen) best <= NSYNC)%nat as Hfl.
  { etrans; [apply List.filter_length_le|]. by rewrite length_seq. }
  rewrite u32_small by (unfold is_word, NSYNC in *; change (2 ^ 32) with 4294967296; lia).
  destruct (Z.ltb_spec (Z.of_nat (flags_at (got seen) best) * 2) (Z.of_nat (length (got seen) / RESULT_LEN))) as [H2|H2].
  { eexists (-1), [], u, _, w, []. rewrite !app_nil_r. split; [done|]. split; [done|]. split; [done|].
    apply (on_noise _ _ _ _ _ best); [by apply Hund|lia|done|lia]. }
  assert (dominant (got seen) best) as Hdom by (split; [lia|]; split; [done|lia]).
  destruct (skip_of_spec best (length (got seen)) Hb1) as [S1 S2].
  change (2 ^ 56) with 72057594037927936 in Hw.
  destruct (deadline_set w 2) as (t & w1 & -> & T1 & K1 & D1 & D2);
    [done|change (2 ^ 57) with 144115188075855872; lia|].
  unfold access_bound in T1. change (2 ^ 40) with 1099511627776 in T1.
  destruct (skip_bytes_spec fuel (skip_of best (length (got seen))) (u64 (t + 2)) u w1)
    as (ok & u2 & w2 & skipped & -> & K2 & T2 & R2); [done|unfold RESULT_LEN in S1; lia| |unfold RESULT_LEN in S1; unfold G in *; lia|].
  { unfold RESULT_LEN in S1. change (2 ^ 42) with 4398046511104. change (2 ^ 50) with 1125899906842624. unfold G in *. lia. }
  rewrite K1 in K2. change (2 ^ 51) with 2251799813685248 in T2. cbn [fuelled from_option mbind res_bind].
  destruct ok; cbn [negb].
  2:{ eexists (-1), [], u2, _, w2, skipped. split; [done|]. split; [exact K2|]. split; [lia|].
      apply (on_stop _ _ _ _ _ best); [apply Hund; lia|done|apply R2|lia]. }
  destruct (deadline_set w2 3) as (t' & w3 & -> & T3 & K3 & D3 & D4);
    [done|change (2 ^ 57) with 144115188075855872; unfold G in *; lia|].
  destruct (read_frames_spec fuel (RESULT_LEN * 8) (u64 (t' + 3)) [] u2 w3)
    as (u4 & w4 & out & -> & K4 & T4 & R4);
    [done|change (2 ^ 50) with 1125899906842624; unfold G in *; lia|unfold G in *; lia|cbn; lia|].
  cbn [fuelled from_option mbind res_bind app] in R4 |- *.
  eexists 0, out, u4, _, w4, (skipped ++ out). split; [done|].
  rewrite K4, K3, K2, <- app_assoc. split; [done|]. split; [lia|].
  apply (on_period _ _ _ _ _ best); [apply Hund; lia|done|lia|by rewrite length_app, R2|]. rewrite (Nat.mul_comm 8). lia.
Qed.

(** Turns enough for any call. *)
Definition sync_fuel (timeout_s : Z) : nat := Z.to_nat (G * (timeout_s + 6) + 100).

Lemma outcome_length quiet_ok timeout st seen spent bs rc out st' :
  sync_outcome quiet_ok timeout st seen spent bs rc out st' -> (length out < NSYNC)%nat.
Proof. destruct 1; unfold NSYNC, RESULT_LEN in *; cbn [length] in *; lia. Qed.
(** More than eight frames are handed back only after a gap. *)
Lemma outcome_long quiet_ok timeout st seen spent bs rc out st' :
  sync_outcome quiet_ok timeout st seen spent bs rc out st' -> (8 * RESULT_LEN < length out)%nat ->
  rc = 0 /\ first_framed quiet_ok seen /\ out = got seen /\ st' = st <| sync_gap := u64 (sync_gap st + 1) |>.
Proof. destruct 1; unfold RESULT_LEN in *; cbn [length] in *; intros; try lia. done. Qed.

Lemma sync_run fuel u timeout quiet_ok st w :
  in_range w -> 0 <= timeout < 2 ^ 24 -> (sync_fuel timeout <= fuel)%nat ->
  exists rc out u' st' w' bs seen u1 w1,
    (forall cap, frame_sync fuel u timeout (Some cap) quiet_ok st w = hand_back cap out (rc, out, u', st', w'))
  /\ polls u (now_s w).2 seen u1 w1 /\ elapsed w <= elapsed w1 <= elapsed w'
  /\ taken u' w' = taken u w ++ bs
  /\ sync_outcome quiet_ok timeout st seen (elapsed w' - elapsed w) bs rc out st'.
Proof using device.
  intros Hr Ht Hfuel. assert (G * (timeout + 6) + 100 <= Z.of_nat fuel) as Hf by (unfold sync_fuel in Hfuel; lia).
  clear Hfuel. unfold frame_sync, in_range in *. assert (now w < 2 ^ 62 * G + 2 ^ 57) as Hw by (change (2 ^ 57) with 144115188075855872; lia).
  change (2 ^ 24) with 16777216 in *.
  destruct (deadline_set w timeout) as (t & w1 & -> & T1 & K1 & D1 & D2);
    [change (2 ^ 40) with 1099511627776; lia|done|].
  unfold access_bound in *. change (2 ^ 40) with 1099511627776 in *.
  destruct (collect_spec fuel quiet_ok (u64 (t + timeout)) u w1 [] u w1)
    as (c & u2 & w2 & w3 & seen & E & T2 & Hp & R2);
    [done|change (2 ^ 50) with 1125899906842624; unfold G in *; lia|unfold G in *; lia|unfold NSYNC; cbn; lia|constructor| |].
  { intros before after E. by destruct before. }
  change (u32 (200 * Z.of_nat (idle []))) with 0 in E. change (got []) with (@nil Z) in E. rewrite E. clear E.
  cbn [fuelled from_option mbind res_bind snd]. pose proof (polls_taken _ _ _ _ _ Hp) as [K2 L2]. rewrite K1 in K2.
  change (2 ^ 51) with 2251799813685248 in T2. destruct c as [buf| |buf].
  - destruct R2 as (-> & Hl & Hff & ->). eexists 0, (got seen), u2, _, w2, (got seen), seen, u2, w2.
    split; [done|]. split; [done|]. split; [unfold now in *; lia|]. split; [done|]. by apply on_gap.
  - destruct R2 as (Hg & -> & Hff & ->). eexists 0, [], u2, _, w2, [], seen, u2, w2. rewrite Hg in K2.
    split; [done|]. split; [done|]. split; [unfold now in *; lia|]. split; [done|]. by apply on_silence.
  - destruct R2 as (-> & Hn & Hend).
    assert (now w2 <= now w3 /\ taken u2 w3 = taken u2 w2 /\ undecided quiet_ok timeout seen (now w3 - now w)) as (T3 & K3 & Hu).
    { destruct Hend as [[Hl ->]|(Hl & -> & Hlate)]; [split; [lia|]; split; [done|]; by split; [|left]|].
      destruct (now_s_ticks w2) as (t' & w4 & E4 & _ & T4 & K4). rewrite E4 in *. cbn [snd] in *.
      split; [lia|]. split; [apply K4|]. split; [done|]. right. split; [done|]. lia. }
    destruct (lock_run quiet_ok timeout seen (now w3 - now w) u2 st w3 fuel)
      as (rc & out & u' & st' & w' & bs & E & K & T & R);
      [change (2 ^ 56) with 72057594037927936; unfold G in *; lia|lia|unfold G in *; lia|lia|done|].
    exists rc, out, u', st', w', (got seen ++ bs), seen, u2, w2. split; [done|]. split; [done|].
    split; [unfold now in *; lia|]. split; [by rewrite K, K3, K2, app_assoc|].
    by replace (elapsed w' - elapsed w) with (now w3 - now w + (now w' - now w3)) by (unfold now; lia).
Qed.


End Promises.
Example selftest_framing_passes :
  match selftest_framing 30000 (FramingStats 0 0 0 0) Clock.start with
  | Ok (bad, st, _) => Some (bad, st)
  | _ => None
  end = Some (0, FramingStats 2 2 1 1).
Proof. vm_compute. reflexivity. Qed.


(** ** The mining loop's buffer

    The loop passes a buffer of eight frames. *)
Definition burst : list Z := concat (replicate 10 frame).
(** Eight frames are too few. Ten frames back to back and then three milliseconds of
    silence, a line the FPGA can produce, make [frame_sync] store 170 bytes; a buffer of
    512 bytes, as the self-tests pass, takes them, and the mining loop's buffer of 136
    bytes is overrun. *)
Example eight_frames_overrun :
  let '(u, w) := uart_open_sim burst (at_us_from 0 170) Clock.start in
  let sync cap := frame_sync 2000 u 1 (Some cap) true (FramingStats 0 0 0 0) w in
  sync (RESULT_LEN * 8)%nat = Overrun
  /\ exists u' w', sync 512%nat = Ok (0, burst, u', FramingStats 0 1 0 0, w').
Proof. vm_compute. split; [reflexivity|]. do 2 eexists. reflexivity. Qed.
Definition bursting : uio_uart * Fifo.fifo := uart_open_sim burst (at_us_from 0 170) Fifo.idle.

(** ** Locking on a stream of frames *)
Definition is_frame (f : list Z) : Prop := length f = RESULT_LEN /\ f !!! 0%nat = 0x01.

Lemma drop_frames j frames :
  Forall is_frame frames -> drop (RESULT_LEN * j) (concat frames) = concat (drop j frames).
Proof.
  revert frames. induction j as [|j IH]; intros frames Hf; [by rewrite Nat.mul_0_r, !drop_0|].
  destruct Hf as [|f frames [Hl _] Hf]; [by rewrite !drop_nil|].
  cbn [concat drop]. rewrite Nat.mul_succ_r, Nat.add_comm, <- drop_drop, (drop_app_le f), (drop_ge f) by lia.
  by apply IH.
Qed.

(** C39: On a dense stream the histogram finds the frames. Take any stream of frames
    that starts within a frame, after [lead] bytes, and a collection [got] of it in
    which no other column of the frames shows 0x01 as often as the flag's column:
    then skipping as [frame_sync] computes it leaves the reader at the start of a
    frame. *)
Theorem lock_finds_frames lead frames got rest :
  (length lead < RESULT_LEN)%nat -> Forall is_frame frames -> got ++ rest = lead ++ concat frames ->
  (length got <= NSYNC)%nat ->
  (forall r, (r < RESULT_LEN)%nat -> r <> length lead -> (flags_at got r < flags_at got (length lead))%nat) ->
  exists j, drop (skip_of (best_residue (histogram got)) (length got)) rest = concat (drop j frames).
Proof.
  intros Hl Hf He Hg Hr. destruct (best_has_most_flags got Hg) as [Hb1 Hb2].
  set (best := best_residue (histogram got)) in *.
  assert (best = length lead) as Hb.
  { destruct (decide (best = length lead)) as [|Hne]; [done|].
    pose proof (Hr best Hb1 Hne). destruct (Hb2 (length lead) Hl). lia. }
  destruct (skip_of_spec best (length got) Hb1) as [_ S2]. rewrite Hb in *.
  set (skip := skip_of (length lead) (length got)) in *.
  exists ((length got + skip) / RESULT_LEN)%nat. rewrite <- drop_frames by done.
  pose proof (Nat.div_mod (length got + skip) RESULT_LEN ltac:(done)) as Hd. rewrite S2 in Hd.
  set (q := ((length got + skip) / RESULT_LEN)%nat) in *. clearbody q.
  transitivity (drop (length got + skip) (got ++ rest)).
  - by rewrite <- drop_drop, drop_app_length.
  - rewrite He, Hd, Nat.add_comm, <- drop_drop. by rewrite drop_app_length.
Qed.
Definition dense : list (list Z) := replicate 8 (framing_make 0x1234 0x5678).
Lemma lock_finds_frames_witness :
  exists j, drop (skip_of (best_residue (histogram (take 70 (drop 12 (concat dense))))) 70) (drop 70 (drop 12 (concat dense)))
    = concat (drop j (drop 1 dense)).
Proof.
  apply (lock_finds_frames (drop 12 (framing_make 0x1234 0x5678)) (drop 1 dense) (take 70 (drop 12 (concat dense)))
    (drop 70 (drop 12 (concat dense)))); [cbv; lia|repeat constructor|reflexivity|cbv; lia|].
  intros r Hr Hne. do 17 (destruct r as [|r]; [first [by apply Nat.ltb_lt; vm_compute|done]|]).
  unfold RESULT_LEN in Hr. lia.
Defined.

(** A reply frame read back: [parse_result] accepts what [framing_make] lays
    out, whatever follows it, and returns the nonce and the hash word. *)
Theorem framing_roundtrip n h rest :
  is_word 64 n -> is_word 64 h -> bytes rest ->
  parse_result (framing_make n h ++ rest) = (0, FpgaResult true n h)
  /\ length (framing_make n h) = RESULT_LEN.
Proof.
  intros Hn Hh Hr. assert (framing_make n h = 1 :: le_bytes 8 n ++ le_bytes 8 h) as -> by done.
  split; [|done]. unfold parse_result.
  assert (forall v l, is_word 64 v -> bytes l -> get_le64 (le_bytes 8 v ++ l) = v) as Hg.
  { intros v l Hv Hl. rewrite get_le64_spec.
    - rewrite take_app_le, take_ge by (rewrite length_le_bytes; lia).
      rewrite le_val_le_bytes. by apply Z.mod_small.
    - apply Forall_app; split; [apply bytes_le_bytes|done].
    - rewrite length_app, length_le_bytes. lia. }
  change (drop 1 ((1 :: le_bytes 8 n ++ le_bytes 8 h) ++ rest))
    with ((le_bytes 8 n ++ le_bytes 8 h) ++ rest).
  rewrite <- app_assoc, Hg by (done || (apply Forall_app; split; [apply bytes_le_bytes|done])).
  change (drop 9 ((1 :: le_bytes 8 n ++ le_bytes 8 h) ++ rest))
    with (drop 8 ((le_bytes 8 n ++ le_bytes 8 h) ++ rest)).
  rewrite <- app_assoc, drop_app_le, drop_ge by (rewrite length_le_bytes; lia). cbn [app].
  by rewrite Hg.
Qed.
Lemma framing_roundtrip_witness :
  parse_result (framing_make kNonce kHash ++ [0x01]) = (0, FpgaResult true kNonce kHash)
  /\ length (framing_make kNonce kHash) = RESULT_LEN.
Proof. apply framing_roundtrip; [unfold is_word, kNonce; lia|unfold is_word, kHash; lia|by_compute]. Defined.
End Framing.
