(* ===== verification/Observe.v ===== *)
(** * What the driver and the framing leave alone

    An observation of the world that registers, clocks and sleeping do not touch (for
    instance what has been written to the sockets) is not touched by any function of
    uio_uart.c or by frame_sync. *)
From S2P Require Import Prelude Uart Framing.

Module Observe.
Import Uart Framing.

(** [obs] is no business of the device. *)
Class Unseen {W A} `{World W} (obs : W -> A) : Prop := {
  reg_read_unseen off w : obs (reg_read off w).2 = obs w;
  reg_write_unseen off v w : obs (reg_write off v w) = obs w;
  now_us_unseen w : obs (now_us w).2 = obs w;
  now_s_unseen w : obs (now_s w).2 = obs w;
  usleep_unseen us w : obs (usleep us w) = obs w
}.

Section Driver.
Context {W A : Type} `{World W} (obs : W -> A) `{unseen : !Unseen obs}.

(** A call of the device: the world after it looks the same. *)
Ltac call :=
  match goal with
  | |- context [reg_read ?o ?w] => let E := fresh in pose proof (reg_read_unseen o w) as E; let t := fresh "t" in let v := fresh "v" in destruct (reg_read o w) as [t v]; cbn [snd] in E
  | |- context [now_us ?w] => let E := fresh in pose proof (now_us_unseen w) as E; let t := fresh "t" in let v := fresh "v" in destruct (now_us w) as [t v]; cbn [snd] in E
  | |- context [now_s ?w] => let E := fresh in pose proof (now_s_unseen w) as E; let t := fresh "t" in let v := fresh "v" in destruct (now_s w) as [t v]; cbn [snd] in E
  end.

Lemma put_wait_unseen fuel start spun timeout w r : put_wait fuel start spun timeout w = Some r -> obs r.2 = obs w.
Proof using unseen.
  revert spun w. induction fuel as [|fuel IH]; intros spun w; [done|]. cbn [put_wait]. unfold uart_stat. call.
  destruct (flag _ _); [|by intros [= <-]]. call. destruct (_ <? _); [intros [= <-]; cbn; congruence|]. intros ->%IH. congruence.
Qed.
Lemma uart_put_unseen fuel u b timeout w ok u' w' : uart_put fuel u b timeout w = Some (ok, u', w') -> obs w' = obs w.
Proof using unseen.
  unfold uart_put. call. destruct (put_wait _ _ _ _ _) as [[[sp k] w1]|] eqn:E; [|done]. apply put_wait_unseen in E.
  cbn [mbind option_bind snd] in *. destruct (negb k); intros [= _ _ <-]; rewrite ?reg_write_unseen; congruence.
Qed.
Lemma uart_write_unseen fuel u buf timeout w ok u' w' :
  uart_write fuel u buf timeout w = Some (ok, u', w') -> obs w' = obs w.
Proof using unseen.
  revert u w. induction buf as [|b buf IH]; intros u w; cbn [uart_write]; [by intros [= _ _ <-]|].
  destruct (uart_put _ _ _ _ _) as [[[k u1] w1]|] eqn:E; [|done]. apply uart_put_unseen in E. cbn [mbind option_bind].
  destruct (negb k); [by intros [= _ _ <-]|]. intros ->%IH. done.
Qed.
Lemma get_nb_unseen u w b u' w' : uart_get_nb u w = (b, u', w') -> obs w' = obs w.
Proof using unseen.
  unfold uart_get_nb, uart_stat. destruct (negb (sim_t0_us u =? 0)).
  - destruct (_ <=? _)%nat; [by intros [= _ _ <-]|]. call. destruct (_ <? _); intros [= _ _ <-]; congruence.
  - call. destruct (negb (flag _ STAT_RX_VALID)); [intros [= _ _ <-]; congruence|]. call. intros [= _ _ <-]. congruence.
Qed.
Lemma drain_tx_unseen fuel timeout w r : uart_drain_tx fuel timeout w = Some r -> obs r.2 = obs w.
Proof using unseen.
  unfold uart_drain_tx. call. match goal with |- drain_loop _ ?s _ ?v = _ -> _ => remember v as w1 eqn:Ew; revert H0; clear Ew end.
  intros <-. revert w1. induction fuel as [|fuel IH]; intros w1; [done|]. cbn [drain_loop]. unfold uart_stat. call.
  destruct (flag _ _); [by intros [= <-]|]. call. destruct (_ <? _); [intros [= <-]; cbn; congruence|]. intros ->%IH. congruence.
Qed.
Lemma wait_quiet_unseen fuel u idle timeout w r : uart_wait_quiet fuel u idle timeout w = Some r -> obs r.2 = obs w.
Proof using unseen.
  unfold uart_wait_quiet. pose proof (now_us_unseen w) as Ew. destruct (now_us w) as [t0 w1]. cbn [snd] in Ew. rewrite <- Ew. clear Ew.
  generalize t0 at 2 as last. revert u w1. induction fuel as [|fuel IH]; intros u w1 last; [done|]. cbn [quiet_loop].
  destruct (uart_get_nb u w1) as [[b u1] w2] eqn:E. apply get_nb_unseen in E. rewrite <- E. clear E. call. destruct b as [b|].
  - call. destruct (_ <? _); [intros [= <-]; cbn; congruence|]. intros ->%IH. congruence.
  - destruct (_ <=? _); [by intros [= <-]|]. call. destruct (_ <? _); [intros [= <-]; cbn; congruence|]. intros ->%IH. congruence.
Qed.

Lemma collect_unseen fuel quiet_ok deadline idle buf u w r :
  collect fuel quiet_ok deadline idle buf u w = Some r -> obs r.2 = obs w.
Proof using unseen.
  revert idle buf u w. induction fuel as [|fuel IH]; intros idle buf u w; [done|]. cbn [collect]. call.
  destruct (deadline <? _); [by intros [= <-]|].
  match goal with |- context [uart_get_nb u ?v] => destruct (uart_get_nb u v) as [[b u1] w2] eqn:E end.
  apply get_nb_unseen in E. destruct b as [b|].
  - destruct (_ <=? _)%nat; [intros [= <-]; cbn; congruence|]. intros ->%IH. congruence.
  - pose proof (usleep_unseen 200 w2).
    repeat match goal with |- (if ?c then _ else _) = _ -> _ => destruct c; [intros [= <-]; cbn; congruence|] end.
    intros ->%IH. congruence.
Qed.
Lemma skip_bytes_unseen fuel n deadline u w r : skip_bytes fuel n deadline u w = Some r -> obs r.2 = obs w.
Proof using unseen.
  revert n u w. induction fuel as [|fuel IH]; intros [|n] u w; cbn [skip_bytes]; try done; try by intros [= <-].
  destruct (uart_get_nb u w) as [[b u1] w2] eqn:E. apply get_nb_unseen in E. destruct b as [b|]; [intros ->%IH; congruence|].
  call. destruct (_ <? _); [intros [= <-]; cbn; congruence|]. intros ->%IH. congruence.
Qed.
Lemma read_frames_unseen fuel want deadline out u w r : read_frames fuel want deadline out u w = Some r -> obs r.2 = obs w.
Proof using unseen.
  revert out u w. induction fuel as [|fuel IH]; intros out u w; [done|]. cbn [read_frames].
  destruct (_ <=? _)%nat; [by intros [= <-]|]. call. destruct (_ <? _); [intros [= <-]; cbn; congruence|].
  match goal with |- context [uart_get_nb u ?v] => destruct (uart_get_nb u v) as [[b u1] w2] eqn:E end.
  apply get_nb_unseen in E. intros ->%IH. congruence.
Qed.
Lemma lock_on_unseen fuel buf u cap st w r : lock_on fuel buf u cap st w = Ok r -> obs r.2 = obs w.
Proof using unseen.
  unfold lock_on. destruct (_ <? _)%nat; [by intros [= <-]|]. destruct (_ <? _); [by intros [= <-]|]. call.
  destruct (skip_bytes _ _ _ _ _) as [[[ok u1] w1]|] eqn:E; [|done]. apply skip_bytes_unseen in E.
  cbn [fuelled from_option mbind res_bind snd] in *. destruct (negb ok); [intros [= <-]; cbn; congruence|].
  destruct cap as [cap|]; [|intros [= <-]; cbn; congruence]. call.
  destruct (read_frames _ _ _ _ _ _) as [[[out u2] w2]|] eqn:E2; [|done]. apply read_frames_unseen in E2.
  cbn [fuelled from_option mbind res_bind snd] in *. unfold hand_back. destruct (_ <=? _)%nat; [|done].
  intros [= <-]. cbn. congruence.
Qed.
Lemma frame_sync_unseen fuel u timeout cap quiet_ok st w r :
  frame_sync fuel u timeout cap quiet_ok st w = Ok r -> obs r.2 = obs w.
Proof using unseen.
  unfold frame_sync. call. destruct (collect _ _ _ _ _ _ _) as [[[c u1] w1]|] eqn:E; [|done]. apply collect_unseen in E.
  cbn [fuelled from_option mbind res_bind snd] in *. destruct c as [buf| |buf].
  - destruct cap as [cap|]; [|intros [= <-]; cbn; congruence]. unfold hand_back. destruct (_ <=? _)%nat; [|done].
    intros [= <-]. cbn. congruence.
  - intros [= <-]. cbn. congruence.
  - intros ->%lock_on_unseen. congruence.
Qed.
End Driver.
End Observe.
