(* ===== verification/Pace.v ===== *)
(** * How long the driver and the framing take (src/miner/uio_uart.c, miner.c: frame_sync)

    A line that delivers bytes at a rate, a machine whose accesses are fast against
    it, and what follows: every wait is over soon after its time-out, and the receive
    FIFO is emptied in the time it took to fill. *)
From S2P Require Import Prelude WorkItem Uart Framing.

Module Pace.
Import WorkItem Uart Framing.
Local Open Scope word_scope.

(** Times are nanoseconds. [backlog] is the line time of what waits in the receive
    FIFO, with the part of the next byte that has arrived: it grows no faster than time
    passes, a byte taken out removes [byte_ns] of it, and the FIFO bounds it. An access
    takes at most [cost], and a poll, of two accesses, half as long as a byte. *)
Class Line (W : Type) `{Uartlite W} := {
  cost : Z;
  byte_ns : Z;
  backlog_max : Z;
  backlog : W -> Z;
  cost_range : 0 < cost <= access_bound;
  polls_keep_up : 4 * cost <= byte_ns;
  backlog_range w : 0 <= backlog w <= backlog_max;
  read_quick off w : elapsed (reg_read off w).2 <= elapsed w + cost;
  write_quick off v w : elapsed (reg_write off v w) <= elapsed w + cost;
  now_us_quick w : elapsed (now_us w).2 <= elapsed w + cost;
  now_s_quick w : elapsed (now_s w).2 <= elapsed w + cost;
  usleep_quick us w : 0 <= us -> elapsed (usleep us w) <= elapsed w + 1000 * us + cost;
  stat_fills w : let w' := (reg_read UARTLITE_STAT w).2 in backlog w' <= backlog w + (elapsed w' - elapsed w);
  now_s_fills w : let w' := (now_s w).2 in backlog w' <= backlog w + (elapsed w' - elapsed w);
  rx_drains w :
    let '(s, w1) := reg_read UARTLITE_STAT w in
    flag s STAT_RX_VALID = true ->
    let w' := (reg_read UARTLITE_RX w1).2 in backlog w' + byte_ns <= backlog w1 + (elapsed w' - elapsed w1)
}.

Section Driver.
Context {W : Type} `{device : Uartlite W} `{line : !Line W}.

Definition spends (n : Z) (w w' : W) : Prop := elapsed w <= elapsed w' <= elapsed w + n.
Lemma spends_trans m n w w1 w2 : spends m w w1 -> spends n w1 w2 -> spends (m + n) w w2.
Proof using Type. unfold spends. lia. Qed.
Lemma spends_le m n w w' : spends m w w' -> m <= n -> spends n w w'.
Proof using Type. unfold spends. lia. Qed.
Lemma spends_0 w : spends 0 w w.
Proof using Type. unfold spends. lia. Qed.
Lemma read_spends off w : spends cost w (reg_read off w).2.
Proof using Type. pose proof (read_quick off w). pose proof (read_takes_time off w). unfold spends. lia. Qed.
Lemma write_spends off v w : spends cost w (reg_write off v w).
Proof using Type. pose proof (write_quick off v w). pose proof (write_takes_time off v w). unfold spends. lia. Qed.
Lemma now_us_spends w : spends cost w (now_us w).2.
Proof using Type. pose proof (now_us_quick w). pose proof (now_us_takes_time w). unfold spends. lia. Qed.
Lemma now_s_spends w : spends cost w (now_s w).2.
Proof using Type. pose proof (now_s_quick w). pose proof (now_s_takes_time w). unfold spends. lia. Qed.
Lemma usleep_spends us w : 0 <= us -> spends (1000 * us + cost) w (usleep us w).
Proof using Type. intros Hus. pose proof (usleep_quick us w Hus). pose proof (usleep_takes_time us w Hus). unfold spends. lia. Qed.

(** The next access, with the time it takes and what the clock shows. *)
Ltac call :=
  match goal with
  | |- context [reg_read ?o ?w] => let T := fresh "T" in pose proof (read_spends o w) as T; destruct (reg_read o w) as [? ?]; cbn [snd] in T
  | |- context [now_us ?w] =>
    let T := fresh "T" in let V := fresh "V" in pose proof (now_us_spends w) as T; pose proof (now_us_value w) as V;
    destruct (now_us w) as [? ?]; cbn [fst snd] in T, V
  | |- context [now_s ?w] => let T := fresh "T" in pose proof (now_s_spends w) as T; destruct (now_s w) as [? ?]; cbn [snd] in T
  end.
(** [lia] with the definitions of the times. *)
Ltac times :=
  unfold spends, access_bound in *; pose proof cost_range; unfold access_bound in *;
  change (2 ^ 40) with 1099511627776 in *; change (2 ^ 32) with 4294967296 in *; change (2 ^ 60) with 1152921504606846976 in *; lia.

(** ** The driver *)
Lemma get_nb_spends u w b u' w' :
  uart_get_nb u w = (b, u', w') -> spends (2 * cost) w w' /\ sim_t0_us u' = sim_t0_us u.
Proof using device line.
  unfold uart_get_nb, uart_stat. destruct (negb (sim_t0_us u =? 0)).
  - destruct (_ <=? _)%nat; [intros [= _ <- <-]; split; [times|done]|]. call.
    destruct (_ <? _); intros [= _ <- <-]; (split; [times|done]).
  - call. destruct (negb (flag _ STAT_RX_VALID)).
    { intros [= _ <- <-]. split; [times|by destruct (flag _ STAT_OVERRUN)]. }
    call. intros [= _ <- <-]. split; [times|by destruct (flag _ STAT_OVERRUN)].
Qed.
Lemma put_wait_spends fuel start spun timeout w r :
  put_wait fuel (u64 (start / 1000)) spun timeout w = Some r ->
  0 <= timeout < 2 ^ 32 -> 0 <= start <= elapsed w -> elapsed w <= start + 1000 * (timeout + 1) ->
  elapsed w <= elapsed r.2 <= start + 1000 * (timeout + 1) + 2 * cost.
Proof using device line.
  intros E Ht. revert spun w E. induction fuel as [|fuel IH]; intros spun w; [done|]. cbn [put_wait]. unfold uart_stat. call.
  destruct (flag _ _); [|intros [= <-]; cbn; times]. call. subst.
  destruct (Z.ltb_spec timeout (u64 (u64 (elapsed w1 / 1000) - u64 (start / 1000)))) as [Hlt|Hle]; [intros [= <-]; cbn; times|].
  intros E Hs Hw. apply not_timed_out in Hle; [|times..]. apply IH in E; times.
Qed.
Lemma uart_put_spends fuel u b timeout w ok u' w' :
  uart_put fuel u b timeout w = Some (ok, u', w') -> 0 <= timeout < 2 ^ 32 ->
  spends (1000 * (timeout + 1) + 4 * cost) w w' /\ sim_t0_us u' = sim_t0_us u.
Proof using device line.
  unfold uart_put. call. pose proof (elapsed_start w0). subst. intros E Ht.
  destruct (put_wait _ _ _ _ _) as [[[spun k] w1]|] eqn:Ep; [|done]. apply put_wait_spends in Ep; [|done|times..].
  cbn [mbind option_bind snd] in *. destruct (negb k); injection E as _ <- <-; (split; [|done]); [times|].
  pose proof (write_spends UARTLITE_TX b w1). times.
Qed.
Lemma uart_write_spends fuel u buf timeout w ok u' w' :
  uart_write fuel u buf timeout w = Some (ok, u', w') -> 0 <= timeout < 2 ^ 32 ->
  spends (Z.of_nat (length buf) * (1000 * (timeout + 1) + 4 * cost)) w w' /\ sim_t0_us u' = sim_t0_us u.
Proof using device line.
  intros E Ht. revert u w E. induction buf as [|b buf IH]; intros u w; cbn [uart_write]; [intros [= _ <- <-]; split; [times|done]|].
  destruct (uart_put _ _ _ _ _) as [[[k u1] w1]|] eqn:E; [|done]. apply uart_put_spends in E as [T1 S1]; [|done].
  cbn [mbind option_bind]. destruct (negb k).
  - intros [= _ <- <-]. split; [|done]. apply (spends_le _ _ _ _ T1). cbn [length]. pose proof cost_range. nia.
  - intros [T2 S2]%IH. split; [|congruence]. apply (spends_le _ _ _ _ (spends_trans _ _ _ _ _ T1 T2)). cbn [length]. lia.
Qed.
Lemma drain_loop_spends fuel start timeout w r :
  drain_loop fuel (u64 (start / 1000)) timeout w = Some r ->
  0 <= timeout < 2 ^ 32 -> 0 <= start <= elapsed w -> elapsed w <= start + 1000 * (timeout + 1) ->
  elapsed w <= elapsed r.2 <= start + 1000 * (timeout + 1) + 2 * cost.
Proof using device line.
  intros E Ht. revert w E. induction fuel as [|fuel IH]; intros w; [done|]. cbn [drain_loop]. unfold uart_stat. call.
  destruct (flag _ _); [intros [= <-]; cbn; times|]. call. subst.
  destruct (Z.ltb_spec timeout (u64 (u64 (elapsed w1 / 1000) - u64 (start / 1000)))) as [Hlt|Hle]; [intros [= <-]; cbn; times|].
  intros E Hs Hw. apply not_timed_out in Hle; [|times..]. apply IH in E; times.
Qed.
Lemma drain_tx_spends fuel timeout w ok w' :
  uart_drain_tx fuel timeout w = Some (ok, w') -> 0 <= timeout < 2 ^ 32 -> spends (1000 * (timeout + 1) + 3 * cost) w w'.
Proof using device line.
  unfold uart_drain_tx. call. pose proof (elapsed_start w0). subst. intros E Ht. apply drain_loop_spends in E; [|done|times..].
  cbn [snd] in E. times.
Qed.
Lemma quiet_loop_spends fuel u start last idle timeout w ok u' w' :
  quiet_loop fuel u (u64 (start / 1000)) last idle timeout w = Some (ok, u', w') ->
  0 <= timeout < 2 ^ 32 -> 0 <= start <= elapsed w -> elapsed w <= start + 1000 * (timeout + 1) ->
  elapsed w <= elapsed w' <= start + 1000 * (timeout + 1) + 4 * cost /\ sim_t0_us u' = sim_t0_us u.
Proof using device line.
  intros E Ht. revert u last w E. induction fuel as [|fuel IH]; intros u last w; [done|]. cbn [quiet_loop].
  destruct (uart_get_nb u w) as [[b u1] w1] eqn:Eg. apply get_nb_spends in Eg as [T0 S0]. call.
  assert (forall last, (let '(t, w) := now_us w0 in if timeout <? u64 (t - u64 (start / 1000)) then Some (false, u1, w)
      else quiet_loop fuel u1 (u64 (start / 1000)) last idle timeout w) = Some (ok, u', w') ->
    0 <= start <= elapsed w -> elapsed w <= start + 1000 * (timeout + 1) ->
    elapsed w <= elapsed w' <= start + 1000 * (timeout + 1) + 4 * cost /\ sim_t0_us u' = sim_t0_us u) as Hrest.
  { intros last'. call. subst.
    destruct (Z.ltb_spec timeout (u64 (u64 (elapsed w2 / 1000) - u64 (start / 1000)))) as [Hlt|Hle].
    { intros [= _ <- <-] Hs Hw. split; [times|done]. }
    intros E Hs Hw. apply not_timed_out in Hle; [|times..]. apply IH in E as [T' S']; [split; [times|congruence]|times..]. }
  destruct b; [apply Hrest|]. destruct (_ <=? _); [|apply Hrest]. intros [= _ <- <-] Hs Hw. split; [times|done].
Qed.
Lemma wait_quiet_spends fuel u idle timeout w ok u' w' :
  uart_wait_quiet fuel u idle timeout w = Some (ok, u', w') -> 0 <= timeout < 2 ^ 32 ->
  spends (1000 * (timeout + 1) + 5 * cost) w w' /\ sim_t0_us u' = sim_t0_us u.
Proof using device line.
  unfold uart_wait_quiet. call. pose proof (elapsed_start w0). subst. intros E Ht.
  apply quiet_loop_spends in E as [T' S']; [split; [times|done]|done|times..].
Qed.

(** They return, soon after their time-out. *)
Lemma within_start fuel timeout w : 0 <= timeout -> (spin_fuel timeout <= fuel)%nat -> within (elapsed w) timeout (Z.of_nat fuel) w.
Proof using Type. unfold within, spin_fuel. lia. Qed.
Lemma put_ends fuel u b timeout w :
  0 <= timeout < 2 ^ 32 -> (spin_fuel timeout <= fuel)%nat ->
  exists ok u' w', uart_put fuel u b timeout w = Some (ok, u', w')
  /\ spends (1000 * (timeout + 1) + 4 * cost) w w' /\ sim_t0_us u' = sim_t0_us u.
Proof using device line.
  intros Ht Hf. assert (exists r, uart_put fuel u b timeout w = Some r) as [[[ok u'] w'] E].
  { unfold uart_put. pose proof (now_us_value w) as V. pose proof (elapsed_start (now_us w).2). destruct (now_us w) as [t w0]. cbn [fst snd] in *. subst.
    destruct (put_wait_ends fuel (elapsed w0) 0 timeout w0) as [[[spun ok] w1] ->]; [done..|apply within_start; [lia|done]|].
    cbn [mbind option_bind]. destruct (negb ok); by eexists. }
  exists ok, u', w'. split; [done|]. by apply uart_put_spends in E.
Qed.
Lemma write_ends fuel u buf timeout w :
  0 <= timeout < 2 ^ 32 -> (spin_fuel timeout <= fuel)%nat ->
  exists ok u' w', uart_write fuel u buf timeout w = Some (ok, u', w')
  /\ spends (Z.of_nat (length buf) * (1000 * (timeout + 1) + 4 * cost)) w w' /\ sim_t0_us u' = sim_t0_us u.
Proof using device line.
  intros Ht Hf. assert (exists r, uart_write fuel u buf timeout w = Some r) as [[[ok u'] w'] E].
  { revert u w. induction buf as [|b buf IH]; intros u w; cbn [uart_write]; [by eexists|].
    destruct (put_ends fuel u b timeout w Ht Hf) as (ok & u1 & w1 & -> & _). cbn [mbind option_bind]. destruct (negb ok); [by eexists|apply IH]. }
  exists ok, u', w'. split; [done|]. by apply uart_write_spends in E.
Qed.
Lemma drain_tx_ends fuel timeout w :
  0 <= timeout < 2 ^ 32 -> (spin_fuel timeout <= fuel)%nat ->
  exists ok w', uart_drain_tx fuel timeout w = Some (ok, w') /\ spends (1000 * (timeout + 1) + 3 * cost) w w'.
Proof using device line.
  intros Ht Hf. assert (exists ok w', uart_drain_tx fuel timeout w = Some (ok, w')) as (ok & w' & E).
  { unfold uart_drain_tx. pose proof (now_us_value w) as V. pose proof (elapsed_start (now_us w).2). destruct (now_us w) as [t w0]. cbn [fst snd] in *. subst.
    apply drain_loop_ends; [done..|apply within_start; [lia|done]]. }
  exists ok, w'. split; [done|]. by apply drain_tx_spends in E.
Qed.
Lemma wait_quiet_ends fuel u idle timeout w :
  0 <= timeout < 2 ^ 32 -> (spin_fuel timeout <= fuel)%nat ->
  exists ok u' w', uart_wait_quiet fuel u idle timeout w = Some (ok, u', w')
  /\ spends (1000 * (timeout + 1) + 5 * cost) w w' /\ sim_t0_us u' = sim_t0_us u.
Proof using device line.
  intros Ht Hf. assert (exists ok u' w', uart_wait_quiet fuel u idle timeout w = Some (ok, u', w')) as (ok & u' & w' & E).
  { unfold uart_wait_quiet. pose proof (now_us_value w) as V. pose proof (elapsed_start (now_us w).2). destruct (now_us w) as [t w0]. cbn [fst snd] in *. subst.
    destruct (quiet_loop_spec fuel u (elapsed w0) (elapsed w0) idle timeout w0) as (ok & u' & w' & E & _); [done..|apply within_start; [lia|done]|lia|done|].
    by exists ok, u', w'. }
  exists ok, u', w'. split; [done|]. by apply wait_quiet_spends in E.
Qed.

(** A poll of the device: it takes no longer than the byte it removes took to arrive,
    by half. *)
Lemma get_nb_drains u w b u' w' :
  uart_get_nb u w = (b, u', w') -> sim_t0_us u = 0 ->
  elapsed w < elapsed w' /\ backlog w' <= backlog w + (elapsed w' - elapsed w) - (if b is Some _ then byte_ns else 0).
Proof using device line.
  unfold uart_get_nb, uart_stat. intros E Hs. rewrite Hs in E. cbn [Z.eqb negb] in E. revert E.
  pose proof (stat_fills w) as F. pose proof (rx_drains w) as D. pose proof (read_takes_time UARTLITE_STAT w) as T1.
  destruct (reg_read UARTLITE_STAT w) as [s w1]. cbn [snd] in *. cbv zeta in F, D.
  destruct (flag s STAT_RX_VALID); cbn [negb]; [|intros [= <- <- <-]; lia]. specialize (D eq_refl).
  pose proof (read_takes_time UARTLITE_RX w1) as T2. destruct (reg_read UARTLITE_RX w1) as [v w2]. cbn [snd] in *.
  intros [= <- <- <-]. lia.
Qed.
(** Emptying the receive FIFO, with a stream that does not pause. *)
Lemma purge_rx_ends fuel u w :
  sim_t0_us u = 0 -> backlog w < Z.of_nat fuel ->
  exists u' w', uart_purge_rx fuel u w = Some (u', w') /\ sim_t0_us u' = 0 /\ spends (backlog w + 2 * cost) w w'.
Proof using device line.
  pose proof polls_keep_up. pose proof cost_range.
  revert u w. induction fuel as [|fuel IH]; intros u w Hs Hf; [pose proof (backlog_range w); lia|]. cbn [uart_purge_rx].
  destruct (uart_get_nb u w) as [[b u1] w1] eqn:E. pose proof E as [T S]%get_nb_spends. apply get_nb_drains in E as [T' D]; [|done].
  unfold spends in *. pose proof (backlog_range w). pose proof (backlog_range w1). destruct b as [b|].
  - destruct (IH u1 w1) as (u' & w' & -> & S' & B); [congruence|lia|]. exists u', w'. split; [done|]. split; [done|]. lia.
  - exists u1, w1. split; [done|]. split; [congruence|]. lia.
Qed.

(** ** The framing *)
(** The end of the second of a deadline, in [now]. *)
Definition limit (deadline : Z) : Z := (deadline + 1) * G.
Lemma now_spends n w w' : spends n w w' <-> (now w <= now w' <= now w + n).
Proof using Type. unfold spends, now. lia. Qed.
Lemma not_past deadline w w' t :
  now_s w = (t, w') -> 0 <= deadline < 2 ^ 63 -> now w' < limit deadline + 2 ^ 58 -> (deadline <? t) = false -> now w' < limit deadline.
Proof using device.
  intros E Hd Hw Ht. destruct (now_s_ticks w) as (t' & w1 & E' & -> & _). rewrite E in E'. injection E' as -> <-.
  rewrite reading_in_time in Ht by done. apply negb_false_iff, Z.ltb_lt in Ht. exact Ht.
Qed.
(** [times] for the wall clock. *)
Ltac dates :=
  rewrite ?now_spends in *; pose proof cost_range; unfold access_bound in *; change (2 ^ 40) with 1099511627776 in *;
  change (2 ^ 56) with 72057594037927936 in *; change (2 ^ 57) with 144115188075855872 in *; change (2 ^ 58) with 288230376151711744 in *; lia.

Lemma collect_spends fuel quiet_ok deadline idle buf u w c u' w' :
  collect fuel quiet_ok deadline idle buf u w = Some (c, u', w') -> 0 <= deadline < 2 ^ 63 -> now w < limit deadline + 2 ^ 57 ->
  now w <= now w' <= Z.max (now w + cost) (limit deadline + 200000 + 4 * cost) /\ sim_t0_us u' = sim_t0_us u.
Proof using device line.
  intros E Hd. revert idle buf u w E. induction fuel as [|fuel IH]; intros idle buf u w; [done|]. cbn [collect].
  pose proof (now_s_spends w) as T1. pose proof (not_past deadline w) as P. destruct (now_s w) as [t w1]. cbn [snd] in T1.
  specialize (P _ _ eq_refl Hd). destruct (deadline <? t); [intros [= _ <- <-] Hw; split; [dates|done]|].
  destruct (uart_get_nb u w1) as [[b u1] w2] eqn:Eg. apply get_nb_spends in Eg as [T2 S2]. destruct b as [b|].
  - destruct (_ <=? _)%nat; [intros [= _ <- <-] Hw; split; [dates|done]|]. intros E Hw.
    specialize (P ltac:(dates) eq_refl). apply IH in E as [T3 S3]; [split; [dates|congruence]|dates].
  - pose proof (usleep_spends 200 w2 ltac:(lia)) as T3.
    repeat match goal with |- (if ?c then _ else _) = _ -> _ => destruct c; [intros [= _ <- <-] Hw; split; [dates|done]|] end.
    intros E Hw. specialize (P ltac:(dates) eq_refl). apply IH in E as [T4 S4]; [split; [dates|congruence]|dates].
Qed.
Lemma skip_bytes_spends fuel n deadline u w ok u' w' :
  skip_bytes fuel n deadline u w = Some (ok, u', w') -> 0 <= deadline < 2 ^ 63 -> (n < 17)%nat -> now w < limit deadline + 2 ^ 56 ->
  now w <= now w' <= Z.max (now w) (limit deadline) + (2 * Z.of_nat n + 3) * cost /\ sim_t0_us u' = sim_t0_us u.
Proof using device line.
  intros E Hd Hn Hw. assert (now w < limit deadline + 2 ^ 56 + (34 - 2 * Z.of_nat n) * 2 ^ 40) as Hw' by dates.
  clear Hw. revert n u w E Hn Hw'. induction fuel as [|fuel IH]; intros [|n] u w; cbn [skip_bytes]; try done;
    try (intros [= _ <- <-] Hn Hw; split; [dates|done]).
  destruct (uart_get_nb u w) as [[b u1] w1] eqn:Eg. apply get_nb_spends in Eg as [T1 S1]. destruct b as [b|].
  - intros E Hn Hw. apply IH in E as [T2 S2]; [split; [dates|congruence]|lia|dates].
  - pose proof (now_s_spends w1) as T2. pose proof (not_past deadline w1) as P. destruct (now_s w1) as [t w2]. cbn [snd] in T2.
    specialize (P _ _ eq_refl Hd). destruct (deadline <? t); [intros [= _ <- <-] Hn Hw; split; [dates|done]|].
    intros E Hn Hw. specialize (P ltac:(dates) eq_refl). apply IH in E as [T3 S3]; [split; [dates|congruence]|lia|dates].
Qed.
Lemma read_frames_spends fuel want deadline out u w out' u' w' :
  read_frames fuel want deadline out u w = Some (out', u', w') -> 0 <= deadline < 2 ^ 63 -> now w < limit deadline + 2 ^ 57 ->
  now w <= now w' <= Z.max (now w + cost) (limit deadline + 3 * cost) /\ sim_t0_us u' = sim_t0_us u.
Proof using device line.
  intros E Hd. revert out u w E. induction fuel as [|fuel IH]; intros out u w; [done|]. cbn [read_frames].
  destruct (_ <=? _)%nat; [intros [= _ <- <-] Hw; split; [dates|done]|].
  pose proof (now_s_spends w) as T1. pose proof (not_past deadline w) as P. destruct (now_s w) as [t w1]. cbn [snd] in T1.
  specialize (P _ _ eq_refl Hd). destruct (deadline <? t); [intros [= _ <- <-] Hw; split; [dates|done]|].
  destruct (uart_get_nb u w1) as [[b u1] w2] eqn:Eg. apply get_nb_spends in Eg as [T2 S2]. intros E Hw.
  specialize (P ltac:(dates) eq_refl). apply IH in E as [T3 S3]; [split; [dates|congruence]|dates].
Qed.

(** A deadline of [s] seconds. *)
Lemma deadline_spends w s t w1 :
  now_s w = (t, w1) -> 0 <= s < 2 ^ 40 -> now w < 2 ^ 62 * G + 2 ^ 57 ->
  spends cost w w1 /\ 0 <= u64 (t + s) < 2 ^ 63 /\ now w1 < limit (u64 (t + s)) <= now w1 + (s + 1) * G.
Proof using device line.
  intros E Hs Hw. pose proof (now_s_spends w) as T. destruct (deadline_set w s Hs Hw) as (t' & w' & E' & _ & _ & D1 & D2).
  rewrite E in *. injection E' as -> ->. do 2 (split; [done|]). unfold limit, G in *. lia.
Qed.
Lemma lock_on_spends fuel buf u cap st w rc out u' st' w' :
  lock_on fuel buf u cap st w = Ok (rc, out, u', st', w') -> now w < 2 ^ 62 * G + 2 ^ 56 -> (length buf <= NSYNC)%nat ->
  spends (7 * G + 40 * cost) w w' /\ sim_t0_us u' = sim_t0_us u.
Proof using device line.
  unfold lock_on. intros E Hw Hb. revert E. destruct (_ <? _)%nat; [intros [= _ _ <- _ <-]; split; [unfold G; times|done]|].
  destruct (_ <? _); [intros [= _ _ <- _ <-]; split; [unfold G; times|done]|].
  destruct (now_s w) as [t w1] eqn:E1. apply (deadline_spends w 2) in E1 as (T1 & D1 & L1); [|done|dates].
  destruct (skip_of_spec (best_residue (histogram buf)) (length buf)) as [S1 _]; [by apply best_has_most_flags|]. unfold RESULT_LEN in S1.
  destruct (skip_bytes _ _ _ _ _) as [[[ok u2] w2]|] eqn:E2; [|done].
  apply skip_bytes_spends in E2 as [T2 S2]; [|done|done|dates]. cbn [fuelled from_option mbind res_bind].
  assert (now w <= now w2 <= now w + 3 * G + 36 * cost) as T by (pose proof cost_range; rewrite now_spends in T1; nia).
  destruct (negb ok); [intros [= _ _ <- _ <-]; split; [unfold G in *; dates|done]|].
  destruct cap as [cap|]; [|intros [= _ _ <- _ <-]; split; [unfold G in *; dates|done]].
  destruct (now_s w2) as [t3 w3] eqn:E3. apply (deadline_spends w2 3) in E3 as (T3 & D3 & L3); [|done|unfold G in *; dates].
  destruct (read_frames _ _ _ _ _ _) as [[[o u4] w4]|] eqn:E4; [|done].
  apply read_frames_spends in E4 as [T4 S4]; [|done|dates]. cbn [fuelled from_option mbind res_bind].
  unfold hand_back. destruct (_ <=? _)%nat; [|done]. intros [= _ _ <- _ <-]. split; [unfold G in *; dates|congruence].
Qed.
Lemma collect_length fuel quiet_ok deadline idle buf u w c u' w' :
  collect fuel quiet_ok deadline idle buf u w = Some (c, u', w') -> (length buf <= NSYNC)%nat ->
  match c with Gap got | Full got => (length got <= NSYNC)%nat | Quiet => True end.
Proof using Type.
  revert idle buf u w. induction fuel as [|fuel IH]; intros idle buf u w; [done|]. cbn [collect].
  destruct (now_s w) as [t w1]. destruct (_ <? _); [by intros [= <- _ _]|].
  destruct (uart_get_nb u w1) as [[[b|] u1] w2].
  - intros E Hb. revert E. destruct (Nat.ltb_spec (length buf) NSYNC); destruct (_ <=? _)%nat;
      try (intros [= <- _ _]; rewrite ?length_app; cbn [length]; lia); intros E%IH; try done; rewrite length_app; cbn [length]; lia.
  - intros E Hb. revert E. repeat match goal with |- (if ?c then _ else _) = _ -> _ => destruct c; [by intros [= <- _ _]|] end. by intros E%IH.
Qed.
Lemma frame_sync_spends fuel u timeout cap quiet_ok st w rc out u' st' w' :
  frame_sync fuel u timeout cap quiet_ok st w = Ok (rc, out, u', st', w') -> in_range w -> 0 <= timeout < 2 ^ 24 ->
  spends ((timeout + 8) * G + 200000 + 50 * cost) w w' /\ sim_t0_us u' = sim_t0_us u.
Proof using device line.
  unfold frame_sync, in_range. change (2 ^ 24) with 16777216. intros E Hw Ht. revert E.
  destruct (now_s w) as [t w1] eqn:E1. apply (deadline_spends w timeout) in E1 as (T1 & D1 & L1); [|change (2 ^ 40) with 1099511627776; lia|dates].
  destruct (collect _ _ _ _ _ _ _) as [[[c u2] w2]|] eqn:E2; [|done]. pose proof E2 as Hl%collect_length; [|cbn; lia].
  apply collect_spends in E2 as [T2 S2]; [|done|dates]. cbn [fuelled from_option mbind res_bind].
  assert (spends ((timeout + 1) * G + 200000 + 5 * cost) w w2) as T by (pose proof cost_range; rewrite now_spends in T1 |- *; nia).
  assert (forall r, r = (u2, w2) -> spends ((timeout + 8) * G + 200000 + 50 * cost) w r.2 /\ sim_t0_us r.1 = sim_t0_us u) as Hend.
  { intros r ->. split; [|done]. apply (spends_le _ _ _ _ T). unfold G. pose proof cost_range. lia. }
  destruct c as [buf| |buf].
  - destruct cap; [unfold hand_back; destruct (_ <=? _)%nat; [|done]|]; intros [= _ _ <- _ <-]; by apply (Hend (u2, w2)).
  - intros [= _ _ <- _ <-]. by apply (Hend (u2, w2)).
  - intros [T3 S3]%lock_on_spends; [|unfold G in *; dates|done]. split; [|congruence].
    apply (spends_le _ _ _ _ (spends_trans _ _ _ _ _ T T3)). pose proof cost_range. lia.
Qed.
(** A call returns in time, or stores past the end of a buffer of fewer than [NSYNC]
    bytes. *)
Lemma frame_sync_ends fuel u timeout cap quiet_ok st w :
  in_range w -> 0 <= timeout < 2 ^ 24 -> (sync_fuel timeout <= fuel)%nat ->
  (frame_sync fuel u timeout (Some cap) quiet_ok st w = Overrun /\ (cap < NSYNC)%nat)
  \/ exists rc out u' st' w', frame_sync fuel u timeout (Some cap) quiet_ok st w = Ok (rc, out, u', st', w')
     /\ (length out <= cap)%nat /\ spends ((timeout + 8) * G + 200000 + 50 * cost) w w' /\ sim_t0_us u' = sim_t0_us u.
Proof using device line.
  intros Hr Ht Hf. destruct (sync_run fuel u timeout quiet_ok st w Hr Ht Hf) as (rc & out & u' & st' & w' & bs & seen & u1 & w1 & E & _ & _ & _ & O).
  apply outcome_length in O. specialize (E cap). revert E. unfold hand_back. destruct (Nat.leb_spec (length out) cap) as [Hl|Hl]; intros E.
  - right. pose proof E as [T S]%frame_sync_spends; [|done..]. by exists rc, out, u', st', w'.
  - left. split; [exact E|lia].
Qed.
End Driver.
End Pace.
