(* ===== verification/Gbt.v ===== *)
(** * Solo mining (src/miner/miner.c: the JSON-RPC client, get_template,
      submit_block, the "gbt" and "synthetic" work sources, selftest_vectors)

    The node is a class: a connection takes the request's bytes and gives back what
    is read until it closes. The template held for submission, the header of the
    current item and the status fields are one record, threaded through the calls. *)
From S2P Require Import Prelude Sha256 Blake2b WorkItem Block Merkle Devfee Worksrc SiaStratum Coinbase Cdouble Decimal Json Cstring Uart.

Module Gbt.
Import WorkItem Worksrc Uart Cstring.
Local Open Scope word_scope.

(** Text with ['] for the double quote. *)
Definition dq (s : string) : list Z := (fun c => if c =? 39 then 34 else c) <$> str s.
Definition crlf : list Z := [13; 10].
Definition snprintf (size : nat) (text : list Z) : list Z := take (size - 1) text.

(** ** Hex and Base64 *)
(** The first [n] pairs, [None] for -1. Past the end of the text there is nothing to
    scan. *)
Fixpoint hex2bin_n (hex : list Z) (n : nat) : option (list Z) :=
  match n with
  | O => Some []
  | S n => v ← scan_2x hex; rest ← hex2bin_n (drop 2 hex) n; Some (u8 v :: rest)
  end.
Definition hex2bin (hex : list Z) (n : nat) : option (list Z) :=
  if negb (length hex =? n * 2)%nat then None else hex2bin_n hex n.

Definition B64 : list Z := str "ABCDEFGHIJKLMNOPQRSTUVWXYZabcdefghijklmnopqrstuvwxyz0123456789+/".
Definition b64_at (v : Z) : Z := B64 !!! Z.to_nat (v .& 63).
Fixpoint b64_loop (i out : list Z) (outsz : nat) : list Z :=
  if (length out + 4 <? outsz)%nat then
    match i with
    | [] => out
    | [a] =>
      let v := a ≪ 16 in out ++ [b64_at (v ≫ 18); b64_at (v ≫ 12); 61; 61]
    | [a; b] =>
      let v := (a ≪ 16) .| (b ≪ 8) in
      out ++ [b64_at (v ≫ 18); b64_at (v ≫ 12); b64_at (v ≫ 6); 61]
    | a :: b :: c :: i =>
      let v := (a ≪ 16) .| (b ≪ 8) .| c in
      b64_loop i (out ++ [b64_at (v ≫ 18); b64_at (v ≫ 12); b64_at (v ≫ 6); b64_at v]) outsz
    end
  else out.
Definition b64 (i : list Z) (outsz : nat) : list Z := b64_loop i [] outsz.

(** ** Fields of a JSON text, by search *)
Definition after_key (s key : list Z) : option (list Z) :=
  let pat := snprintf 64 ([34] ++ key ++ [34]) in
  p ← strstr s pat; strchr (drop (length pat) p) 58.
Definition json_num (s key : list Z) : option Z := p ← after_key s key; Some (strtoll (drop 1 p)).
Definition json_str (s key : list Z) (outsz : nat) : option (list Z) :=
  p ← after_key s key; p ← strchr p 34;
  let p := drop 1 p in
  e ← strchr p 34;
  let n := (length p - length e)%nat in
  if (outsz <=? n)%nat then None else Some (take n p).

(** ** State *)
Definition TPL_MAX_TX : nat := Z.to_nat 8192.
Definition TX_DATA_MAX : Z := 4194304.
Definition RESP_MAX : Z := 4194304.

Record config := Config {
  rpc_host : list Z;
  rpc_port : Z;
  rpc_user : option (list Z);
  rpc_pass : option (list Z);
  target_shift : Z;
  dry_run : bool;
  cfg_payout : option (list Z)
}.

(** [g_tpl] (without the array of ids, which only [get_template] uses), [g_gbt_hdr],
    the fee counters and the fields of [st] the sources write. *)
Record solo := Solo {
  hdr : knots_header;
  cb : Coinbase.coinbase_t;
  tx_count : nat;
  tx_data : list Z;              (* tx_data_len bytes *)
  tpl_valid : bool;
  g_gbt_hdr : knots_header;
  fee : Devfee.counters;
  last_template_height : Z;
  merkle_text : list Z;
  payout_address : list Z;
  blocks_submitted : Z;
  blocks_accepted : Z;
  last_submit : list Z;
  last_error : list Z
}.
#[export] Instance solo_fields : Fields solo := fun s =>
  Solo (hdr s) (cb s) (tx_count s) (tx_data s) (tpl_valid s) (g_gbt_hdr s) (fee s)
    (last_template_height s) (merkle_text s) (payout_address s) (blocks_submitted s)
    (blocks_accepted s) (last_submit s) (last_error s).

(** A fresh connection to the node: the bytes written, and those read until it
    closes; [None] when [socket], [connect] or [write] fails. *)
Class Node (W : Type) := converse : list Z -> W -> option (list Z) * W.

Section Solo.
Context {W : Type} `{World W} `{Node W} (cfg : config).

(** ** JSON-RPC over HTTP *)
Definition rpc_request (body : list Z) : list Z :=
  let auth := snprintf 256 (default [] (rpc_user cfg) ++ [58] ++ default [] (rpc_pass cfg)) in
  str "POST / HTTP/1.1" ++ crlf ++ str "Host: " ++ rpc_host cfg ++ crlf
  ++ str "Authorization: Basic " ++ b64 auth 512 ++ crlf
  ++ str "Content-Type: text/plain" ++ crlf
  ++ str "Content-Length: " ++ Decimal.dec (Z.of_nat (length body)) ++ crlf
  ++ str "Connection: close" ++ crlf ++ crlf.

(** The response as a C string, headers included. *)
Definition rpc_call (body : list Z) (s : solo) (w : W) : option (list Z) * solo * W :=
  match inet_pton (rpc_host cfg) with
  | None =>
    (None, s <| last_error := snprintf 192 (str "--rpc-host must be a numeric IPv4 address, got '"
       ++ rpc_host cfg ++ str "'") |>, w)
  | Some _ =>
    let '(r, w) := converse (rpc_request body ++ body) w in
    match r with
    | None => (None, s, w)
    | Some r =>
      let truncated := RESP_MAX - 1 <=? Z.of_nat (length r) in
      (Some (Json.cstr (if truncated then take (Z.to_nat (RESP_MAX - 1)) r else r)),
       if truncated then s <| last_error := snprintf 192 (str "RPC response hit the "
         ++ Decimal.dec RESP_MAX ++ str "-byte buffer and was truncated") |> else s, w)
    end
  end.

(** ** The template *)
(** The transactions, id and data pairwise, until one is missing or malformed, or
    [room] are read; [false] when the data do not fit. *)
Fixpoint scan_txs (room : nat) (p : list Z) (ids : list (list Z)) (data : list Z)
    : bool * list (list Z) * list Z :=
  match room with
  | O => (true, ids, data)
  | S room =>
    match strstr p (dq "'txid':'") with
    | None => (true, ids, data)
    | Some tx =>
      let tx := drop 8 tx in
      match hex2bin_n tx 32 with
      | None => (true, ids, data)
      | Some disp =>
        match strstr p (dq "'data':'") with
        | None => (true, ids, data)
        | Some dt =>
          let dt := drop 8 dt in
          match strchr dt 34 with
          | None => (true, ids, data)
          | Some e =>
            let nbytes := ((length dt - length e) / 2)%nat in
            if TX_DATA_MAX <? Z.of_nat (length data + nbytes) then (false, ids, data)
            else
              match hex2bin_n dt nbytes with
              | None => (true, ids, data)
              | Some b =>
                scan_txs room (if (length tx <? length dt)%nat then tx else dt) (ids ++ [rev disp]) (data ++ b)
              end
          end
        end
      end
    end
  end.

(** The fields that identify the block. *)
Record fields_of := FieldsOf { height : Z; curtime : Z; tversion : Z; bits : list Z; prev : list Z }.
Definition template_fields (r : list Z) : option fields_of :=
  height ← json_num r (str "height");
  curtime ← json_num r (str "curtime");
  version ← json_num r (str "version");
  bits ← json_str r (str "bits") 32;
  prev ← json_str r (str "previousblockhash") 80;
  Some (FieldsOf height curtime version bits prev).

Definition template_body : list Z :=
  dq "{'jsonrpc':'1.0','id':'osprey','method':'getblocktemplate',"
  ++ dq "'params':[{'rules':['segwit','blake2b']}]}".

(** The part from the coinbase on, of the template [r] with header [h]. The outer
    [None] is a loop out of fuel, the inner one -1. *)
Definition template_block (r : list Z) (f : fields_of) (h : knots_header) (s : solo)
    : option (option knots_header * solo) :=
  match json_num r (str "coinbasevalue") with
  | Some cbvalue =>
    if cbvalue <=? 0 then Some (None, s <| last_error := str "template has no coinbasevalue" |>)
    else
      let wc := default [] (json_str r (str "default_witness_commitment") 256) in
      let '(fits, ids, data) := scan_txs TPL_MAX_TX r [] [] in
      let s := s <| tx_count := length ids |> <| tx_data := data |> in
      if negb fits then
        Some (None, s <| last_error := snprintf 192 (str "template transactions exceed the "
          ++ Decimal.dec TX_DATA_MAX ++ str "-byte block buffer") |>)
      else
        let '(payout, c) := Devfee.devfee_next_payout (cfg_payout cfg) (fee s) in
        let s := s <| fee := c |> <| payout_address := snprintf 80 payout |> in
        '(rc, tx) ← Coinbase.coinbase_build payout (u64 cbvalue) (Block.Spec.signed32 (u32 (height f)))
                      (Devfee.g_total c) (if (length wc =? 0)%nat then None else Some wc);
        let s := s <| cb := tx |> in
        if negb (rc =? 0) then
          Some (None, s <| last_error := str "coinbase build failed (payout address rejected?)" |>)
        else
          root ← Merkle.merkle_root (Coinbase.txid tx :: ids) (S (length ids));
          match root with
          | inl _ => Some (None, s <| last_error := str "merkle root failed" |>)
          | inr root =>
            let h := h <| hashMerkleRoot := root |> <| m_txcount := u16 (Z.of_nat (length ids) + 1) |> in
            Some (Some h, s <| hdr := h |> <| tpl_valid := true |> <| merkle_text := Json.bin2hex (rev root) |>)
          end
  | None => Some (None, s <| last_error := str "template has no coinbasevalue" |>)
  end.

Definition get_template (s : solo) (w : W) : option (option knots_header * solo * W) :=
  let '(r, s, w) := rpc_call template_body s w in
  match r with
  | None => Some (None, s <| last_error := str "rpc connect failed" |>, w)
  | Some r =>
    match template_fields r with
    | None => Some (None, s <| last_error := str "template parse failed" |>, w)
    | Some f =>
      match hex2bin (prev f) 32 with
      | None => Some (None, s <| last_error := str "prevhash parse failed" |>, w)
      | Some pb =>
        let h := knots_header_init <| nVersion := u32 (tversion f) |> <| nTime := u32 (curtime f) |>
                   <| nBits := u32 (strtoul16 (bits f)) |>
                   <| m_height := Block.Spec.signed32 (u32 (height f)) |>
                   <| hashPrevBlock := rev pb |> in
        '(h, s) ← template_block r f h (s <| last_template_height := u64 (height f) |>);
        Some (h, s, w)
      end
    end
  end.

(** ** Submission: the return code *)
Definition BLOCK_MAX : nat := Z.to_nat (4194304 + 4096).
Definition submit_body (blk : list Z) : list Z :=
  dq "{'jsonrpc':'1.0','id':'osprey','method':'submitblock','params':['" ++ Json.bin2hex blk ++ dq "']}".
(** The node's verdict: null is acceptance. *)
Definition judge (r : option (list Z)) (s : solo) (w : W) : Z * solo * W :=
  match r with
  | None => (-1, s <| last_submit := str "rpc call failed" |>, w)
  | Some r =>
    let res := strstr r (dq "'result':") in
    let accepted := match res with Some res => starts_with (str "null") (drop 9 res) | None => false end in
    if accepted then
      (0, s <| blocks_accepted := u64 (blocks_accepted s + 1) |> <| last_submit := str "ACCEPTED" |>, w)
    else (-1, s <| last_submit := take 100 (default r res) |>, w)
  end.
Definition submit_block (winner : knots_header) (s : solo) (w : W) : Z * solo * W :=
  if negb (tpl_valid s) then (-1, s <| last_submit := str "no template held" |>, w)
  else
    match Block.block_serialize winner (Coinbase.raw (cb s)) (tx_data s) (Z.of_nat (tx_count s)) BLOCK_MAX with
    | None => (-1, s <| last_submit := str "serialise failed" |>, w)
    | Some blk =>
      let s := s <| blocks_submitted := u64 (blocks_submitted s + 1) |> in
      let '(r, s, w) := rpc_call (submit_body blk) s w in
      judge r s w
    end.

(** ** Local work *)
Definition synthetic_template (counter : Z) (s : solo) (w : W) : knots_header * solo * W :=
  let '(t, w) := now_s w in
  (knots_header_init <| nVersion := 0x20000000 |> <| nBits := 0x1903c2d4 |> <| nTime := u32 t |>
     <| m_height := 969912 |>
     <| m_extranonce := ((fun i => u8 (counter ≫ (8 * Z.of_nat i))) <$> seq 0 8) ++ replicate 8 0 |>
     <| hashPrevBlock := (fun i => u8 (0xA5 ^^ (Z.of_nat i * 7) ^^ u8 counter)) <$> seq 0 32 |>,
   s <| last_template_height := 969912 |>, w).

(** ** The work sources *)
(** The reported word, zero when the header is refused. *)
Definition expected_hash_top64 (h : knots_header) : Z :=
  match stage_inputs h with
  | inl _ => 0
  | inr (_, ss4, _) =>
    let hb := Blake2b.blake2b_nokey ss4 32 in
    foldl (fun v i => u64 (v ≪ 8) .| hb !!! i) 0 (seq 24 8)
  end.

(** The context on success. *)
Definition gbt_build (synthetic : bool) (s : solo) (w : W) : option (option work_ctx * solo * W) :=
  let '(t, w) := now_s w in
  '(h, s, w) ← (if synthetic then let '(h, s, w) := synthetic_template t s w in Some (Some h, s, w)
                else get_template s w);
  match h with
  | None => Some (None, s, w)
  | Some h =>
    let h := h <| m_extranonce := <[1%nat := u8 ((t ≫ 8) .& 0xff)]> (<[0%nat := u8 (t .& 0xff)]> (m_extranonce h)) |> in
    match stage_inputs h with
    | inl _ => Some (None, s, w)
    | inr (a, b, _) =>
      Some (Some (WorkCtx a b (target_top64_from_bits (nBits h) (target_shift cfg)) true),
            s <| g_gbt_hdr := h |>, w)
    end
  end.

(** The header a candidate stands for. *)
Definition with_nonce (h : knots_header) (nonce : Z) : knots_header :=
  h <| nNonce := u32 (nonce .& 0xffffffff) |> <| m_nonce2 := u32 (nonce ≫ 32) |>.

Definition gbt_on_candidate (nonce hash_top64 : Z) (s : solo) (w : W) : Z * solo * W :=
  let c := with_nonce (g_gbt_hdr s) nonce in
  if negb (expected_hash_top64 c =? hash_top64) then (WORKSRC_CAND_BAD, s, w)
  else
    match get_pow_hash c with
    | inl _ => (WORKSRC_CAND_OK, s, w)
    | inr pow =>
      if negb (hash_meets_target pow (compact_to_target_shifted (nBits c) BLAKE2B_TARGET_SHIFT_MAINNET))
      then (WORKSRC_CAND_OK, s, w)
      else
        let '(s, w) :=
          if negb (dry_run cfg) && (target_shift cfg =? BLAKE2B_TARGET_SHIFT_MAINNET)
          then let '(_, s, w) := submit_block c s w in (s, w) else (s, w) in
        (WORKSRC_CAND_SOLUTION, s, w)
    end.
End Solo.

(** ** Base64, read by its definition *)
Module Spec.
(** The six bits of a character. *)
Definition six (c : Z) : option Z := (Z.of_nat ∘ fst) <$> list_find (c =.) B64.
(** Groups of four characters, the last padded. *)
Fixpoint unb64 (l : list Z) : option (list Z) :=
  match l with
  | [] => Some []
  | x :: y :: z :: t :: l =>
    x ← six x; y ← six y;
    if z =? 61 then (if t =? 61 then match l with [] => Some [(x * 64 + y) / 16] | _ => None end else None)
    else
      z ← six z;
      let v := (x * 64 + y) * 64 + z in
      if t =? 61 then match l with [] => Some [v / 1024; v / 4 mod 256] | _ => None end
      else t ← six t; r ← unb64 l; Some (v / 1024 :: v / 4 mod 256 :: v mod 4 * 64 + t :: r)
  | _ => None
  end.
End Spec.

Lemma b64_char k : 0 <= k < 64 -> Spec.six (B64 !!! Z.to_nat k) = Some k /\ B64 !!! Z.to_nat k <> 61.
Proof.
  intros Hk.
  assert (forallb (fun i => bool_decide (Spec.six (B64 !!! i) = Some (Z.of_nat i)) && negb (B64 !!! i =? 61)) (seq 0 64) = true) as H
    by by vm_compute.
  rewrite forallb_forall in H. specialize (H (Z.to_nat k)). rewrite in_seq in H.
  apply andb_true_iff in H as [H1%bool_decide_eq_true H2%negb_true_iff%Z.eqb_neq]; [|lia].
  by rewrite Z2Nat.id in H1 by lia.
Qed.
Lemma b64_at_six v : Spec.six (b64_at v) = Some (v mod 64) /\ b64_at v <> 61.
Proof.
  unfold b64_at. change 63 with (Z.ones 6). rewrite Z.land_ones by lia. change (2 ^ 6) with 64.
  apply b64_char, Z.mod_pos_bound. lia.
Qed.

(** The bytes of a 24-bit group, as its shifts give them. *)
Lemma group_bits v :
  0 <= v < 2 ^ 24 ->
  b64_at (v ≫ 18) <> 61 /\ b64_at (v ≫ 12) <> 61 /\ b64_at (v ≫ 6) <> 61 /\ b64_at v <> 61
  /\ Spec.six (b64_at (v ≫ 18)) = Some (v / 262144) /\ Spec.six (b64_at (v ≫ 12)) = Some (v / 4096 mod 64)
  /\ Spec.six (b64_at (v ≫ 6)) = Some (v / 64 mod 64) /\ Spec.six (b64_at v) = Some (v mod 64).
Proof.
  intros Hv. change (2 ^ 24) with 16777216 in Hv.
  destruct (b64_at_six (v ≫ 18)) as [-> H1]. destruct (b64_at_six (v ≫ 12)) as [-> H2].
  destruct (b64_at_six (v ≫ 6)) as [-> H3]. destruct (b64_at_six v) as [-> H4].
  rewrite !Z.shiftr_div_pow2 in * by lia.
  change (2 ^ 18) with 262144 in *. change (2 ^ 12) with 4096 in *. change (2 ^ 6) with 64 in *.
  split_and!; try done. f_equal. apply Z.mod_small. split; [apply Z.div_pos; lia|apply Z.div_lt_upper_bound; lia].
Qed.
Lemma or_bytes a b c : is_byte a -> is_byte b -> is_byte c -> (a ≪ 16) .| (b ≪ 8) .| c = a * 65536 + b * 256 + c.
Proof.
  intros Ha Hb Hc. unfold is_byte, is_word in *.
  rewrite (lor_add 16 a (b ≪ 8)); [|lia|].
  - replace (a * 2 ^ 16 + b ≪ 8) with ((a * 256 + b) ≪ 8) by (rewrite !Z.shiftl_mul_pow2 by lia; lia).
    rewrite lor_add by (lia || done). lia.
  - rewrite Z.shiftl_mul_pow2 by lia. unfold is_word. change (2 ^ 16) with 65536. change (2 ^ 8) with 256 in *. lia.
Qed.

Ltac bytes_below_256 :=
  unfold is_word in *; change (2 ^ 8) with 256 in *; change (2 ^ 24) with 16777216 in *.
Lemma unb64_one a :
  is_byte a -> let v := a ≪ 16 in Spec.unb64 [b64_at (v ≫ 18); b64_at (v ≫ 12); 61; 61] = Some [a].
Proof.
  intros Ha v. assert (v = a * 65536) as -> by (subst v; rewrite Z.shiftl_mul_pow2 by lia; done). bytes_below_256.
  destruct (group_bits (a * 65536)) as (H1 & H2 & _ & _ & S1 & S2 & _); [bytes_below_256; lia|].
  cbn [Spec.unb64]. rewrite S1, S2. cbn. do 2 f_equal. Z.to_euclidean_division_equations; lia.
Qed.
Lemma unb64_two a b :
  is_byte a -> is_byte b -> let v := (a ≪ 16) .| (b ≪ 8) in
  Spec.unb64 [b64_at (v ≫ 18); b64_at (v ≫ 12); b64_at (v ≫ 6); 61] = Some [a; b].
Proof.
  intros Ha Hb v. assert (v = a * 65536 + b * 256) as ->.
  { pose proof (or_bytes a b 0 Ha Hb ltac:(done)) as E. by rewrite Z.lor_0_r, Z.add_0_r in E. }
  bytes_below_256.
  destruct (group_bits (a * 65536 + b * 256)) as (H1 & H2 & H3 & _ & S1 & S2 & S3 & _); [bytes_below_256; lia|].
  cbn [Spec.unb64]. rewrite S1, S2. cbn [mbind option_bind].
  rewrite (proj2 (Z.eqb_neq _ _) H3), S3. cbn [mbind option_bind Z.eqb Pos.eqb]. do 2 f_equal; [|f_equal];
  Z.to_euclidean_division_equations; lia.
Qed.
Lemma unb64_three a b c k i :
  is_byte a -> is_byte b -> is_byte c -> Spec.unb64 k = Some i -> let v := (a ≪ 16) .| (b ≪ 8) .| c in
  Spec.unb64 (b64_at (v ≫ 18) :: b64_at (v ≫ 12) :: b64_at (v ≫ 6) :: b64_at v :: k) = Some (a :: b :: c :: i).
Proof.
  intros Ha Hb Hc Hk v. assert (v = a * 65536 + b * 256 + c) as -> by by apply or_bytes. bytes_below_256.
  destruct (group_bits (a * 65536 + b * 256 + c)) as (H1 & H2 & H3 & H4 & S1 & S2 & S3 & S4); [bytes_below_256; lia|].
  cbn [Spec.unb64]. rewrite S1, S2, S3, S4, Hk. cbn [mbind option_bind].
  rewrite (proj2 (Z.eqb_neq _ _) H3), (proj2 (Z.eqb_neq _ _) H4).
  do 2 f_equal; [|f_equal; [|f_equal]]; Z.to_euclidean_division_equations; lia.
Qed.

(** The encoding, when the output has room for its text. *)
Definition b64_length (n : nat) : nat := 4 * ((n + 2) / 3).
Lemma b64_loop_spec fuel i out outsz :
  bytes i -> (length i <= fuel)%nat -> (length out + b64_length (length i) + 4 < outsz)%nat ->
  exists k, b64_loop i out outsz = out ++ k /\ Spec.unb64 k = Some i /\ length k = b64_length (length i).
Proof.
  unfold b64_length. revert i out. induction fuel as [|fuel IH]; intros i out Hi Hf Ho.
  { destruct i; [|cbn in Hf; lia]. exists []. rewrite app_nil_r. split; [|done]. cbn. by case_match. }
  destruct i as [|a [|b [|c i]]]; cbn [b64_loop]; rewrite (proj2 (Nat.ltb_lt _ _)) by lia;
    rewrite ?Forall_cons in Hi.
  - exists []. by rewrite app_nil_r.
  - eexists. split; [done|]. split; [apply (unb64_one a), Hi|done].
  - eexists. split; [done|]. split; [apply (unb64_two a b); apply Hi|done].
  - destruct Hi as (Ha & Hb & Hc & Hi). cbn [length] in Hf, Ho |- *.
    assert ((S (S (S (length i))) + 2) / 3 = S ((length i + 2) / 3))%nat as Hdiv.
    { replace (S (S (S (length i))) + 2)%nat with (length i + 2 + 1 * 3)%nat by lia.
      rewrite Nat.div_add by lia. lia. }
    rewrite Hdiv in Ho |- *. edestruct IH as (k & -> & Hk & Hkl); [done| |rewrite length_app; cbn [length]|]; [lia..|].
    eexists. rewrite <- app_assoc. split; [done|]. cbn [app length]. split; [by apply (unb64_three a b c)|lia].
Qed.

(** What the client sends a node is a well-formed authorised request. With any
    user and password the credentials, up to 255 bytes, come back from the Base64 of
    the Authorization header; the header block fits its 1024-byte buffer, so the
    length given to [write] is the length that is there; the body follows the empty
    line. *)
Theorem rpc_request_authorised cfg body a :
  inet_pton (rpc_host cfg) = Some a -> bytes (default [] (rpc_user cfg)) -> bytes (default [] (rpc_pass cfg)) ->
  Z.of_nat (length body) < 2 ^ 64 ->
  exists pre text post, rpc_request cfg body = pre ++ str "Authorization: Basic " ++ text ++ post ++ crlf ++ crlf
  /\ Spec.unb64 text = Some (take 255 (default [] (rpc_user cfg) ++ str ":" ++ default [] (rpc_pass cfg)))
  /\ (length (rpc_request cfg body) < 1024)%nat.
Proof.
  intros Ha Hu Hp Hl. unfold rpc_request, b64. apply inet_pton_length in Ha.
  set (auth := snprintf 256 _).
  assert (length auth <= 255)%nat as Hauth by (subst auth; unfold snprintf; rewrite length_take; lia).
  assert (b64_length (length auth) <= 340)%nat as Hlen.
  { unfold b64_length. assert ((length auth + 2) / 3 <= 257 / 3)%nat by (apply Nat.Div0.div_le_mono; lia).
    change (257 / 3)%nat with 85%nat in *. lia. }
  destruct (b64_loop_spec (length auth) auth [] 512) as (k & -> & Hk & Hkl); [|lia|cbn [length]; lia|].
  { subst auth. apply Forall_take, Forall_app. split; [done|]. apply Forall_cons. split; [by_compute|done]. }
  cbn [app]. exists (str "POST / HTTP/1.1" ++ crlf ++ str "Host: " ++ rpc_host cfg ++ crlf), k,
    (crlf ++ str "Content-Type: text/plain" ++ crlf ++ str "Content-Length: "
     ++ Decimal.dec (Z.of_nat (length body)) ++ crlf ++ str "Connection: close").
  split; [rewrite <- !app_assoc; reflexivity|]. split; [exact Hk|].
  destruct (Decimal.dec_spec (Z.of_nat (length body)) ltac:(lia)) as (_ & _ & _ & _ & _ & _ & Hd).
  rewrite !length_app. set (d := length (Decimal.dec _)) in *. set (hl := length (rpc_host cfg)) in *.
  cbn [length str crlf String.list_ascii_of_string fmap list_fmap]. lia.
Qed.
Lemma rpc_request_authorised_witness :
  let cfg := Config (str "10.0.0.7") 4001 (Some (str "osprey")) (Some (str "a:b")) 22 true None in
  exists pre text post, rpc_request cfg template_body = pre ++ str "Authorization: Basic " ++ text ++ post ++ crlf ++ crlf
  /\ Spec.unb64 text = Some (take 255 (str "osprey" ++ str ":" ++ str "a:b"))
  /\ (length (rpc_request cfg template_body) < 1024)%nat.
Proof.
  apply (rpc_request_authorised (Config (str "10.0.0.7") 4001 (Some (str "osprey")) (Some (str "a:b")) 22 true None)
    template_body [10; 0; 0; 7]); by_compute || done.
Defined.

(** ** The item's header and the candidates for it *)
Lemma le_bytes_8_split v : le_bytes 8 v = le_bytes 4 v ++ le_bytes 4 (v ≫ 32).
Proof.
  unfold le_bytes. change (seq 0 8) with (seq 0 4 ++ (Nat.add 4 <$> seq 0 4)). rewrite fmap_app. f_equal.
Qed.
Lemma le_bytes_u32 v : le_bytes 4 (u32 v) = le_bytes 4 v.
Proof. rewrite u32_mod. apply (le_bytes_mod 4). Qed.

Lemma stage4_with_nonce h nonce :
  wf_header h -> SiaStratum.put_nonce (WorkItem.Spec.stage4 h) nonce = WorkItem.Spec.stage4 (with_nonce h nonce).
Proof.
  intros Hh. rewrite SiaStratum.put_nonce_slot by apply (array_stage4 h Hh).
  unfold WorkItem.Spec.stage4, with_nonce. cbn [hashPrevBlock nNonce m_nonce2 m_time_offset m_nonce3 update fields].
  assert (forall n m, WorkItem.Spec.stage3 (h <| nNonce := n |> <| m_nonce2 := m |>) = WorkItem.Spec.stage3 h) as ->
    by reflexivity.
  assert (bytes (rev (hashPrevBlock h))) as Hp by apply bytes_rev, Hh.
  rewrite <- (tagged_spec _ _ Hp). set (t := Sha256.tagged_hash _ _).
  assert (length (replicate 6 0 ++ drop 6 t) = 32%nat) as Hl.
  { subst t. by rewrite length_app, length_drop, Sha256.length_tagged_hash. }
  rewrite !(app_assoc (replicate 6 0) (drop 6 t)). set (head := replicate 6 0 ++ drop 6 t) in *.
  rewrite <- Hl at 1. rewrite take_app_length. f_equal.
  rewrite le_bytes_8_split, <- app_assoc, !le_bytes_u32. f_equal; [|f_equal].
  - change (nonce .& 0xffffffff) with (u32 nonce). by rewrite le_bytes_u32.
  - replace 40%nat with (length ((head ++ le_bytes 4 (nNonce h)) ++ le_bytes 4 (m_nonce2 h)))
      by (rewrite !length_app, Hl, !length_le_bytes; done).
    rewrite (app_assoc head), (app_assoc (head ++ _)). by rewrite drop_app_length.
Qed.

Lemma wf_with_nonce h nonce : wf_header h -> wf_header (with_nonce h nonce).
Proof. intros []. constructor; try done; apply u32_word. Qed.

(** The word [gbt_on_candidate] recomputes is the one a core that hashes the item
    reports. *)
Lemma expected_is_reported h nonce :
  wf_header h -> m_flags h .& 3 = 0 ->
  expected_hash_top64 (with_nonce h nonce) = SiaStratum.sia_expected_top64 (WorkItem.Spec.stage4 h) nonce.
Proof.
  intros Hh Hf. unfold expected_hash_top64. rewrite stage_inputs_spec by by apply wf_with_nonce.
  change (m_flags (with_nonce h nonce)) with (m_flags h). rewrite Hf. cbn [Z.eqb].
  unfold SiaStratum.sia_expected_top64. by rewrite stage4_with_nonce.
Qed.

(** ** The template *)
Lemma hex2bin_n_array hex n l : hex2bin_n hex n = Some l -> array n l.
Proof.
  revert hex l. induction n as [|n IH]; intros hex l; cbn [hex2bin_n]; [by intros [= <-]|].
  destruct (scan_2x hex) as [v|]; [|done]. cbn [mbind option_bind].
  destruct (hex2bin_n (drop 2 hex) n) as [r|] eqn:E; [|done]. cbn [mbind option_bind]. intros [= <-].
  apply IH in E as [E1 E2]. split; [cbn; by rewrite E1|]. apply Forall_cons. split; [apply u8_word|done].
Qed.
Lemma signed32_range z : is_word 32 z -> - 2 ^ 31 <= Block.Spec.signed32 z < 2 ^ 31.
Proof.
  intros Hz. unfold Block.Spec.signed32, is_word in *. change (2 ^ 31) with 2147483648 in *.
  change (2 ^ 32) with 4294967296 in *. destruct (Z.ltb_spec z 2147483648); lia.
Qed.

(** The held template as it is after [template_block]: new, or, when an error comes
    after the transactions were read, the old header with the new transactions. *)
Definition held (r : list Z) (h : knots_header) (s s' : solo) (o : option knots_header) : Prop :=
  let n := length (scan_txs TPL_MAX_TX r [] []).1.2 in
  match o with
  | Some h' =>
    let leaves := Coinbase.txid (cb s') :: (scan_txs TPL_MAX_TX r [] []).1.2 in
    h' = h <| hashMerkleRoot := Merkle.Spec.root (fun i => leaves !!! i) (S n) |> <| m_txcount := u16 (Z.of_nat n + 1) |>
    /\ Coinbase.txid (cb s') = Sha256.sha256d (Coinbase.stripped (cb s'))
    /\ (length (Coinbase.raw (cb s')) <= Coinbase.COINBASE_MAX)%nat
    /\ (scan_txs TPL_MAX_TX r [] []).1.1 = true
    /\ hdr s' = h' /\ tpl_valid s' = true
    /\ tx_count s' = n /\ tx_data s' = (scan_txs TPL_MAX_TX r [] []).2
  | None =>
    hdr s' = hdr s /\ tpl_valid s' = tpl_valid s
    /\ ((cb s' = cb s /\ tx_count s' = tx_count s /\ tx_data s' = tx_data s)
        \/ (tx_count s' = n /\ tx_data s' = (scan_txs TPL_MAX_TX r [] []).2))
  end.

(** The header that the fields of the template [r] give. *)
Definition announced (r : list Z) (f : fields_of) (h : knots_header) : Prop :=
  template_fields r = Some f /\ exists pb, hex2bin (prev f) 32 = Some pb
  /\ h = knots_header_init <| nVersion := u32 (tversion f) |> <| nTime := u32 (curtime f) |>
           <| nBits := u32 (strtoul16 (bits f)) |> <| m_height := Block.Spec.signed32 (u32 (height f)) |>
           <| hashPrevBlock := rev pb |>.
(** The coinbase: the reward of [r] at its height, with its commitment, to the address
    whose turn it is. *)
Definition rewards (cfg : config) (r : list Z) (f : fields_of) (tx : Coinbase.coinbase_t) : Prop :=
  exists v c, json_num r (str "coinbasevalue") = Some v /\ 0 < v
  /\ let '(payout, c) := Devfee.devfee_next_payout (cfg_payout cfg) c in
     let wc := default [] (json_str r (str "default_witness_commitment") 256) in
     Coinbase.coinbase_build payout (u64 v) (Block.Spec.signed32 (u32 (height f))) (Devfee.g_total c)
       (if (length wc =? 0)%nat then None else Some wc) = Some (0, tx).

Lemma template_block_spec cfg r f h s :
  exists o s', template_block cfg r f h s = Some (o, s') /\ held r h s s' o
  /\ g_gbt_hdr s' = g_gbt_hdr s /\ (is_Some o -> rewards cfg r f (cb s')).
Proof.
  unfold template_block, held. destruct (json_num r (str "coinbasevalue")) as [v|] eqn:Ev.
  2:{ eexists _, _. split; [done|]. cbn. split_and!; by try left. }
  destruct (Z.leb_spec v 0) as [Hv|Hv]; [eexists _, _; split; [done|]; cbn; split_and!; by try left|].
  set (wc := default [] _). destruct (scan_txs TPL_MAX_TX r [] []) as [[fits ids] data]. cbn [fst snd].
  destruct fits; cbn [negb].
  2:{ eexists _, _. split; [done|]. cbn. split_and!; try done. by right. }
  destruct (Devfee.devfee_next_payout (cfg_payout cfg) _) as [payout c] eqn:Ep.
  set (s1 := s <| tx_count := _ |> <| tx_data := _ |> <| fee := _ |> <| payout_address := _ |>).
  destruct (Coinbase.coinbase_build_total payout (u64 v) (Block.Spec.signed32 (u32 (height f))) (Devfee.g_total c)
    (if (length wc =? 0)%nat then None else Some wc)) as (rc & tx & E & Htx).
  cbv zeta. rewrite E. cbn [mbind option_bind].
  destruct (Z.eqb_spec rc 0) as [Hrc|Hrc]; cbn [negb].
  2:{ eexists _, _. split; [done|]. cbn. split_and!; try done. by right. }
  rewrite Merkle.merkle_root_spec by (cbn [length]; lia). cbn [mbind option_bind].
  eexists _, _. split; [done|]. cbn [cb update solo_fields hdr tpl_valid tx_count tx_data].
  destruct (Htx Hrc) as [-> Hl]. split_and!; try done. intros _. rewrite Hrc in E.
  eexists v, _. split; [exact Ev|]. split; [done|]. by rewrite Ep.
Qed.

Section Properties.
Context {W : Type} `{World W} `{Node W} (cfg : config).

Lemma rpc_call_state body s w :
  exists e, (rpc_call cfg body s w).1.2 = s <| last_error := e |>.
Proof.
  unfold rpc_call. destruct (inet_pton _); [|by eexists]. destruct (converse _ _) as [[r|] w']; [|by exists (last_error s); destruct s].
  case_match; [by eexists|]. by exists (last_error s); destruct s.
Qed.

Lemma get_template_spec s w :
  exists o s' w', get_template cfg s w = Some (o, s', w')
  /\ (exists r h, held r h s s' o /\ (is_Some o -> (rpc_call cfg template_body s w).1.1 = Some r
       /\ exists f, announced r f h /\ rewards cfg r f (cb s')))
  /\ g_gbt_hdr s' = g_gbt_hdr s
  /\ match o with Some h' => wf_header h' /\ m_flags h' = 0 | None => True end.
Proof.
  unfold get_template. destruct (rpc_call_state template_body s w) as [e Es].
  destruct (rpc_call cfg template_body s w) as [[r s1] w1]. cbn [fst snd] in Es. subst s1.
  assert (forall e' x, held x knots_header_init s (s <| last_error := e' |>) None) as Hsame by (intros e' x; cbn; split_and!; by try left).
  destruct r as [r|]; [|do 3 eexists; split; [done|]; split; [eexists [], _; split; [apply (Hsame (str "rpc connect failed"))|by intros []]|done]].
  destruct (template_fields r) as [f|] eqn:Ef;
    [|do 3 eexists; split; [done|]; split; [eexists [], _; split; [apply (Hsame (str "template parse failed"))|by intros []]|done]].
  destruct (hex2bin (prev f) 32) as [pb|] eqn:Ep;
    [|do 3 eexists; split; [done|]; split; [eexists [], _; split; [apply (Hsame (str "prevhash parse failed"))|by intros []]|done]].
  set (h := knots_header_init <| nVersion := _ |> <| nTime := _ |> <| nBits := _ |> <| m_height := _ |> <| hashPrevBlock := _ |>).
  set (s2 := s <| last_error := e |> <| last_template_height := _ |>).
  destruct (template_block_spec cfg r f h s2) as (o & s' & -> & Hheld & Hg & Hpay). cbn [mbind option_bind].
  exists o, s', w1. split; [done|]. split.
  { exists r, h. split; [exact Hheld|]. intros Ho. split; [done|]. exists f. split; [|by apply Hpay].
    split; [done|]. by exists pb. }
  split; [exact Hg|].
  destruct o as [h'|]; [|done]. destruct Hheld as (-> & Htx & _). split; [|done].
  unfold hex2bin in Ep. destruct (negb _); [done|]. apply hex2bin_n_array in Ep as [Ep1 Ep2].
  constructor; cbn [nVersion hashPrevBlock hashMerkleRoot nTime nBits m_height m_txcount update header_fields h
    knots_header_init m_extranonce nNonce m_nonce2 m_nonce3 m_time_offset m_flags m_xor_key_mask_clear_bits m_xor_key m_mm_rhs];
    lazymatch goal with
    | |- is_word 32 (u32 _) => apply u32_word
    | |- is_word 16 (u16 _) => apply u16_word
    | |- array 32 (rev _) => split; [by rewrite length_rev|by apply bytes_rev]
    | |- array 32 (Merkle.Spec.root _ _) =>
      apply Merkle.root_array; cbn [lookup_total list_lookup_total]; rewrite Htx;
      split; [apply Sha256.length_sha256d|apply Sha256.bytes_sha256d]
    | |- _ <= _ < _ => apply signed32_range, u32_word
    | |- _ => by_compute
    end.
Qed.

Lemma synthetic_template_spec counter s w :
  let '(h, s', w') := synthetic_template counter s w in
  wf_header h /\ m_flags h = 0 /\ g_gbt_hdr s' = g_gbt_hdr s.
Proof.
  unfold synthetic_template. destruct (now_s w) as [t w']. split; [|done].
  constructor; cbn [nVersion hashPrevBlock hashMerkleRoot nTime nBits m_height m_extranonce update header_fields
    knots_header_init nNonce m_nonce2 m_nonce3 m_time_offset m_txcount m_flags m_xor_key_mask_clear_bits m_xor_key m_mm_rhs];
    lazymatch goal with
    | |- is_word 32 (u32 _) => apply u32_word
    | |- array 32 (_ <$> _) => split; [done|]; apply Forall_fmap, Forall_true; intros i; apply u8_word
    | |- array 16 (_ ++ _) => split; [done|]; apply Forall_app; split; [|by_compute];
                              apply Forall_fmap, Forall_true; intros i; apply u8_word
    | |- _ => by_compute
    end.
Qed.

(** What [get_work] leaves behind: a context that is the stages of the header kept
    for the candidates, at the configured target; on failure that header is kept. *)
Lemma gbt_build_spec synthetic s w :
  exists o s' w', gbt_build cfg synthetic s w = Some (o, s', w')
  /\ match o with
     | Some ctx =>
       let h := g_gbt_hdr s' in
       wf_header h /\ m_flags h .& 3 = 0
       /\ ctx = WorkCtx (WorkItem.Spec.stage3 h) (WorkItem.Spec.stage4 h)
                  (target_top64_from_bits (nBits h) (target_shift cfg)) true
     | None => g_gbt_hdr s' = g_gbt_hdr s
     end.
Proof.
  unfold gbt_build. destruct (now_s w) as [t w0].
  assert (exists o s1 w1, (if synthetic then let '(h, s, w) := synthetic_template t s w0 in Some (Some h, s, w)
      else get_template cfg s w0) = Some (o, s1, w1) /\ g_gbt_hdr s1 = g_gbt_hdr s
      /\ match o with Some h => wf_header h /\ m_flags h = 0 | None => True end) as (o & s1 & w1 & -> & Hg & Ho).
  { destruct synthetic.
    - pose proof (synthetic_template_spec t s w0) as Hs. destruct (synthetic_template t s w0) as [[h s1] w1].
      destruct Hs as (Hh & Hf & Hg). by exists (Some h), s1, w1.
    - destruct (get_template_spec s w0) as (o & s1 & w1 & E & _ & Hg & Ho). by exists o, s1, w1. }
  cbn [mbind option_bind]. destruct o as [h|]; [|by eexists _, _, _]. destruct Ho as [Hh Hf].
  set (h1 := h <| m_extranonce := _ |>).
  assert (wf_header h1) as Hh1.
  { pose proof (wf_extranonce h Hh) as [El Eb]. destruct Hh. constructor; try done.
    cbn [h1 m_extranonce update header_fields]. split; [by rewrite !length_insert|].
    by repeat (apply bytes_insert; [apply u8_word|]). }
  rewrite stage_inputs_spec by done. change (m_flags h1) with (m_flags h). rewrite Hf. cbn [Z.land Z.eqb].
  eexists _, _, _. split; [done|]. cbn [g_gbt_hdr update solo_fields]. split; [done|].
  change (m_flags h1) with (m_flags h). by rewrite Hf.
Qed.

Lemma scan_txs_bounds room p ids data :
  Z.of_nat (length data) <= TX_DATA_MAX ->
  let '(_, ids', data') := scan_txs room p ids data in
  (length ids' <= length ids + room)%nat /\ Z.of_nat (length data') <= TX_DATA_MAX.
Proof.
  revert p ids data. induction room as [|room IH]; intros p ids data Hd; cbn [scan_txs]; [lia|].
  destruct (strstr p _) as [tx|]; [|lia]. destruct (hex2bin_n (drop 8 tx) 32) as [disp|]; [|lia].
  destruct (strstr p _) as [dt|]; [|lia]. destruct (strchr _ _) as [e|]; [|lia].
  set (n := (_ / 2)%nat). destruct (Z.ltb_spec TX_DATA_MAX (Z.of_nat (length data + n))); [lia|].
  destruct (hex2bin_n (drop 8 dt) n) as [b|] eqn:E; [|lia]. apply hex2bin_n_array in E as [E _].
  specialize (IH (if (length (drop 8 tx) <? length (drop 8 dt))%nat then drop 8 tx else drop 8 dt)
    (ids ++ [rev disp]) (data ++ b)).
  destruct (scan_txs _ _ _ _) as [[fits ids'] data']. rewrite !length_app, E in IH. cbn [length] in IH. lia.
Qed.

(** C13: A template that is accepted is a block that can be won. [get_template]
    always returns. When it succeeds, the header it hands out commits, by its Merkle
    root and transaction count, to the coinbase it built and to the transactions it
    read; and for any nonce found later [submit_block] offers the node a block whose
    bytes, read as a node reads them, are that header with the nonce, the count, and
    exactly the coinbase and those transactions. When it fails, the header held for
    submission stays valid, but the transactions held with it may be those of the
    new template. *)
Theorem template_makes_block s w :
  exists o s1 w1, get_template cfg s w = Some (o, s1, w1) /\
  match o with
  | Some h =>
    exists r, (rpc_call cfg template_body s w).1.1 = Some r /\
    let '(_, ids, data) := scan_txs TPL_MAX_TX r [] [] in
    let leaves := Coinbase.txid (cb s1) :: ids in
    Coinbase.txid (cb s1) = Sha256.sha256d (Coinbase.stripped (cb s1))
    /\ hashMerkleRoot h = Merkle.Spec.root (fun i => leaves !!! i) (S (length ids))
    /\ m_txcount h = Z.of_nat (length ids) + 1
    /\ forall nonce w2, exists blk,
       submit_block cfg (with_nonce h nonce) s1 w2
       = (let '(answer, s2, w3) := rpc_call cfg (submit_body blk) (s1 <| blocks_submitted := u64 (blocks_submitted s1 + 1) |>) w2 in
          judge answer s2 w3)
       /\ Block.Spec.block_of blk
         = Some (Block.with_version (with_nonce h nonce), Z.of_nat (length ids) + 1, Coinbase.raw (cb s1) ++ data)
  | None =>
    hdr s1 = hdr s /\ tpl_valid s1 = tpl_valid s
    /\ ((tx_count s1, tx_data s1) = (tx_count s, tx_data s)
        \/ exists r, (tx_count s1, tx_data s1)
             = (length (scan_txs TPL_MAX_TX r [] []).1.2, (scan_txs TPL_MAX_TX r [] []).2))
  end.
Proof.
  destruct (get_template_spec s w) as (o & s1 & w1 & E & (r & h0 & Hh & Hr) & _ & Hw). exists o, s1, w1. split; [done|].
  destruct o as [h|].
  2:{ destruct Hh as (H1 & H2 & H3). split_and!; [done..|]. destruct H3 as [(_ & -> & ->)|[-> ->]]; [by left|].
      right. by exists r. }
  pose proof (scan_txs_bounds TPL_MAX_TX r [] [] ltac:(done)) as Hb. unfold held in Hh. exists r.
  split; [by apply Hr|]. clear Hr.
  destruct (scan_txs TPL_MAX_TX r [] []) as [[fits ids] data]. cbn [fst snd length] in *.
  destruct Hh as (-> & Htx & Hraw & _ & Hhdr & Hv & Hn & Hd). destruct Hb as [Hb1 Hb2], Hw as [Hw _].
  assert (Z.of_nat (length ids) <= 8192) as Hlen by (unfold TPL_MAX_TX in Hb1; lia).
  set (h := h0 <| hashMerkleRoot := _ |> <| m_txcount := _ |>) in *.
  split_and!; [done|done|apply u16_small; unfold is_word; change (2 ^ 16) with 65536; lia|].
  intros nonce w2. unfold submit_block. rewrite Hv, Hn, Hd. cbn [negb].
  pose proof (Block.block_serialize_reads (with_nonce h nonce) (Coinbase.raw (cb s1)) data (Z.of_nat (length ids)) BLOCK_MAX
    (wf_with_nonce h nonce Hw) ltac:(change (2 ^ 32) with 4294967296; lia)) as Hs.
  destruct (Nat.ltb_spec BLOCK_MAX (164 + 9 + length (Coinbase.raw (cb s1)) + length data)) as [Hlt|_].
  - exfalso. unfold BLOCK_MAX, TX_DATA_MAX, Coinbase.COINBASE_MAX in *. lia.
  - destruct Hs as (blk & -> & _ & Hblk). by exists blk.
Qed.

(** C29: Candidates for solo work. Whatever [get_work] hands to the mining loop, a
    core that hashes the stage 4 message of the item and reports as the Knots core
    does is believed, for every nonce; any other word is rejected as bad and changes
    nothing. A believed candidate is a solution exactly when the header's
    proof-of-work hash, by the reference hash functions, meets the network target
    of the header; a block is offered to the node only then, and only when
    submission is enabled and the target is not inflated. *)
Theorem gbt_candidates synthetic s w :
  exists o s1 w1, gbt_build cfg synthetic s w = Some (o, s1, w1) /\
  match o with
  | None => g_gbt_hdr s1 = g_gbt_hdr s
  | Some ctx =>
    forall nonce word s2 w2, g_gbt_hdr s2 = g_gbt_hdr s1 ->
    let c := with_nonce (g_gbt_hdr s1) nonce in
    let met := hash_meets_target (WorkItem.Spec.pow_hash c) (compact_to_target_shifted (nBits c) BLAKE2B_TARGET_SHIFT_MAINNET) in
    gbt_on_candidate cfg nonce word s2 w2 =
      if negb (word =? SiaStratum.sia_expected_top64 (ss4 ctx) nonce) then (WORKSRC_CAND_BAD, s2, w2)
      else if negb met then (WORKSRC_CAND_OK, s2, w2)
      else if negb (dry_run cfg) && (target_shift cfg =? BLAKE2B_TARGET_SHIFT_MAINNET)
      then let '(_, s3, w3) := submit_block cfg c s2 w2 in (WORKSRC_CAND_SOLUTION, s3, w3)
      else (WORKSRC_CAND_SOLUTION, s2, w2)
  end.
Proof.
  destruct (gbt_build_spec synthetic s w) as (o & s1 & w1 & E & Ho). exists o, s1, w1. split; [done|].
  destruct o as [ctx|]; [|done]. destruct Ho as (Hh & Hf & ->). cbn [ss4]. intros nonce word s2 w2 Hg.
  unfold gbt_on_candidate. rewrite Hg, expected_is_reported, (Z.eqb_sym word) by done.
  destruct (negb (_ =? word)); [done|].
  rewrite get_pow_hash_spec by by apply wf_with_nonce.
  change (m_flags (with_nonce (g_gbt_hdr s1) nonce)) with (m_flags (g_gbt_hdr s1)). rewrite Hf. cbn [Z.eqb].
  destruct (negb (hash_meets_target _ _)); [done|]. destruct (negb (dry_run cfg) && _); [|done].
  by destruct (submit_block _ _ _ _) as [[v s3] w3].
Qed.
End Properties.

(** ** Reading the transactions of a template *)
Lemma hex_digits x :
  is_byte x ->
  let c := str "0123456789abcdef" !!! Z.to_nat (x ≫ 4) in
  let d := str "0123456789abcdef" !!! Z.to_nat (x .& 15) in
  Cdouble.is_space c = false /\ c <> 45 /\ c <> 43 /\ c <> 34 /\ d <> 34
  /\ exists h l, Cdouble.digit 16 c = Some h /\ Cdouble.digit 16 d = Some l /\ 16 * h + l = x.
Proof.
  intros Hx. unfold is_word in Hx. change (2 ^ 8) with 256 in Hx. cbv zeta.
  set (ok := fun x => let c := str "0123456789abcdef" !!! Z.to_nat (x ≫ 4) in
    let d := str "0123456789abcdef" !!! Z.to_nat (x .& 15) in
    negb (Cdouble.is_space c) && negb (c =? 45) && negb (c =? 43) && negb (c =? 34) && negb (d =? 34) &&
    match Cdouble.digit 16 c, Cdouble.digit 16 d with Some h, Some l => 16 * h + l =? x | _, _ => false end).
  assert (forallb ok (Z.of_nat <$> seq 0 256) = true) as H by by vm_compute.
  rewrite forallb_forall in H. specialize (H x). unfold ok in H. cbv zeta in H. rewrite !andb_true_iff in H.
  destruct H as [[[[[H1%negb_true_iff H2%negb_true_iff%Z.eqb_neq] H3%negb_true_iff%Z.eqb_neq]
    H4%negb_true_iff%Z.eqb_neq] H5%negb_true_iff%Z.eqb_neq] H6].
  { apply List.in_map_iff. exists (Z.to_nat x). split; [lia|]. apply in_seq. lia. }
  split_and!; try done. destruct (Cdouble.digit 16 _) as [h|]; [|done]. destruct (Cdouble.digit 16 _) as [l|]; [|done].
  exists h, l. by apply Z.eqb_eq in H6.
Qed.
Lemma hex2bin_n_print b rest : bytes b -> hex2bin_n (Json.bin2hex b ++ rest) (length b) = Some b.
Proof.
  intros Hb. induction Hb as [|x b Hx Hb IH]; [done|].
  rewrite Json.bin2hex_cons. destruct (hex_digits x Hx) as (H1 & H2 & H3 & _ & _ & h & l & H4 & H5 & H6).
  cbn [length hex2bin_n app drop].
  assert (forall q, scan_2x (str "0123456789abcdef" !!! Z.to_nat (x ≫ 4) :: str "0123456789abcdef" !!! Z.to_nat (x .& 15) :: q) = Some x) as ->.
  { intros q. unfold scan_2x. cbn [Cdouble.skip_space]. rewrite H1.
    rewrite (proj2 (Z.eqb_neq _ _) H2), (proj2 (Z.eqb_neq _ _) H3). cbn [orb].
    rewrite H4, H5. cbn [mbind option_bind]. by rewrite H6. }
  cbn [mbind option_bind]. rewrite drop_0, IH. cbn [mbind option_bind]. by rewrite u8_small.
Qed.
Lemma bin2hex_no_quote b : bytes b -> Forall (fun c => c <> 34) (Json.bin2hex b).
Proof.
  induction 1 as [|x b Hx Hb IH]; [done|]. rewrite Json.bin2hex_cons.
  destruct (hex_digits x Hx) as (_ & _ & _ & H1 & H2 & _). by repeat (apply Forall_cons; split; [done|]).
Qed.

(** Searching past what cannot start the pattern. *)
Lemma strstr_skip pat a b :
  Forall (fun c => c <> 34) a -> strstr (a ++ b) (34 :: pat) = strstr b (34 :: pat).
Proof.
  induction 1 as [|c a Hc Ha IH]; [done|]. cbn [app strstr]. unfold starts_with.
  rewrite bool_decide_eq_false_2; [exact IH|]. cbn [length take]. congruence.
Qed.
Lemma strstr_quote pat c d b : c <> d -> strstr (34 :: c :: b) (34 :: d :: pat) = strstr (c :: b) (34 :: d :: pat).
Proof.
  intros Hc. cbn [strstr]. unfold starts_with. rewrite bool_decide_eq_false_2; [done|]. cbn [length take]. congruence.
Qed.
(** A separator that is not in the pattern stops it. *)
Lemma strstr_separated pat a c b :
  pat <> [] -> Forall (fun x => x <> c) pat -> strstr a pat = None -> strstr (a ++ c :: b) pat = strstr b pat.
Proof.
  intros Hne Hc. assert (forall a b, starts_with pat (a ++ c :: b) = true -> starts_with pat a = true) as Hs.
  { clear -Hc. unfold starts_with. intros a b H%bool_decide_eq_true. apply bool_decide_eq_true.
    destruct (Nat.le_gt_cases (length pat) (length a)) as [Hl|Hl].
    - by rewrite take_app_le in H by done.
    - exfalso. rewrite take_app_ge in H by lia. destruct (length pat - length a)%nat eqn:E; [lia|].
      cbn [take] in H. rewrite Forall_forall in Hc. apply (Hc c); [|done]. rewrite <- H.
      apply elem_of_app. right. by left. }
  induction a as [|x a IH]; cbn [app strstr]; intros Hn.
  - destruct (starts_with pat (c :: b)) eqn:E; [|done]. apply (Hs [] b) in E. by rewrite E in Hn.
  - destruct (starts_with pat (x :: a)) eqn:E; [done|].
    destruct (starts_with pat (x :: a ++ c :: b)) eqn:E'; [apply (Hs (x :: a) b) in E'; congruence|].
    by apply IH.
Qed.
Lemma strstr_here pat b : strstr (pat ++ b) pat = Some (pat ++ b).
Proof.
  assert (starts_with pat (pat ++ b) = true) as H by (apply bool_decide_eq_true_2; by rewrite take_app_length).
  destruct (pat ++ b); cbn [strstr]; by rewrite H.
Qed.
Lemma strchr_skip a b : Forall (fun c => c <> 34) a -> strchr (a ++ 34 :: b) 34 = Some (34 :: b).
Proof. induction 1 as [|c a Hc Ha IH]; [done|]. cbn [app strchr]. by rewrite (proj2 (Z.eqb_neq _ _) Hc). Qed.

Definition txid_key : list Z := dq "'txid':'".
Definition data_key : list Z := dq "'data':'".
(** No transaction's fields are in a piece of text. *)
Definition free (t : list Z) : Prop := strstr t txid_key = None /\ strstr t data_key = None.

(** One entry of the array, as nodes print it: the data, the id in display order,
    and fields that are not among these. *)
Record entry := Entry { tx : list Z; id : list Z; others : list Z }.
Definition entry_text (e : entry) : list Z :=
  [123] ++ data_key ++ Json.bin2hex (tx e) ++ [34; 44] ++ txid_key ++ Json.bin2hex (rev (id e))
  ++ [34] ++ others e ++ [125].
Definition wf_entry (e : entry) : Prop := bytes (tx e) /\ array 32 (id e) /\ free ([34] ++ others e).

Fixpoint array_text (es : list entry) (post : list Z) : list Z :=
  match es with
  | [] => post
  | e :: es => entry_text e ++ (match es with [] => 93 | _ => 44 end) :: array_text es post
  end.

(** A character of neither key. *)
Definition separator (c : Z) : Prop := Forall (fun x => x <> c) (txid_key ++ data_key).
#[global] Instance separator_dec c : Decision (separator c).
Proof. unfold separator. apply _. Defined.
Lemma free_app a c b :
  free a -> separator c ->
  strstr (a ++ c :: b) txid_key = strstr b txid_key /\ strstr (a ++ c :: b) data_key = strstr b data_key.
Proof. intros [H1 H2] [S1 S2]%Forall_app. by split; apply strstr_separated. Qed.
Lemma free_snoc a c : free a -> separator c -> free (a ++ [c]).
Proof. intros Ha Hc. destruct (free_app a c [] Ha Hc) as [H1 H2]. by split; rewrite ?H1, ?H2. Qed.
Lemma free_hex b a : bytes b -> free a -> free (Json.bin2hex b ++ a).
Proof.
  intros Hb [H1 H2]. apply bin2hex_no_quote in Hb. split.
  - change txid_key with (34 :: drop 1 txid_key) in *. by rewrite strstr_skip.
  - change data_key with (34 :: drop 1 data_key) in *. by rewrite strstr_skip.
Qed.

(** The id is found behind the data. *)
Lemma find_txid b rest :
  bytes b -> strstr (data_key ++ Json.bin2hex b ++ [34; 44] ++ txid_key ++ rest) txid_key = Some (txid_key ++ rest).
Proof.
  intros Hb. pose proof (bin2hex_no_quote b Hb) as Hq.
  assert (forall y, exists c q, Json.bin2hex b ++ 34 :: y = c :: q /\ c <> 116) as E.
  { intros y. destruct Hb as [|x b Hx Hb]; [by eexists _, _|]. rewrite Json.bin2hex_cons. eexists _, _. split; [done|].
    destruct (hex_digits x Hx) as (_ & _ & _ & _ & _ & h & l & H4 & _). intros E. by rewrite E in H4. }
  set (k := drop 2 txid_key). change txid_key with (34 :: 116 :: k).
  change (data_key ++ ?x) with (34 :: 100 :: 97 :: 116 :: 97 :: 34 :: 58 :: 34 :: x). cbn [app].
  set (y := 44 :: 34 :: 116 :: k ++ rest). destruct (E y) as (c & q & Ey & Hc).
  assert (forall c x, c <> 34 -> strstr (c :: x) (34 :: 116 :: k) = strstr x (34 :: 116 :: k)) as Hskip.
  { intros c' x Hc'. apply (strstr_skip (116 :: k) [c']). by apply Forall_singleton. }
  rewrite strstr_quote, !Hskip by done. rewrite strstr_quote, Hskip by done.
  rewrite Ey, strstr_quote by done. rewrite <- Ey, strstr_skip by done.
  subst y. rewrite strstr_quote, Hskip by done. apply (strstr_here (34 :: 116 :: k)).
Qed.

(** The contents of the array. *)
Lemma scan_entries es pre c post room ids data :
  free pre -> separator c -> Forall wf_entry es -> (length es <= room)%nat -> strstr post txid_key = None ->
  Z.of_nat (length data + length (concat (tx <$> es))) <= TX_DATA_MAX ->
  scan_txs room (pre ++ c :: array_text es post) ids data = (true, ids ++ (id <$> es), data ++ concat (tx <$> es)).
Proof.
  intros Hf Hc He. revert pre c room ids data Hf Hc.
  induction He as [|e es (Hb & [Hl Hi] & Ho) He IH]; intros pre c room ids data Hf Hc Hr Hp Hd.
  { cbn [fmap list_fmap concat array_text]. rewrite !app_nil_r. destruct room as [|room]; [done|]. cbn [scan_txs].
    fold txid_key. by rewrite (proj1 (free_app pre c post Hf Hc)), Hp. }
  destruct room as [|room]; [cbn in Hr; lia|]. cbn [scan_txs array_text]. fold txid_key data_key.
  set (sep := match es with [] => 93 | _ => 44 end). set (more := array_text es post) in *.
  assert (separator sep) as Hsep by (subst sep; destruct es; by_compute).
  set (pre' := Json.bin2hex (rev (id e)) ++ [34] ++ others e ++ [125]).
  set (X := pre' ++ sep :: more). set (Y := [34; 44] ++ txid_key ++ X).
  assert (pre ++ c :: entry_text e ++ sep :: more = (pre ++ [c]) ++ 123 :: data_key ++ Json.bin2hex (tx e) ++ Y) as ->.
  { unfold entry_text. subst Y X pre'. by rewrite <- !app_assoc. }
  destruct (free_app (pre ++ [c]) 123 (data_key ++ Json.bin2hex (tx e) ++ Y)) as [-> ->];
    [by apply free_snoc|by_compute|].
  subst Y. rewrite find_txid, strstr_here by done.
  change (drop 8 (txid_key ++ X)) with X. set (Y := 34 :: 44 :: txid_key ++ X).
  change (drop 8 (data_key ++ Json.bin2hex (tx e) ++ [34; 44] ++ txid_key ++ X)) with (Json.bin2hex (tx e) ++ Y).
  assert (hex2bin_n X 32 = Some (rev (id e))) as ->.
  { subst X pre'. rewrite <- !app_assoc, <- Hl, <- (length_rev (id e)). apply hex2bin_n_print. by apply bytes_rev. }
  assert (strchr (Json.bin2hex (tx e) ++ Y) 34 = Some Y) as -> by by apply strchr_skip, bin2hex_no_quote.
  assert ((length (Json.bin2hex (tx e) ++ Y) - length Y) / 2 = length (tx e))%nat as ->.
  { rewrite length_app, Json.length_bin2hex, Nat.add_sub, Nat.mul_comm. by apply Nat.div_mul. }
  cbn [fmap list_fmap concat] in Hd. rewrite length_app in Hd.
  rewrite (proj2 (Z.ltb_ge _ _)) by lia. rewrite hex2bin_n_print by done.
  rewrite (proj2 (Nat.ltb_lt _ _)) by (subst Y; rewrite length_app; cbn [length]; rewrite length_app; lia).
  rewrite rev_involutive. subst X. rewrite IH; try done.
  - cbn [fmap list_fmap concat]. by rewrite <- !app_assoc.
  - subst pre'. apply free_hex; [by apply bytes_rev|]. rewrite (app_assoc [34]). apply free_snoc; [done|by_compute].
  - cbn in Hr. lia.
  - rewrite length_app. lia.
Qed.

(** C30: The search for "txid" and "data" reads the array of transactions. In any
    template whose text has these keys, in this spelling, only in the entries of the
    array, data before id as nodes print them, the scan collects every entry's id
    in internal byte order and all the raw transactions in the order of the array,
    for up to 8192 transactions of up to 4 MiB together. *)
Theorem scan_reads_transactions pre es post :
  free pre -> Forall wf_entry es -> strstr post txid_key = None ->
  (length es <= TPL_MAX_TX)%nat -> Z.of_nat (length (concat (tx <$> es))) <= TX_DATA_MAX ->
  scan_txs TPL_MAX_TX (pre ++ str "[" ++ array_text es post) [] [] = (true, id <$> es, concat (tx <$> es)).
Proof.
  intros Hf He Hp Hr Hd. apply (scan_entries es pre 91 post TPL_MAX_TX [] []); try done. by_compute.
Qed.
Definition two_entries : list entry :=
  [Entry [1; 2; 3] (seqZ 0 32) (dq ",'hash':'aa','fee':10"); Entry [] (seqZ 7 32) (dq ",'depends':[1]")].
Lemma scan_reads_transactions_witness :
  scan_txs TPL_MAX_TX (dq "{'result':{'version':1,'transactions':" ++ str "["
    ++ array_text two_entries (dq ",'coinbasevalue':5}")) [] []
  = (true, id <$> two_entries, concat (tx <$> two_entries)).
Proof.
  apply (scan_reads_transactions (dq "{'result':{'version':1,'transactions':") two_entries (dq ",'coinbasevalue':5}"));
    [split; reflexivity| |reflexivity|unfold TPL_MAX_TX; cbn; lia|unfold TX_DATA_MAX; cbn; lia].
  repeat constructor; by_compute || reflexivity.
Defined.

(** ** A refresh that fails

    A node whose second template is refused for its witness commitment, after its
    transactions were read. *)
Module Script.
Definition script : Type := list (list Z).
#[global] Instance script_node : Node script := fun _ answers =>
  match answers with a :: answers => (Some a, answers) | [] => (None, []) end.
End Script.
Definition template (es : list entry) (commitment : list Z) : list Z :=
  dq "{'result':{'version':536870912,'previousblockhash':'" ++ Json.bin2hex (seqZ 0 32)
  ++ dq "','transactions':" ++ str "[" ++ array_text es (dq ",'coinbasevalue':312500000,'height':969859,'curtime':1700000000,"
    ++ dq "'bits':'1903c2d4','default_witness_commitment':'" ++ commitment ++ dq "'}}").
Definition solo_config : config := Config (str "10.0.0.7") 4001 None None 22 false None.
Definition fresh : solo :=
  Solo knots_header_init Coinbase.blank 0 [] false knots_header_init Devfee.devfee_reset 0 [] [] 0 0 [] [].

(** The header still held commits to one transaction and the coinbase; the block
    that would be submitted for it carries two and the coinbase. *)
Example failed_refresh_spoils_block :
  match get_template solo_config fresh [template (take 1 two_entries) (str "6a24aa21a9ed"); template two_entries (str "zz")] with
  | Some (Some h, s, w) =>
    match get_template solo_config s w with
    | Some (None, s', _) =>
      bool_decide (hashMerkleRoot (hdr s') = hashMerkleRoot h) && tpl_valid s' && (m_txcount (hdr s') =? 2)
      && match Block.block_serialize (with_nonce h 5) (Coinbase.raw (cb s')) (tx_data s') (Z.of_nat (tx_count s')) 1000 with
         | Some blk => match Block.Spec.block_of blk with Some (_, n, _) => n =? 3 | None => false end
         | None => false
         end
    | _ => false
    end
  | _ => false
  end = true.
Proof. vm_compute. reflexivity. Qed.

(** ** The self-test of the hash functions and the target *)
Definition sha_abc : list Z :=
  [0xba; 0x78; 0x16; 0xbf; 0x8f; 0x01; 0xcf; 0xea; 0x41; 0x41; 0x40; 0xde; 0x5d; 0xae; 0x22; 0x23;
   0xb0; 0x03; 0x61; 0xa3; 0x96; 0x17; 0x7a; 0x9c; 0xb4; 0x10; 0xff; 0x61; 0xf2; 0x00; 0x15; 0xad].
Definition b2_abc : list Z :=
  [0xba; 0x80; 0xa5; 0x3f; 0x98; 0x1c; 0x4d; 0x0d; 0x6a; 0x27; 0x97; 0xb6; 0x9f; 0x12; 0xf6; 0xe9;
   0x4c; 0x21; 0x2f; 0x14; 0x68; 0x5a; 0xc4; 0xb7; 0x4b; 0x12; 0xbb; 0x6f; 0xdb; 0xff; 0xa2; 0xd1;
   0x7d; 0x87; 0xc5; 0x39; 0x2a; 0xab; 0x79; 0x2d; 0xc2; 0x52; 0xd5; 0xde; 0x45; 0x33; 0xcc; 0x95;
   0x18; 0xd3; 0x8a; 0xa8; 0xdb; 0xf1; 0x92; 0x5a; 0xb9; 0x23; 0x86; 0xed; 0xd4; 0x00; 0x99; 0x23].
Definition selftest_vectors (shift : Z) : Z :=
  let h := knots_header_init <| nBits := 0x1903c2d4 |> <| m_height := 969859 |> in
  let ok :=
    bool_decide (Sha256.sha256 (str "abc") = sha_abc)
    && bool_decide (Blake2b.blake2b_nokey (str "abc") 64 = b2_abc)
    && (if build_work_item h (target_top64_from_bits (nBits h) shift) is inr _ then true else false)
    && (if get_pow_hash h is inr _ then true else false)
    && (target_top64_from_bits 0x1903c2d4 22 =? 0x0000000000f0b500) in
  if ok then 0 else -1.
Example selftest_vectors_passes : selftest_vectors BLAKE2B_TARGET_SHIFT_MAINNET = 0.
Proof. vm_compute. reflexivity. Qed.
End Gbt.
