(* ===== verification/Mining.v ===== *)
(** * The mining loop and the calibration (src/miner/miner.c: selftest_uart,
      selftest_rxdump, selftest_loopback, loopback_verify, main from the mining loop on)

    One pass of the loop over a work source, the driver and the framing; a source is
    a record of functions on a state of its own. Loops of the driver carry fuel. *)
From S2P Require Import Prelude Sha256 Blake2b WorkItem Worksrc Decimal Json Uart Framing Gbt.

Module Mining.
Import WorkItem Worksrc Uart Framing.
Local Open Scope word_scope.

Definition TX_TIMEOUT_US : Z := 200000.
Definition QUIET_IDLE_US : Z := 2000.
Definition QUIET_WAIT_US : Z := 500000.
Definition NONCE_GUARD : Z := 256.

(** ** The counters of [st] the loop writes *)
Record stats := Stats {
  items_sent : Z;
  frames_ok : Z;
  frames_bad : Z;
  candidates_verified : Z;
  nonce_offset : Z;              (* long *)
  framing : framing_stats;
  last_frame_at : Z;
  last_nonce : list Z;
  last_hash : list Z;
  last_error : list Z
}.
#[export] Instance stats_fields : Fields stats := fun s =>
  Stats (items_sent s) (frames_ok s) (frames_bad s) (candidates_verified s) (nonce_offset s) (framing s)
    (last_frame_at s) (last_nonce s) (last_hash s) (last_error s).
(** [%016llx] *)
Definition hex64 (v : Z) : list Z := Json.bin2hex (be_bytes 8 v).

(** ** A work source: the callbacks of [worksrc_t] on a state [S] *)
Record callbacks (S W : Type) := Callbacks {
  get_work : S -> W -> option work_ctx * S * W;
  poll : option (Z -> S -> W -> S * W);
  on_candidate : work_ctx -> Z -> Z -> S -> W -> Z * S * W
}.
Arguments Callbacks {S W}.
Arguments get_work {S W}.
Arguments poll {S W}.
Arguments on_candidate {S W}.

(** The locals of the loop; [frame] holds the [got] bytes assembled so far, [syncbuf]
    the [synclen] bytes to replay. *)
Record loop (S : Type) := Loop {
  ctx : work_ctx;
  frame : list Z;
  syncbuf : list Z;
  syncpos : nat;
  synced : bool;
  bad_run : Z;
  last_template : Z;
  last_status : Z;
  have_work : bool;
  dev : uio_uart;
  st : stats;
  src : S
}.
Arguments Loop {S}.
Arguments ctx {S}.
Arguments frame {S}.
Arguments syncbuf {S}.
Arguments syncpos {S}.
Arguments synced {S}.
Arguments bad_run {S}.
Arguments last_template {S}.
Arguments last_status {S}.
Arguments have_work {S}.
Arguments dev {S}.
Arguments st {S}.
Arguments src {S}.
#[export] Instance loop_fields {S} : Fields (loop S) := fun l =>
  Loop (ctx l) (frame l) (syncbuf l) (syncpos l) (synced l) (bad_run l) (last_template l) (last_status l)
    (have_work l) (dev l) (st l) (src l).

Section Loop.
Context {S W : Type} `{World W} (source : @worksrc (callbacks S W)).
(** The word of the chain for the error text. *)
Context (word_name : list Z).

(** A complete frame. *)
Definition on_frame (f : list Z) (l : loop S) (w : W) : loop S * W :=
  let '(rc, r) := parse_result f in
  if negb (rc =? 0) then
    let s := (st l) <| frames_bad := u64 (frames_bad (st l) + 1) |> in
    if 3 <=? bad_run l + 1
    then (l <| st := s |> <| synced := false |> <| bad_run := 0 |> <| frame := [] |>, w)
    else (l <| st := s |> <| bad_run := bad_run l + 1 |>, w)
  else
    let '(t, w) := now_s w in
    let cand := u64 (nonce r + u64 (nonce_offset (st l))) in
    let s := (st l) <| frames_ok := u64 (frames_ok (st l) + 1) |> <| last_frame_at := t |>
               <| last_nonce := hex64 cand |> <| last_hash := hex64 (hash_top64 r) |> in
    let '(verdict, x, w) := on_candidate (ops source) (ctx l) cand (hash_top64 r) (src l) w in
    let s := if verdict =? WORKSRC_CAND_BAD
             then s <| frames_bad := u64 (frames_bad s + 1) |>
                    <| last_error := str "hash_top64 mismatch (prefilter word is " ++ word_name ++ str ")" |>
             else s <| candidates_verified := u64 (candidates_verified s + 1) |> in
    (l <| bad_run := 0 |> <| st := s |> <| src := x |>, w).

(** One byte into the assembler. *)
Definition feed (b : Z) (l : loop S) (w : W) : loop S * W :=
  let f := frame l ++ [b] in
  if (length f =? RESULT_LEN)%nat then on_frame f (l <| frame := [] |>) w
  else (l <| frame := f |>, w).

(** The drain: the replayed bytes first, then the receive FIFO until it is empty. *)
Fixpoint drain (fuel : nat) (l : loop S) (w : W) : res (loop S * W) :=
  match fuel with
  | O => NoFuel
  | Datatypes.S fuel =>
    if negb (synced l) then Ok (l, w)
    else if (syncpos l <? length (syncbuf l))%nat then
      let '(l, w) := feed (syncbuf l !!! syncpos l) (l <| syncpos := (syncpos l + 1)%nat |>) w in
      drain fuel l w
    else
      let '(b, u, w) := uart_get_nb (dev l) w in
      let l := l <| dev := u |> in
      match b with
      | None => Ok (l, w)
      | Some b => let '(l, w) := feed b l w in drain fuel l w
      end
  end.

(** Fresh work on the wire. *)
Definition push_work (fuel : nat) (next : work_ctx) (item : list Z) (l : loop S) (w : W) : res (loop S * W) :=
  '(_, u, w) ← fuelled (uart_wait_quiet fuel (dev l) QUIET_IDLE_US QUIET_WAIT_US w);
  '(ok, u, w) ← fuelled (uart_write fuel u item TX_TIMEOUT_US w);
  let l := l <| dev := u |> in
  if ok : bool then
    '(_, w) ← fuelled (uart_drain_tx fuel 500000 w);
    Ok (l <| ctx := next |> <| st := (st l) <| items_sent := u64 (items_sent (st l) + 1) |> |>
          <| have_work := true |> <| frame := [] |> <| synced := false |>, w)
  else Ok (l <| st := (st l) <| last_error := str "TX stalled pushing work" |> |>, w).

(** The refresh at time [t]; [true] for the [continue] of a source whose item has no
    layout. *)
Definition refresh (fuel : nat) (t : Z) (l : loop S) (w : W) : res (bool * loop S * W) :=
  if negb (have_work l) || (refresh_s source <=? u64 (t - last_template l)) then
    let '(next, x, w) := get_work (ops source) (src l) w in
    let l := l <| src := x |> in
    match next with
    | Some next =>
      let '(out, ilen) := worksrc_pack_item next (item_len source) in
      if (ilen =? 0)%nat then
        Ok (true, l <| st := (st l) <| last_error := take 191 (str "work source "
                      ++ default [] (name source) ++ str " asked for a " ++ Decimal.dec (Z.of_nat (item_len source))
                      ++ str "-byte item, which has no layout") |> |>
                    <| last_template := t |>, w)
      else
        '(l, w) ← push_work fuel next (take ilen out) l w;
        Ok (false, l <| last_template := t |>, w)
    | None => Ok (false, l <| last_template := t |>, w)
    end
  else Ok (false, l, w).

(** Framing, when there is work and no alignment. The buffer has room for eight
    frames. *)
Definition resync (fuel : nat) (l : loop S) (w : W) : res (loop S * W) :=
  if negb (synced l) && have_work l then
    '(rc, out, u, f, w) ← frame_sync fuel (dev l) 1 (Some (RESULT_LEN * 8)%nat) true (framing (st l)) w;
    let l := l <| dev := u |> <| st := (st l) <| framing := f |> |> <| frame := [] |> in
    if rc =? 0 then
      Ok (l <| synced := true |> <| syncbuf := out |>
            <| syncpos := (length out - length out / RESULT_LEN * RESULT_LEN)%nat |>, w)
    else Ok (l <| syncbuf := [] |> <| syncpos := 0%nat |>, w)
  else Ok (l, w).

Definition pass (fuel : nat) (l : loop S) (w : W) : res (loop S * W) :=
  let '(t, w) := now_s w in
  let '(l, w) := match poll (ops source) with
                 | Some p => let '(x, w) := p t (src l) w in (l <| src := x |>, w)
                 | None => (l, w)
                 end in
  '(continued, l, w) ← refresh fuel t l w;
  if continued : bool then Ok (l, w)
  else
    '(l, w) ← resync fuel l w;
    '(l, w) ← drain fuel l w;
    let l := if 5 <=? u64 (t - last_status l) then l <| last_status := t |> else l in
    Ok (l, usleep 200 w).

(** The loop for a number of passes. *)
Fixpoint passes (n fuel : nat) (l : loop S) (w : W) : res (loop S * W) :=
  match n with
  | O => Ok (l, w)
  | Datatypes.S n => '(l, w) ← pass fuel l w; passes n fuel l w
  end.
End Loop.

(** ** The self-tests that need the device *)
Section Calibration.
Context {W : Type} `{World W}.

Definition selftest_uart (w : W) : Z * W :=
  let '(_, w) := uart_stat w in
  let w := usleep 1000 (uart_reset_fifos w) in
  let '(s, w) := uart_stat w in
  (if negb (flag s STAT_TX_EMPTY) then -1 else 0, w).

(** The header both probes send. *)
Definition probe_header : knots_header := knots_header_init <| nBits := 0x1903c2d4 |> <| m_height := 969859 |>.

Fixpoint dump_loop (fuel : nat) (deadline : Z) (buf : list Z) (u : uio_uart) (w : W)
    : option (list Z * uio_uart * W) :=
  match fuel with
  | O => None
  | S fuel =>
    let '(t, w) := now_s w in
    if (t <=? deadline) && (length buf <? 512)%nat then
      let '(b, u, w) := uart_get_nb u w in
      dump_loop fuel deadline (buf ++ option_list b) u w
    else Some (buf, u, w)
  end.
(** The return code and the bytes dumped to the log. *)
Definition selftest_rxdump (fuel : nat) (u : uio_uart) (s : stats) (w : W)
    : res (Z * list Z * uio_uart * stats * W) :=
  match build_work_item probe_header 0xFFFFFFFFFFFFFFFF with
  | inl _ => Ok (-1, [], u, s, w)
  | inr item =>
    let w := uart_reset_fifos w in
    '(u, w) ← fuelled (uart_purge_rx fuel u w);
    '(_, u, w) ← fuelled (uart_wait_quiet fuel u QUIET_IDLE_US QUIET_WAIT_US w);
    '(ok, u, w) ← fuelled (uart_write fuel u item TX_TIMEOUT_US w);
    if negb ok then Ok (-1, [], u, s, w)
    else
      let s := s <| items_sent := u64 (items_sent s + 1) |> in
      let '(t, w) := now_s w in
      '(buf, u, w) ← fuelled (dump_loop fuel (u64 (t + 5)) [] u w);
      Ok (if (length buf =? 0)%nat then -1 else 0, buf, u, s, w)
  end.

(** The pipeline offset, below 512, at which the header reproduces the reported hash. *)
Definition window_offset (h : knots_header) (r : fpga_result) : option Z :=
  List.find (fun off => Gbt.expected_hash_top64 (Gbt.with_nonce h (u64 (nonce r + off))) =? hash_top64 r)
    (Z.of_nat <$> seq 0 512).
(** The offset that the window at [win] yields. *)
Definition window (h : knots_header) (buf : list Z) (win : nat) : option Z :=
  if negb (buf !!! win =? 0x01) then None
  else
    let '(_, r) := parse_result (drop win buf) in
    if negb (success r) then None
    else if u64 (0 - nonce r) <? NONCE_GUARD then None
    else window_offset h r.
(** The first window that has one; [None] is -1. *)
Definition loopback_verify (h : knots_header) (buf : list Z) : option Z :=
  head (omap (window h buf) (seq 0 (S (length buf) - RESULT_LEN))).

Definition LOOPBACK_TARGET : Z := 0x00FFFFFFFFFFFFFF.
Fixpoint phases (n fuel : nat) (item : list Z) (u : uio_uart) (s : stats) (w : W) : res (Z * uio_uart * stats * W) :=
  match n with
  | O => Ok (-1, u, s, w)
  | S n =>
    '(u, w) ← fuelled (uart_purge_rx fuel u w);
    '(_, u, w) ← fuelled (uart_wait_quiet fuel u QUIET_IDLE_US QUIET_WAIT_US w);
    '(ok, u, w) ← fuelled (uart_write fuel u item TX_TIMEOUT_US w);
    if negb ok then Ok (-1, u, s, w)
    else
      '(_, w) ← fuelled (uart_drain_tx fuel 500000 w);
      let s := s <| items_sent := u64 (items_sent s + 1) |> in
      '(rc, rxbuf, u, f, w) ← frame_sync fuel u 2 (Some 512%nat) false (framing s) w;
      let s := s <| framing := f |> in
      match (if (rc =? 0) && (RESULT_LEN <=? length rxbuf)%nat then loopback_verify probe_header rxbuf else None) with
      | Some off => Ok (0, u, s <| nonce_offset := off |>, w)
      | None =>
        '(_, u, w) ← fuelled (uart_put fuel u 0x00 TX_TIMEOUT_US w);
        '(_, w) ← fuelled (uart_drain_tx fuel 100000 w);
        phases n fuel item u s w
      end
  end.
Definition selftest_loopback (fuel : nat) (u : uio_uart) (s : stats) (w : W) : res (Z * uio_uart * stats * W) :=
  match build_work_item probe_header LOOPBACK_TARGET with
  | inl _ => Ok (-1, u, s, w)
  | inr item => phases WORK_ITEM_LEN fuel item u s w
  end.
End Calibration.

(** ** The calibration *)
Lemma find_first {A} (f : A -> bool) l x :
  List.find f l = Some x -> x ∈ l /\ f x = true.
Proof. intros H%List.find_some. by rewrite list_elem_of_In. Qed.

(** C22: A calibration proves the link. [loopback_verify] succeeds exactly when some
    17-byte window of the buffer is a result frame, at least [NONCE_GUARD] nonces
    away from the seed, whose reported hash the software reproduces from the probe
    header at the reported nonce plus an offset below 512; it reports such an offset,
    so noise that reproduces no hash never passes. *)
Theorem loopback_verify_reproduces h buf :
  let reproduces win off :=
    (win + RESULT_LEN <= length buf)%nat /\ 0 <= off < 512 /\
    exists r, parse_result (drop win buf) = (0, r) /\ NONCE_GUARD <= u64 (0 - nonce r)
    /\ Gbt.expected_hash_top64 (Gbt.with_nonce h (u64 (nonce r + off))) = hash_top64 r in
  match loopback_verify h buf with
  | Some off => exists win, reproduces win off
  | None => forall win off, ~ reproduces win off
  end.
Proof.
  cbv zeta. unfold loopback_verify. set (wins := seq 0 _).
  assert (forall win, win ∈ wins <-> (win + RESULT_LEN <= length buf)%nat) as Hwin.
  { intros win. subst wins. rewrite list_elem_of_In, in_seq. unfold RESULT_LEN. lia. }
  assert (forall win off, win ∈ wins -> window h buf win = Some off -> 0 <= off < 512 /\
    exists r, parse_result (drop win buf) = (0, r) /\ NONCE_GUARD <= u64 (0 - nonce r)
    /\ Gbt.expected_hash_top64 (Gbt.with_nonce h (u64 (nonce r + off))) = hash_top64 r) as Hsound.
  { intros win off Hw. unfold window. destruct (negb _); [done|].
    destruct (parse_result (drop win buf)) as [rc r] eqn:Er.
    assert (rc = if success r then 0 else -1) as Hrc by (unfold parse_result in Er; by injection Er as <- <-).
    destruct (success r); cbn [negb]; [|done].
    destruct (Z.ltb_spec (u64 (0 - nonce r)) NONCE_GUARD) as [|Hg]; [done|].
    intros [Hin He%Z.eqb_eq]%find_first. apply list_elem_of_In, List.in_map_iff in Hin as (k & <- & Hk%in_seq).
    split; [lia|]. exists r. by rewrite Hrc. }
  destruct (head (omap (window h buf) wins)) as [off|] eqn:E.
  - assert (off ∈ omap (window h buf) wins) as Hin by (destruct (omap _ _); [done|injection E as ->; left]).
    apply list_elem_of_omap in Hin as (win & Hw & Hoff). exists win. split; [by apply Hwin|]. by apply Hsound.
  - intros win off (Hl & Ho & r & Er & Hg & Hh). assert (window h buf win = None) as Hn.
    { destruct (window h buf win) as [o|] eqn:Ew; [|done]. exfalso.
      assert (o ∈ omap (window h buf) wins) as Hin by (apply list_elem_of_omap; exists win; by rewrite Hwin).
      by destruct (omap _ _); [apply not_elem_of_nil in Hin|]. }
    revert Hn. unfold window. rewrite Er.
    assert (success r = true /\ (buf !!! win =? 0x01) = true) as [-> ->].
    { revert Er. unfold parse_result. rewrite lookup_total_drop, Nat.add_0_r. destruct (_ =? 1); [by intros [= <-]|done]. }
    cbn [negb]. rewrite (proj2 (Z.ltb_ge _ _)) by done. unfold window_offset.
    intros Hn. pose proof (List.find_none _ _ Hn off) as H0. cbn beta in H0. rewrite Hh, Z.eqb_refl in H0.
    discriminate H0. apply List.in_map_iff. exists (Z.to_nat off). split; [lia|]. apply in_seq. lia.
Qed.

(** ** The assembler *)
Section Deliver.
Context {S W : Type} `{device : Uartlite W} (source : @worksrc (callbacks S W)) (word_name : list Z).
(** The source keeps a record of the candidates it is asked about and leaves the
    device's receiver alone. *)
Context (log : S -> list (Z * Z)).
Hypothesis log_candidate : forall c n h x w, log (on_candidate (ops source) c n h x w).1.2 = log x ++ [(n, h)].
Hypothesis candidate_receives_nothing : forall c n h x w, received (on_candidate (ops source) c n h x w).2 = received w.

(** What a frame stands for. *)
Definition reported (l : loop S) (f : list Z) : Z * Z :=
  (u64 (nonce (parse_result f).2 + u64 (nonce_offset (st l))), hash_top64 (parse_result f).2).

(** The loop after the complete frames [fs], with [f] assembled. *)
Definition delivered (l l' : loop S) (fs : list (list Z)) (f : list Z) : Prop :=
  synced l' = synced l /\ frame l' = f /\ log (src l') = log (src l) ++ (reported l <$> fs)
  /\ u64 (frames_ok (st l')) = u64 (frames_ok (st l) + Z.of_nat (length fs))
  /\ nonce_offset (st l') = nonce_offset (st l).

Lemma feed_part b l w :
  length (frame l ++ [b]) <> RESULT_LEN -> feed source word_name b l w = (l <| frame := frame l ++ [b] |>, w).
Proof. intros Hl. unfold feed. by rewrite (proj2 (Nat.eqb_neq _ _) Hl). Qed.
Lemma feed_frame b l w :
  is_frame (frame l ++ [b]) ->
  delivered l (feed source word_name b l w).1 [frame l ++ [b]] [].
Proof using log_candidate.
  intros [Hl Hf]. unfold feed. rewrite Hl, Nat.eqb_refl. unfold on_frame.
  destruct (parse_result (frame l ++ [b])) as [rc r] eqn:Er.
  assert (rc = 0) as -> by (revert Er; unfold parse_result; rewrite Hf; by intros [= <- _]).
  cbn [Z.eqb negb]. destruct (now_s w) as [t w1]. cbn [ctx st src update loop_fields stats_fields nonce_offset].
  set (cand := u64 (nonce r + u64 (nonce_offset (st l)))).
  pose proof (log_candidate (ctx l) cand (hash_top64 r) (src l) w1) as H1.
  destruct (on_candidate _ _ _ _ _ _) as [[v x] w2]. cbn [fst snd] in H1 |- *.
  unfold delivered. cbn [fmap list_fmap length]. unfold reported. rewrite Er. cbn [fst snd].
  destruct (v =? WORKSRC_CAND_BAD); cbn [synced frame src st frames_ok nonce_offset update loop_fields stats_fields];
    (split_and!; [done|done|exact H1|apply u64_small, u64_word|done]).
Qed.
(** Whatever the byte, the assembler stays short of a frame and takes nothing. *)
Lemma feed_keeps b l w l' w' :
  feed source word_name b l w = (l', w') -> (length (frame l) < RESULT_LEN)%nat ->
  (length (frame l') < RESULT_LEN)%nat /\ (forall u, taken u w' = taken u w)
  /\ dev l' = dev l /\ syncbuf l' = syncbuf l /\ syncpos l' = syncpos l.
Proof using device candidate_receives_nothing.
  unfold feed. intros E Hl. destruct (Nat.eqb_spec (length (frame l ++ [b])) RESULT_LEN) as [He|He].
  2:{ injection E as <- <-. split; [|done]. cbn [frame update loop_fields]. rewrite length_app in *. cbn [length] in *. lia. }
  assert (0 < RESULT_LEN)%nat by (unfold RESULT_LEN; lia). revert E. unfold on_frame.
  destruct (parse_result _) as [rc r]. destruct (negb _).
  { destruct (_ <=? _); by intros [= <- <-]. }
  destruct (now_s w) as [t w1] eqn:Et. cbn [ctx st src update loop_fields stats_fields nonce_offset].
  set (cand := u64 (nonce r + u64 (nonce_offset (st l)))).
  pose proof (candidate_receives_nothing (ctx l) cand (hash_top64 r) (src l) w1) as H2.
  destruct (on_candidate _ _ _ _ _ _) as [[v x] w2]. cbn [fst snd] in H2.
  pose proof (now_s_keeps_received w) as H3. rewrite Et in H3. cbn [snd] in H3.
  intros [= <- <-]. split_and!; try done. intros u. unfold taken. by rewrite H2, H3.
Qed.

(** Delivering is transitive. *)
Lemma delivered_trans l1 l2 l3 fs gs f g :
  delivered l1 l2 fs f -> delivered l2 l3 gs g -> delivered l1 l3 (fs ++ gs) g.
Proof.
  intros (A1 & A2 & A3 & A4 & A5) (B1 & B2 & B3 & B4 & B5).
  unfold delivered. rewrite B1, B2, B3, B4, B5, A1, A3, A5, <- u64_add_l, A4.
  assert (reported l2 = reported l1) as -> by (unfold reported; by rewrite A5).
  rewrite fmap_app, length_app, <- app_assoc, u64_add_l. split_and!; try done. f_equal. lia.
Qed.

(** A byte of a stream of frames. *)
Lemma feed_stream b l w rest frames partial :
  (length (frame l) < RESULT_LEN)%nat -> (frame l ++ [b]) ++ rest = concat frames ++ partial ->
  Forall is_frame frames -> (length partial < RESULT_LEN)%nat ->
  let l' := (feed source word_name b l w).1 in
  exists done more, frames = done ++ more /\ delivered l l' done (frame l') /\ frame l' ++ rest = concat more ++ partial.
Proof using log_candidate.
  intros Hl He Hf Hp l'. destruct (decide (length (frame l ++ [b]) = RESULT_LEN)) as [Hn|Hn].
  - destruct Hf as [|f frames Hf Hfs].
    { exfalso. cbn [concat app] in He. apply (f_equal length) in He. rewrite length_app in He. lia. }
    cbn [concat] in He. rewrite <- (app_assoc f) in He. destruct Hf as [Hfl Hf0].
    apply app_inj_1 in He as [Hef He]; [|congruence]. subst f. exists [frame l ++ [b]], frames. split; [done|].
    pose proof (feed_frame b l w (conj Hn Hf0)) as Hd. fold l' in Hd.
    assert (frame l' = []) as Hfr by apply Hd. rewrite Hfr. split; [exact Hd|exact He].
  - subst l'. rewrite feed_part by done. exists [], frames. split; [done|]. split; [|done].
    unfold delivered. cbn [fst synced frame src st update loop_fields fmap list_fmap length].
    by rewrite app_nil_r, Z.add_0_r.
Qed.

Lemma short_stream x frames partial :
  (length x < RESULT_LEN)%nat -> x = concat frames ++ partial -> Forall is_frame frames -> frames = [] /\ partial = x.
Proof.
  intros Hl -> Hfs. destruct Hfs as [|f fs [Hf _] _]; [done|]. exfalso. cbn [concat] in Hl. rewrite !length_app in Hl. lia.
Qed.
(** Moving the cursor or the driver's state delivers nothing. *)
Lemma delivered_none l l' :
  synced l' = synced l -> frame l' = frame l -> src l' = src l -> st l' = st l -> delivered l l' [] (frame l).
Proof. intros E1 E2 E3 E4. unfold delivered. rewrite E1, E2, E3, E4. cbn. by rewrite app_nil_r, Z.add_0_r. Qed.

Lemma drain_run fuel l w l' w' :
  drain source word_name fuel l w = Ok (l', w') -> (length (frame l) < RESULT_LEN)%nat ->
  exists new, taken (dev l') w' = taken (dev l) w ++ new /\
  forall frames partial, synced l = true ->
    frame l ++ drop (syncpos l) (syncbuf l) ++ new = concat frames ++ partial ->
    Forall is_frame frames -> (length partial < RESULT_LEN)%nat -> delivered l l' frames partial.
Proof using device log_candidate candidate_receives_nothing.
  revert l w. induction fuel as [|fuel IH]; intros l w; [done|]. cbn [drain].
  destruct (synced l) eqn:Hs; cbn [negb]; [|intros [= <- <-] _; exists []; by rewrite app_nil_r].
  assert (forall b l0 w0, frame l0 = frame l -> synced l0 = synced l -> src l0 = src l -> st l0 = st l ->
    (let '(l1, w1) := feed source word_name b l0 w0 in drain source word_name fuel l1 w1) = Ok (l', w') ->
    (length (frame l) < RESULT_LEN)%nat ->
    exists new, taken (dev l') w' = taken (dev l0) w0 ++ new /\
    forall frames partial,
      frame l ++ b :: drop (syncpos l0) (syncbuf l0) ++ new = concat frames ++ partial ->
      Forall is_frame frames -> (length partial < RESULT_LEN)%nat -> delivered l l' frames partial) as Hstep.
  { intros b l0 w0 Ef Es Ex Et Hd Hl. rewrite <- Ef in Hl.
    pose proof (fun rest fs p => feed_stream b l0 w0 rest fs p Hl) as Hfeed.
    destruct (feed source word_name b l0 w0) as [l1 w1] eqn:E1. cbn [fst] in Hfeed.
    destruct (feed_keeps b l0 w0 l1 w1 E1 Hl) as (Hl1 & Ht & Hdev & Hbuf & Hpos).
    destruct (IH l1 w1 Hd Hl1) as (new & Hnew & Hall). exists new. rewrite Hnew, Hdev, Ht. split; [done|].
    intros frames partial He Hf Hp. rewrite Hbuf, Hpos in Hall.
    destruct (Hfeed (drop (syncpos l0) (syncbuf l0) ++ new) frames partial) as (fs & more & -> & Hd1 & He1);
      [by rewrite <- app_assoc, Ef|done|done|].
    apply (delivered_trans _ l0 _ [] _ (frame l)); [by apply delivered_none|].
    apply Forall_app in Hf as [_ Hf]. apply (delivered_trans _ l1 _ _ _ (frame l1)); [done|]. apply Hall; try done.
    destruct Hd1 as (-> & _). congruence. }
  destruct (Nat.ltb_spec (syncpos l) (length (syncbuf l))) as [Hb|Hb].
  - intros Hd Hl. apply Hstep in Hd as (new & Hnew & Hall); try done.
    exists new. split; [exact Hnew|]. intros frames partial _ He. apply Hall.
    rewrite (drop_S (syncbuf l) (syncbuf l !!! syncpos l)) in He by by apply list_lookup_lookup_total_lt.
    cbn [syncpos syncbuf update loop_fields]. by rewrite Nat.add_1_r.
  - destruct (uart_get_nb (dev l) w) as [[b u] w1] eqn:Eg. apply get_nb_taken in Eg. destruct b as [b|]; cbn [option_list] in Eg.
    + intros Hd Hl. apply Hstep in Hd as (new & Hnew & Hall); try done.
      exists (b :: new). cbn [dev update loop_fields] in Hnew. rewrite Hnew, Eg, <- app_assoc. split; [done|].
      intros frames partial _ He. apply Hall. rewrite drop_ge in He |- * by (cbn; lia). exact He.
    + intros [= <- <-] Hl. exists []. split; [exact Eg|]. intros frames partial _ He Hf _.
      rewrite drop_ge, app_nil_r in He by done. cbn [app] in He.
      destruct (short_stream (frame l) frames partial) as [-> ->]; [done..|]. by apply delivered_none.
Qed.

(** No candidate is lost or mangled between the line and the source. Whatever
    the mining loop's drain consumes, the bytes handed back by the framing first and
    then what it takes off the line, if they continue the bytes assembled so far to a
    stream of frames, then the source is asked about every frame, once, in order,
    with the nonce corrected for the pipeline and the reported word; the frames are
    counted, the loop stays aligned, and the bytes after the last frame are kept for
    the next one. *)
Theorem drain_delivers fuel l w l' w' :
  drain source word_name fuel l w = Ok (l', w') -> (length (frame l) < RESULT_LEN)%nat ->
  exists new, taken (dev l') w' = taken (dev l) w ++ new /\
  forall frames partial, synced l = true ->
    frame l ++ drop (syncpos l) (syncbuf l) ++ new = concat frames ++ partial ->
    Forall is_frame frames -> (length partial < RESULT_LEN)%nat ->
    synced l' = true /\ frame l' = partial /\ log (src l') = log (src l) ++ (reported l <$> frames)
    /\ u64 (frames_ok (st l')) = u64 (frames_ok (st l) + Z.of_nat (length frames)).
Proof using device log_candidate candidate_receives_nothing.
  intros Hd Hl. destruct (drain_run fuel l w l' w' Hd Hl) as (new & Hnew & Hall). exists new. split; [exact Hnew|].
  intros frames partial Hs He Hf Hp. destruct (Hall frames partial Hs He Hf Hp) as (E1 & E2 & E3 & E4 & _).
  by rewrite E1.
Qed.
End Deliver.

(** A source that only takes notes, three bytes of a frame to replay, the rest of it,
    another frame and a stray byte on the line. *)
Definition notes : @worksrc (callbacks (list (Z * Z)) Fifo.fifo) :=
  WorkSrc (Some (str "notes"))
    (Callbacks (fun s w => (None, s, w)) None (fun _ n h s w => (WORKSRC_CAND_OK, s ++ [(n, h)], w))) 30 168.
Definition two_frames : list Z := framing_make kNonce kHash ++ framing_make 7 9 ++ [0x01].
Definition ready : loop (list (Z * Z)) :=
  Loop (WorkCtx [] [] 0 true) [] (take 3 two_frames) 0 true 0 0 0 true uart_open
    (Stats 0 0 0 0 5 (FramingStats 0 0 0 0) 0 [] [] []) [].
Definition on_the_line : Fifo.fifo := Fifo.FifoT 0 [] [] ((fun b => (0, b)) <$> drop 3 two_frames) [].
Definition drained : loop (list (Z * Z)) * Fifo.fifo :=
  match drain notes (str "H[3]") 100 ready on_the_line with Ok r => r | _ => (ready, on_the_line) end.
Lemma drained_ok : drain notes (str "H[3]") 100 ready on_the_line = Ok (drained.1, drained.2).
Proof. vm_compute. reflexivity. Qed.
Lemma drained_asks : src drained.1 = [(kNonce + 5, kHash); (12, 9)] /\ frame drained.1 = [0x01].
Proof. vm_compute. done. Qed.

Lemma drain_delivers_witness :
  exists new, taken (dev drained.1) drained.2 = taken uart_open on_the_line ++ new /\
  forall frames partial, true = true -> take 3 two_frames ++ new = concat frames ++ partial ->
    Forall is_frame frames -> (length partial < RESULT_LEN)%nat ->
    synced drained.1 = true /\ frame drained.1 = partial /\ src drained.1 = [] ++ (reported ready <$> frames)
    /\ u64 (frames_ok (st drained.1)) = u64 (frames_ok (st ready) + Z.of_nat (length frames)).
Proof.
  apply (drain_delivers notes (str "H[3]") (fun s => s) ltac:(intros; reflexivity) ltac:(intros; reflexivity)
           100 ready on_the_line drained.1 drained.2 drained_ok).
  by apply Nat.ltb_lt.
Defined.

(** ** What the loop sends *)
Section Pushes.
Context {S W : Type} `{device : Uartlite W} (source : @worksrc (callbacks S W)) (word_name : list Z).
(** The source leaves the device's transmitter alone. *)
Hypothesis get_work_sends_nothing : forall x w, sent (get_work (ops source) x w).2 = sent w.
Hypothesis poll_sends_nothing : forall p t x w, poll (ops source) = Some p -> sent (p t x w).2 = sent w.
Hypothesis candidate_sends_nothing : forall c n h x w, sent (on_candidate (ops source) c n h x w).2 = sent w.

Definition wire_item (next : work_ctx) : list Z :=
  let '(out, ilen) := worksrc_pack_item next (item_len source) in take ilen out.
(** A push: the context and the number of its item's bytes that the transmitter took. *)
Definition chunk (p : work_ctx * nat) : list Z := take p.2 (wire_item p.1).
Definition whole (p : work_ctx * nat) : bool := (p.2 =? item_len source)%nat.
Definition completed (ps : list (work_ctx * nat)) : list work_ctx := (List.filter whole ps).*1.
Definition latest : work_ctx -> list work_ctx -> work_ctx := foldl (fun _ c => c).

(** The pushes on record, where the transmitter had taken [s] before: each context is
    what the source answered then, its item has the source's length, and if the
    transmitter took less of it, it was full for a fifth of a second, after that part. *)
Fixpoint on_record (s : list Z) (ps : list (work_ctx * nat)) : Prop :=
  match ps with
  | [] => True
  | p :: ps =>
    (exists x w, (get_work (ops source) x w).1.1 = Some p.1 /\ sent w = s)
    /\ length (wire_item p.1) = item_len source /\ (p.2 <= item_len source)%nat
    /\ ((p.2 < item_len source)%nat -> exists w0 w, stalled 200000 w0 w /\ sent w = s ++ chunk p)
    /\ on_record (s ++ chunk p) ps
  end.
Lemma on_record_app s ps qs : on_record s ps -> on_record (s ++ concat (chunk <$> ps)) qs -> on_record s (ps ++ qs).
Proof using Type.
  revert s. induction ps as [|p ps IH]; intros s; [by rewrite app_nil_r|]. cbn [on_record app fmap list_fmap concat].
  intros (H1 & H2 & H3 & H4 & H5) Hq. do 4 (split; [done|]). apply IH; [done|]. by rewrite <- app_assoc.
Qed.

(** The pushes [ps] lead from one state to the other. *)
Definition pushes (l : loop S) (w : W) (ps : list (work_ctx * nat)) (l' : loop S) (w' : W) : Prop :=
  sent w' = sent w ++ concat (chunk <$> ps)
  /\ on_record (sent w) ps
  /\ ctx l' = latest (ctx l) (completed ps)
  /\ u64 (items_sent (st l')) = u64 (items_sent (st l) + Z.of_nat (length (completed ps))).

Lemma pushes_none l w l' w' :
  sent w' = sent w -> ctx l' = ctx l -> items_sent (st l') = items_sent (st l) -> pushes l w [] l' w'.
Proof. intros E1 E2 E3. unfold pushes. rewrite E1, E2, E3. cbn. by rewrite app_nil_r, Z.add_0_r. Qed.
Lemma pushes_trans l1 w1 l2 w2 l3 w3 ps qs :
  pushes l1 w1 ps l2 w2 -> pushes l2 w2 qs l3 w3 -> pushes l1 w1 (ps ++ qs) l3 w3.
Proof.
  intros (A1 & A2 & A3 & A4) (B1 & B2 & B3 & B4). unfold pushes, completed in *.
  rewrite B1, B3, B4, A1, A3, <- u64_add_l, A4, u64_add_l.
  rewrite fmap_app, concat_app, List.filter_app, fmap_app, length_app, app_assoc. unfold latest. rewrite foldl_app.
  rewrite A1 in B2. split_and!; [done|by apply on_record_app|done|f_equal; lia].
Qed.

Lemma pack_length next : (worksrc_pack_item next (item_len source)).2 <> 0%nat ->
  length (wire_item next) = item_len source.
Proof.
  unfold wire_item, worksrc_pack_item. intros H0.
  destruct (Nat.eqb_spec (item_len source) WORK_ITEM_LEN) as [E|E]; [|destruct (Nat.eqb_spec (item_len source) (STAGE4_LEN + 8)) as [E'|E']; [|done]];
    cbn [fst snd] in *; rewrite length_take, !length_inserts, length_replicate; [by rewrite E, Nat.min_id|].
  rewrite E'. unfold STAGE4_LEN, WORK_ITEM_LEN. cbn. done.
Qed.

Lemma push_work_pushes fuel next l w l' w' :
  (worksrc_pack_item next (item_len source)).2 <> 0%nat ->
  (exists x w0, (get_work (ops source) x w0).1.1 = Some next /\ sent w0 = sent w) ->
  push_work fuel next (wire_item next) l w = Ok (l', w') -> exists k, pushes l w [(next, k)] l' w'.
Proof using device.
  intros H0 Hg. pose proof (pack_length next H0) as Hl. unfold push_work.
  destruct (uart_wait_quiet _ _ _ _ _) as [[[q u] w1]|] eqn:E1; [|done]. apply wait_quiet_sent in E1.
  cbn [fuelled from_option mbind res_bind fst snd] in *.
  destruct (uart_write _ _ _ _ _) as [[[ok u1] w2]|] eqn:E2; [|done].
  assert (ok = false -> exists w0, stalled 200000 w0 w2) as Hst by (intros ->; exact (uart_write_stalled _ _ _ _ _ _ _ E2)).
  apply uart_write_sent in E2 as (k & E2 & Hk). cbn [from_option mbind res_bind]. rewrite Hl in Hk.
  assert (forall l0 w0, sent w0 = sent w2 -> ctx l0 = (if ok then next else ctx l) ->
    u64 (items_sent (st l0)) = u64 (items_sent (st l) + (if ok then 1 else 0)) -> pushes l w [(next, k)] l0 w0) as Hp.
  { intros l0 w0 S0 C0 I0. unfold pushes, completed, chunk. rewrite S0, E2, E1. cbn. rewrite app_nil_r.
    unfold whole. cbn [snd]. split; [done|]. unfold chunk. cbn [fst snd].
    assert (k < item_len source -> exists w3 w4, stalled 200000 w3 w4 /\ sent w4 = sent w ++ take k (wire_item next))%nat as Hcut.
    { destruct ok; [lia|]. intros _. destruct (Hst eq_refl) as [w3 H3]. exists w3, w2. by rewrite E2, E1. }
    destruct ok.
    - rewrite Hk, Nat.eqb_refl in *. split; [|by split]. split_and!; [done..|lia|done|done].
    - rewrite (proj2 (Nat.eqb_neq _ _)) by lia. split; [|by split]. split_and!; [done..|lia|done|done]. }
  destruct ok; cycle 1.
  { intros [= <- <-]. exists k. apply Hp; [done..|]. by rewrite Z.add_0_r. }
  cbn [fuelled from_option mbind res_bind] in *.
  destruct (uart_drain_tx fuel 500000 w2) as [[q' w3]|] eqn:E3; cbn [fuelled from_option mbind res_bind]; [|done]. apply drain_tx_sent in E3.
  cbn [from_option mbind res_bind]. intros [= <- <-]. exists k. apply Hp; [exact E3|done|].
  cbn [st items_sent update loop_fields stats_fields]. apply u64_small, u64_word.
Qed.

Lemma refresh_pushes fuel t l w b l' w' :
  refresh source fuel t l w = Ok (b, l', w') -> exists ps, pushes l w ps l' w' /\ (length ps <= 1)%nat.
Proof using device get_work_sends_nothing.
  unfold refresh. destruct (_ || _).
  2:{ intros [= <- <- <-]. exists []. split; [by apply pushes_none|cbn; lia]. }
  pose proof (get_work_sends_nothing (src l) w) as Hs. destruct (get_work _ _ _) as [[next x] w1] eqn:Eg. cbn [snd] in Hs.
  destruct next as [next|].
  2:{ intros [= <- <- <-]. exists []. split; [by apply pushes_none|cbn; lia]. }
  pose proof (push_work_pushes fuel next (l <| src := x |>) w1) as Hp. unfold wire_item in Hp.
  destruct (worksrc_pack_item next (item_len source)) as [out n]. cbn [snd] in Hp.
  destruct (Nat.eqb_spec n 0) as [_|Hn].
  { intros [= <- <- <-]. exists []. split; [by apply pushes_none|cbn; lia]. }
  destruct (push_work _ _ _ _ _) as [[l1 w2]| |]; [|done..]. cbn [mbind res_bind]. intros [= <- <- <-].
  destruct (Hp l1 w2 Hn) as [k (P1 & P2 & P3 & P4)]; [by exists (src l), w; rewrite Eg|done|]. exists [(next, k)]. split; [|cbn; lia].
  unfold pushes. cbn [ctx st update loop_fields] in *. rewrite Hs in *. done.
Qed.
Lemma resync_pushes fuel l w l' w' : resync fuel l w = Ok (l', w') -> pushes l w [] l' w'.
Proof using device.
  unfold resync. destruct (_ && _); [|intros [= <- <-]; by apply pushes_none].
  destruct (frame_sync _ _ _ _ _ _ _) as [[[[[rc out] u] f] w1]| |] eqn:E; [|done..]. apply frame_sync_sent in E. cbn [snd] in E.
  cbn [mbind res_bind]. destruct (rc =? 0); intros [= <- <-]; by apply pushes_none.
Qed.
Lemma feed_pushes b l w : pushes l w [] (feed source word_name b l w).1 (feed source word_name b l w).2.
Proof using device candidate_sends_nothing.
  unfold feed. destruct (_ =? _)%nat; [|by apply pushes_none]. unfold on_frame.
  destruct (parse_result _) as [rc r]. destruct (negb _); [destruct (_ <=? _); by apply pushes_none|].
  pose proof (now_s_keeps_sent w) as H1. destruct (now_s w) as [t w1]. cbn [snd ctx st src update loop_fields stats_fields nonce_offset] in *.
  set (cand := u64 _). pose proof (candidate_sends_nothing (ctx l) cand (hash_top64 r) (src l) w1) as H2.
  destruct (on_candidate _ _ _ _ _ _) as [[v x] w2]. cbn [fst snd] in *.
  apply pushes_none; [cbn; congruence|done|]. by destruct (v =? _).
Qed.
Lemma drain_pushes fuel l w l' w' : drain source word_name fuel l w = Ok (l', w') -> pushes l w [] l' w'.
Proof using device candidate_sends_nothing.
  revert l w. induction fuel as [|fuel IH]; intros l w; [done|]. cbn [drain].
  destruct (negb _); [intros [= <- <-]; by apply pushes_none|].
  assert (forall b l0 w0, pushes l w [] l0 w0 ->
    (let '(l1, w1) := feed source word_name b l0 w0 in drain source word_name fuel l1 w1) = Ok (l', w') ->
    pushes l w [] l' w') as Hstep.
  { intros b l0 w0 P0. pose proof (feed_pushes b l0 w0) as P1. destruct (feed _ _ _ _ _) as [l1 w1]. intros P2%IH.
    apply (pushes_trans _ _ _ _ _ _ [] [] P0). by apply (pushes_trans _ _ _ _ _ _ [] [] P1). }
  destruct (_ <? _)%nat; [apply Hstep; by apply pushes_none|].
  pose proof (get_nb_sent (dev l) w) as Hg. destruct (uart_get_nb (dev l) w) as [[b u] w1]. cbn [snd] in Hg.
  destruct b as [b|]; [apply Hstep; by apply pushes_none|]. intros [= <- <-]. by apply pushes_none.
Qed.

Lemma pass_pushes fuel l w l' w' :
  pass source word_name fuel l w = Ok (l', w') -> exists ps, pushes l w ps l' w' /\ (length ps <= 1)%nat.
Proof using All.
  unfold pass. pose proof (now_s_keeps_sent w) as H1. destruct (now_s w) as [t w1]. cbn [snd] in H1.
  set (polled := match poll _ with Some _ => _ | None => _ end).
  assert (pushes l w [] polled.1 polled.2) as P0.
  { subst polled. destruct (poll (ops source)) as [p|] eqn:Ep; [|by apply pushes_none].
    pose proof (poll_sends_nothing p t (src l) w1 eq_refl) as H2. destruct (p t (src l) w1) as [x w2]. cbn [snd] in H2.
    apply pushes_none; [cbn; congruence|done|done]. }
  destruct polled as [l0 w0]. cbn [fst snd] in P0.
  destruct (refresh _ _ _ _ _) as [[[b l1] w2]| |] eqn:E1; [|done..]. apply refresh_pushes in E1 as (ps & P1 & Hl).
  pose proof (pushes_trans _ _ _ _ _ _ [] ps P0 P1) as P. cbn [mbind res_bind app] in *.
  intros E. exists ps. split; [|done]. revert E. destruct b; [intros [= <- <-]; exact P|].
  destruct (resync _ _ _) as [[l2 w3]| |] eqn:E2; [|done..]. apply resync_pushes in E2. cbn [mbind res_bind].
  destruct (drain _ _ _ _ _) as [[l3 w4]| |] eqn:E3; [|done..]. apply drain_pushes in E3. cbn [mbind res_bind].
  pose proof (usleep_keeps_sent 200 w4) as H2. intros [= <- <-]. rewrite <- (app_nil_r ps).
  apply (pushes_trans _ _ _ _ _ _ ps [] P). apply (pushes_trans _ _ _ _ _ _ [] [] E2).
  apply (pushes_trans _ _ _ _ _ _ [] [] E3). by destruct (_ <=? _); apply pushes_none.
Qed.

(** The device's byte counter is never put out of step by a push that succeeds.
    Over any number of passes of the loop, what the transmitter takes are items of
    the source's length, packed from contexts the source gave, one push after the
    other, at most one per pass; an item is cut short only by a transmitter that
    stalls for a fifth of a second, and then it is not counted in [items_sent] and candidates keep being
    checked against the context of the last item that went out whole. *)
Theorem passes_send_items n fuel l w l' w' :
  passes source word_name n fuel l w = Ok (l', w') ->
  exists ps, (length ps <= n)%nat
  /\ sent w' = sent w ++ concat (chunk <$> ps)
  /\ on_record (sent w) ps
  /\ ctx l' = latest (ctx l) (completed ps)
  /\ u64 (items_sent (st l')) = u64 (items_sent (st l) + Z.of_nat (length (completed ps))).
Proof using All.
  revert l w. induction n as [|n IH]; intros l w; cbn [passes].
  { intros [= <- <-]. exists []. split; [done|]. by apply pushes_none. }
  destruct (pass _ _ _ _ _) as [[l1 w1]| |] eqn:E; [|done..]. apply pass_pushes in E as (ps & P & Hl).
  cbn [mbind res_bind]. intros (qs & Hn & Q)%IH. exists (ps ++ qs). split; [rewrite length_app; lia|].
  exact (pushes_trans _ _ _ _ _ _ ps qs P Q).
Qed.
End Pushes.

(** A source with one context, an idle device and two passes: the item goes out once. *)
Definition giver : @worksrc (callbacks (list (Z * Z)) Fifo.fifo) :=
  WorkSrc (Some (str "giver"))
    (Callbacks (fun s w => (Some (WorkCtx (seqZ 0 52) (seqZ 52 80) 0x0123456789abcdef true), s, w)) None
       (fun _ n h s w => (WORKSRC_CAND_OK, s ++ [(n, h)], w))) 30 168.
Definition at_rest : loop (list (Z * Z)) :=
  Loop (WorkCtx [] [] 0 false) [] [] 0 false 0 0 0 false uart_open
    (Stats 0 0 0 0 0 (FramingStats 0 0 0 0) 0 [] [] []) [].
Definition two_passes : loop (list (Z * Z)) * Fifo.fifo :=
  match passes giver (str "H[3]") 2 4000 at_rest Fifo.idle with Ok r => r | _ => (at_rest, Fifo.idle) end.
Lemma two_passes_ok :
  passes giver (str "H[3]") 2 4000 at_rest Fifo.idle = Ok (two_passes.1, two_passes.2)
  /\ Fifo.accepted two_passes.2 = wire_item giver (WorkCtx (seqZ 0 52) (seqZ 52 80) 0x0123456789abcdef true)
  /\ items_sent (st two_passes.1) = 1.
Proof. vm_compute. done. Qed.

Lemma passes_send_items_witness :
  exists ps, (length ps <= 2)%nat
  /\ sent two_passes.2 = sent Fifo.idle ++ concat (chunk giver <$> ps)
  /\ on_record giver (sent Fifo.idle) ps
  /\ ctx two_passes.1 = latest (ctx at_rest) (completed giver ps)
  /\ u64 (items_sent (st two_passes.1)) = u64 (items_sent (st at_rest) + Z.of_nat (length (completed giver ps))).
Proof.
  apply (passes_send_items giver (str "H[3]") ltac:(intros; reflexivity) ltac:(intros; discriminate)
           ltac:(intros; reflexivity) 2 4000 at_rest Fifo.idle two_passes.1 two_passes.2 (proj1 two_passes_ok)).
Defined.
End Mining.
