(* ===== verification/Follow.v ===== *)
(** * Following a work source through the mining loop (src/miner/miner.c, main)

    Whatever can be said of the calls of a work source and composes can be said of any
    number of passes of the loop: the loop asks for work, offers candidates of the item
    it was given last, and polls. At the end, a concrete device for examples. *)
From S2P Require Import Prelude WorkItem Worksrc Uart Framing Observe Mining.

Module Follow.
Import WorkItem Worksrc Uart Framing Observe Mining.
Local Open Scope word_scope.

(** A transmitter that makes room within the time-out. *)
Class Prompt (W : Type) `{World W} : Prop :=
  prompt fuel u item (w : W) ok u' w' : uart_write fuel u item TX_TIMEOUT_US w = Some (ok, u', w') -> ok = true.

(** What is said of the calls between two moments: [m] is what has been noted about the
    source, [concerns m c] that [c] is the item it made last. *)
Record followed {S W M A : Type} `{World W} (obs : W -> A) (b : @worksrc (callbacks S W))
    (calls : M -> S -> W -> M -> S -> W -> Prop) (concerns : M -> work_ctx -> Prop) : Prop := {
  follow_quiet m x w w' : obs w' = obs w -> calls m x w m x w';
  follow_trans m x w m1 x1 w1 m2 x2 w2 : calls m x w m1 x1 w1 -> calls m1 x1 w1 m2 x2 w2 -> calls m x w m2 x2 w2;
  follow_poll m p t x w x' w' : poll (ops b) = Some p -> p t x w = (x', w') -> calls m x w m x' w';
  follow_work m x w r x' w' : get_work (ops b) x w = (r, x', w') ->
    exists m', calls m x w m' x' w' /\ match r with Some c => concerns m' c | None => forall c, concerns m c -> concerns m' c end;
  follow_candidate m c nonce word x w v x' w' :
    on_candidate (ops b) c nonce word x w = (v, x', w') -> concerns m c -> calls m x w m x' w'
}.

Section Loop.
Context {S W M A : Type} `{World W} (obs : W -> A) `{unseen : !Unseen obs}.
Context (b : @worksrc (callbacks S W)) (calls : M -> S -> W -> M -> S -> W -> Prop) (concerns : M -> work_ctx -> Prop).
Context (follows : followed obs b calls concerns) (word_name : list Z).
Context (packs : forall next, (worksrc_pack_item next (item_len b)).2 <> 0%nat).

(** An item that stalls leaves the one before it in force: either none does, or whatever
    is noted does not care which of its items it was. *)
Context (carries_on : Prompt W \/ forall m c m' c', concerns m c -> concerns m' c' -> concerns m' c).

(** The item candidates are checked against is the one made last. *)
Definition in_step (m : M) (l : loop S) : Prop :=
  (synced l = true -> have_work l = true) /\ (have_work l = true -> concerns m (ctx l)).

Lemma followed_quiet m x w w' : obs w' = obs w -> calls m x w m x w'.
Proof using follows. apply follows. Qed.
Lemma followed_trans m x w m1 x1 w1 m2 x2 w2 : calls m x w m1 x1 w1 -> calls m1 x1 w1 m2 x2 w2 -> calls m x w m2 x2 w2.
Proof using follows. apply follows. Qed.

Lemma feed_calls m byte l w l' w' :
  feed b word_name byte l w = (l', w') -> in_step m l -> have_work l = true ->
  in_step m l' /\ have_work l' = true /\ calls m (src l) w m (src l') w'.
Proof using unseen follows.
  intros E [Hs Hm] Hw. revert E. unfold feed. destruct (_ =? _)%nat; [|intros [= <- <-]; split_and!; [done|done|by apply followed_quiet]].
  unfold on_frame. destruct (parse_result _) as [rc r]. destruct (negb (rc =? 0)).
  { destruct (3 <=? _); intros [= <- <-]; (split_and!; [split; done|done|by apply followed_quiet]). }
  pose proof (now_s_unseen (obs := obs) w) as E1. destruct (now_s w) as [t w1]. cbn [snd] in E1.
  match goal with |- context [on_candidate (ops b) ?c ?n ?h ?x w1] => destruct (on_candidate (ops b) c n h x w1) as [[v x'] w2] eqn:E end.
  apply (follow_candidate _ _ _ _ follows m) in E; [|by apply Hm]. intros [= <- <-]. split_and!; [by destruct (v =? _)|by destruct (v =? _)|].
  assert (calls m (src l) w m (src l) w1) as T by by apply followed_quiet.
  pose proof (followed_trans _ _ _ _ _ _ _ _ _ T E) as T2. by destruct (v =? _).
Qed.
Lemma drain_calls m fuel l w l' w' :
  drain b word_name fuel l w = Ok (l', w') -> in_step m l ->
  in_step m l' /\ calls m (src l) w m (src l') w'.
Proof using unseen follows.
  revert l w. induction fuel as [|fuel IH]; intros l w; [done|]. cbn [drain].
  destruct (synced l) eqn:Es; cbn [negb]; [|intros [= <- <-] Hi; split; [done|by apply followed_quiet]].
  assert (forall byte l0 w0, in_step m l0 -> have_work l0 = true ->
    (let '(l1, w1) := feed b word_name byte l0 w0 in drain b word_name fuel l1 w1) = Ok (l', w') ->
    in_step m l' /\ calls m (src l0) w0 m (src l') w') as Hstep.
  { intros byte l0 w0 Hi Hw. destruct (feed b word_name byte l0 w0) as [l1 w1] eqn:E.
    apply (feed_calls m) in E as (I1 & _ & T1); [|done..]. intros E2. apply IH in E2 as [I2 T2]; [|done].
    split; [done|by eapply followed_trans]. }
  intros E Hi. pose proof (proj1 Hi Es) as Hw. revert E. destruct (_ <? _)%nat.
  - set (l1 := l <| syncpos := (syncpos l + 1)%nat |>). assert (in_step m l1) as Hi1 by exact Hi. by apply (Hstep _ l1 w).
  - destruct (uart_get_nb (dev l) w) as [[byte u] w1] eqn:Eg. apply (get_nb_unseen obs) in Eg. destruct byte as [byte|].
    + set (l1 := l <| dev := u |>). assert (in_step m l1) as Hi1 by exact Hi.
      intros E. destruct (Hstep _ l1 w1 Hi1 Hw E) as [I T]. split; [done|].
      eapply followed_trans; [|exact T]. by apply followed_quiet.
    + intros [= <- <-]. split; [done|by apply followed_quiet].
Qed.
Lemma resync_calls m fuel l w l' w' :
  resync fuel l w = Ok (l', w') -> in_step m l -> in_step m l' /\ calls m (src l) w m (src l') w'.
Proof using unseen follows.
  unfold resync. intros E [Hs Hm]. revert E. destruct (negb (synced l) && have_work l) eqn:Ew; [|by intros [= <- <-]; split; [|apply followed_quiet]].
  destruct (frame_sync _ _ _ _ _ _ _) as [[[[[rc out] u] f] w1]| |] eqn:E; [|done..]. apply (frame_sync_unseen obs) in E.
  cbn [mbind res_bind snd] in *. apply andb_prop in Ew as [_ Hw].
  destruct (rc =? 0); intros [= <- <-]; (split; [by split|by apply followed_quiet]).
Qed.
Lemma push_work_calls m m' fuel next item l w l' w' :
  push_work fuel next item l w = Ok (l', w') -> in_step m l -> concerns m' next ->
  in_step m' l' /\ src l' = src l /\ obs w' = obs w.
Proof using unseen carries_on.
  unfold push_work. destruct (uart_wait_quiet _ _ _ _ _) as [[[q u] w1]|] eqn:E1; [|done]. apply (wait_quiet_unseen obs) in E1.
  cbn [fuelled from_option mbind res_bind snd] in *.
  destruct (uart_write _ _ _ _ _) as [[[ok u1] w2]|] eqn:E2; [|done].
  assert (ok = true \/ forall m c m' c', concerns m c -> concerns m' c' -> concerns m' c) as Hok.
  { destruct carries_on as [P|]; [left; by eapply P|by right]. }
  apply (uart_write_unseen obs) in E2. cbn [fuelled from_option mbind res_bind snd] in *. destruct ok; cycle 1.
  { destruct Hok as [|Hok]; [done|]. intros [= <- <-] [Hs Hm] Hc. split_and!; [|done|congruence].
    split; [exact Hs|]. intros Hw. exact (Hok _ _ _ _ (Hm Hw) Hc). }
  destruct (uart_drain_tx _ _ _) as [[d w3]|] eqn:E3; [|done]. apply (drain_tx_unseen obs) in E3.
  cbn [fuelled from_option mbind res_bind snd] in *. intros [= <- <-] _ Hc. split_and!; [|done|congruence]. by split.
Qed.
Lemma refresh_calls m fuel t l w cont l' w' :
  refresh b fuel t l w = Ok (cont, l', w') -> in_step m l ->
  exists m', in_step m' l' /\ calls m (src l) w m' (src l') w'.
Proof using unseen follows carries_on packs.
  unfold refresh. intros E Hi. revert E. destruct (_ || _); [|intros [= <- <- <-]; exists m; split; [done|by apply followed_quiet]].
  destruct (get_work (ops b) (src l) w) as [[r x] w1] eqn:E.
  apply (follow_work _ _ _ _ follows m) in E as (m' & T & Hr). destruct r as [next|]; cycle 1.
  { intros [= <- <- <-]. exists m'. split; [|exact T]. destruct Hi as [Hs Hm]. split; [exact Hs|]. intros Hw. by apply Hr, Hm. }
  pose proof (packs next) as Hp. destruct (worksrc_pack_item next (item_len b)) as [out n]. cbn [snd] in Hp.
  rewrite (proj2 (Nat.eqb_neq _ _) Hp). destruct (push_work _ _ _ _ _) as [[l1 w2]| |] eqn:E1; [|done..].
  apply (push_work_calls m m') in E1 as (I1 & S1 & W1); [|exact Hi|exact Hr]. cbn [mbind res_bind].
  intros [= <- <- <-]. exists m'. split; [exact I1|].
  eapply followed_trans; [exact T|]. change (src (l1 <| last_template := t |>)) with (src l1). rewrite S1. by apply followed_quiet.
Qed.
Lemma pass_calls m fuel l w l' w' :
  pass b word_name fuel l w = Ok (l', w') -> in_step m l ->
  exists m', in_step m' l' /\ calls m (src l) w m' (src l') w'.
Proof using unseen follows carries_on packs.
  unfold pass. intros E Hi. revert E. pose proof (now_s_unseen (obs := obs) w) as E1. destruct (now_s w) as [t w1]. cbn [snd] in E1.
  set (polled := match poll (ops b) with Some _ => _ | None => _ end).
  assert (in_step m polled.1 /\ calls m (src l) w m (src polled.1) polled.2) as [I0 T0].
  { subst polled. destruct (poll (ops b)) as [p|] eqn:Ep; [|split; [done|by apply followed_quiet]].
    destruct (p t (src l) w1) as [x w2] eqn:E2. apply (follow_poll _ _ _ _ follows m _ _ _ _ _ _ Ep) in E2. split; [done|].
    eapply followed_trans; [by apply followed_quiet|exact E2]. }
  destruct polled as [l0 w2]. cbn [fst snd] in *.
  destruct (refresh _ _ _ _ _) as [[[cont l1] w3]| |] eqn:E3; [|done..].
  apply (refresh_calls m) in E3 as (m' & I1 & T1); [|done]. pose proof (followed_trans _ _ _ _ _ _ _ _ _ T0 T1) as T.
  cbn [mbind res_bind]. destruct cont; [intros [= <- <-]; by exists m'|].
  destruct (resync _ _ _) as [[l2 w4]| |] eqn:E4; [|done..]. apply (resync_calls m') in E4 as [I2 T2]; [|done].
  cbn [mbind res_bind]. destruct (drain _ _ _ _ _) as [[l3 w5]| |] eqn:E5; [|done..].
  apply (drain_calls m') in E5 as [I3 T3]; [|done]. cbn [mbind res_bind]. intros [= <- <-]. exists m'.
  split; [by destruct (5 <=? _)|]. pose proof (usleep_unseen (obs := obs) 200 w5) as E6.
  eapply followed_trans; [exact T|]. eapply followed_trans; [exact T2|]. eapply followed_trans; [exact T3|].
  assert (src (if 5 <=? u64 (t - last_status l3) then l3 <| last_status := t |> else l3) = src l3) as -> by by destruct (5 <=? _).
  by apply followed_quiet.
Qed.
Lemma passes_calls m n fuel l w l' w' :
  passes b word_name n fuel l w = Ok (l', w') -> in_step m l ->
  exists m', in_step m' l' /\ calls m (src l) w m' (src l') w'.
Proof using unseen follows carries_on packs.
  revert m l w. induction n as [|n IH]; intros m l w; cbn [passes].
  { intros [= <- <-] Hi. exists m. split; [done|by apply followed_quiet]. }
  destruct (pass _ _ _ _ _) as [[l1 w1]| |] eqn:E; [|done..]. cbn [mbind res_bind]. intros E1 Hi.
  apply (pass_calls m) in E as (m1 & I1 & T1); [|done]. apply (IH m1) in E1 as (m2 & I2 & T2); [|done].
  exists m2. split; [done|by eapply followed_trans].
Qed.
End Loop.

(** ** A bench

    A UART whose transmitter always has room and whose receiver delivers each byte from
    the time it is due, and a log of what is said elsewhere. *)
Module Bench.
Record wired (A : Type) := Wired { ns : Z; line : list (Z * Z); log : list A }.
#[global] Arguments Wired {A}.
#[global] Arguments ns {A}.
#[global] Arguments line {A}.
#[global] Arguments log {A}.

Section Bench.
Context {A : Type}.
Definition later (dt : Z) (d : wired A) : wired A := Wired (ns d + dt) (line d) (log d).
Definition waiting (d : wired A) : option Z :=
  match line d with (t, b) :: _ => if t <=? ns d then Some b else None | [] => None end.
#[global] Instance wired_world : World (wired A) := {
  reg_read off d :=
    let d := later 1000 d in
    match waiting d with
    | Some b => if off =? UARTLITE_RX then (b, Wired (ns d) (List.tl (line d)) (log d)) else (5, d)
    | None => (4, d)
    end;
  reg_write _ _ d := later 1000 d;
  now_us d := let d := later 1000 d in (u64 (ns d / 1000), d);
  now_s d := let d := later 1000 d in (u64 (1700000000 + ns d / 1000000000), d);
  usleep us d := later (1000 * us) d
}.
Lemma log_unseen : Unseen (log (A := A)).
Proof.
  split; try done. intros off w. cbn [reg_read wired_world]. destruct (waiting _); [|done]. by destruct (off =? _).
Qed.
Lemma wired_prompt : Prompt (wired A).
Proof.
  intros fuel u item. revert u. induction item as [|b item IH]; intros u w ok u' w'; cbn [uart_write]; [by intros [= <- _ _]|].
  unfold uart_put. destruct (now_us w) as [t w1]. destruct fuel as [|fuel]; [done|]. cbn [put_wait].
  unfold uart_stat. destruct (reg_read UARTLITE_STAT w1) as [sr w2] eqn:E.
  assert (flag sr STAT_TX_FULL = false) as ->.
  { revert E. cbn [reg_read wired_world]. destruct (waiting _); [|by intros [= <- _]]. by intros [= <- _]. }
  cbn [mbind option_bind negb]. apply IH.
Qed.
End Bench.
End Bench.
End Follow.
