(* ===== verification/WorksrcStratum.v ===== *)
(** * The pool work source (src/miner/worksrc_stratum.c, worksrc_stratum.h)

    Two sessions, the item on the device and the push policy, over the stratum
    session, the Sia-dialect jobs and the developer fee. What the network does during
    a call is an input, as for the session; what is logged is left out. *)
From Stdlib Require Import SpecFloat Sorted.
From S2P Require Import Prelude Sha256 Blake2b WorkItem Worksrc Devfee Job SiaStratum Cdouble Decimal Json Cstring StratumTarget Stratum StratumMessages StratumLink Uart.

Module WorksrcStratum.
Import Blake2b WorkItem Worksrc Job SiaStratum Cdouble Decimal Cstring StratumTarget Stratum.
Import StratumMessages StratumLink.
Local Open Scope word_scope.

Inductive worksrc_chain := Knots | Sia.

(** Which session: [g_main] or [g_dev]. *)
Inductive which := Main | Dev.

(** What the item on the device was built from. *)
Record current := Current {
  sess : option which;           (* NULL before the first item *)
  job_id : list Z;               (* char[64] *)
  en2 : list Z;                  (* en2_len bytes of 32 *)
  ntime : list Z;
  target : list Z;
  cur_job_seq : Z;
  is_dev : bool;
  valid : bool
}.

(** The statics of the file, and the developer fee's. *)
Record source := Source {
  g_main : stratum;
  g_dev : stratum;
  g_dev_configured : bool;
  g_cur : current;
  g_en2_counter : Z;
  g_chain : worksrc_chain;
  g_last_prevhash : list Z;
  g_have_pushed : bool;
  g_last_push_at : Z;
  fees : Devfee.counters
}.
#[export] Instance source_fields : Fields source := fun x =>
  Source (g_main x) (g_dev x) (g_dev_configured x) (g_cur x) (g_en2_counter x) (g_chain x)
    (g_last_prevhash x) (g_have_pushed x) (g_last_push_at x) (fees x).

Definition session (k : which) (x : source) : stratum :=
  match k with Main => g_main x | Dev => g_dev x end.
Definition set_session (k : which) (s : stratum) (x : source) : source :=
  match k with Main => x <| g_main := s |> | Dev => x <| g_dev := s |> end.

(** ** Configuration *)

(** [strrchr(h, ':')]: the text before the last colon and the text after it. *)
Fixpoint last_colon (h : list Z) : option (list Z * list Z) :=
  match h with
  | [] => None
  | c :: h =>
    match last_colon h with
    | Some (a, b) => Some (c :: a, b)
    | None => if c =? 58 then Some ([], h) else None
    end
  end.
(** [atoi], the library's [strtol] cut to an [int]. *)
Definition atoi (p : list Z) : Z :=
  let v := u32 (strtoll p) in if 2 ^ 31 <=? v then v - 2 ^ 32 else v.

Definition set (p : option (list Z)) : bool := if p is Some (_ :: _) then true else false.
Definition or_x (password : option (list Z)) : option (list Z) :=
  Some (if set password then default [] password else str "x").

Definition worksrc_stratum_configure (chain : worksrc_chain) (host : option (list Z)) (port : Z)
    (worker password devfee_pool devfee_worker devfee_password : option (list Z)) (x : source) : source :=
  let x := x <| g_chain := chain |> <| g_main := stratum_init host port worker (or_x password) |>
             <| g_dev_configured := false |> in
  if set devfee_pool && set devfee_worker then
    let h := snprintf 192 (default [] devfee_pool) in
    let '(h, p) := match last_colon h with Some (a, b) => (a, atoi b) | None => (h, port) end in
    x <| g_dev := stratum_init (Some h) p devfee_worker (or_x devfee_password) |> <| g_dev_configured := true |>
  else x.

(** ** The source *)

(** What the network does during one call on one session. *)
Record meeting := Meeting { attempting : attempt; sending : list sent; receiving : list received }.

(** The big-endian counter in the last bytes of an extranonce2 of [n] bytes. *)
Definition roll (c : Z) (n : nat) : list Z :=
  foldl (fun e i => if (i <? n)%nat then <[(n - 1 - i)%nat := u8 ((c ≫ (8 * Z.of_nat i)) .& 0xff)]> e else e)
    (replicate n 0) (seq 0 8).

Section Source.
Context (strerror : Z -> list Z) (undef : double -> Z).

(** The sessions after a poll and what each wrote; [None] while a send has not
    returned. *)
Definition st_poll (on_main on_dev : meeting) (now : Z) (x : source) : option (source * list Z * list Z) :=
  '(s, w1) ← stratum_poll strerror undef (attempting on_main) (sending on_main) (receiving on_main) (g_main x) now;
  let x := x <| g_main := s |> in
  if g_dev_configured x then
    '(s, w2) ← stratum_poll strerror undef (attempting on_dev) (sending on_dev) (receiving on_dev) (g_dev x) now;
    Some (x <| g_dev := s |>, w1, w2)
  else Some (x, w1, []).

(** The context filled and the statics; the context is [None] for -1. *)
Definition build_from (k : which) (dev : bool) (x : source) : option work_ctx * source :=
  let s := session k x in
  let en2_len := if negb (en2_size s =? 0) then en2_size s else 8 in
  if Z.of_nat STRATUM_MAX_EN2 <? en2_len then (None, x)
  else
    let en2_len := Z.to_nat en2_len in
    let x := x <| g_en2_counter := u64 (g_en2_counter x + 1) |> in
    let e := roll (g_en2_counter x) en2_len in
    let en1 := take (en1_len s) (extranonce1 s) in
    let stages :=
      match g_chain x with
      | Sia => '(ss4, _) ← sia_build_header (job s) en1 e; Some (replicate STAGE3_LEN 0, ss4)
      | Knots =>
        '(ss3, ss4, _) ← sia_build_stages (job s) en1 e;
        if negb (length (branches (job s)) =? 0)%nat then None else Some (ss3, ss4)
      end in
    match stages with
    | None => (None, x)
    | Some (ss3, ss4) =>
      (Some (WorkCtx ss3 ss4 (stratum_target_top64 undef (difficulty s)) true),
       x <| g_cur := Current (Some k) (snprintf 64 (Job.job_id (job s))) e (Job.ntime (job s))
                       (stratum_target_full undef (difficulty s)) (job_seq (job s)) dev true |>)
    end.

Definition PUSH_MAX_AGE_S : Z := 30.

Definition pushed (s : stratum) (now : Z) (x : source) : source :=
  x <| g_last_prevhash := prevhash (job s) |> <| g_have_pushed := true |> <| g_last_push_at := now |>.

(** [st_get_work] once [time] has returned [now]. *)
Definition work_at (now : Z) (x : source) : option work_ctx * source :=
  let s := g_main x in
  let new_block := negb (g_have_pushed x) || negb (bool_decide (g_last_prevhash x = prevhash (job s))) in
  let stale := g_have_pushed x && (PUSH_MAX_AGE_S <=? u64 (now - g_last_push_at x)) in
  if negb new_block && negb stale then (None, x)
  else
    let '(want_dev, c) := Devfee.devfee_pool_epoch (fees x) in
    let x := x <| fees := c |> in
    let '(dev_work, x) :=
      if (want_dev && g_dev_configured x && stratum_ready (g_dev x)) : bool then build_from Dev true x else (None, x) in
    match dev_work with
    | Some ctx => (Some ctx, pushed s now x)
    | None =>
      let x := if want_dev then x <| fees := Devfee.devfee_pool_skip (fees x) |> else x in
      let '(work, x) := build_from Main false x in
      match work with
      | Some ctx => (Some ctx, pushed s now x)
      | None => (None, x)
      end
    end.
Definition st_get_work {W} `{Uart.World W} (x : source) (w : W) : option work_ctx * source * W :=
  if negb (stratum_ready (g_main x)) then (None, x, w)
  else
    let '(now, w) := Uart.now_s w in
    let '(work, x) := work_at now x in
    (work, x, w).

(** The verdict, the statics, the bytes written to the current item's session. *)
Definition st_on_candidate (sends : list sent) (ctx : work_ctx) (nonce hash_top64 : Z) (x : source)
    : option (Z * source * list Z) :=
  let expect := match g_chain x with
                | Sia => sia_chain_expected_top64 (ss4 ctx) nonce
                | Knots => sia_expected_top64 (ss4 ctx) nonce
                end in
  if negb (expect =? hash_top64) then Some (WORKSRC_CAND_BAD, x, [])
  else
    let pow := match g_chain x with
               | Sia => sia_chain_pow_compare (ss4 ctx) nonce
               | Knots => sia_pow_compare (ss4 ctx) nonce
               end in
    if negb (hash_meets_target pow (target (g_cur x))) then Some (WORKSRC_CAND_OK, x, [])
    else
      match (if valid (g_cur x) then sess (g_cur x) else None) with
      | None => Some (WORKSRC_CAND_OK, x, [])
      | Some k =>
        let s := session k x in
        if negb (cur_job_seq (g_cur x) =? job_seq (job s)) && clean (job s) then Some (WORKSRC_CAND_OK, x, [])
        else
          let nb := (fun i => u8 ((nonce ≫ (8 * Z.of_nat i)) .& 0xff)) <$> seq 0 8 in
          '(ok, s, wire) ← stratum_submit sends s (job_id (g_cur x)) (en2 (g_cur x)) (ntime (g_cur x)) nb;
          let x := set_session k s x in
          if ok : bool
          then Some (WORKSRC_CAND_SOLUTION,
                     if is_dev (g_cur x) then x <| fees := Devfee.devfee_pool_credit (fees x) |> else x, wire)
          else Some (WORKSRC_CAND_OK, x, wire)
      end.

(** The main session is handed a line. *)
Definition worksrc_stratum_test_feed (line : list Z) (now : Z) (x : source) : source :=
  x <| g_main := on_line undef (g_main x) line now |>.
End Source.

(** The two backends, over the same callbacks. *)
Definition g_backend_knots {callbacks} (ops : callbacks) : @worksrc callbacks :=
  WorkSrc (Some (str "stratum")) ops 5 WORK_ITEM_LEN.
Definition g_backend_sia {callbacks} (ops : callbacks) : @worksrc callbacks :=
  WorkSrc (Some (str "sia")) ops 5 (STAGE4_LEN + 8).
Definition worksrc_stratum_backend {callbacks} (ops : callbacks) (x : source) : @worksrc callbacks :=
  match g_chain x with Sia => g_backend_sia ops | Knots => g_backend_knots ops end.

(** ** The status page's snapshot *)
Record worksrc_stratum_status_t := Status {
  connected : bool; st_subscribed : bool; st_authorized : bool; has_job : bool;
  st_difficulty : double;
  st_jobs_received : Z; st_shares_submitted : Z; st_shares_accepted : Z; st_shares_rejected : Z;
  st_reconnects : Z;
  pool : list Z;                 (* char[192] *)
  st_job_id : list Z;            (* char[64] *)
  st_last_error : list Z;        (* char[192] *)
  st_last_reject : list Z        (* char[128] *)
}.
Definition worksrc_stratum_status (x : source) : worksrc_stratum_status_t :=
  let m := g_main x in
  let with_dev (f : stratum -> Z) := u64 (f m + if g_dev_configured x then f (g_dev x) else 0) in
  Status (0 <=? fd m) (subscribed m) (authorized m) (have_job m) (difficulty m) (jobs_received m)
    (with_dev shares_submitted) (with_dev shares_accepted) (with_dev shares_rejected) (reconnects m)
    (snprintf 192 (take 150 (host m) ++ str ":" ++ dec_int (port m)))
    (snprintf 64 (Job.job_id (job m))) (snprintf 192 (last_error m)) (snprintf 128 (Json.cstr (last_reject m))).

(** ** The pool's side

    How a pool judges a share of one of its jobs, from its own data: FIPS and RFC
    functions only. *)
Module Spec.
Definition arbtx (j : stratum_job) (en1 en2 : list Z) : list Z := coinb1 j ++ en1 ++ en2 ++ coinb2 j.
Definition merkle_root (j : stratum_job) (en1 en2 : list Z) : list Z :=
  foldl (fun acc branch => Blake2b.Spec.blake2b (0x01 :: branch ++ acc) 32)
    (Blake2b.Spec.blake2b (0x00 :: arbtx j en1 en2) 32) (branches j).
Definition digest (j : stratum_job) (en1 en2 ntime nonce : list Z) : list Z :=
  Blake2b.Spec.blake2b (prevhash j ++ nonce ++ ntime ++ merkle_root j en1 en2) 32.
(** Knots reads the digest as a little-endian number, Siacoin as a big-endian one. *)
Definition value (chain : worksrc_chain) (d : list Z) : Z :=
  match chain with Knots => le_val d | Sia => be_val d end.
Definition share_target (undef : double -> Z) (d : double) : Z :=
  0xffff * 2 ^ 208 / scaled_difficulty undef d * 2 ^ 32.
End Spec.

(** ** Rolling the extranonce2 *)
Lemma roll_lookup c n k :
  (k < n)%nat -> roll c n !! k = Some (if (n - 1 - k <? 8)%nat then u8 (c ≫ (8 * Z.of_nat (n - 1 - k))) else 0).
Proof.
  intros Hk. unfold roll. generalize 8%nat as m. induction m as [|m IH].
  - cbn [seq foldl]. rewrite lookup_replicate_2 by done. by rewrite (proj2 (Nat.ltb_ge _ _)) by lia.
  - rewrite seq_S, foldl_app. cbn [foldl Nat.add]. set (e := foldl _ _ _) in *.
    assert (length e = n) as He.
    { subst e. clear. generalize (seq 0 m) as l. intros l.
      assert (forall e0, length e0 = n -> length (foldl (fun e i => if (i <? n)%nat
        then <[(n - 1 - i)%nat := u8 ((c ≫ (8 * Z.of_nat i)) .& 0xff)]> e else e) e0 l) = n) as H.
      { induction l as [|i l IHl]; intros e0 H0; [done|]. cbn [foldl]. apply IHl.
        destruct (_ <? _)%nat; [by rewrite length_insert|done]. }
      apply H. apply length_replicate. }
    destruct (Nat.ltb_spec m n) as [Hm|Hm].
    + destruct (decide (k = (n - 1 - m)%nat)) as [->|Hne].
      * rewrite list_lookup_insert_eq by lia.
        replace (n - 1 - (n - 1 - m))%nat with m by lia.
        rewrite (proj2 (Nat.ltb_lt _ _)) by lia. f_equal. apply u8_small, u8_word.
      * rewrite list_lookup_insert_ne by lia. rewrite IH. f_equal.
        by rewrite (proj2 (Nat.ltb_lt m n)) in * || (destruct (Nat.ltb_spec (n - 1 - k) m), (Nat.ltb_spec (n - 1 - k) (S m)); (done || lia)).
    + rewrite IH. destruct (Nat.ltb_spec (n - 1 - k) m), (Nat.ltb_spec (n - 1 - k) (S m)); (done || lia).
Qed.
Lemma roll_spec c n : is_word 64 c -> roll c n = be_bytes n c.
Proof.
  intros Hc. apply list_eq. intros k.
  assert (length (roll c n) = n) as Hl.
  { unfold roll. generalize (seq 0 8) as l. intros l. rewrite <- (length_replicate n 0) at 2.
    generalize (replicate n 0) as e. induction l as [|i l IH]; intros e; [done|]. cbn [foldl]. rewrite IH.
    destruct (_ <? _)%nat; [apply length_insert|done]. }
  destruct (Nat.lt_ge_cases k n) as [Hk|Hk].
  2:{ rewrite !lookup_ge_None_2; [done|by rewrite length_be_bytes|by rewrite Hl]. }
  rewrite roll_lookup by done. unfold be_bytes. rewrite (rev_alt (le_bytes n c)).
  change (rev_append (le_bytes n c) []) with (reverse (le_bytes n c)).
  rewrite reverse_lookup, length_le_bytes by (by rewrite length_le_bytes).
  unfold le_bytes. rewrite list_lookup_fmap, lookup_seq_lt by lia. cbn [fmap option_fmap option_map Nat.add].
  replace (n - S k)%nat with (n - 1 - k)%nat by lia. f_equal.
  destruct (Nat.ltb_spec (n - 1 - k) 8) as [|H8]; [done|].
  rewrite Z.shiftr_div_pow2, Z.div_small; [done| |lia]. destruct Hc as [Hc0 Hc]. split; [done|].
  eapply Z.lt_le_trans; [exact Hc|]. apply Z.pow_le_mono_r; lia.
Qed.
Lemma roll_bytes c n : is_word 64 c -> array n (roll c n).
Proof. intros. rewrite roll_spec by done. split; [apply length_be_bytes|apply bytes_be_bytes]. Qed.
(** Counters less than [256^n] apart give different bytes. *)
Lemma roll_inj c d n :
  is_word 64 c -> is_word 64 d -> 0 < d - c < 2 ^ (8 * Z.of_nat n) -> roll c n <> roll d n.
Proof.
  intros Hc Hd Hlt E. rewrite !roll_spec in E by done. apply (f_equal be_val) in E.
  rewrite !be_val_be_bytes in E. set (m := 2 ^ _) in *.
  assert ((d - c) mod m = 0) as H by (rewrite Zminus_mod, <- E, Z.sub_diag; apply Z.mod_0_l; lia).
  rewrite Z.mod_small in H by lia. lia.
Qed.

(** ** The item against the pool's header *)
Lemma hashed m :
  bytes m -> (length m <= 4096)%nat ->
  blake2b_nokey m 32 = Blake2b.Spec.blake2b m 32 /\ array 32 (Blake2b.Spec.blake2b m 32).
Proof.
  intros Hb Hl. assert (Z.of_nat (length m) < 2 ^ 64) by (assert (2 ^ 64 = 18446744073709551616) as -> by done; lia).
  rewrite <- blake2b_nokey_rfc by (done || lia). split; [done|].
  split; [by apply length_blake2b_nokey|apply bytes_blake2b_nokey].
Qed.

Lemma pool_root_spec j en1 en2 :
  wf_job j -> bytes en1 -> bytes en2 -> (length (Spec.arbtx j en1 en2) <= 4 * STRATUM_MAX_CB)%nat ->
  sia_merkle_root j (sia_arbtx_leaf (Spec.arbtx j en1 en2)) = Spec.merkle_root j en1 en2
  /\ array 32 (Spec.merkle_root j en1 en2).
Proof.
  intros Hj H1 H2 Hl. unfold Spec.merkle_root, sia_merkle_root, sia_arbtx_leaf. rewrite take_ge by done.
  assert (bytes (Spec.arbtx j en1 en2)) as Hb.
  { unfold Spec.arbtx. repeat (apply Forall_app; split); try done; apply Hj. }
  destruct (hashed (0 :: Spec.arbtx j en1 en2)) as [-> Ha].
  { constructor; [by_compute|done]. }
  { unfold STRATUM_MAX_CB in Hl. cbn [length]. lia. }
  generalize dependent (Blake2b.Spec.blake2b (0 :: Spec.arbtx j en1 en2) 32).
  destruct (wf_branches j Hj) as [Hbr _]. induction Hbr as [|b bs [Hbl Hbb] _ IH]; intros acc [Hal Hab]; [done|].
  cbn [foldl]. destruct (hashed (1 :: b ++ acc)) as [-> Hn].
  - constructor; [by_compute|]. by apply Forall_app.
  - cbn [length]. rewrite length_app. lia.
  - by apply IH.
Qed.

Lemma share_header_spec j nonce root :
  wf_job j -> array 32 root ->
  array 80 (header_around j root)
  /\ put_nonce (header_around j root) nonce = prevhash j ++ le_bytes 8 nonce ++ Job.ntime j ++ root.
Proof.
  intros Hj [Hl Hb]. destruct (wf_prevhash j Hj) as [Hp Hpb], (wf_ntime j Hj) as [Ht Htb].
  rewrite header_around_spec by done. split.
  - split; [rewrite !length_app, length_replicate; lia|]. repeat (apply Forall_app; split); auto using bytes_zeros.
  - by apply put_nonce_spec.
Qed.

(** The session's extranonce1. *)
Definition extranonce (s : stratum) : list Z := take (en1_len s) (extranonce1 s).
(** What [build_from] leaves behind when it makes an item for job [j] with [e]. *)
Record built (undef : double -> Z) (k : which) (dev : bool) (x x' : source) (ctx : work_ctx) (e : list Z) : Prop := {
  built_en2 : e = roll (u64 (g_en2_counter x + 1)) (length e) /\ (1 <= length e <= STRATUM_MAX_EN2)%nat /\ bytes e;
  built_source : x' = x <| g_en2_counter := u64 (g_en2_counter x + 1) |>
    <| g_cur := Current (Some k) (Job.job_id (job (session k x))) e (Job.ntime (job (session k x)))
                  (stratum_target_full undef (difficulty (session k x))) (job_seq (job (session k x))) dev true |>;
  built_header : forall nonce, put_nonce (ss4 ctx) nonce
    = prevhash (job (session k x)) ++ le_bytes 8 nonce ++ Job.ntime (job (session k x))
      ++ Spec.merkle_root (job (session k x)) (extranonce (session k x)) e;
  built_arrays : array 80 (ss4 ctx) /\ array 32 (Spec.merkle_root (job (session k x)) (extranonce (session k x)) e);
  built_knots : g_chain x = Knots -> branches (job (session k x)) = []
    /\ length (Spec.arbtx (job (session k x)) (extranonce (session k x)) e) = 51%nat;
  built_target : target_top64 ctx = stratum_target_top64 undef (difficulty (session k x))
}.

Lemma build_from_spec undef k dev x ctx x' :
  wf_session (session k x) -> 0 <= en2_size (session k x) ->
  build_from undef k dev x = (Some ctx, x') -> exists e, built undef k dev x x' ctx e.
Proof.
  intros Hs Hn. unfold build_from. set (s := session k x) in *.
  set (n := if negb (en2_size s =? 0) then en2_size s else 8).
  assert (1 <= n) as Hn1 by (subst n; destruct (Z.eqb_spec (en2_size s) 0); cbn [negb]; lia).
  destruct (Z.ltb_spec (Z.of_nat STRATUM_MAX_EN2) n) as [|Hmax]; [done|].
  cbn [g_en2_counter g_chain update source_fields]. set (c := u64 (g_en2_counter x + 1)).
  destruct (roll_bytes c (Z.to_nat n) (u64_word _)) as [Hel Heb]. set (e := roll c (Z.to_nat n)) in *.
  fold (extranonce s). assert (bytes (extranonce s)) as Hen1 by (apply Forall_take, (wf_extranonce1 s Hs)).
  pose proof (wf_session_job s Hs) as Hj. set (stages := match g_chain x with Knots => _ | Sia => _ end).
  assert (forall ss3 ss4, stages = Some (ss3, ss4) ->
    ss4 = header_around (job s) (Spec.merkle_root (job s) (extranonce s) e)
    /\ array 32 (Spec.merkle_root (job s) (extranonce s) e)
    /\ (g_chain x = Knots -> branches (job s) = [] /\ length (Spec.arbtx (job s) (extranonce s) e) = 51%nat)) as Hst.
  { intros ss3 ss4. subst stages. unfold sia_build_header, sia_build_stages. rewrite arbtx_spec.
    fold (Spec.arbtx (job s) (extranonce s) e).
    destruct (Nat.ltb_spec (4 * STRATUM_MAX_CB) (length (Spec.arbtx (job s) (extranonce s) e))) as [|Hl];
      [by destruct (g_chain x)|].
    destruct (pool_root_spec (job s) (extranonce s) e Hj Hen1 Heb Hl) as [Hr Ha].
    destruct (g_chain x); cbn [mbind option_bind].
    - destruct (Nat.eqb_spec (length (Spec.arbtx (job s) (extranonce s) e) + 1) STAGE3_LEN) as [H51|]; cbn [negb mbind option_bind]; [|done].
      destruct (Nat.eqb_spec (length (branches (job s))) 0) as [Hb%length_zero_iff_nil|]; cbn [negb]; [|done].
      rewrite Hr. intros [= _ <-]. split; [done|]. split; [done|]. intros _. split; [done|]. unfold STAGE3_LEN in H51. lia.
    - rewrite Hr. intros [= _ <-]. split; [done|]. by split. }
  clearbody stages. destruct stages as [[ss3 ss4]|]; [|done]. intros [= <- <-].
  destruct (Hst ss3 ss4 eq_refl) as (-> & Ha & Hk). exists e.
  destruct (share_header_spec (job s) 0 _ Hj Ha) as [H80 _].
  pose proof (wf_job_id (job s) Hj) as Hid.
  constructor; cbn [Worksrc.ss4 Worksrc.target_top64]; try done.
  - rewrite Hel. split; [done|]. split; [lia|done].
  - unfold snprintf. by rewrite take_ge by lia.
  - intros nonce. by apply share_header_spec.
Qed.

(** The value compared with the target is the pool's. *)
Lemma pow_value undef k dev x0 x1 ctx e nonce :
  wf_session (session k x0) -> built undef k dev x0 x1 ctx e ->
  let j := job (session k x0) in
  let pow := match g_chain x0 with
             | Sia => sia_chain_pow_compare (ss4 ctx) nonce
             | Knots => sia_pow_compare (ss4 ctx) nonce
             end in
  array 32 pow /\
  be_val pow = Spec.value (g_chain x0) (Spec.digest j (extranonce (session k x0)) e (Job.ntime j) (le_bytes 8 nonce)).
Proof.
  intros Hs B j pow. subst pow. destruct (built_arrays _ _ _ _ _ _ _ B) as [[H80 _] [Hrl Hrb]].
  pose proof (wf_session_job _ Hs) as Hj. destruct (wf_prevhash _ Hj), (wf_ntime _ Hj).
  destruct (hashed (put_nonce (ss4 ctx) nonce)) as [Hd [Hdl Hdb]].
  { rewrite (built_header _ _ _ _ _ _ _ B). repeat (apply Forall_app; split); try done. apply bytes_le_bytes. }
  { rewrite length_put_nonce by done. lia. }
  assert (Blake2b.Spec.blake2b (put_nonce (ss4 ctx) nonce) 32
    = Spec.digest j (extranonce (session k x0)) e (Job.ntime j) (le_bytes 8 nonce)) as Hp
    by by rewrite (built_header _ _ _ _ _ _ _ B).
  destruct (g_chain x0).
  - rewrite pow_compare_spec, Hd by done. split; [split; [by rewrite length_rev|by apply bytes_rev]|].
    cbn [Spec.value]. by rewrite be_val_rev, rev_involutive, Hp.
  - unfold sia_chain_pow_compare. rewrite Hd. split; [done|]. cbn [Spec.value]. by rewrite Hp.
Qed.

Lemma submit_success sends s i e t n s' wire :
  stratum_submit sends s i e t n = Some (true, s', wire) ->
  wire = submit_line (u64 (next_id s + 1)) (worker s) i e t n
  /\ s' = s <| next_id := u64 (next_id s + 1) |> <| shares_submitted := u64 (shares_submitted s + 1) |>.
Proof.
  unfold stratum_submit. destruct (Z.ltb_spec (fd s) 0) as [|Hf]; [done|].
  set (s1 := s <| next_id := _ |>). change (next_id s1) with (u64 (next_id s + 1)). change (worker s1) with (worker s).
  destruct (send_line sends s1 _) as [[[[ok s2] w] r]|] eqn:E; cbn [mbind option_bind]; [|done].
  apply send_line_cases in E; [|done]. destruct ok; cbn [negb]; [|done]. destruct E as [-> ->]. by intros [= <- <-].
Qed.

(** A candidate writes nothing, or the submission of the current item with its nonce,
    after the full comparison. *)
Lemma offer_cases sends ctx nonce word x v x' wire :
  st_on_candidate sends ctx nonce word x = Some (v, x', wire) ->
  (x' = x /\ wire = [] /\ v <> WORKSRC_CAND_SOLUTION)
  \/ exists k ok s' c, sess (g_cur x) = Some k
     /\ hash_meets_target (match g_chain x with Sia => sia_chain_pow_compare (ss4 ctx) nonce | Knots => sia_pow_compare (ss4 ctx) nonce end)
          (target (g_cur x)) = true
     /\ stratum_submit sends (session k x) (job_id (g_cur x)) (en2 (g_cur x)) (ntime (g_cur x)) (le_bytes 8 nonce) = Some (ok, s', wire)
     /\ x' = (set_session k s' x) <| fees := c |>
     /\ v = if ok then WORKSRC_CAND_SOLUTION else WORKSRC_CAND_OK.
Proof.
  unfold st_on_candidate. cbv zeta. destruct (negb (_ =? word)); [intros [= <- <- <-]; by left|].
  destruct (hash_meets_target _ _) eqn:Eh; cbn [negb]; [|intros [= <- <- <-]; by left].
  destruct (if valid (g_cur x) then sess (g_cur x) else None) as [k|] eqn:Ek; [|intros [= <- <- <-]; by left].
  destruct (valid (g_cur x)); [|done].
  destruct (_ && _); [intros [= <- <- <-]; by left|].
  assert ((fun i => u8 ((nonce ≫ (8 * Z.of_nat i)) .& 0xff)) <$> seq 0 8 = le_bytes 8 nonce) as ->.
  { apply list_fmap_ext. intros i y _. apply u8_small, u8_word. }
  destruct (stratum_submit _ _ _ _ _ _) as [[[ok s1] w]|] eqn:E; cbn [mbind option_bind]; [|done].
  intros H. right. assert (exists c, x' = (set_session k s1 x) <| fees := c |> /\ wire = w /\ v = if ok then WORKSRC_CAND_SOLUTION else WORKSRC_CAND_OK)
    as (c & -> & -> & ->).
  { destruct ok; [|injection H as <- <- <-; exists (fees x); split; [by destruct k, x|done]].
    destruct (is_dev _); injection H as <- <- <-; [|exists (fees x); split; [by destruct k, x|done]].
    by exists (Devfee.Devfee.devfee_pool_credit (fees (set_session k s1 x))). }
  by exists k, ok, s1, c.
Qed.

(** What the miner submits is a share. Take any item that [build_from] made for a
    job of a session, and any later moment at which it is still the current item,
    whatever the session has been through since. If the source answers a report of the
    device with [WORKSRC_CAND_SOLUTION], then the line on that session's socket reads
    back, through the scanner, as a [mining.submit] of that job with extranonce2,
    time and nonce bytes from which the pool, hashing its own copy of the job with the
    extranonce1 the job was received under, computes a value at or below the share
    target of the difficulty in force when the item was made. *)
Theorem solution_is_valid_share undef k dev x0 ctx x1 sends nonce word x x' wire :
  let s0 := session k x0 in let s := session k x in let j := job s0 in
  wf_session s0 -> 0 <= en2_size s0 -> Json.Spec.plain (Job.job_id j) ->
  0 < scaled_difficulty undef (difficulty s0) <= 2 ^ 63 ->
  build_from undef k dev x0 = (Some ctx, x1) ->
  g_cur x = g_cur x1 -> g_chain x = g_chain x0 ->
  wf_session s -> Json.Spec.plain (worker s) -> next_id s + 1 < 2 ^ 53 ->
  st_on_candidate sends ctx nonce word x = Some (WORKSRC_CAND_SOLUTION, x', wire) ->
  exists e,
    read_submit undef wire = Some (next_id s + 1, str "mining.submit", worker s, Job.job_id j, e, Job.ntime j, le_bytes 8 nonce)
    /\ Spec.value (g_chain x0) (Spec.digest j (extranonce s0) e (Job.ntime j) (le_bytes 8 nonce))
       <= Spec.share_target undef (difficulty s0).
Proof.
  intros s0 s j Hs0 Hn Pj Hd Hb Ec Eg Hs Pw Hid Ho. apply build_from_spec in Hb as [e B]; [|done..]. fold s0 in B.
  pose proof (pow_value undef k dev x0 x1 ctx e nonce Hs0 B) as [Ha Hv]. fold s0 j in Hv.
  apply offer_cases in Ho as [(_ & _ & ?)|(k' & ok & s' & c & Ek & Hm & Hw & _ & Ev)]; [done|].
  rewrite Ec, (built_source _ _ _ _ _ _ _ B) in *. cbn [g_cur source_fields update target sess job_id en2 ntime] in *. fold s0 j in Hm, Hw.
  injection Ek as <-. fold s in Hw. destruct ok; [|done]. apply submit_success in Hw as [-> _].
  destruct (target_full_spec undef (difficulty s0) Hd) as [Ht Htv].
  rewrite Eg, hash_meets_target_spec in Hm by done. apply Z.leb_le in Hm.
  pose proof (wf_next_id s Hs) as [Hi0 _]. rewrite u64_small by (split; [lia|etransitivity; [exact Hid|done]]).
  destruct (built_en2 _ _ _ _ _ _ _ B) as (_ & [_ Hel] & Heb). pose proof (wf_session_job s0 Hs0) as Hj.
  assert (next_id s + 1 < 2 ^ 64) by (etransitivity; [exact Hid|done]).
  exists e. split.
  - rewrite submit_line_print; try done; [|lia|apply (wf_worker s Hs)|apply Hj|apply (wf_ntime j Hj)].
    apply read_submit_message; try done;
      [lia|apply (wf_worker s Hs)|apply (wf_job_id j Hj)|apply (wf_ntime j Hj)|split; [done|apply bytes_le_bytes]].
  - rewrite <- Hv. unfold Spec.share_target. by rewrite <- Htv.
Qed.

(** ** Histories

    Any interleaving of the source's entry points, with any network; a call of
    [get_work] that makes an item leaves the item's session and extranonce2 in the
    record. *)
Definition made (r : option work_ctx * source) : list (which * list Z) :=
  match r with
  | (Some _, x) => (fun k => (k, en2 (g_cur x))) <$> option_list (sess (g_cur x))
  | (None, _) => []
  end.
Inductive step (strerror : Z -> list Z) (undef : double -> Z) (x : source) : list (which * list Z) -> source -> Prop :=
  | StepPoll m d now x' w1 w2 : st_poll strerror undef m d now x = Some (x', w1, w2) -> step strerror undef x [] x'
  | StepWork now : stratum_ready (g_main x) = true ->
      step strerror undef x (made (work_at undef now x)) (work_at undef now x).2
  | StepCandidate sends ctx nonce word v x' wire :
      st_on_candidate sends ctx nonce word x = Some (v, x', wire) -> step strerror undef x [] x'.
Inductive history strerror undef (x0 : source) : nat -> list (which * list Z) -> source -> Prop :=
  | HistoryStart : history strerror undef x0 0 [] x0
  | HistoryStep n t x t' x' : history strerror undef x0 n t x -> step strerror undef x t' x' ->
      history strerror undef x0 (S n) (t ++ t') x'.

(** The developer's items. *)
Definition dev_items (t : list (which * list Z)) : Z :=
  Z.of_nat (length (List.filter (fun i => match i.1 with Dev => true | Main => false end) t)).
Lemma dev_items_app t u : dev_items (t ++ u) = dev_items t + dev_items u.
Proof. unfold dev_items. rewrite List.filter_app, length_app. lia. Qed.

(** One [build_from]: the counter moves by at most one, and an item carries it. *)
Definition rolled (x : source) (t : list (which * list Z)) (x' : source) : Prop :=
  exists cs, Forall2 (fun c i => i.2 = roll c (length i.2)) cs t /\ StronglySorted Z.lt cs
    /\ Forall (fun c => g_en2_counter x < c <= g_en2_counter x') cs.
Lemma build_rolls undef k dev x w x' :
  build_from undef k dev x = (w, x') -> 0 <= g_en2_counter x < 2 ^ 64 - 1 ->
  fees x' = fees x /\ g_en2_counter x <= g_en2_counter x' <= g_en2_counter x + 1
  /\ (w <> None -> sess (g_cur x') = Some k /\ g_en2_counter x' = g_en2_counter x + 1
      /\ en2 (g_cur x') = roll (g_en2_counter x') (length (en2 (g_cur x')))).
Proof.
  intros E Hc. assert (u64 (g_en2_counter x + 1) = g_en2_counter x + 1) as Hu by (apply u64_small; unfold is_word; lia).
  revert E. unfold build_from. cbv zeta. set (n := if negb _ then _ else 8).
  destruct (_ <? n); [intros [= <- <-]; split; [done|]; split; [lia|done]|].
  cbn [g_en2_counter g_chain update source_fields]. rewrite Hu.
  set (e := roll _ (Z.to_nat n)). set (stages := match g_chain x with Knots => _ | Sia => _ end). clearbody stages.
  destruct stages as [[ss3 ss4]|]; intros [= <- <-]; cbn [fees g_en2_counter update source_fields];
    (split; [done|split; [lia|]]); [|done].
  intros _. cbn [sess g_cur en2 update source_fields]. split_and!; [done..|].
  assert (length e = Z.to_nat n) as He by (apply roll_bytes; unfold is_word; lia). by rewrite He.
Qed.
Lemma rolled_one x x' k e :
  g_en2_counter x < g_en2_counter x' -> e = roll (g_en2_counter x') (length e) -> rolled x [(k, e)] x'.
Proof.
  intros Hc He. exists [g_en2_counter x']. split; [by repeat constructor|]. split; repeat constructor; lia.
Qed.
Lemma rolled_nil x x' : rolled x [] x'.
Proof. exists []. repeat constructor. Qed.
Lemma rolled_app x y z t u :
  g_en2_counter x <= g_en2_counter y <= g_en2_counter z -> rolled x t y -> rolled y u z -> rolled x (t ++ u) z.
Proof.
  intros Hc (cs & F1 & S1 & B1) (ds & F2 & S2 & B2). exists (cs ++ ds). split; [by apply Forall2_app|]. split.
  - clear F1 F2. induction S1 as [|c cs S1 IH L1]; [done|]. apply Forall_cons in B1 as [Hb B1]. cbn [app].
    constructor; [by apply IH|]. apply Forall_app. split; [done|]. eapply Forall_impl; [exact B2|]. cbn. lia.
  - apply Forall_app. split; (eapply Forall_impl; [eassumption|cbn; lia]).
Qed.

(** The developer's jobs that were not skipped. *)
Definition balance (x : source) : Z := u64 (Devfee.g_pool_dev_jobs (fees x) - Devfee.g_pool_skipped (fees x)).
Definition books (x : source) (t : list (which * list Z)) (x' : source) : Prop :=
  balance x' = u64 (balance x + dev_items t) /\ rolled x t x'
  /\ g_en2_counter x <= g_en2_counter x' <= g_en2_counter x + 2 /\ (length t <= 1)%nat.
Lemma books_same x x' :
  balance x' = balance x -> g_en2_counter x' = g_en2_counter x -> books x [] x'.
Proof.
  intros Hb Hc. unfold books. rewrite Hb, Hc. split_and!; [|apply rolled_nil|lia..|cbn; lia].
  change (dev_items []) with 0. rewrite Z.add_0_r. symmetry. apply u64_small, u64_word.
Qed.

Lemma books_item x x2 ctx s now k :
  sess (g_cur x2) = Some k -> g_en2_counter x < g_en2_counter x2 <= g_en2_counter x + 2 ->
  en2 (g_cur x2) = roll (g_en2_counter x2) (length (en2 (g_cur x2))) ->
  balance x2 = u64 (balance x + match k with Dev => 1 | Main => 0 end) ->
  books x (made (Some ctx, pushed s now x2)) (pushed s now x2).
Proof.
  intros Hs Hc He Hb. assert (made (Some ctx, pushed s now x2) = [(k, en2 (g_cur x2))]) as ->.
  { unfold made. change (g_cur (pushed s now x2)) with (g_cur x2). by rewrite Hs. }
  unfold books. change (balance (pushed s now x2)) with (balance x2).
  change (g_en2_counter (pushed s now x2)) with (g_en2_counter x2). split_and!; [|by apply rolled_one; [cbn; lia|]|lia..|done].
  rewrite Hb. by destruct k.
Qed.
Lemma work_books undef now x :
  0 <= g_en2_counter x < 2 ^ 64 - 2 -> books x (made (work_at undef now x)) (work_at undef now x).2.
Proof.
  intros Hc. unfold work_at. cbv zeta. destruct (negb _ && negb _); [by apply books_same|].
  unfold Devfee.devfee_pool_epoch. set (want := _ mod _ =? 0). clearbody want.
  set (x1 := x <| fees := _ |>). assert (g_en2_counter x1 = g_en2_counter x) as C1 by done.
  assert (balance x1 = u64 (balance x + if want then 1 else 0)) as B1.
  { subst x1. unfold balance. cbn [fees update source_fields Devfee.g_pool_dev_jobs Devfee.g_pool_skipped].
    rewrite u64_add_l. destruct want; [|by rewrite Z.add_0_r].
    unfold Z.sub at 1. rewrite u64_add_l. f_equal. lia. }
  clearbody x1. set (dev := want && _ && _).
  destruct (if dev then build_from undef Dev true x1 else (None, x1)) as [w x2] eqn:E2.
  assert (fees x2 = fees x1 /\ g_en2_counter x <= g_en2_counter x2 <= g_en2_counter x + 1
    /\ (w <> None -> want = true /\ sess (g_cur x2) = Some Dev /\ g_en2_counter x2 = g_en2_counter x + 1
        /\ en2 (g_cur x2) = roll (g_en2_counter x2) (length (en2 (g_cur x2))))) as (F2 & C2 & W2).
  { destruct dev eqn:Ed; [|injection E2 as <- <-; split; [done|]; split; [lia|done]].
    apply build_rolls in E2 as (F & C & W); [|lia]. rewrite C1 in *. split; [done|]. split; [done|].
    intros Hw. split; [by destruct want|]. by apply W. }
  clear E2 dev. assert (balance x2 = balance x1) as B2 by (unfold balance; by rewrite F2).
  destruct w as [ctx|].
  - destruct W2 as (-> & Hs & Hn & He); [done|]. apply (books_item x x2 ctx _ now Dev); try done; [lia|].
    by rewrite B2, B1.
  - set (x3 := if want then _ else x2).
    assert (balance x3 = balance x /\ g_en2_counter x3 = g_en2_counter x2) as [B3 C3].
    { subst x3. destruct want.
      - split; [|done]. unfold balance in *. cbn [fees update source_fields Devfee.devfee_pool_skip Devfee.g_pool_dev_jobs Devfee.g_pool_skipped].
        rewrite <- (u64_small (u64 (_ - Devfee.g_pool_skipped (fees x)))) by apply u64_word.
        rewrite !u64_mod in *. rewrite Zminus_mod_idemp_r.
        replace (Devfee.g_pool_dev_jobs (fees x2) - (Devfee.g_pool_skipped (fees x2) + 1))
          with (Devfee.g_pool_dev_jobs (fees x2) - Devfee.g_pool_skipped (fees x2) - 1) by lia.
        rewrite <- Zminus_mod_idemp_l, B2, B1, Zminus_mod_idemp_l. f_equal. lia.
      - split; [|done]. rewrite B2, B1, Z.add_0_r. apply u64_small, u64_word. }
    clearbody x3. destruct (build_from undef Main false x3) as [w x4] eqn:E4.
    apply build_rolls in E4 as (F4 & C4 & W4); [|lia].
    assert (balance x4 = balance x) as B4 by (unfold balance in *; by rewrite F4, B3).
    destruct w as [ctx|].
    + destruct W4 as (Hs & Hn & He); [done|]. apply (books_item x x4 ctx _ now Main); try done; [lia|].
      rewrite B4, Z.add_0_r. symmetry. apply u64_small, u64_word.
    + unfold books, made. cbn [snd]. rewrite B4. split_and!; [|apply rolled_nil|lia..|cbn; lia].
      change (dev_items []) with 0. rewrite Z.add_0_r. symmetry. apply u64_small, u64_word.
Qed.

Lemma step_books strerror undef x t x' :
  step strerror undef x t x' -> 0 <= g_en2_counter x < 2 ^ 64 - 2 -> books x t x'.
Proof.
  intros [m d now y w1 w2 E|now _|sends ctx nonce word v y wire E] Hc.
  - revert E. unfold st_poll. destruct (stratum_poll _ _ _ _ _ (g_main x) _) as [[s w]|]; cbn [mbind option_bind]; [|done].
    destruct (g_dev_configured _); [|intros [= <- _ _]; by apply books_same].
    destruct (stratum_poll _ _ _ _ _ (g_dev _) _) as [[s' w']|]; cbn [mbind option_bind]; [|done].
    intros [= <- _ _]. by apply books_same.
  - by apply work_books.
  - revert E. unfold st_on_candidate. destruct (negb _); [intros [= _ <- _]; by apply books_same|].
    destruct (negb _); [intros [= _ <- _]; by apply books_same|].
    destruct (if valid _ then _ else _) as [k|]; [|intros [= _ <- _]; by apply books_same].
    destruct (_ && _); [intros [= _ <- _]; by apply books_same|].
    destruct (stratum_submit _ _ _ _ _ _) as [[[ok s] w]|]; cbn [mbind option_bind]; [|done].
    assert (forall z, books x [] (set_session k s x) -> z = set_session k s x \/ z = (set_session k s x)
      <| fees := Devfee.devfee_pool_credit (fees (set_session k s x)) |> -> books x [] z) as H.
    { intros z Hb [->| ->]; [done|]. by apply books_same; destruct k. }
    destruct ok; intros [= _ <- _]; (apply H; [by apply books_same; destruct k|]); [|by left].
    destruct (is_dev _); [by right|by left].
Qed.

Lemma history_books strerror undef x0 n t x :
  history strerror undef x0 n t x -> 0 <= g_en2_counter x0 -> g_en2_counter x0 + 2 * Z.of_nat n < 2 ^ 64 ->
  balance x = u64 (balance x0 + dev_items t) /\ rolled x0 t x
  /\ g_en2_counter x0 <= g_en2_counter x <= g_en2_counter x0 + 2 * Z.of_nat n /\ (length t <= n)%nat.
Proof.
  intros Hh Hc0. induction Hh as [|n t x t' x' Hh IH Hst]; intros Hn.
  - split_and!; [|apply rolled_nil|lia..|done]. change (dev_items []) with 0. rewrite Z.add_0_r.
    symmetry. apply u64_small, u64_word.
  - destruct IH as (B & R & C & L); [lia|]. destruct (step_books _ _ _ _ _ Hst) as (B' & R' & C' & L'); [lia|].
    split_and!; [|by apply (rolled_app x0 x x'); [lia|..]|lia..|rewrite length_app; lia].
    by rewrite B', B, u64_add_l, dev_items_app, Z.add_assoc.
Qed.

Lemma sorted_lookup (l : list Z) i j c d :
  StronglySorted Z.lt l -> (i < j)%nat -> l !! i = Some c -> l !! j = Some d -> c < d.
Proof.
  intros S. revert i j. induction S as [|x l S IH Hl]; intros i j Hij Hi Hj; [done|].
  destruct j as [|j]; [lia|]. cbn in Hj. destruct i as [|i].
  - injection Hi as ->. by apply (proj1 (Forall_lookup _ _) Hl j).
  - apply (IH i j); [lia|done..].
Qed.

(** C17: The books are honest and the search space is never repeated. Start with the
    counters at zero and let the entry points be called [n] times in any order, with
    any network. Then the developer's jobs that were not skipped are exactly the items
    that were made for the developer's session, and no two items of [m]-byte
    extranonce2 carry the same one, as long as twice the number of calls is below
    [256^m] and [2^64]. *)
Theorem pool_history_is_honest strerror undef x0 n t x :
  history strerror undef x0 n t x -> fees x0 = Devfee.devfee_reset -> g_en2_counter x0 = 0 ->
  2 * Z.of_nat n < 2 ^ 64 ->
  u64 (Devfee.g_pool_dev_jobs (fees x) - Devfee.g_pool_skipped (fees x)) = dev_items t
  /\ forall i j k k' a b, (i < j)%nat -> t !! i = Some (k, a) -> t !! j = Some (k', b) ->
     length a = length b -> 2 * Z.of_nat n < 2 ^ (8 * Z.of_nat (length a)) -> a <> b.
Proof.
  intros Hh Hf Hc Hn. destruct (history_books _ _ _ _ _ _ Hh) as (B & (cs & F & S & R) & C & L); [lia..|]. split.
  - change (u64 _) with (balance x). rewrite B. unfold balance. rewrite Hf. change (u64 (_ - _)) with 0. rewrite Z.add_0_l.
    apply u64_small. pose proof (List.filter_length_le (fun i => match i.1 with Dev => true | Main => false end) t).
    unfold is_word, dev_items. lia.
  - intros i j k k' a b Hij Hi Hj Hab Hm.
    apply (Forall2_lookup_r _ _ _ _ _ F) in Hi as (c & Hci & Ha). apply (Forall2_lookup_r _ _ _ _ _ F) in Hj as (d & Hdj & Hb).
    cbn [snd] in *. pose proof (proj1 (Forall_lookup _ _) R i c Hci) as Bc. pose proof (proj1 (Forall_lookup _ _) R j d Hdj) as Bd.
    cbn beta in *. pose proof (sorted_lookup cs i j c d S Hij Hci Hdj).
    rewrite Ha, Hb, <- Hab. apply roll_inj; unfold is_word; lia.
Qed.

(** ** A pool on the Siacoin chain

    A session with a job, easy enough that a nonce is found at once. *)
Definition easy : stratum := example_ready <| difficulty := strtod (str "0.000000002") |>.
Definition no_item : current := Current None [] [] [] [] 0 false false.
Definition blank : source :=
  Source easy (stratum_init None 0 None None) false no_item 0 Sia [] false 0 Devfee.devfee_reset.
Definition no_undef : double -> Z := fun _ => 0.
Definition easy_item : option work_ctx * source := build_from no_undef Main false blank.
Definition easy_ctx : work_ctx := default (WorkCtx [] [] 0 false) easy_item.1.
Definition easy_word : Z := sia_chain_expected_top64 (ss4 easy_ctx) 1.
Definition easy_verdict : Z * source * list Z :=
  default (0, blank, []) (st_on_candidate [Sent 1000] easy_ctx 1 easy_word easy_item.2).
Lemma easy_built : build_from no_undef Main false blank = (Some easy_ctx, easy_item.2).
Proof. vm_compute. reflexivity. Qed.
Lemma easy_solved :
  st_on_candidate [Sent 1000] easy_ctx 1 easy_word easy_item.2
  = Some (WORKSRC_CAND_SOLUTION, easy_verdict.1.2, easy_verdict.2).
Proof. vm_compute. reflexivity. Qed.
Lemma easy_session : wf_session easy /\ wf_session (session Main easy_item.2).
Proof. split; (constructor; [by_compute..| |by_compute|by_compute|by_compute|by_compute|by_compute]); constructor; by_compute. Qed.

Lemma solution_is_valid_share_witness :
  exists e,
    read_submit no_undef easy_verdict.2
    = Some (next_id (session Main easy_item.2) + 1, str "mining.submit", str "wk", str "j1", e, Job.ntime (job easy), le_bytes 8 1)
    /\ Spec.value Sia (Spec.digest (job easy) (extranonce easy) e (Job.ntime (job easy)) (le_bytes 8 1))
       <= Spec.share_target no_undef (difficulty easy).
Proof.
  apply (solution_is_valid_share no_undef Main false blank easy_ctx easy_item.2 [Sent 1000] 1 easy_word easy_item.2
           easy_verdict.1.2 easy_verdict.2).
  - exact (proj1 easy_session).
  - by apply Z.leb_le.
  - by_compute.
  - split; [by apply Z.ltb_lt; vm_compute|by apply Z.leb_le; vm_compute].
  - exact easy_built.
  - reflexivity.
  - reflexivity.
  - exact (proj2 easy_session).
  - by_compute.
  - by apply Z.ltb_lt; vm_compute.
  - exact easy_solved.
Defined.

(** A dialogue: an item, half a minute, another item. *)
Definition two_items : source := (work_at no_undef 140 (work_at no_undef 100 blank).2).2.
Lemma two_made :
  made (work_at no_undef 100 blank) = [(Main, [0; 0; 0; 1])]
  /\ made (work_at no_undef 140 (work_at no_undef 100 blank).2) = [(Main, [0; 0; 0; 2])]
  /\ stratum_ready (g_main (work_at no_undef 100 blank).2) = true.
Proof. by vm_compute. Qed.
Lemma pool_history_is_honest_witness :
  let t := ([] ++ made (work_at no_undef 100 blank)) ++ made (work_at no_undef 140 (work_at no_undef 100 blank).2) in
  u64 (Devfee.g_pool_dev_jobs (fees two_items) - Devfee.g_pool_skipped (fees two_items)) = dev_items t
  /\ forall i j k k' a b, (i < j)%nat -> t !! i = Some (k, a) -> t !! j = Some (k', b) ->
     length a = length b -> 2 * Z.of_nat 2 < 2 ^ (8 * Z.of_nat (length a)) -> a <> b.
Proof.
  apply (pool_history_is_honest (fun _ => []) no_undef blank 2 _ two_items); [|reflexivity|reflexivity|done].
  eapply HistoryStep; [eapply HistoryStep; [apply HistoryStart|]|]; apply StepWork; [by vm_compute|apply two_made].
Defined.

(** The epoch is counted before it is known whether there is work: a Knots job that
    carries a merkle branch is refused, and every call counts another job; the twentieth
    is charged to the developer and skipped. *)
Example unusable_job_counts_epochs :
  let x := Nat.iter 20 (fun x => (work_at no_undef 100 x).2) (blank <| g_chain := Knots |>) in
  (work_at no_undef 100 x).1 = None
  /\ (Devfee.g_pool_jobs (fees x), Devfee.g_pool_dev_jobs (fees x), Devfee.g_pool_skipped (fees x)) = (20, 1, 1).
Proof. by vm_compute. Qed.

(** The pool rotates the extranonce and sends the job again for the same block. For
    half a minute no new item is made, and a solution of the old item is submitted
    although the pool, under the new extranonce, computes another value. *)
Definition rotated : source :=
  worksrc_stratum_test_feed no_undef
    (Json.Spec.print [] (Json.Spec.JObj [(str "method", Json.Spec.JStr (str "mining.notify"));
       (str "params", Json.Spec.JArr (notify_params (example_job <| clean := false |>) (Json.Spec.JStr []) []))])) 101
    (worksrc_stratum_test_feed no_undef (dq "{'method':'mining.set_extranonce','params':['ccdd',4]}") 101
       (work_at no_undef 100 blank).2).
Example rotated_extranonce_is_ignored :
  stratum_ready (g_main rotated) = true /\ extranonce (g_main rotated) = [204; 221]
  /\ (work_at no_undef 129 rotated).1 = None
  /\ (let '(v, _, wire) := default (0, blank, []) (st_on_candidate [Sent 1000] easy_ctx 1 easy_word rotated) in
     v = WORKSRC_CAND_SOLUTION /\ wire = easy_verdict.2)
  /\ Spec.share_target no_undef (difficulty (g_main rotated))
     < Spec.value Sia (Spec.digest (job (g_main rotated)) [204; 221] (en2 (g_cur rotated))
                         (Job.ntime (job (g_main rotated))) (le_bytes 8 1)).
Proof. by vm_compute. Qed.
End WorksrcStratum.
