(* ===== verification/SelftestBlock.v ===== *)
(** * The block-production self-test (src/miner/selftest_block.c)

    The test functions as functions to the number of failures they count, run here on
    the definitions of the other files. The vectors are the program's own: they come
    from reference implementations, so they also check the model. Printing is left
    out. *)
From S2P Require Import Prelude Sha256 WorkItem Block Merkle Devfee Bech32 Coinbase Cstring.

Module SelftestBlock.
Import Cstring WorkItem.
Local Open Scope word_scope.

(** A check that returns at once when it fails, and one that goes on. *)
Definition check (ok : bool) (rest : Z) : Z := if ok then rest else 1.
Definition expect (ok : bool) : Z := if ok then 0 else 1.

Definition eq (a b : list Z) : bool := bool_decide (a = b).
(** [n] bytes of hex, [None] for -1. *)
Fixpoint hexbin (h : list Z) (n : nat) : option (list Z) :=
  match n with
  | O => Some []
  | S n => v ← scan_2x h; rest ← hexbin (drop 2 h) n; Some (u8 v :: rest)
  end.
(** A fixture. *)
Definition fixture (h : string) (n : nat) : list Z := default [] (hexbin (str h) n).

(** ** bech32 *)
Definition refuses (addr : list Z) : bool :=
  match Bech32.bech32_decode_addr addr with Some (inl _) => true | _ => false end.
Definition test_bech32 : Z :=
  match Bech32.bech32_decode_addr Devfee.DEVFEE_ADDRESS with
  | Some (inr a) =>
    let want := fixture "12e023d773abcec4dbe4ebe90424ecac94e5a470" 20 in
    check ((Bech32.witver a =? 0) && eq (Bech32.program a) want)
      (check (eq (Bech32.hrp a) (str "bc"))
        (let n := length Devfee.DEVFEE_ADDRESS in
         let last := Devfee.DEVFEE_ADDRESS !!! (n - 1)%nat in
         let bad := <[(n - 1)%nat := if last =? 101 then 113 else 101]> Devfee.DEVFEE_ADDRESS in
         expect (match Bech32.bech32_scriptpubkey a 64 with
                 | Some spk => (length spk =? 22)%nat && eq spk (0x00 :: 0x14 :: want)
                 | None => false
                 end)
         + expect (refuses bad)
         + expect (refuses (str "BC1QZTSZ84mn408vfklya05sgf8v4j2wtfrscszene"))))
  | _ => 1
  end.

(** ** merkle *)
Definition root_is (ids : list (list Z)) (n : nat) (want : list Z) : bool :=
  match Merkle.merkle_root ids n with Some (inr root) => eq root want | _ => false end.
Definition test_merkle : Z :=
  let one := replicate 32 0xab in
  let a := replicate 32 0x11 in let b := replicate 32 0x22 in let c := replicate 32 0x33 in
  expect (root_is [one] 1 one)
  + expect (root_is [a; b] 2 (Sha256.sha256d (a ++ b)))
  + expect (root_is [a; b; c] 3 (Sha256.sha256d (Sha256.sha256d (a ++ b) ++ Sha256.sha256d (c ++ c)))).

(** ** dev fee *)
(** The loop from payout [i] on: the developer's payouts, the first of them, the
    counters; [None] when the flag disagrees with the address. *)
Fixpoint payouts (n : nat) (i devs first_dev : Z) (c : Devfee.counters) : option (Z * Z * Devfee.counters) :=
  match n with
  | O => Some (devs, first_dev, c)
  | S n =>
    let '(a, c) := Devfee.devfee_next_payout (Some (str "bc1quser0000000000000000000000000000000000")) c in
    let is_dev := eq a Devfee.DEVFEE_ADDRESS in
    let devs := if is_dev then devs + 1 else devs in
    let first_dev := if is_dev && (first_dev <? 0) then i else first_dev in
    if eqb is_dev (Devfee.g_current_is_dev c) then payouts n (i + 1) devs first_dev c else None
  end.
Definition test_devfee : Z :=
  match payouts 60 1 0 (-1) Devfee.devfee_reset with
  | None => 1
  | Some (devs, first_dev, c) =>
    expect ((devs =? 3) && (first_dev =? Devfee.DEVFEE_INTERVAL)
            && (Devfee.g_total c =? 60) && (Devfee.g_dev c =? 3))
  end.

(** ** coinbase *)
Definition commitment : string := "6a24aa21a9ed1627fbbb3c68fa2088b10fffbd79c08c647e77f98ba5f4ef9fec4c50ed0000000000000000".
Definition test_coinbase : Z :=
  match Coinbase.coinbase_build Devfee.DEVFEE_ADDRESS 312997000 970278 0x1122334455667788 (Some (str commitment)) with
  | Some (0, cb) =>
    let s := Coinbase.stripped cb in
    let wc := fixture commitment 38 in
    expect (eq (slice 41 5 s) [0x0d; 0x03; 0x26; 0xce; 0x0e])
    + expect (eq (slice 5 32 s) (replicate 32 0) && (s !!! 37%nat =? 0xff) && (s !!! 40%nat =? 0xff))
    + expect (eq (Coinbase.txid cb) (Sha256.sha256d s))
    + expect ((Coinbase.raw cb !!! 4%nat =? 0x00) && (Coinbase.raw cb !!! 5%nat =? 0x01)
              && (length s <? length (Coinbase.raw cb))%nat)
    + expect (existsb (fun i => eq (slice i 38 s) wc) (seq 0 (length s + 1 - 38)))
    + expect (match Coinbase.coinbase_build (str "bc1qnotarealaddressatall") 1 1 0 None with
              | Some (rc, _) => negb (rc =? 0)
              | None => false
              end)
  | _ => 1
  end.

(** ** block header *)
Definition header : WorkItem.knots_header :=
  WorkItem.knots_header_init <| WorkItem.nBits := 0x1903c2d4 |> <| WorkItem.nTime := 0x11223344 |>
    <| WorkItem.nNonce := 0xaabbccdd |> <| WorkItem.m_height := 970278 |> <| WorkItem.m_txcount := 313 |>
    <| WorkItem.hashMerkleRoot := replicate 32 0x5a |> <| WorkItem.hashPrevBlock := replicate 32 0x7b |>.
Definition test_block : Z :=
  match Block.block_serialize_header header 256 with
  | Some buf =>
    check (length buf =? Block.BLOCK_HEADER_V2_LEN)%nat
      (expect (Z.testbit (le_val (take 4 buf)) 31)
       + expect (eq (slice 4 32 buf) (replicate 32 0x7b) && eq (slice 36 32 buf) (replicate 32 0x5a)
                 && eq (slice 108 2 buf) [0x39; 0x01] && eq (slice 128 3 buf) [0x26; 0xce; 0x0e])
       + expect (match Block.block_serialize header [1; 2; 3; 4; 5; 6; 7; 8] [9; 9; 9; 9] 1 512 with
                 | Some blk => (length blk =? Block.BLOCK_HEADER_V2_LEN + 1 + 8 + 4)%nat
                               && (blk !!! Block.BLOCK_HEADER_V2_LEN =? 2)
                 | None => false
                 end))
  | None => 1
  end.

Definition selftest_block_production : Z :=
  let g_fail := test_bech32 + test_merkle + test_devfee + test_coinbase + test_block in
  if g_fail =? 0 then 0 else -1.

(** The program's vectors hold of the model. *)
Example selftest_block_production_passes : selftest_block_production = 0.
Proof. vm_compute. reflexivity. Qed.
End SelftestBlock.
