(* ===== verification/SelftestStratum.v ===== *)
(** * The stratum self-test (src/miner/selftest_stratum.c)

    The test functions as functions to the number of failures they count, run on the
    definitions of the other files: a job captured from a pool, and words that the
    repository's Python reference produced. The mock pool of the last three tests is
    the outcomes of the system calls that a pool on the loopback interface gives. *)
From Stdlib Require Import SpecFloat.
From S2P Require Import Prelude Sha256 Blake2b WorkItem Worksrc Devfee Job SiaStratum Cdouble Decimal Json Cstring StratumTarget Stratum Uart WorksrcStratum SelftestBlock.

Module SelftestStratum.
Import WorkItem Worksrc Job SiaStratum Cdouble Json Cstring StratumTarget Stratum WorksrcStratum SelftestBlock.
Local Open Scope word_scope.

(** [strcmp] of the digits with a fixture, and the bytes of one. *)
Definition hexeq (b : list Z) (expect_hex : list Z) : bool := eq (bin2hex b) expect_hex.
Definition unhex (h : list Z) (n : nat) : list Z := default [] (hexbin h n).

(** ** The captured job *)
Definition JOB_ID : list Z := str "a647000013c7".
Definition PREVHASH : list Z := str "00000000000075a242522fd4708844dfbb8d6d5c302dc356935e08513503dbdd".
Definition COINB1 : list Z := str "00000031bd27d82a5b25e42446814eab790095046062020d73a167e069766bdbbf98a800000000".
Definition NBITS : list Z := str "d4c20319".
Definition NTIME : list Z := str "0000000000000000".
Definition EXTRANONCE1 : list Z := str "2fed4795".
Definition EXPECT_SS3 : list Z :=
  str "00000000" ++ str "31bd27d82a5b25e42446814eab790095046062020d73a167e069766bdbbf98a8"
  ++ str "000000002fed47950000000000000000".
Definition EXPECT_ROOT : list Z := str "c880069ac0edf060c7852ff922f69cb91f9ff28e67941317e6f24bf75ac94b61".
Definition EXPECT_SS4 : list Z :=
  str "00000000000075a242522fd4708844dfbb8d6d5c302dc356935e08513503dbdd"
  ++ str "0000000000000000" ++ str "0000000000000000" ++ EXPECT_ROOT.

(** A notify of the job under another identifier, time and flag. *)
Definition notify_line (id ntime : list Z) (clean : string) : list Z :=
  dq "{'id':null,'method':'mining.notify','params':['" ++ id ++ dq "','" ++ PREVHASH ++ dq "','" ++ COINB1
  ++ dq "','',[],'','" ++ NBITS ++ dq "','" ++ ntime ++ dq "'," ++ str clean ++ dq "]}".
Definition NOTIFY_LINE : list Z := notify_line JOB_ID NTIME "true".
Definition SUBSCRIBE_LINE : list Z :=
  dq "{'error':null,'id':1,'result':[[['mining.notify','lz']],'" ++ EXTRANONCE1 ++ dq "',8]}".

Definition undef : double -> Z := fun _ => 0.
Definition feed (s : stratum) (line : list Z) : stratum := on_line undef s line 1000.
Definition fresh : stratum :=
  (stratum_init (Some (str "pool.invalid")) 1234 (Some (str "worker")) (Some (str "x"))) <| sub_id := 1 |>.

(** ** Protocol decode *)
Definition test_protocol : Z :=
  let s := feed fresh SUBSCRIBE_LINE in
  check (subscribed s && (en1_len s =? 4)%nat && (en2_size s =? 8) && hexeq (take 4 (extranonce1 s)) EXTRANONCE1)
  (let s := feed s (dq "{'id':null,'method':'mining.set_difficulty','params':[4096]}") in
  check (dle (difficulty s) (of_Z 4096) && dle (of_Z 4096) (difficulty s))
  (let s := feed s NOTIFY_LINE in
  let j := job s in
  check (have_job s && eq (Job.job_id j) JOB_ID && (length (coinb1 j) =? 39)%nat && (length (coinb2 j) =? 0)%nat
         && (length (branches j) =? 0)%nat && (nbits j =? 0x1903c2d4) && hexeq (prevhash j) PREVHASH)
  (check (eq (take 6 (prevhash j)) (replicate 6 0))
  (let before := job_seq j in
  let undisturbed s := (job_seq (job s) =? before) && eq (Job.job_id (job s)) JOB_ID in
  let s := feed s (notify_line (str "bad") (str "deadbeef") "true") in
  check (undisturbed s)
  (let s := feed s (dq "{'id':null,'method':'mining.notify','params':['short','00','']}") in
  expect (undisturbed s)))))).

(** ** Stage mapping *)
Definition captured : stratum := feed (feed fresh SUBSCRIBE_LINE) NOTIFY_LINE.
Definition en1 : list Z := take (en1_len captured) (extranonce1 captured).
Definition zero_en2 : list Z := replicate 8 0.
Definition with_branch : stratum_job := (job captured) <| branches := [replicate 32 0x5A] |>.
Definition test_stages : Z :=
  match sia_build_stages (job captured) en1 zero_en2 with
  | None => 1
  | Some (ss3, ss4, root) =>
    check (hexeq ss3 EXPECT_SS3) (check (hexeq ss4 EXPECT_SS4) (check (hexeq root EXPECT_ROOT)
    (check (eq root (slice 48 32 ss4))
    (match sia_build_stages ((job captured) <| coinb2 := [0xAA] |>) en1 zero_en2 with
     | Some _ => 1
     | None =>
       match sia_build_stages with_branch en1 zero_en2 with
       | None => 1
       | Some (_, _, root2) => expect (negb (eq root root2))
       end
     end))))
  end.

(** ** The prefilter word *)
(** A nonce, the Siacoin word and the Knots word. *)
Definition words : list (Z * Z * Z) :=
  [(0x0000000000000000, 0x5f2504467366be80, 0x47bb256848ffcb48);
   (0x0000000000000001, 0xf412d80f6700b5fd, 0x87b52f516c3503c2);
   (0x0123456789abcdef, 0x35aa95c99180aaa8, 0x0c44f3fe7c67110f)].
Definition top64 (pow : list Z) : Z := foldl (fun v i => u64 (v ≪ 8) .| pow !!! i) 0 (seq 0 8).
Definition byteswap (v : Z) : Z := foldl (fun s i => u64 (s ≪ 8) .| u8 (v ≫ (8 * Z.of_nat i))) 0 (seq 0 8).
Definition test_prefilter : Z :=
  let ss4 := unhex EXPECT_SS4 STAGE4_LEN in
  check (forallb (fun '(nonce, _, knots) => sia_expected_top64 ss4 nonce =? knots) words)
    (expect (top64 (sia_pow_compare ss4 0) =? byteswap 0x47bb256848ffcb48)).

(** ** The Siacoin rules *)
Definition test_sia_chain : Z :=
  match sia_build_header (job captured) en1 zero_en2 with
  | None => 1
  | Some (header, root) =>
    check (hexeq header EXPECT_SS4)
    (check (forallb (fun '(nonce, sia, knots) =>
              let got := sia_chain_expected_top64 header nonce in
              (got =? sia) && negb (got =? knots) && (sia_expected_top64 header nonce =? knots)) words)
    (check (top64 (sia_chain_pow_compare header 0) =? 0x5f2504467366be80)
    (match sia_build_header with_branch en1 zero_en2 with
     | None => 1
     | Some (_, r2) =>
       check (negb (eq r2 root))
         (expect (if sia_build_header ((job captured) <| coinb2 := replicate 3 0xAA |>) en1 zero_en2 is Some _
                  then true else false))
     end)))
  end.

(** ** Packing *)
Definition packed_ctx : work_ctx :=
  WorkCtx ((fun i => u8 (0x10 + Z.of_nat i)) <$> seq 0 STAGE3_LEN) ((fun i => u8 (0x80 + Z.of_nat i)) <$> seq 0 STAGE4_LEN)
    0x0123456789abcdef false.
Definition test_pack : Z :=
  let '(item, n) := worksrc_pack_item packed_ctx WORK_ITEM_LEN in
  check ((n =? WORK_ITEM_LEN)%nat && eq (take STAGE3_LEN item) (ss3 packed_ctx)
         && eq (slice STAGE3_LEN (80 - STAGE3_LEN) item) (replicate (80 - STAGE3_LEN) 0)
         && eq (slice 80 STAGE4_LEN item) (ss4 packed_ctx) && (item !!! 160%nat =? 0xef) && (item !!! 167%nat =? 0x01))
  (let '(item, n) := worksrc_pack_item packed_ctx (STAGE4_LEN + 8) in
  check ((n =? STAGE4_LEN + 8)%nat && eq (take STAGE4_LEN item) (ss4 packed_ctx)
         && (item !!! 80%nat =? 0xef) && (item !!! 87%nat =? 0x01))
  (expect ((worksrc_pack_item packed_ctx 99).2 =? 0)%nat)).

(** ** The developer fee of a pool *)
Fixpoint epochs (n : nat) (i first_dev dev_count : Z) (c : Devfee.counters) : Z * Z * Devfee.counters :=
  match n with
  | O => (first_dev, dev_count, c)
  | S n =>
    let '(is_dev, c) := Devfee.devfee_pool_epoch c in
    if is_dev : bool
    then epochs n (i + 1) (if first_dev <? 0 then i else first_dev) (dev_count + 1) (Devfee.devfee_pool_skip c)
    else epochs n (i + 1) first_dev dev_count c
  end.
Definition test_devfee_pool : Z :=
  let '(first_dev, dev_count, c) := epochs 60 1 (-1) 0 Devfee.devfee_reset in
  check ((first_dev =? Devfee.DEVFEE_INTERVAL) && (dev_count =? 3) && (Devfee.g_pool_jobs c =? 60)
         && (Devfee.g_pool_skipped c =? 3) && (Devfee.g_pool_shares c =? 0))
    (expect (Devfee.g_total c =? 0)).

(** ** Targets *)
Definition test_target : Z :=
  let target d := stratum_target_full undef d in
  check (hexeq (target (of_Z 1)) (str "00000000ffff0000000000000000000000000000000000000000000000000000"))
  (check (hexeq (target (of_Z 4096)) (str "00000000000ffff0000000000000000000000000000000000000000000000000"))
  (check (stratum_target_top64 undef (of_Z 4096) =? 0x00000000000ffff0)
  (expect (eq (take 4 (target (strtod (str "0.001")))) [0x00; 0x00; 0x03; 0xe7])))).

(** ** A pool on the loopback interface *)
Definition listening : attempt := Attempt (inr (str "127.0.0.1")) (inr 5) true (InProgress (SelectReady 0)).
Definition roomy : list sent := replicate 4 (Sent 2048).
Definition strerror : Z -> list Z := fun _ => [].
Definition at_loopback (port : Z) : stratum :=
  stratum_init (Some (str "127.0.0.1")) port (Some (str "worker")) (Some (str "x")).

(** The first candidate the source submits, out of [n] nonces from [nonce]. *)
Fixpoint grind (n : nat) (nonce : Z) (ctx : work_ctx) (x : source) : bool :=
  match n with
  | O => false
  | S n =>
    match st_on_candidate roomy ctx nonce (sia_expected_top64 (ss4 ctx) nonce) x with
    | Some (v, x, _) => if v =? WORKSRC_CAND_SOLUTION then true else grind n (nonce + 1) ctx x
    | None => false
    end
  end.
Definition statics : source :=
  Source fresh fresh false (Current None [] [] [] [] 0 false false) 0 Knots (replicate 32 0) false 0 Devfee.devfee_reset.
Definition test_clean_jobs : Z :=
  let x := worksrc_stratum_configure Knots (Some (str "127.0.0.1")) 4444 (Some (str "worker")) (Some (str "x"))
             None None None statics in
  match st_poll strerror undef (Meeting listening roomy []) (Meeting listening [] []) 1000 x with
  | None => 1
  | Some (x, _, _) =>
    let feed x line := worksrc_stratum_test_feed undef line 1001 x in
    let x := feed x (dq "{'id':null,'method':'mining.set_difficulty','params':[0.0000000012]}") in
    let x := feed x SUBSCRIBE_LINE in
    let x := feed x (dq "{'id':2,'result':true,'error':null}") in
    let x := feed x NOTIFY_LINE in
    match st_get_work (W := Uart.Clock.clock) undef x Uart.Clock.start with
    | (None, _, _) => 1
    | (Some ctx, x, _) =>
      let x := worksrc_stratum_test_feed undef (notify_line (str "jobB") NTIME "false") 1002 x in
      expect (grind 8192 0 ctx x)
    end
  end.

Definition test_suggest_difficulty : Z :=
  match stratum_poll strerror undef listening roomy [] (at_loopback 4444) 1000 with
  | None => 1
  | Some (s, buf) =>
    match strstr buf (dq "'method':'mining.subscribe'"), strstr buf (dq "'method':'mining.authorize'"),
          strstr buf (dq "'method':'mining.suggest_difficulty'") with
    | Some _, Some auth, Some sug =>
      check (length sug <=? length auth)%nat
      (check (if strstr sug (dq "'params':[32]") is Some _ then true else false)
      (let s := on_line undef s (dq "{'id':" ++ Decimal.dec (suggest_diff_id s) ++ dq ",'result':true,'error':null}") 1001 in
       expect ((shares_accepted s =? 0) && (shares_rejected s =? 0))))
    | _, _, _ => 1
    end
  end.

(** The port the next poll dials, if it dials. *)
Definition dials (s : stratum) (now : Z) : option Z :=
  if (fd s <? 0) && negb (now <? retry_at s)
  then let '(_, port, _, _, _) := dial_target s in Some port else None.
(** Polls from time [t] until one dials [port]. *)
Fixpoint polls_until (n : nat) (t port : Z) (recvs : list received) (s : stratum) : option stratum :=
  match n with
  | O => None
  | S n =>
    '(s', _) ← stratum_poll strerror undef listening roomy recvs s t;
    if bool_decide (dials s t = Some port) then Some s' else polls_until n (t + 1) port [] s'
  end.
Definition test_reconnect : Z :=
  match stratum_poll strerror undef listening roomy [] (at_loopback 4444) 1000 with
  | None => 1
  | Some (s, _) =>
    let msg := dq "{'id':null,'method':'client.reconnect','params':['127.0.0.1'," ++ Decimal.dec 5555 ++ dq ",0]}" ++ [10] in
    match polls_until 30 1000 5555 [Data msg] s with
    | None => 1
    | Some s =>
      let s := (stratum_close s) <| retry_at := 0 |> in
      expect (if polls_until 30 2000 4444 [] s is Some _ then true else false)
    end
  end.

Definition selftest_stratum : Z :=
  let g_fail := test_protocol + test_stages + test_prefilter + test_sia_chain + test_pack + test_devfee_pool
                + test_target + test_clean_jobs + test_suggest_difficulty + test_reconnect in
  if g_fail =? 0 then 0 else -1.

(** The captured job and the reference's words hold of the model. *)
Example selftest_stratum_passes : selftest_stratum = 0.
Proof. vm_compute. reflexivity. Qed.
End SelftestStratum.
