(* ===== verification/Miner.v ===== *)
(** * Start-up (src/miner/miner.c: cfg, main up to the mining loop)

    The command line, the choice of the work source and what it plugs into the mining
    loop, and the order of the self-tests. The environment, the node and the network
    are classes; messages to the user are left out. *)
From S2P Require Import Prelude WorkItem Worksrc Coinbase Devfee Decimal Json Stratum WorksrcStratum Uart Framing Gbt Mining SelftestBlock SelftestStratum.

Module Miner.
Import WorkItem Worksrc WorksrcStratum Uart Framing Gbt Mining.
Local Open Scope word_scope.

(** ** The command line *)
Record options := Options {
  uart_dev : list Z; status_path : list Z; log_path : list Z;
  rpc_host : list Z; rpc_port : Z; rpc_user : option (list Z); rpc_pass : option (list Z);
  target_shift : Z; dry_run : bool; synthetic : bool;
  payout_address : option (list Z); submit_test : bool; stratum_probe : bool;
  stratum_host : option (list Z); stratum_port : Z;
  worker : option (list Z); pool_pass : option (list Z);
  devfee_pool : option (list Z); devfee_worker : option (list Z); devfee_pass : option (list Z);
  chain : worksrc_chain;
  selftest : option (list Z)
}.
#[export] Instance options_fields : Fields options := fun o =>
  Options (uart_dev o) (status_path o) (log_path o) (rpc_host o) (rpc_port o) (rpc_user o) (rpc_pass o)
    (target_shift o) (dry_run o) (synthetic o) (payout_address o) (submit_test o) (stratum_probe o)
    (stratum_host o) (stratum_port o) (worker o) (pool_pass o) (devfee_pool o) (devfee_worker o)
    (devfee_pass o) (chain o) (selftest o).

(** [cfg]'s initial value; the chain is the one the binary was built for. *)
Definition cfg (built_for : worksrc_chain) : options :=
  Options (str "/dev/uio8") (str "/var/www/html/blake2b/status.json") (str "/var/www/html/blake2b/miner.log")
    (str "127.0.0.1") 4001 None None BLAKE2B_TARGET_SHIFT_MAINNET true false None false false
    None 0 None None None None None built_for None.

Definition named (a : list Z) (s : string) : bool := bool_decide (a = str s).

(** An option that takes a value; [inl] is the exit status of a value that is
    refused. *)
Definition valued (getenv : list Z -> option (list Z)) (a : list Z) : option (list Z -> options -> Z + options) :=
  let from_env (f : list Z -> options -> options) v o :=
    inr (match getenv v with Some (c :: t) => f (c :: t) o | _ => o end) in
  if named a "--uart" then Some (fun v o => inr (o <| uart_dev := v |>))
  else if named a "--rpc-host" then Some (fun v o => inr (o <| rpc_host := v |>))
  else if named a "--rpc-port" then Some (fun v o => inr (o <| rpc_port := atoi v |>))
  else if named a "--rpc-user" then Some (fun v o => inr (o <| rpc_user := Some v |>))
  else if named a "--rpc-pass" then Some (fun v o => inr (o <| rpc_pass := Some v |>))
  else if named a "--rpc-pass-env" then Some (from_env (fun p o => o <| rpc_pass := Some p |>))
  else if named a "--target-shift" then Some (fun v o => inr (o <| target_shift := u32 (atoi v) |>))
  else if named a "--status" then Some (fun v o => inr (o <| status_path := v |>))
  else if named a "--log" then Some (fun v o => inr (o <| log_path := v |>))
  else if named a "--payout-address" then Some (fun v o => inr (o <| payout_address := Some v |>))
  else if named a "--selftest" then Some (fun v o => inr (o <| selftest := Some v |>))
  else if named a "--stratum" then Some (fun v o =>
    match last_colon (Gbt.snprintf 192 v) with
    | Some (h, (_ :: _) as p) => inr (o <| stratum_host := Some h |> <| stratum_port := atoi p |>)
    | _ => inl 2
    end)
  else if named a "--worker" then Some (fun v o => inr (o <| worker := Some v |>))
  else if named a "--pool-pass" then Some (fun v o => inr (o <| pool_pass := Some v |>))
  else if named a "--pool-pass-env" then Some (from_env (fun p o => o <| pool_pass := Some p |>))
  else if named a "--devfee-pool" then Some (fun v o => inr (o <| devfee_pool := Some v |>))
  else if named a "--devfee-worker" then Some (fun v o => inr (o <| devfee_worker := Some v |>))
  else if named a "--devfee-pass" then Some (fun v o => inr (o <| devfee_pass := Some v |>))
  else if named a "--algo" then Some (fun v o =>
    if named v "sia" then inr (o <| chain := Sia |>)
    else if named v "knots" || named v "blake2b" then inr (o <| chain := Knots |>)
    else inl 2)
  else None.
(** An option without one. *)
Definition switch (a : list Z) : option (options -> options) :=
  if named a "--submit" then Some (fun o => o <| dry_run := false |>)
  else if named a "--synthetic-work" then Some (fun o => o <| synthetic := true |>)
  else if named a "--submit-test" then Some (fun o => o <| submit_test := true |>)
  else if named a "--stratum-probe" then Some (fun o => o <| stratum_probe := true |>)
  else None.

(** [--dump-item]: the status and the text printed. *)
Definition dump_item : Z * list Z :=
  match build_work_item probe_header (target_top64_from_bits (nBits probe_header) 22) with
  | inl _ => (1, [])
  | inr item => (0, Json.bin2hex item ++ [10])
  end.

(** What the arguments ask for: to leave with a status and a text, or to run. *)
Inductive parsed := Leave (status : Z) (text : list Z) | Run (o : options).
Fixpoint parse (getenv : list Z -> option (list Z)) (args : list (list Z)) (o : options) : parsed :=
  match args with
  | [] => Run o
  | a :: args =>
    match valued getenv a, args with
    | Some f, v :: args => match f v o with inr o => parse getenv args o | inl status => Leave status [] end
    | _, _ =>
      match switch a with
      | Some f => parse getenv args (f o)
      | None => if named a "--dump-item" then Leave dump_item.1 dump_item.2 else Leave 2 []
      end
    end
  end.

(** ** The work sources as callbacks of the mining loop *)

(** The network: what a call on a session meets, and where its bytes go. *)
Class Network (W : Type) := {
  meet : which -> W -> meeting * W;
  carry : which -> list Z -> W -> W
}.
(** A kernel under which every call returns: when the outcomes given end, the next
    [send] fails. *)
Definition returning (m : meeting) : meeting := Meeting (attempting m) (sending m ++ [Stratum.SendFailed]) (receiving m).
Definition offline : meeting := Meeting (Stratum.Attempt (inl []) (inl 0) false (Stratum.ConnectFailed 0)) [] [].

(** The statics of both kinds of source. *)
Record sources := Sources { alone : solo; pooled : source }.
#[export] Instance sources_fields : Fields sources := fun x => Sources (alone x) (pooled x).

Definition MINER_STATS : stats := Stats 0 0 0 0 97 (FramingStats 0 0 0 0) 0 [] [] [].
Definition rpc_config (o : options) : config :=
  Config (rpc_host o) (rpc_port o) (rpc_user o) (rpc_pass o) (target_shift o) (dry_run o) (payout_address o).

Section Start.
Context {W : Type} `{World W} `{Node W} `{Network W} (strerror : Z -> list Z) (undef : Cdouble.Cdouble.double -> Z).

Definition build_callback (o : options) (local : bool) (x : sources) (w : W) : option work_ctx * sources * W :=
  match gbt_build (rpc_config o) local (alone x) w with
  | Some (ctx, s, w) => (ctx, x <| alone := s |>, w)
  | None => (None, x, w)
  end.
Definition candidate_callback (o : options) (_ : work_ctx) (nonce hash_top64 : Z) (x : sources) (w : W) : Z * sources * W :=
  let '(v, s, w) := gbt_on_candidate (rpc_config o) nonce hash_top64 (alone x) w in (v, x <| alone := s |>, w).
Definition g_worksrc_gbt (o : options) : @worksrc (callbacks sources W) :=
  WorkSrc (Some (str "gbt")) (Callbacks (build_callback o false) None (candidate_callback o)) 30 WORK_ITEM_LEN.
Definition g_worksrc_synthetic (o : options) : @worksrc (callbacks sources W) :=
  WorkSrc (Some (str "synthetic")) (Callbacks (build_callback o true) None (candidate_callback o)) 30 WORK_ITEM_LEN.

Definition pool_poll (now : Z) (x : sources) (w : W) : sources * W :=
  let '(m, w) := meet Main w in
  let '(d, w) := if g_dev_configured (pooled x) then meet Dev w else (offline, w) in
  match st_poll strerror undef (returning m) (returning d) now (pooled x) with
  | Some (y, w1, w2) => (x <| pooled := y |>, carry Dev w2 (carry Main w1 w))
  | None => (x, w)
  end.
Definition pool_get_work (x : sources) (w : W) : option work_ctx * sources * W :=
  let '(ctx, y, w) := st_get_work undef (pooled x) w in (ctx, x <| pooled := y |>, w).
Definition pool_on_candidate (ctx : work_ctx) (nonce hash_top64 : Z) (x : sources) (w : W) : Z * sources * W :=
  let k := default Main (sess (g_cur (pooled x))) in
  let '(m, w) := meet k w in
  match st_on_candidate (sending (returning m)) ctx nonce hash_top64 (pooled x) with
  | Some (v, y, wire) => (v, x <| pooled := y |>, carry k wire w)
  | None => (WORKSRC_CAND_OK, x, w)
  end.
Definition pool_callbacks : callbacks sources W := Callbacks pool_get_work (Some pool_poll) pool_on_candidate.

(** ** Choosing the source *)
Definition configure (o : options) (x : sources) : sources :=
  match stratum_host o with
  | Some h =>
    x <| pooled := worksrc_stratum_configure (chain o) (Some h) (stratum_port o) (Some (default (str "osprey") (worker o)))
                     (pool_pass o) (devfee_pool o) (devfee_worker o) (devfee_pass o) (pooled x) |>
  | None => x
  end.
(** [g_src], after the registrations; [None] when there is none. *)
Definition choose (o : options) (x : sources) : option (@worksrc (callbacks sources W)) :=
  let g := worksrc_register (Some (g_worksrc_synthetic o)) (worksrc_register (Some (g_worksrc_gbt o)) []) in
  match stratum_host o with
  | Some _ =>
    let b := worksrc_stratum_backend pool_callbacks (pooled x) in
    worksrc_find (name b) (worksrc_register (Some b) g)
  | None => worksrc_find (Some (str (if synthetic o then "synthetic" else "gbt"))) g
  end.

(** ** [--submit-test]: a block that the node must refuse for its hash only *)
Definition submit_test_flow (o : options) (s : solo) (w : W) : option (Z * solo * W) :=
  '(h, s, w) ← get_template (rpc_config o) s w;
  match h with
  | None => Some (1, s, w)
  | Some h =>
    let '(_, s, w) := submit_block (rpc_config o) h s w in
    Some (if Cstring.Cstring.strstr (last_submit s) (str "high-hash") is Some _ then 0 else 1, s, w)
  end.

(** ** [--stratum-probe]: a share ground in software *)
Definition poll_source (g_src : @worksrc (callbacks sources W)) (x : sources) (w : W) : sources * W :=
  let '(t, w) := now_s w in
  match poll (ops g_src) with Some f => f t x w | None => (x, w) end.
(** Polls every 50 ms until [ask] answers or the deadline has passed. *)
Fixpoint await {A} (fuel : nat) (g_src : @worksrc (callbacks sources W)) (deadline : Z)
    (ask : sources -> W -> option A * sources * W) (x : sources) (w : W) : res (option A * sources * W) :=
  match fuel with
  | O => NoFuel
  | S fuel =>
    let '(t, w) := now_s w in
    if t <? deadline then
      let '(x, w) := poll_source g_src x w in
      let '(a, x, w) := ask x w in
      match a with
      | Some a => Ok (Some a, x, w)
      | None => await fuel g_src deadline ask x (usleep 50000 w)
      end
    else Ok (None, x, w)
  end.
Fixpoint grind (fuel : nat) (o : options) (g_src : @worksrc (callbacks sources W)) (ctx : work_ctx) (stop n : Z)
    (x : sources) (w : W) : res (option Z * sources * W) :=
  match fuel with
  | O => NoFuel
  | S fuel =>
    if n <? 2 ^ 40 then
      let word := match chain o with
                  | Sia => SiaStratum.SiaStratum.sia_chain_expected_top64 (ss4 ctx) n
                  | Knots => SiaStratum.SiaStratum.sia_expected_top64 (ss4 ctx) n
                  end in
      let '(v, x, w) := on_candidate (ops g_src) ctx n word x w in
      if v =? WORKSRC_CAND_SOLUTION then Ok (Some n, x, w)
      else if n .& 0xfffff =? 0 then
        let '(t, w) := now_s w in
        if stop <? t then Ok (None, x, w) else grind fuel o g_src ctx stop (n + 1) x w
      else grind fuel o g_src ctx stop (n + 1) x w
    else Ok (None, x, w)
  end.
Definition verdict_in (x : sources) (w : W) : option worksrc_stratum_status_t * sources * W :=
  let ps := worksrc_stratum_status (pooled x) in
  (if negb (st_shares_accepted ps =? 0) || negb (st_shares_rejected ps =? 0) then Some ps else None, x, w).
(** The exit status. *)
Definition stratum_probe_flow (fuel : nat) (o : options) (g_src : @worksrc (callbacks sources W))
    (x : sources) (w : W) : res (Z * sources * W) :=
  match stratum_host o with
  | None => Ok (2, x, w)
  | Some _ =>
    let '(t, w) := now_s w in
    '(ctx, x, w) ← await fuel g_src (u64 (t + 45)) (get_work (ops g_src)) x w;
    match ctx with
    | None => Ok (1, x, w)
    | Some ctx =>
      let '(t, w) := now_s w in
      '(found, x, w) ← grind fuel o g_src ctx (u64 (t + 120)) 0 x w;
      match found with
      | None => Ok (1, x, w)
      | Some _ =>
        let '(t, w) := now_s w in
        '(_, x, w) ← await fuel g_src (u64 (t + 30)) verdict_in x w;
        Ok (if negb (st_shares_accepted (worksrc_stratum_status (pooled x)) =? 0) then 0 else 1, x, w)
      end
    end
  end.

(** ** The self-tests before the mining loop *)
Inductive ending := Exit (status : Z) | Mining (dev : uio_uart) (st : stats).
Definition wants (o : options) (s : string) : bool := bool_decide (selftest o = Some (str s)).
Definition status_of (rc : Z) : Z := if negb (rc =? 0) then 1 else 0.
Definition st_vectors (o : options) : Z :=
  let v := Gbt.selftest_vectors (target_shift o) in
  if v =? 0 then SelftestBlock.SelftestBlock.selftest_block_production else v.

(** From the device on; [opened] when the mapping succeeds. *)
Definition device_tests (fuel : nat) (o : options) (opened : bool) (w : W) : res (ending * W) :=
  if negb opened then Ok (Exit 1, w)
  else
    let u := uart_open in
    let '(rc, w) := selftest_uart w in
    if wants o "uart" then Ok (Exit (status_of rc), w)
    else if wants o "rxdump" then
      '(rc, _, _, _, w) ← selftest_rxdump fuel u MINER_STATS w;
      Ok (Exit (status_of rc), w)
    else
      match chain o with
      | Sia => Ok (Mining u (MINER_STATS <| nonce_offset := 0 |>), w)
      | Knots =>
        '(rc, u, s, w) ← selftest_loopback fuel u MINER_STATS w;
        Ok (if wants o "loopback" || wants o "all" then Exit (status_of rc)
            else if negb (rc =? 0) then Exit 1 else Mining u s, w)
      end.
Definition boot (fuel : nat) (o : options) (opened : bool) (w : W) : res (ending * W) :=
  if wants o "block" then Ok (Exit (status_of SelftestBlock.SelftestBlock.selftest_block_production), w)
  else if wants o "stratum" then Ok (Exit (status_of SelftestStratum.SelftestStratum.selftest_stratum), w)
  else if wants o "framing" then
    '(rc, _, w) ← selftest_framing fuel (framing MINER_STATS) w;
    Ok (Exit (status_of rc), w)
  else if bool_decide (selftest o = None) || wants o "vectors" || wants o "all" then
    if wants o "vectors" || negb (st_vectors o =? 0) then Ok (Exit (status_of (st_vectors o)), w)
    else device_tests fuel o opened w
  else device_tests fuel o opened w.

(** [main] from the end of the command line to the mining loop; [g_src] is the
    result of [choose]. *)
Definition start (fuel : nat) (o : options) (opened : bool) (x : sources) (w : W) : res (ending * sources * W) :=
  let x := configure o x in
  match choose o x with
  | None => Ok (Exit 2, x, w)
  | Some g_src =>
    if submit_test o then
      '(rc, s, w) ← fuelled (submit_test_flow o (alone x) w);
      Ok (Exit rc, x <| alone := s |>, w)
    else if stratum_probe o then
      '(rc, x, w) ← stratum_probe_flow fuel o g_src x w;
      Ok (Exit rc, x, w)
    else
      '(e, w) ← boot fuel o opened w;
      Ok (e, x, w)
  end.
End Start.

(** ** What start-up guarantees *)
Section Properties.
Context {W : Type} `{World W}.

(** The source is the one asked for on every command line: a pool wins over
    [--synthetic-work], with the item length of [--algo]; [g_src] is never NULL. *)
Lemma source_as_asked `{Node W} `{Network W} (strerror : Z -> list Z) (undef : Cdouble.Cdouble.double -> Z) o x :
  choose strerror undef o (configure o x) = Some
    match stratum_host o with
    | Some _ =>
      match chain o with
      | Sia => g_backend_sia (pool_callbacks strerror undef)
      | Knots => g_backend_knots (pool_callbacks strerror undef)
      end
    | None => if synthetic o then g_worksrc_synthetic o else g_worksrc_gbt o
    end.
Proof.
  unfold choose, configure. destruct (stratum_host o) as [h|]; [|by destruct (synthetic o)].
  unfold worksrc_stratum_backend.
  assert (forall y, g_chain (worksrc_stratum_configure (chain o) (Some h) (stratum_port o)
    (Some (default (str "osprey") (worker o))) (pool_pass o) (devfee_pool o) (devfee_worker o) (devfee_pass o) y) = chain o)
    as Hc.
  { intros y. unfold worksrc_stratum_configure. destruct (_ && _); [|done]. by destruct (match last_colon _ with Some _ => _ | None => _ end). }
  cbn [pooled update sources_fields]. rewrite Hc. by destruct (chain o).
Qed.

(** The state reached by a call of [frame_sync] whose bytes reproduce at the offset. *)
Definition calibrated (fuel : nat) (off : Z) (u : uio_uart) (f : framing_stats) (w : W) : Prop :=
  exists u0 f0 w0 buf, frame_sync fuel u0 2 (Some 512%nat) false f0 w0 = Ok (0, buf, u, f, w)
  /\ (RESULT_LEN <= length buf)%nat /\ loopback_verify probe_header buf = Some off.

(** A sweep that succeeds stops there. *)
Lemma phases_calibrate n fuel item u s w u' s' w' :
  phases n fuel item u s w = Ok (0, u', s', w') -> calibrated fuel (nonce_offset s') u' (framing s') w'.
Proof.
  revert u s w. induction n as [|n IH]; intros u s w; cbn [phases]; [done|].
  destruct (fuelled _) as [[u1 w1]| |]; cbn [mbind res_bind]; [|done..]. destruct (fuelled _) as [[[q u2] w2]| |]; cbn [mbind res_bind]; [|done..].
  destruct (fuelled _) as [[[[] u3] w3]| |]; cbn [mbind res_bind]; [|done..]. destruct (fuelled _) as [[d w4]| |]; cbn [mbind res_bind]; [|done..].
  destruct (frame_sync _ _ _ _ _ _ _) as [[[[[rc buf] u5] f] w5]| |] eqn:Es; cbn [mbind res_bind]; [|done..].
  destruct ((rc =? 0) && (RESULT_LEN <=? length buf)%nat) eqn:Eb.
  1: destruct (loopback_verify probe_header buf) as [off|] eqn:E.
  1: { intros [= <- <- <-]. apply andb_true_iff in Eb as [->%Z.eqb_eq Hl%Nat.leb_le]. by exists u3, (framing s), w4, buf. }
  all: destruct (fuelled (uart_put _ _ _ _ _)) as [[[k u6] w6]| |]; cbn [mbind res_bind]; [|done..].
  all: destruct (fuelled _) as [[e w7]| |]; cbn [mbind res_bind]; [|done..]; apply IH.
Qed.

Lemma device_tests_spec fuel o opened w u s w' :
  device_tests fuel o opened w = Ok (Mining u s, w') ->
  opened = true /\ wants o "uart" = false /\ wants o "rxdump" = false /\
  match chain o with
  | Sia => u = uart_open /\ nonce_offset s = 0
  | Knots => wants o "loopback" = false /\ wants o "all" = false /\ calibrated fuel (nonce_offset s) u (framing s) w'
  end.
Proof.
  unfold device_tests. destruct opened; [|done]. cbn [negb]. destruct (selftest_uart w) as [rc w1].
  destruct (wants o "uart"); [done|]. destruct (wants o "rxdump").
  { by destruct (selftest_rxdump _ _ _ _) as [[[[[rc' b] u1] s1] w2]| |]. }
  do 3 (split; [done|]). destruct (chain o); revert H0; [|by intros [= <- <- <-]].
  destruct (selftest_loopback _ _ _ _) as [[[[rc' u1] s1] w2]| |] eqn:E; cbn; [|done..].
  destruct (wants o "loopback"); [done|]. destruct (wants o "all"); [done|]. cbn.
  destruct (Z.eqb_spec rc' 0) as [->|]; [|intros [=]]. intros [= <- <- <-]. do 2 (split; [done|]).
  revert E. unfold selftest_loopback. destruct (build_work_item _ _); [done|]. apply phases_calibrate.
Qed.

Lemma st_vectors_zero o :
  st_vectors o = 0 -> Gbt.selftest_vectors (target_shift o) = 0 /\ SelftestBlock.selftest_block_production = 0.
Proof.
  unfold st_vectors. generalize (Gbt.selftest_vectors (target_shift o)) SelftestBlock.selftest_block_production.
  intros v b. by destruct (Z.eqb_spec v 0) as [->|].
Qed.

(** The device's tests run after the build's, unless another test was named. *)
Lemma boot_tests fuel o opened w u s w' :
  boot fuel o opened w = Ok (Mining u s, w') ->
  device_tests fuel o opened w = Ok (Mining u s, w')
  /\ (forall t, t ∈ ["block"; "stratum"; "framing"; "vectors"]%string -> wants o t = false)
  /\ (selftest o = None \/ wants o "all" = true -> st_vectors o = 0).
Proof.
  unfold boot. destruct (wants o "block") eqn:E1; [done|]. destruct (wants o "stratum") eqn:E2; [done|].
  destruct (wants o "framing") eqn:E3.
  { by destruct (selftest_framing _ _ _) as [[[rc f] w1]| |]. }
  assert (wants o "vectors" = false -> forall t, t ∈ ["block"; "stratum"; "framing"; "vectors"]%string -> wants o t = false) as Hk.
  { intros E4 t. rewrite !elem_of_cons, elem_of_nil. by intros [->|[->|[->|[->|[]]]]]. }
  revert Hk. generalize (wants o "vectors"). clear E1 E2 E3.
  generalize (st_vectors o) (device_tests fuel o opened w) (wants o "all"). intros v d all vectors Hk.
  destruct (bool_decide_reflect (selftest o = None)) as [Hn|Hn]; cbn [orb].
  - destruct vectors, (Z.eqb_spec v 0); cbn [orb negb]; [done..|by intros ->; eauto|done].
  - destruct vectors; [done|]. specialize (Hk eq_refl). destruct all; cbn [orb]; [|by intros ->; split; [|split; [|intros []]]].
    destruct (Z.eqb_spec v 0); cbn [negb]; [by intros ->|done].
Qed.
(** The names that [--selftest] knows. *)
Definition tests : list string := ["vectors"; "block"; "stratum"; "framing"; "uart"; "loopback"; "rxdump"; "all"]%string.
Lemma unknown_test o t :
  selftest o = Some t -> (forall s, s ∈ tests -> wants o s = false) -> t ∉ str <$> tests.
Proof.
  intros Ht Hw (s & -> & Hs)%list_elem_of_fmap. specialize (Hw s Hs). unfold wants in Hw. by apply bool_decide_eq_false in Hw.
Qed.
Lemma asked_for o t s : selftest o = Some t -> wants o s = true -> t = str s.
Proof. unfold wants. rewrite bool_decide_eq_true. congruence. Qed.

Lemma start_boot `{Node W} `{Network W} (strerror : Z -> list Z) (undef : Cdouble.Cdouble.double -> Z)
    fuel o opened x w u s x' w' :
  start strerror undef fuel o opened x w = Ok (Mining u s, x', w') ->
  submit_test o = false /\ stratum_probe o = false /\ x' = configure o x /\ boot fuel o opened w = Ok (Mining u s, w').
Proof.
  unfold start. rewrite source_as_asked. destruct (submit_test o).
  { by destruct (fuelled _) as [[[rc y] w1]| |]. }
  destruct (stratum_probe o).
  { by destruct (stratum_probe_flow _ _ _ _ _) as [[[rc y] w1]| |]. }
  destruct (boot fuel o opened w) as [[e w1]| |]; cbn [mbind res_bind]; [|done..]. by intros [= -> <- ->].
Qed.

(** C8: What start-up guarantees when it ends in the mining loop. Neither probe was asked
    for, the sources are as configured, and the device was mapped. Without [--selftest],
    the hash vectors and the block-production tests have passed. With it, the loop is
    entered only in three cases: [all] on the Siacoin chain, after these tests have
    passed; [loopback] on the Siacoin chain, without them; or a name that is none of the
    tests, again without them. On Knots the loop starts, with nothing read in between,
    from the state that a successful framing left, whose bytes contain a frame that the
    software reproduces at exactly the [nonce_offset] the loop will add; on the Siacoin
    chain the offset is 0. *)
Theorem mining_starts_checked `{Node W} `{Network W} (strerror : Z -> list Z) (undef : Cdouble.Cdouble.double -> Z)
    fuel o opened x w u s x' w' :
  start strerror undef fuel o opened x w = Ok (Mining u s, x', w') ->
  let built := Gbt.selftest_vectors (target_shift o) = 0 /\ SelftestBlock.selftest_block_production = 0 in
  submit_test o = false /\ stratum_probe o = false /\ x' = configure o x /\ opened = true
  /\ match selftest o with
     | None => built
     | Some t => chain o = Sia /\ t = str "all" /\ built \/ chain o = Sia /\ t = str "loopback" \/ t ∉ str <$> tests
     end
  /\ match chain o with
     | Sia => u = uart_open /\ nonce_offset s = 0
     | Knots => calibrated fuel (nonce_offset s) u (framing s) w'
     end.
Proof.
  intros (-> & -> & -> & [(-> & Hu & Hr & Hd)%device_tests_spec [Hb Hv]]%boot_tests)%start_boot built. do 4 (split; [done|]).
  assert (st_vectors o = 0 -> built) as Hbuilt by apply st_vectors_zero. clearbody built. revert Hv Hbuilt.
  generalize (st_vectors o). intros v Hv Hbuilt. split; [|by destruct (chain o); [apply Hd|]].
  destruct (selftest o) as [t|] eqn:Et; [|by apply Hbuilt, Hv; left].
  assert (wants o "loopback" = false -> wants o "all" = false -> t ∉ str <$> tests) as Hk.
  { clear Hv Hbuilt Hd. intros Hl Ha. apply (unknown_test o t Et). intros a. unfold tests. rewrite !elem_of_cons, elem_of_nil.
    intros [->|[->|[->|[->|[->|[->|[->|[->|[]]]]]]]]]; try assumption; apply Hb; rewrite !elem_of_cons; tauto. }
  destruct (chain o); [right; right; apply Hk; apply Hd|].
  destruct (wants o "all") eqn:Ea; [left; split; [done|]; split; [by apply (asked_for o)|by apply Hbuilt, Hv; right]|].
  destruct (wants o "loopback") eqn:El; [right; left; split; [done|by apply (asked_for o)]|right; right; by apply Hk].
Qed.
End Properties.

(** ** What the program sends to the device *)

(** What the clock, the node and the network leave alone. *)
Class Keeps {W A} `{World W} `{Node W} `{Network W} (obs : W -> A) : Prop := {
  now_s_keeps w : obs (now_s w).2 = obs w;
  converse_keeps b w : obs (converse b w).2 = obs w;
  meet_keeps k w : obs (meet k w).2 = obs w;
  carry_keeps k b w : obs (carry k b w) = obs w
}.
(** They stay off the UART; the reset of the FIFOs sends nothing. *)
Class Aside (W : Type) `{Uartlite W} `{Node W} `{Network W} : Prop := {
  reset_keeps_sent v w : sent (reg_write UARTLITE_CTRL v w) = sent w;
  #[global] aside_sent :: Keeps sent;
  #[global] aside_received :: Keeps received
}.
(** The loop's locals when it is entered. *)
Definition entered (u : uio_uart) (s : stats) (x : sources) : loop sources :=
  Loop (WorkCtx (replicate STAGE3_LEN 0) (replicate STAGE4_LEN 0) 0 false) [] [] 0 false 0 0 0 false u s x.

Section Untouched.
Context {W A : Type} `{World W} `{Node W} `{Network W} (obs : W -> A) `{keeps : !Keeps obs} (strerror : Z -> list Z) (undef : Cdouble.Cdouble.double -> Z).

Lemma rpc_call_keeps cfg body s (w : W) : obs (rpc_call cfg body s w).2 = obs w.
Proof using keeps.
  unfold rpc_call. destruct (Cstring.Cstring.inet_pton _); [|done].
  pose proof (converse_keeps (rpc_request cfg body ++ body) w) as E. by destruct (converse _ w) as [[r|] w1].
Qed.
Lemma get_template_keeps cfg s (w : W) r : get_template cfg s w = Some r -> obs r.2 = obs w.
Proof using keeps.
  unfold get_template. pose proof (rpc_call_keeps cfg template_body s w) as E.
  destruct (rpc_call _ _ s w) as [[[a|] s1] w1]; cbn [snd] in E; [|by intros [= <-]].
  destruct (template_fields a) as [f|]; [|by intros [= <-]]. destruct (hex2bin _ 32) as [pb|]; [|by intros [= <-]].
  destruct (template_block _ _ _ _ _) as [[h s2]|]; cbn [mbind option_bind]; [by intros [= <-]|done].
Qed.
Lemma submit_block_keeps cfg h s (w : W) : obs (submit_block cfg h s w).2 = obs w.
Proof using keeps.
  unfold submit_block. destruct (negb _); [done|]. destruct (Block.Block.block_serialize _ _ _ _ _) as [blk|]; [|done].
  match goal with |- context [rpc_call cfg ?b ?x w] => pose proof (rpc_call_keeps cfg b x w) as E end.
  destruct (rpc_call _ _ _ w) as [[[a|] s1] w1]; unfold judge; [by case_match|done].
Qed.
Lemma gbt_build_keeps cfg local s (w : W) r : gbt_build cfg local s w = Some r -> obs r.2 = obs w.
Proof using keeps.
  unfold gbt_build. pose proof (now_s_keeps w) as E. destruct (now_s w) as [t w1]. cbn [snd] in E.
  destruct local.
  - unfold synthetic_template. pose proof (now_s_keeps w1) as E1. destruct (now_s w1) as [t1 w2].
    cbn [mbind option_bind snd] in *. destruct (stage_inputs _) as [|[[a b] c]]; intros [= <-]; cbn; congruence.
  - destruct (get_template cfg s w1) as [[[[h|] s1] w2]|] eqn:Et; cbn [mbind option_bind]; [..|done];
      apply get_template_keeps in Et; cbn [snd] in Et; [|intros [= <-]; cbn; congruence].
    destruct (stage_inputs _) as [|[[a b] c]]; intros [= <-]; cbn; congruence.
Qed.
Lemma gbt_candidate_keeps cfg nonce word s (w : W) : obs (gbt_on_candidate cfg nonce word s w).2 = obs w.
Proof using keeps.
  unfold gbt_on_candidate. destruct (negb _); [done|]. destruct (get_pow_hash _) as [|pow]; [done|].
  destruct (negb _); [done|]. destruct (_ && _); [|done].
  pose proof (submit_block_keeps cfg (with_nonce (g_gbt_hdr s) nonce) s w) as E.
  by destruct (submit_block _ _ _ _) as [[v s1] w1].
Qed.

Lemma pool_poll_keeps t x (w : W) : obs (pool_poll strerror undef t x w).2 = obs w.
Proof using keeps.
  unfold pool_poll. pose proof (meet_keeps Main w) as E. destruct (meet Main w) as [m w1]. cbn [snd] in E.
  assert (obs (if g_dev_configured (pooled x) then meet Dev w1 else (offline, w1)).2 = obs w) as E1.
  { destruct (g_dev_configured _); [|done]. by rewrite meet_keeps. }
  destruct (if g_dev_configured _ then _ else _) as [d w2]. cbn [snd] in E1.
  destruct (st_poll _ _ _ _ _ _) as [[[y a] b]|]; cbn [snd]; [|done]. by rewrite !carry_keeps.
Qed.
Lemma pool_get_work_keeps x (w : W) : obs (pool_get_work undef x w).2 = obs w.
Proof using keeps.
  unfold pool_get_work, st_get_work. destruct (negb _); [done|]. pose proof (now_s_keeps w) as E.
  destruct (now_s w) as [t w1]. by destruct (work_at undef t (pooled x)).
Qed.
Lemma pool_candidate_keeps c n h x (w : W) : obs (pool_on_candidate c n h x w).2 = obs w.
Proof using keeps.
  unfold pool_on_candidate. set (k := default _ _). pose proof (meet_keeps k w) as E.
  destruct (meet k w) as [m w1]. cbn [snd] in E. destruct (st_on_candidate _ _ _ _ _) as [[[v y] b]|]; cbn [snd]; [|done].
  by rewrite carry_keeps.
Qed.

(** The source that was asked for leaves it alone, too. *)
Definition quiet_source (b : @worksrc (callbacks sources W)) : Prop :=
  (forall x w, obs (get_work (ops b) x w).2 = obs w)
  /\ (forall p t x w, poll (ops b) = Some p -> obs (p t x w).2 = obs w)
  /\ (forall c n h x w, obs (on_candidate (ops b) c n h x w).2 = obs w).
Lemma chosen_is_quiet o x b : choose strerror undef o (configure o x) = Some b -> quiet_source b.
Proof using keeps.
  rewrite source_as_asked. intros [= <-]. destruct (stratum_host o).
  - destruct (chain o); (split; [|split]); cbn [ops get_work poll on_candidate g_backend_knots g_backend_sia pool_callbacks].
    all: first [exact pool_get_work_keeps|exact pool_candidate_keeps|intros p t y w [= <-]; apply pool_poll_keeps].
  - assert (forall local y w, obs (build_callback o local y w).2 = obs w) as B.
    { intros local y w. unfold build_callback. destruct (gbt_build _ _ _ _) as [[[c s] w1]|] eqn:E; [|done].
      apply gbt_build_keeps in E. exact E. }
    assert (forall c n h y w, obs (candidate_callback o c n h y w).2 = obs w) as C.
    { intros c n h y w. unfold candidate_callback. pose proof (gbt_candidate_keeps (rpc_config o) n h (alone y) w) as E.
      by destruct (gbt_on_candidate _ _ _ _ _) as [[v s] w1]. }
    destruct (synthetic o); (split; [|split]); try done; intros; apply B.
Qed.
End Untouched.

Section Sends.
Context {W : Type} `{aside : Aside W} (strerror : Z -> list Z) (undef : Cdouble.Cdouble.double -> Z).

Lemma siacoin_start_sent fuel o opened (w w' : W) u s :
  chain o = Sia -> boot fuel o opened w = Ok (Mining u s, w') -> sent w' = sent w.
Proof using aside.
  intros Hc [Hd _]%boot_tests. revert Hd. unfold device_tests. destruct (negb opened); [done|].
  assert (sent (selftest_uart w).2 = sent w) as E.
  { unfold selftest_uart, uart_stat, uart_reset_fifos. pose proof (read_keeps_sent UARTLITE_STAT w) as E.
    destruct (reg_read UARTLITE_STAT w) as [a w1]. cbn [snd] in E.
    match goal with |- context [usleep ?t ?y] => pose proof (read_keeps_sent UARTLITE_STAT (usleep t y)) as E1;
      rewrite usleep_keeps_sent, reset_keeps_sent, E in E1; by destruct (reg_read UARTLITE_STAT (usleep t y)) end. }
  destruct (selftest_uart w) as [rc w1]. cbn [snd] in E. destruct (wants o "uart"); [done|].
  destruct (wants o "rxdump"); [by destruct (selftest_rxdump _ _ _ _) as [[[[[rc' b] u1] s1] w2]| |]|].
  rewrite Hc. by intros [= _ _ <-].
Qed.

(** C7: The whole program keeps the device's free-running byte counter in step. From
    the start of [main], with whatever source the command line asks for and over any
    number of passes of the mining loop, what the transmitter takes in the loop are
    items of one length, 88 bytes for a pool on the Siacoin chain and 168 otherwise, one
    push after the other, at most one per pass. By [on_record], each is packed from the
    context that the source answered with the device in the state the earlier pushes
    left, and the transmitter takes less than the whole of it only if it stalled after
    that part: the driver then found it full at every look at its status for more than
    200 milliseconds. If no push is cut, the bytes sent since the start of the loop are a
    whole number of items. On the Siacoin chain, where no calibration realigns the device,
    nothing at all was sent before. Candidates are checked against the last item that
    went out whole. *)
Theorem miner_sends_items o fuel opened x (w : W) u s x1 w1 b word_name n l' w' :
  start strerror undef fuel o opened x w = Ok (Mining u s, x1, w1) ->
  choose strerror undef o x1 = Some b ->
  passes b word_name n fuel (entered u s x1) w1 = Ok (l', w') ->
  item_len b = (if stratum_host o is Some _ then match chain o with Sia => 88 | Knots => 168 end else 168)%nat
  /\ (chain o = Sia -> sent w1 = sent w)
  /\ exists ps, (length ps <= n)%nat
     /\ sent w' = sent w1 ++ concat (chunk b <$> ps)
     /\ on_record b (sent w1) ps
     /\ (Forall (fun p => p.2 = item_len b) ps -> length (sent w') = length (sent w1) + length ps * item_len b)%nat
     /\ ctx l' = latest (ctx (entered u s x1)) (completed b ps).
Proof using aside.
  intros (_ & _ & -> & Hb)%start_boot Ec Hp. split; [|split].
  - rewrite source_as_asked in Ec. injection Ec as <-.
    destruct (stratum_host o); [by destruct (chain o)|by destruct (synthetic o)].
  - intros Hc. exact (siacoin_start_sent _ _ _ _ _ _ _ Hc Hb).
  - apply (chosen_is_quiet sent) in Ec as (Q1 & Q2 & Q3).
    destruct (passes_send_items b word_name Q1 Q2 Q3 _ _ _ _ _ _ Hp) as (ps & Hl & Hs & Hf & Hx & _).
    exists ps. split_and!; [done..| |done]. intros Hw. rewrite Hs, length_app. f_equal. clear Hs Hl Hx.
    revert Hf. generalize (sent w1). induction ps as [|p ps IH]; intros s0; [done|]. apply Forall_cons in Hw as [Hp1 Hw].
    intros (_ & Hi & _ & _ & Hf). rewrite fmap_cons. cbn [concat]. rewrite length_app, (IH Hw (s0 ++ chunk b p)) by done.
    unfold chunk. rewrite length_take. cbn [length]. lia.
Qed.
End Sends.

(** A device that answers the probe 100 ms after power-up, three pipeline steps late. *)
Definition knots_miner : options := cfg Knots.
Definition answer : list Z :=
  framing_make 0x123456789 (Gbt.expected_hash_top64 (Gbt.with_nonce probe_header 0x12345678c)).
Definition answering : Fifo.fifo := Fifo.FifoT 0 [] [] ((fun b => (100000000, b)) <$> answer) [].
Definition started : res (ending * Fifo.fifo) := boot (Z.to_nat 4000) knots_miner true answering.
Definition starts (r : res (ending * Fifo.fifo)) : uio_uart * stats * Fifo.fifo :=
  match r with Ok (Mining u s, w) => (u, s, w) | _ => (uart_open, MINER_STATS, answering) end.
Lemma started_offset : nonce_offset (starts started).1.2 = 3.
Proof. vm_compute. reflexivity. Qed.
#[local] Instance no_node : Node Fifo.fifo := fun _ w => (None, w).
#[local] Instance no_network : Network Fifo.fifo := { meet _ w := (offline, w); carry _ _ w := w }.
Lemma begin_ok x :
  start (fun _ => []) (fun _ => 0) (Z.to_nat 4000) knots_miner true x answering
  = Ok (Mining (starts started).1.1 (starts started).1.2, x, (starts started).2).
Proof.
  unfold start. rewrite source_as_asked.
  assert (boot (Z.to_nat 4000) knots_miner true answering
    = Ok (Mining (starts started).1.1 (starts started).1.2, (starts started).2)) as -> by (vm_compute; reflexivity).
  reflexivity.
Qed.
Definition no_sources : sources := Sources Gbt.Gbt.fresh WorksrcStratum.blank.
Lemma mining_starts_checked_witness :
  Gbt.selftest_vectors 22 = 0
  /\ calibrated (Z.to_nat 4000) (nonce_offset (starts started).1.2) (starts started).1.1
       (framing (starts started).1.2) (starts started).2.
Proof.
  destruct (mining_starts_checked (fun _ => []) (fun _ => 0) (Z.to_nat 4000) knots_miner true no_sources answering
    (starts started).1.1 (starts started).1.2 no_sources (starts started).2 (begin_ok no_sources))
    as (_ & _ & _ & _ & Hv & Hc).
  split; [exact (proj1 Hv)|exact Hc].
Defined.

(** A pool that answers the handshake and describes one job, on every poll. *)
Section Pool.
Definition pool_lines : list Z :=
  SelftestStratum.SUBSCRIBE_LINE ++ [10] ++ Stratum.Stratum.dq "{'id':2,'result':true,'error':null}" ++ [10]
  ++ SelftestStratum.NOTIFY_LINE ++ [10].
Definition pool : meeting := Meeting SelftestStratum.listening SelftestStratum.roomy [Stratum.Stratum.Data pool_lines].
#[local] Instance pool_network : Network Fifo.fifo := { meet _ w := (pool, w); carry _ _ w := w }.
#[local] Instance pool_keeps {A} (obs : Fifo.fifo -> A) `{Hobs : forall w, obs (now_s w).2 = obs w} : Keeps obs.
Proof. split; [exact Hobs|done..]. Qed.
#[local] Instance pool_aside : Aside Fifo.fifo.
Proof. split; [done|apply pool_keeps..]; apply _ || done. Qed.

Definition siacoin_miner : options :=
  (cfg Sia) <| stratum_host := Some (str "127.0.0.1") |> <| stratum_port := 4444 |>.
Definition pool_source : @worksrc (callbacks sources Fifo.fifo) :=
  g_backend_sia (pool_callbacks (fun _ => []) (fun _ => 0)).
Definition configured : sources := configure siacoin_miner no_sources.
Definition run_of (r : res (ending * sources * Fifo.fifo)) : uio_uart * stats * Fifo.fifo :=
  match r with Ok (Mining u s, _, w) => (u, s, w) | _ => (uart_open, MINER_STATS, Fifo.idle) end.
Definition loop_of (r : res (loop sources * Fifo.fifo)) : loop sources * Fifo.fifo :=
  match r with Ok r => r | _ => (entered uart_open MINER_STATS no_sources, Fifo.idle) end.
Definition idle_start : uio_uart * stats * Fifo.fifo :=
  run_of (start (fun _ => []) (fun _ => 0) (Z.to_nat 4000) siacoin_miner true no_sources Fifo.idle).
Definition mined : loop sources * Fifo.fifo :=
  loop_of (passes pool_source (str "H[0]") 4 (Z.to_nat 4000) (entered idle_start.1.1 idle_start.1.2 configured) idle_start.2).
Lemma idle_start_ok :
  start (fun _ => []) (fun _ => 0) (Z.to_nat 4000) siacoin_miner true no_sources Fifo.idle
  = Ok (Mining idle_start.1.1 idle_start.1.2, configured, idle_start.2).
Proof. vm_compute. reflexivity. Qed.
Lemma pool_choice_ok : choose (fun _ => []) (fun _ => 0) siacoin_miner configured = Some pool_source.
Proof. exact (source_as_asked (fun _ => []) (fun _ => 0) siacoin_miner no_sources). Qed.
Lemma mined_ok :
  passes pool_source (str "H[0]") 4 (Z.to_nat 4000) (entered idle_start.1.1 idle_start.1.2 configured) idle_start.2
  = Ok (mined.1, mined.2).
Proof. vm_compute. reflexivity. Qed.
(** One item went out, and it is the captured job's. *)
Example mined_item :
  length (Fifo.accepted mined.2) = 88%nat
  /\ wire_item pool_source (ctx mined.1) = Fifo.accepted mined.2 /\ items_sent (st mined.1) = 1.
Proof. vm_compute. done. Qed.

Lemma miner_sends_items_witness :
  item_len pool_source = 88%nat /\ sent idle_start.2 = sent Fifo.idle
  /\ exists ps, (length ps <= 4)%nat
     /\ sent mined.2 = sent idle_start.2 ++ concat (chunk pool_source <$> ps).
Proof.
  destruct (miner_sends_items (fun _ => []) (fun _ => 0) siacoin_miner (Z.to_nat 4000) true no_sources Fifo.idle
    idle_start.1.1 idle_start.1.2 configured idle_start.2 pool_source (str "H[0]") 4 mined.1 mined.2
    idle_start_ok pool_choice_ok mined_ok) as (Hi & Hs & ps & Hl & He & _).
  split; [exact Hi|]. split; [exact (Hs eq_refl)|]. exists ps. split; [exact Hl|exact He].
Defined.
End Pool.

(** On the Siacoin chain, and for a name that is none of the tests, start-up goes on to
    mine; the unknown name has also skipped the hash vectors. *)
Definition asks (c : worksrc_chain) (t : string) : options := (cfg c) <| selftest := Some (str t) |>.
Example sia_all_mines : (if boot 1 (asks Sia "all") true answering is Ok (Mining _ _, _) then true else false) = true.
Proof. vm_compute. reflexivity. Qed.
Example misspelt_test_mines :
  (if boot (Z.to_nat 4000) (asks Knots "vector") true answering is Ok (Mining _ _, _) then true else false) = true.
Proof. vm_compute. reflexivity. Qed.

(** A pool's command line; a port is needed; the last colon splits. *)
Definition no_env (_ : list Z) : option (list Z) := None.
Definition command (l : list string) : parsed := parse no_env (str <$> l) (cfg Knots).
Example pool_command :
  match command ["--stratum"; "fe80::1:3333"; "--worker"; "w.1"; "--algo"; "sia"; "--submit"]%string with
  | Run o => bool_decide (stratum_host o = Some (str "fe80::1")) && (stratum_port o =? 3333)
             && bool_decide (worker o = Some (str "w.1")) && (if chain o is Sia then true else false) && negb (dry_run o)
  | Leave _ _ => false
  end = true.
Proof. vm_compute. reflexivity. Qed.
Example refused_commands :
  (command ["--stratum"; "pool:"], command ["--algo"; "x"], command ["--uart"])%string
  = (Leave 2 [], Leave 2 [], Leave 2 []).
Proof. vm_compute. reflexivity. Qed.
End Miner.
