(* ===== verification/Shares.v ===== *)
(** * What the pool receives (worksrc_stratum.c under the mining loop of miner.c)

    The pool source as an automaton of its entry points, the messages it writes, and
    that the mining loop runs it: every message that reaches a pool is the handshake or
    the submission of a valid share, or a prefix of one of them that a failing
    connection cut. *)
From S2P Require Import Prelude Blake2b WorkItem Worksrc Job SiaStratum Cdouble StratumTarget Json Stratum StratumMessages StratumLink Uart Framing Observe Gbt Mining Follow WorksrcStratum SelftestStratum Miner.

Module Shares.
Import WorkItem SiaStratum Worksrc Job Cdouble StratumTarget Json Stratum StratumMessages StratumLink WorksrcStratum.
Local Open Scope word_scope.

(** ** What a session never changes *)
Record steady (s s' : stratum) : Prop := {
  steady_worker : worker s' = worker s;
  steady_password : password s' = password s;
  steady_en2 : 0 <= en2_size s -> 0 <= en2_size s'
}.
#[export] Instance steady_preorder : PreOrder steady.
Proof. split; [by split|]. intros a b c [] []. split; [congruence..|tauto]. Qed.

Section Steady.
Context (strerror : Z -> list Z) (undef : double -> Z) (size_t : forall d, 0 <= undef d).

Lemma cast_size hi d : 0 <= cast undef 0 hi d.
Proof using size_t.
  unfold cast. destruct (trunc d) as [z|]; [|apply size_t]. destruct (Z.leb_spec 0 z); [|apply size_t].
  destruct (z <=? hi); [done|apply size_t].
Qed.
Lemma steady_drop s why : steady s (drop s why).
Proof. unfold drop. destruct why as [[|c why]|]; by destruct (0 <=? fd s). Qed.
Lemma steady_on_request s m params now : steady s (on_request undef s m params now).
Proof using size_t.
  unfold on_request. repeat case_bool_decide; [| | | |done].
  - unfold on_notify. by destruct (notify_job _ _).
  - unfold set_difficulty. by destruct (js_elem _ _).
  - unfold set_extranonce. destruct (js_elem _ 0) as [e|]; [|done]. destruct (js_hex _ _ _) as [[got|] en1]; [|done].
    destruct (js_elem _ 1); [|done]. destruct (_ && _); [|done]. split; [done..|]. intros _. apply cast_size.
  - unfold client_reconnect. cbv zeta. etransitivity; [|apply steady_drop]. destruct (js_elem _ 0); [|done].
    destruct (js_str _ _) as [[] out]; done.
Qed.
Lemma steady_on_reply s id res err : steady s (on_reply undef s id res err).
Proof using size_t.
  unfold on_reply. destruct (_ =? sub_id s).
  { destruct res as [r|]; [|done]. destruct (_ =? 91); [|done]. unfold on_subscribe. destruct (js_elem _ 1); [|done].
    destruct (js_elem _ 2); [|done]. destruct (js_hex _ _ _) as [[got|] e]; [|done]. destruct (_ || _); [done|].
    split; [done..|]. intros _. apply cast_size. }
  destruct (_ =? auth_id s); [by destruct (negb _)|]. destruct (_ =? suggest_diff_id s); [done|]. unfold on_verdict.
  destruct (result_true _); [done|]. destruct err; [|done]. destruct (_ =? 91); [|done]. by destruct (js_elem _ 1).
Qed.
Lemma steady_on_line s line now : steady s (on_line undef s line now).
Proof using size_t.
  unfold on_line. destruct (js_get line (str "method")) as [meth|].
  - destruct (js_str _ _) as [[] m]; cbn [negb]; [|done]. destruct (js_get line (str "params")); [apply steady_on_request|done].
  - destruct (js_get line (str "id")); [apply steady_on_reply|done].
Qed.
Lemma steady_dispatch fuel s start now : steady s (dispatch undef fuel s start now).
Proof using size_t.
  revert s start. induction fuel as [|fuel IH]; intros s start; [done|]. unfold dispatch; fold (dispatch undef).
  destruct (split_line start) as [[line rest]|]; [|done]. set (s1 := if (_ <? _)%nat then _ else s).
  assert (steady s s1) as H1 by (subst s1; destruct (_ <? _)%nat; [apply steady_on_line|done]). clearbody s1.
  destruct (fd s1 <? 0); [done|]. etransitivity; [exact H1|apply IH].
Qed.
Lemma steady_recv recvs s : steady s (recv_loop strerror recvs s).2.
Proof.
  revert s. induction recvs as [|e recvs IH]; intros s; cbn [recv_loop]; destruct (_ <=? _); try apply steady_drop; [done|].
  destruct e as [l| | | |e]; cbn [snd]; try apply steady_drop; [|done|apply IH].
  destruct (_ =? _)%nat; [apply steady_drop|]. etransitivity; [|apply IH]. done.
Qed.
Lemma steady_send sends s line r : send_line sends s line = Some r -> steady s r.1.1.2.
Proof.
  unfold send_line. destruct (fd s <? 0); [by intros [= <-]|]. destruct (send_loop _ _) as [[[ok w] q]|]; [|done].
  cbn [mbind option_bind]. intros [= <-]. cbn. destruct ok; [done|apply steady_drop].
Qed.
(** The bytes written are the line or a prefix of it. *)
Lemma sent_prefix sends s line ok s' w r :
  send_line sends s line = Some (ok, s', w, r) -> if ok : bool then s' = s /\ w = line else w `prefix_of` line.
Proof.
  unfold send_line. destruct (fd s <? 0); [intros [= <- <- <- <-]; apply prefix_nil|].
  destruct (send_loop sends line) as [[[ok' w'] r']|] eqn:E; [|done]. cbn [mbind option_bind].
  intros [= <- <- <- <-]. apply send_loop_spec in E. destruct ok'; [done|].
  destruct E as (rest & _ & ->). by exists rest.
Qed.

(** What a dial writes: the three requests, with consecutive identifiers. *)
Definition handshake (id : Z) (worker password : list Z) : list Z :=
  let i1 := u64 (id + 1) in let i2 := u64 (i1 + 1) in
  subscribe_line i1 ++ authorize_line i2 worker password ++ suggest_line (u64 (i2 + 1)).
Definition greets (s : stratum) (w : list Z) : Prop :=
  exists id, w `prefix_of` handshake id (worker s) (password s).

#[local] Opaque subscribe_line authorize_line suggest_line submit_line.
Lemma greet_writes sends s s' w : greet sends s = Some (s', w) -> steady s s' /\ greets s w.
Proof.
  unfold greet. intros E. set (s1 := _ <| sub_id := _ |>) in E.
  assert (forall s2, steady s1 s2 -> steady s s2) as H1 by (intros s2 <-; done).
  destruct (send_line sends s1 _) as [[[[ok s2] w1] r1]|] eqn:E1; cbn [mbind option_bind] in E; [|done].
  pose proof (steady_send _ _ _ _ E1) as H2. apply sent_prefix in E1. cbn [fst snd] in H2. destruct ok; cbn [negb] in E; cycle 1.
  { injection E as <- <-. split; [by apply H1|]. exists (next_id s). by apply prefix_app_r. }
  destruct E1 as [-> ->]. set (s3 := _ <| auth_id := _ |>) in E.
  assert (forall s4, steady s3 s4 -> steady s s4) as H3 by (intros s4 <-; done). clear H2.
  destruct (send_line r1 s3 _) as [[[[ok s4] w2] r2]|] eqn:E2; cbn [mbind option_bind] in E; [|done].
  pose proof (steady_send _ _ _ _ E2) as H4. apply sent_prefix in E2. cbn [fst snd] in H4. destruct ok; cbn [negb] in E; cycle 1.
  { injection E as <- <-. split; [by apply H3|]. exists (next_id s). unfold handshake. apply prefix_app. by apply prefix_app_r. }
  destruct E2 as [-> ->]. set (s5 := _ <| suggest_diff_id := _ |>) in E. clear H4.
  assert (forall s6, steady s5 s6 -> steady s s6) as H5 by (intros s6 <-; done).
  destruct (send_line r2 s5 _) as [[[[ok s6] w3] r3]|] eqn:E3; cbn [mbind option_bind] in E; [|done].
  pose proof (steady_send _ _ _ _ E3) as H6. apply sent_prefix in E3. cbn [fst snd] in H6. injection E as <- <-.
  split; [by apply H5|]. exists (next_id s). unfold handshake. do 2 apply prefix_app. destruct ok; [|done]. by destruct E3 as [_ ->].
Qed.
Lemma dial_writes a sends s now s' w : dial strerror a sends s now = Some (s', w) -> steady s s' /\ greets s w.
Proof.
  assert (forall s, greets s []) as Hnil by (intros s0; exists 0; apply prefix_nil).
  unfold dial. destruct (now <? retry_at s); [by intros [= <- <-]|].
  destruct (dial_target s) as [[[[h p] addr0] redirect] s1] eqn:Et.
  assert (steady s s1 /\ forall w, greets s1 w -> greets s w) as [H1 G1].
  { unfold dial_target in Et. by destruct (reconnect_pending s); injection Et as <- <- <- <- <-. }
  cbv zeta. destruct (if negb _ then _ else _) as [err|ad].
  { intros [= <- <-]. split; [rewrite H1; by destruct redirect|done]. }
  destruct (new_socket a) as [e|f]; [intros [= <- <-]; split; [rewrite H1; by destruct redirect|done]|].
  destruct (negb (parses a)); [intros [= <- <-]; split; [rewrite H1; by destruct redirect|done]|].
  destruct (connect_errno _) as [e|]; [intros [= <- <-]; split; [rewrite H1; by destruct redirect|done]|].
  set (s2 := _ <| reconnects := _ |>). intros [H2 G2]%greet_writes. assert (steady s1 s2) as H3 by (by destruct redirect).
  split; [rewrite H1, H3; exact H2|]. apply G1. destruct G2 as [id G2]. exists id.
  by rewrite (steady_worker _ _ H3), (steady_password _ _ H3) in G2.
Qed.
Lemma poll_writes a sends recvs s now s' w :
  stratum_poll strerror undef a sends recvs s now = Some (s', w) -> steady s s' /\ greets s w.
Proof using size_t.
  unfold stratum_poll. destruct (fd s <? 0); [apply dial_writes|].
  pose proof (steady_recv recvs s) as H1. destruct (recv_loop _ _ _) as [ok s1]. cbn [snd] in H1.
  assert (greets s []) by (exists 0; apply prefix_nil).
  destruct ok; cbn [negb]; intros [= <- <-]; split; [|done..]. rewrite H1. apply steady_dispatch.
Qed.
Lemma submit_writes sends s j e t n ok s' w :
  stratum_submit sends s j e t n = Some (ok, s', w) ->
  steady s s' /\ (w = [] \/ w `prefix_of` submit_line (u64 (next_id s + 1)) (worker s) j e t n).
Proof.
  unfold stratum_submit. destruct (fd s <? 0); [intros [= <- <- <-]; split; [done|by left]|].
  set (s1 := s <| next_id := _ |>).
  destruct (send_line _ s1 _) as [[[[k s2] w1] r]|] eqn:E; cbn [mbind option_bind]; [|done].
  pose proof (steady_send _ _ _ _ E) as H1. apply sent_prefix in E. cbn [fst snd] in H1.
  assert (steady s s2) as H2 by (rewrite <- H1; done).
  destruct k; cbn [negb]; intros [= <- <- <-]; (split; [by rewrite H2|right]); [|done]. by destruct E as [_ ->].
Qed.
End Steady.

(** ** The source as an automaton of its entry points *)
Inductive event :=
  | Polled (main dev : list Z)   (* what each session wrote *)
  | Declined                     (* no work, or a call that has not returned *)
  | Made (k : which) (s : stratum) (ctx : work_ctx)   (* an item for session [k], which was [s] *)
  | Offered (ctx : work_ctx) (nonce : Z) (k : which) (wire : list Z).
Definition written (e : event) : list (which * list Z) :=
  match e with
  | Polled a b => [(Main, a); (Dev, b)]
  | Offered _ _ k wire => [(k, wire)]
  | Declined | Made _ _ _ => []
  end.
(** The item made last. *)
Definition item : Type := which * stratum * work_ctx.
Definition made (m : option item) (e : event) : option item := if e is Made k s c then Some (k, s, c) else m.
Definition last_made (tr : list event) : option item := foldl made None tr.

Section Automaton.
Context (strerror : Z -> list Z) (undef : double -> Z).

Inductive act (x : source) : event -> source -> Prop :=
  | act_poll m d now x' w1 w2 :
      sound_attempt (attempting m) -> sound_attempt (attempting d) ->
      st_poll strerror undef m d now x = Some (x', w1, w2) -> act x (Polled w1 w2) x'
  | act_idle : act x Declined x
  | act_decline now x' :
      stratum_ready (g_main x) = true -> work_at undef now x = (None, x') -> act x Declined x'
  | act_make now ctx x' k :
      stratum_ready (g_main x) = true -> work_at undef now x = (Some ctx, x') -> sess (g_cur x') = Some k ->
      act x (Made k (session k x) ctx) x'
  | act_offer sends ctx nonce word v x' wire :
      st_on_candidate sends ctx nonce word x = Some (v, x', wire) ->
      act x (Offered ctx nonce (default Main (sess (g_cur x))) wire) x'.
Inductive acts (x : source) : list event -> source -> Prop :=
  | acts_nil : acts x [] x
  | acts_snoc tr y e z : acts x tr y -> act y e z -> acts x (tr ++ [e]) z.

Lemma acts_one x e y : act x e y -> acts x [e] y.
Proof. intros H. exact (acts_snoc x [] x e y (acts_nil x) H). Qed.
Lemma acts_app x tr y tr' z : acts x tr y -> acts y tr' z -> acts x (tr ++ tr') z.
Proof.
  intros H1 H2. induction H2 as [|tr' y' e z _ IH H]; [by rewrite app_nil_r|].
  rewrite app_assoc. by econstructor.
Qed.

(** *** What making an item leaves alone *)
Record unmoved (x x' : source) : Prop := {
  unmoved_session k : session k x' = session k x;
  unmoved_chain : g_chain x' = g_chain x;
  unmoved_dev : g_dev_configured x' = g_dev_configured x
}.
#[local] Instance unmoved_preorder : PreOrder unmoved.
Proof. split; [by split|]. intros a b c [] []. split; [intros k|..]; congruence. Qed.
Lemma unmoved_by x x' :
  g_main x' = g_main x -> g_dev x' = g_dev x -> g_chain x' = g_chain x -> g_dev_configured x' = g_dev_configured x -> unmoved x x'.
Proof. intros H1 H2 H3 H4. split; [by intros []|done..]. Qed.

Lemma build_unmoved k dev x r x' :
  build_from undef k dev x = (r, x') -> unmoved x x' /\ (r = None -> g_cur x' = g_cur x) /\ (r <> None -> sess (g_cur x') = Some k).
Proof.
  unfold build_from. cbv zeta. destruct (_ <? _); [by intros [= <- <-]|].
  match goal with |- context [match ?st with Some _ => _ | None => _ end = _] => destruct st as [[ss3 ss4]|] end;
    intros [= <- <-]; (split; [by apply unmoved_by|]); by split.
Qed.
(** The item that [work_at] made came from one [build_from]. *)
Lemma work_made now x r x' :
  work_at undef now x = (r, x') ->
  unmoved x x' /\ match r with
  | None => g_cur x' = g_cur x
  | Some ctx => exists k dev y y', sess (g_cur x') = Some k /\ (k = Dev -> g_dev_configured x = true)
      /\ unmoved x y /\ build_from undef k dev y = (Some ctx, y') /\ g_cur x' = g_cur y'
  end.
Proof.
  unfold work_at. cbv zeta. destruct (_ && _); [by intros [= <- <-]|].
  destruct (Devfee.Devfee.devfee_pool_epoch (fees x)) as [want c]. set (x1 := x <| fees := c |>).
  assert (unmoved x x1 /\ g_cur x1 = g_cur x) as [U1 C1] by (split; [by apply unmoved_by|done]).
  match goal with |- context [if ?b then build_from undef Dev true ?z else ?n] => destruct (if b then build_from undef Dev true z else n) as [dw x2] eqn:E end.
  assert (unmoved x x2 /\ (dw = None -> g_cur x2 = g_cur x) /\ (forall ctx, dw = Some ctx -> exists k dev y y', sess (g_cur x2) = Some k
    /\ (k = Dev -> g_dev_configured x = true) /\ unmoved x y /\ build_from undef k dev y = (Some ctx, y') /\ g_cur x2 = g_cur y')) as (U2 & N2 & M2).
  { destruct (want && g_dev_configured x1 && stratum_ready (g_dev x1)) eqn:Eg; [|by injection E as <- <-].
    pose proof E as (U & N & Sk)%build_unmoved. split; [by transitivity x1|]. split; [by intros ->%N|]. intros ctx ->.
    exists Dev, true, x1, x2. split_and!; [by apply Sk| |done..]. intros _. by apply andb_prop in Eg as [[_ ?]%andb_prop _]. }
  destruct dw as [ctx|].
  - intros [= <- <-]. split; [transitivity x2; [done|by apply unmoved_by]|]. destruct (M2 ctx eq_refl) as (k & dev & y & y' & H). exists k, dev, y, y'. exact H.
  - set (x3 := if want then _ else x2). assert (unmoved x x3 /\ g_cur x3 = g_cur x) as [U3 C3].
    { subst x3. specialize (N2 eq_refl). destruct want; [|done]. split; [|done]. transitivity x2; [done|by apply unmoved_by]. }
    destruct (build_from undef Main false x3) as [wk x4] eqn:E3. pose proof E3 as (U & N & Sk)%build_unmoved.
    destruct wk as [ctx|]; intros [= <- <-].
    + split; [transitivity x4; [by transitivity x3|by apply unmoved_by]|]. exists Main, false, x3, x4. split_and!; [by apply Sk|done..].
    + split; [by transitivity x3|]. by rewrite N.
Qed.

(** *** What a submission claims *)

(** [line] is the submission, by the session when it was [s], of [nonce] for its job
    under some extranonce2 [e]. The hash that the pool computes from its own copy of the
    job, with the extranonce [s] was given, meets the target the source derived from the
    difficulty of [s]; for a difficulty that the source divides by correctly, that is the
    share target. Where the worker and the job's identifier print without escapes, the
    scanner reads every field back from the line. *)
Definition share (chain : worksrc_chain) (s : stratum) (nonce : Z) (line : list Z) : Prop :=
  exists id e,
    is_word 64 id /\ (1 <= length e <= STRATUM_MAX_EN2)%nat /\ bytes e
    /\ line = submit_line id (worker s) (Job.job_id (job s)) e (Job.ntime (job s)) (le_bytes 8 nonce)
    /\ (let value := Spec.value chain (Spec.digest (job s) (extranonce s) e (Job.ntime (job s)) (le_bytes 8 nonce)) in
        value <= be_val (stratum_target_full undef (difficulty s))
        /\ (0 < scaled_difficulty undef (difficulty s) <= 2 ^ 63 -> value <= Spec.share_target undef (difficulty s)))
    /\ (Json.Spec.plain (worker s) -> Json.Spec.plain (Job.job_id (job s)) ->
        exists id', read_submit undef line
        = Some (id', str "mining.submit", worker s, Job.job_id (job s), e, Job.ntime (job s), le_bytes 8 nonce)).

Lemma share_intro chain s e nonce id :
  wf_session s -> bytes e -> (1 <= length e <= STRATUM_MAX_EN2)%nat ->
  Spec.value chain (Spec.digest (job s) (extranonce s) e (Job.ntime (job s)) (le_bytes 8 nonce))
  <= be_val (stratum_target_full undef (difficulty s)) ->
  share chain s nonce (submit_line (u64 id) (worker s) (Job.job_id (job s)) e (Job.ntime (job s)) (le_bytes 8 nonce)).
Proof.
  intros Hs He Hl Hv. pose proof (wf_session_job s Hs) as Hj. pose proof (u64_word id) as Hid.
  destruct (wf_ntime _ Hj) as [Tl Tb]. exists (u64 id), e. do 4 (split; [done|]). split.
  - split; [exact Hv|]. intros Hd. destruct (target_full_spec undef (difficulty s) Hd) as [_ Ht]. unfold Spec.share_target. by rewrite <- Ht.
  - intros Pw Pj. rewrite submit_line_print by (apply Hl || done || apply Hs || apply Hj).
    destruct (read_submit_line undef (u64 id) (worker s) (Job.job_id (job s)) e (Job.ntime (job s)) (le_bytes 8 nonce))
      as (id' & E & _); try done; try apply Hs; try apply Hj; [apply Hl|split; [done|apply bytes_le_bytes]|].
    by exists id'.
Qed.

(** A candidate checked against the item that the source made last. *)
Lemma offer_share sends k dev y y' ctx e x nonce word v x' wire :
  let s0 := session k y in
  wf_session s0 -> built undef k dev y y' ctx e -> g_cur x = g_cur y' -> g_chain x = g_chain y ->
  worker (session k x) = worker s0 ->
  st_on_candidate sends ctx nonce word x = Some (v, x', wire) ->
  wire = [] \/ sess (g_cur x) = Some k /\ exists line, wire `prefix_of` line /\ share (g_chain y) s0 nonce line.
Proof.
  intros s0 Hs0 B Ec Eg Ew Ho. apply offer_cases in Ho as [(_ & -> & _)|(k' & ok & s' & c & Ek & Hm & Hw & _)]; [by left|].
  pose proof (pow_value undef k dev y y' ctx e nonce Hs0 B) as [Ha Hv]. fold s0 in Hv.
  rewrite Ec, (built_source _ _ _ _ _ _ _ B) in *. cbn [g_cur source_fields update target sess job_id en2 ntime] in *. fold s0 in Hm, Hw.
  injection Ek as <-. apply submit_writes in Hw as [_ [->|Hw]]; [by left|]. right. split; [done|].
  rewrite Ew in Hw. eexists. split; [exact Hw|].
  destruct (built_en2 _ _ _ _ _ _ _ B) as (_ & Hel & Heb). apply share_intro; try done.
  rewrite Eg, hash_meets_target_spec in Hm by (done || apply target_full_array). apply Z.leb_le in Hm. by rewrite <- Hv.
Qed.

(** *** What is known after any calls *)

(** A session in use, since it was [s0]. *)
Definition live (s0 s : stratum) : Prop := good s /\ 0 <= en2_size s /\ steady s0 s.
Definition used (x : source) (k : which) : Prop := k = Dev -> g_dev_configured x = true.
(** The state [x], from [x0], with the item [m] made last. *)
#[local] Instance which_eq_dec : EqDecision which.
Proof. solve_decision. Defined.
Record known (x0 x : source) (m : option item) : Prop := {
  known_session k : used x k -> live (session k x0) (session k x);
  known_chain : g_chain x = g_chain x0;
  known_item k s c : m = Some (k, s, c) ->
    used x k /\ exists dev y y' e, session k y = s /\ g_chain y = g_chain x0 /\ live (session k x0) s
      /\ built undef k dev y y' c e /\ g_cur x = g_cur y'
}.

Lemma live_trans s0 s s' : live s0 s -> good s' -> steady s s' -> live s0 s'.
Proof. intros (_ & H2 & H3) G S. split_and!; [done|by apply S|by rewrite H3]. Qed.

(** A call that changes sessions only. *)
Lemma known_next x0 x x' m :
  known x0 x m -> g_cur x' = g_cur x -> g_chain x' = g_chain x -> g_dev_configured x' = g_dev_configured x ->
  (forall k, used x k -> good (session k x') /\ steady (session k x) (session k x')) -> known x0 x' m.
Proof.
  intros [Ks Kc Ki] E1 E2 E3 Hs. split.
  - intros k Hk. unfold used in Hk. rewrite E3 in Hk. destruct (Hs k Hk). by eapply live_trans; [apply Ks|..].
  - congruence.
  - intros k s c Hm. unfold used. rewrite E1, E3. by apply Ki.
Qed.
Lemma known_unmoved x0 x x' m : known x0 x m -> unmoved x x' -> g_cur x' = g_cur x -> known x0 x' m.
Proof.
  intros K [U1 U2 U3] E. apply (known_next x0 x); try done. intros k Hk. rewrite U1.
  split; [by apply (known_session _ _ _ K)|done].
Qed.

(** What a pool must not be sent: everything else than its handshake and shares. *)
Definition accounted (x0 : source) (m : option item) (e : event) : Prop :=
  match e with
  | Polled a b => greets (g_main x0) a /\ greets (g_dev x0) b
  | Offered ctx nonce k wire =>
    wire = [] \/ exists s, m = Some (k, s, ctx) /\ worker s = worker (session k x0)
      /\ exists line, wire `prefix_of` line /\ share (g_chain x0) s nonce line
  | Declined | Made _ _ _ => True
  end.
(** The candidate is about the item made last. *)
Definition linked (m : option item) (e : event) : Prop :=
  if e is Offered ctx _ _ _ then exists k s, m = Some (k, s, ctx) else True.

Context (size_t : forall d, 0 <= undef d).

Lemma greets_steady s s' w : steady s s' -> greets s' w -> greets s w.
Proof. intros [H1 H2 _] [id H]. exists id. by rewrite <- H1, <- H2. Qed.
Lemma act_poll_known x0 x m a d now x' w1 w2 :
  known x0 x m -> sound_attempt (attempting a) -> sound_attempt (attempting d) ->
  st_poll strerror undef a d now x = Some (x', w1, w2) ->
  known x0 x' m /\ greets (g_main x0) w1 /\ greets (g_dev x0) w2.
Proof using size_t.
  intros K Ha Hd. unfold st_poll.
  pose proof (known_session _ _ _ K Main) as LM. pose proof (known_session _ _ _ K Dev) as LD. unfold used in *. cbn [session] in *.
  destruct (LM ltac:(done)) as (GM & _ & SM).
  destruct (stratum_poll _ _ _ _ _ (g_main x) now) as [[s v1]|] eqn:E1; cbn [mbind option_bind]; [|done].
  pose proof (poll_good _ _ _ _ _ _ _ _ _ GM Ha E1) as G1. apply (poll_writes _ _ size_t) in E1 as [S1 W1].
  change (g_dev_configured (x <| g_main := s |>)) with (g_dev_configured x). change (g_dev (x <| g_main := s |>)) with (g_dev x).
  apply (greets_steady _ _ _ SM) in W1.
  destruct (g_dev_configured x) eqn:Ed.
  - destruct (LD ltac:(done)) as (GD & _ & SD).
    destruct (stratum_poll _ _ _ _ _ (g_dev x) now) as [[s2 v2]|] eqn:E2; cbn [mbind option_bind]; [|done].
    pose proof (poll_good _ _ _ _ _ _ _ _ _ GD Hd E2) as G2. apply (poll_writes _ _ size_t) in E2 as [S2 W2].
    intros [= <- <- <-]. split_and!; [|done|by eapply greets_steady]. apply (known_next x0 x); try done.
    intros [] _; done.
  - intros [= <- <- <-]. split_and!; [|done|exists 0; apply prefix_nil]. apply (known_next x0 x); try done.
    intros [] Hk; [done|]. specialize (Hk eq_refl). congruence.
Qed.

Lemma act_offer_known x0 x m sends ctx nonce word v x' wire :
  known x0 x m -> st_on_candidate sends ctx nonce word x = Some (v, x', wire) -> known x0 x' m.
Proof.
  intros K E. apply offer_cases in E as [(-> & _)|(k & ok & s' & c & _ & _ & Hw & -> & _)]; [done|].
  apply (known_next x0 x); [done|by destruct k..|]. intros j Hj. destruct (known_session _ _ _ K j Hj) as (G & _ & _).
  destruct (decide (j = k)) as [->|Hne].
  - pose proof (submit_good _ _ _ _ _ _ _ _ _ G Hw). apply submit_writes in Hw as [S _]. by destruct k.
  - by destruct j, k.
Qed.
Lemma act_known x0 x e x' m :
  act x e x' -> known x0 x m -> known x0 x' (made m e) /\ (linked m e -> accounted x0 m e).
Proof using size_t.
  intros A K. destruct A as [a d now x' w1 w2 Ha Hd E| |now x' _ E|now ctx x' k _ E Ek|sends ctx nonce word v x' wire E]; cbn [made linked accounted].
  - apply (act_poll_known x0 x m) in E as (K' & G1 & G2); done.
  - by split.
  - apply work_made in E as [U C]. split; [by apply (known_unmoved x0 x)|done].
  - split; [|done]. apply work_made in E as [U (k' & dev & y & y' & E1 & Hu & Uy & B & C)].
    rewrite E1 in Ek. injection Ek as ->. pose proof (known_session _ _ _ K k Hu) as L. split.
    + intros j Hj. unfold used in Hj. rewrite (unmoved_dev _ _ U) in Hj. rewrite (unmoved_session _ _ U). by apply K.
    + rewrite (unmoved_chain _ _ U). apply K.
    + intros ? ? ? [= <- <- <-]. split; [intros ->; rewrite (unmoved_dev _ _ U); by apply Hu|].
      apply build_from_spec in B as [e B]; [|rewrite (unmoved_session _ _ Uy); by destruct L as ([? ?] & ? & ?)..].
      exists dev, y, y', e. rewrite (unmoved_chain _ _ Uy). split; [apply Uy|]. split; [apply K|]. split; [exact L|by split].
  - split; [by apply (act_offer_known x0 x m sends ctx nonce word v x' wire)|].
    intros (k & s & Hm). destruct (known_item _ _ _ K k s ctx Hm) as (Hu & dev & y & y' & e & <- & Ey & L & B & Ec).
    destruct (offer_share sends k dev y y' ctx e x nonce word v x' wire) as [->|[Es Hp]]; try done; [apply L| | |by left|].
    + rewrite Ey. apply K.
    + destruct (known_session _ _ _ K k Hu) as (_ & _ & S). destruct L as (_ & _ & S0).
      by rewrite (steady_worker _ _ S), (steady_worker _ _ S0).
    + right. exists (session k y). rewrite Es. cbn [default from_option]. split_and!; [done|apply L|by rewrite <- Ey].
Qed.

(** *** Along a history *)
Fixpoint along (P : option item -> event -> Prop) (m : option item) (tr : list event) : Prop :=
  match tr with [] => True | e :: tr => P m e /\ along P (made m e) tr end.
Lemma along_app P m tr tr' : along P m (tr ++ tr') <-> along P m tr /\ along P (foldl made m tr) tr'.
Proof. revert m. induction tr as [|e tr IH]; intros m; cbn [app along foldl]; [tauto|]. rewrite IH. tauto. Qed.
Lemma along_event P tr before e after : along P None tr -> tr = before ++ e :: after -> P (last_made before) e.
Proof. intros H ->. apply along_app in H as [_ H]. apply H. Qed.
Lemma acts_known x0 x tr x' m :
  acts x tr x' -> known x0 x m -> along linked m tr -> known x0 x' (foldl made m tr) /\ along (accounted x0) m tr.
Proof using size_t.
  intros A K. induction A as [|tr y e z _ IH A]; intros L; [done|]. apply along_app in L as [L [Le _]].
  destruct (IH L) as [K' Ha]. apply (act_known x0 _ _ _ (foldl made m tr)) in A as [K'' Ae]; [|done].
  rewrite foldl_app. split; [done|]. apply along_app. split; [done|]. split; [by apply Ae|done].
Qed.
End Automaton.

(** ** Under the mining loop *)
Import Observe Uart Framing Mining Follow Miner.

(** What is written to the sockets of the pools, in order; the device is not concerned. *)
Class Cable (W : Type) `{World W} `{Network W} := {
  wires : W -> list (which * list Z);
  #[global] wires_unseen :: Unseen wires;
  meet_wires k w : wires (meet k w).2 = wires w;
  carry_wires k b w : wires (carry k b w) = wires w ++ [(k, b)];
  meet_sound k w : sound_attempt (attempting (meet k w).1)
}.
Section Loop.
Context {W : Type} `{World W} `{Network W} `{cable : !Cable W}.
Context (strerror : Z -> list Z) (undef : double -> Z) (b : @worksrc (callbacks sources W)).
Context (pool : ops b = pool_callbacks strerror undef).

(** The calls of the source between two moments, and what they wrote. *)
Definition calls (m : option item) (x : source) (w : W) (m' : option item) (x' : source) (w' : W) : Prop :=
  exists tr, acts strerror undef x tr x' /\ along linked m tr /\ m' = foldl made m tr
    /\ wires w' = wires w ++ concat (written <$> tr).

Lemma calls_quiet m x w w' : wires w' = wires w -> calls m x w m x w'.
Proof. intros E. exists []. split_and!; [constructor|done..|by rewrite E, app_nil_r]. Qed.
Lemma calls_event m x w e x' w' :
  act strerror undef x e x' -> linked m e -> wires w' = wires w ++ written e -> calls m x w (made m e) x' w'.
Proof. intros A L E. exists [e]. split_and!; [by apply acts_one|done..|]. cbn. by rewrite app_nil_r. Qed.
Lemma calls_trans m x w m1 x1 w1 m2 x2 w2 : calls m x w m1 x1 w1 -> calls m1 x1 w1 m2 x2 w2 -> calls m x w m2 x2 w2.
Proof.
  intros (t1 & A1 & L1 & -> & E1) (t2 & A2 & L2 & -> & E2). exists (t1 ++ t2).
  rewrite fmap_app, concat_app, app_assoc, <- E1, foldl_app. split_and!; [by eapply acts_app|by apply along_app|done|done].
Qed.

Lemma poll_calls m t x w x' w' : pool_poll strerror undef t x w = (x', w') -> calls m (pooled x) w m (pooled x') w'.
Proof using cable.
  unfold pool_poll. pose proof (meet_wires Main w) as E1. pose proof (meet_sound Main w) as S1.
  destruct (meet Main w) as [a w1]. cbn [fst snd] in *.
  destruct (if g_dev_configured (pooled x) then meet Dev w1 else (offline, w1)) as [d w2] eqn:Ed.
  assert (wires w2 = wires w1 /\ sound_attempt (attempting d)) as [E2 S2].
  { destruct (g_dev_configured (pooled x)); [|by injection Ed as <- <-].
    pose proof (meet_wires Dev w1). pose proof (meet_sound Dev w1). by rewrite Ed in *. }
  destruct (st_poll _ _ _ _ _ _) as [[[y v1] v2]|] eqn:E; intros [= <- <-]; [|apply calls_quiet; congruence].
  apply (calls_event m (pooled x) w (Polled v1 v2)); [by apply (act_poll _ _ _ (returning a) (returning d) t)|done|].
  rewrite !carry_wires, E2, E1, <- app_assoc. done.
Qed.
Lemma offer_calls m c nonce word x w v x' w' k s :
  pool_on_candidate c nonce word x w = (v, x', w') -> m = Some (k, s, c) -> calls m (pooled x) w m (pooled x') w'.
Proof using cable.
  unfold pool_on_candidate. set (j := default Main _). pose proof (meet_wires j w) as E1. destruct (meet j w) as [a w1]. cbn [snd] in E1.
  destruct (st_on_candidate _ _ _ _ _) as [[[v1 y] wire]|] eqn:E; intros [= <- <- <-] Hm; [|by apply calls_quiet].
  apply (calls_event m (pooled x) w (Offered c nonce j wire)); [by eapply act_offer|by exists k, s|by rewrite carry_wires, E1].
Qed.
Lemma get_work_calls m x w r x' w' :
  pool_get_work undef x w = (r, x', w') ->
  exists m', calls m (pooled x) w m' (pooled x') w'
    /\ match r with Some c => exists k s, m' = Some (k, s, c) | None => m' = m end.
Proof using cable.
  unfold pool_get_work, st_get_work. destruct (stratum_ready (g_main (pooled x))) eqn:Er; cbn [negb].
  2: { intros [= <- <- <-]. exists m. split; [by apply calls_quiet|done]. }
  pose proof (now_s_unseen (obs := wires) w) as E1. destruct (now_s w) as [now w1]. cbn [snd] in E1.
  destruct (work_at undef now (pooled x)) as [r1 y] eqn:E. intros [= <- <- <-]. pose proof E as [_ M]%work_made.
  destruct r1 as [c|].
  - destruct M as (k & dev & z & z' & Ek & _). exists (made m (Made k (session k (pooled x)) c)).
    split; [|by eexists _, _]. apply calls_event; [by eapply act_make|done|by rewrite app_nil_r].
  - exists m. split; [|done]. apply (calls_event m (pooled x) w Declined); [by eapply act_decline|done|by rewrite app_nil_r].
Qed.
Lemma pool_followed :
  followed wires b (fun m x w m' x' w' => calls m (pooled x) w m' (pooled x') w')
    (fun m c => exists k s, m = Some (k, s, c)).
Proof using cable pool.
  split.
  - intros m x w w' E. by apply calls_quiet.
  - intros m x w m1 x1 w1 m2 x2 w2. apply calls_trans.
  - intros m p t x w x' w'. rewrite pool. intros [= <-]. apply poll_calls.
  - intros m x w r x' w'. rewrite pool. intros (m' & T & Hr)%(get_work_calls m). exists m'. split; [exact T|].
    destruct r; [done|]. by intros c; subst.
  - intros m c nonce word x w v x' w'. rewrite pool. intros E (k & s & Hm). by apply (offer_calls m c nonce word x w v x' w' k s).
Qed.
End Loop.

(** ** The program *)
Section Program.
Context {W : Type} `{World W} `{!Gbt.Gbt.Node W} `{Network W} `{cable : !Cable W} `{prompts : !Prompt W}.
Context (strerror : Z -> list Z) (undef : double -> Z).

Lemma init_live host port worker password : live (stratum_init host port worker password) (stratum_init host port worker password).
Proof. split; [split; [apply wf_init|done]|done]. Qed.
Lemma configured_known o host x :
  stratum_host o = Some host -> known undef (pooled (configure o x)) (pooled (configure o x)) None.
Proof.
  intros E. unfold configure. rewrite E. split; [|done..]. intros k Hk. revert Hk. unfold used, worksrc_stratum_configure.
  destruct (set _ && set _).
  - destruct (match last_colon _ with Some _ => _ | None => _ end) as [h p]. intros _. destruct k; apply init_live.
  - cbn. intros Hk. destruct k; [apply init_live|]. by specialize (Hk eq_refl).
Qed.

(** C3: What a pool receives is its handshake and valid shares. Let the program be
    started with a pool, on a device whose transmitter makes room within its time-out,
    and let the mining loop make any number of passes, with any network and whatever the
    device answers. Then everything written to the pools' sockets since the loop was
    entered is accounted for by a history of the source's entry points that leads to
    the source's state: a poll writes (a prefix of) the handshake of the session;
    a candidate writes nothing, or (a prefix of) the submission, for the session [s] as it
    was when the item last made was built, of the nonce with the time of the job [s] had
    and an extranonce2, such that the hash a pool computes from its own copy of that job,
    with the extranonce [s] had, meets the target computed for the difficulty [s] had.
    If [difficulty * 2^32] is at most 2^63, that is the share target; with a worker and
    a job identifier free of quotes, backslashes and NULs the scanner reads every field of
    the line back. What the pool has changed since the item was made is not followed: see
    [WorksrcStratum.rotated_extranonce_is_ignored], and for the escapes
    [escaped_job_is_unreadable] below. *)
Theorem pool_receives_shares o host fuel opened x (w : W) u s x1 w1 b word_name n l' w' :
  (forall d, 0 <= undef d) ->
  stratum_host o = Some host ->
  start strerror undef fuel o opened x w = Ok (Mining u s, x1, w1) ->
  choose strerror undef o x1 = Some b ->
  passes b word_name n fuel (entered u s x1) w1 = Ok (l', w') ->
  exists tr, acts strerror undef (pooled x1) tr (pooled (src l'))
  /\ wires w' = wires w1 ++ concat (written <$> tr)
  /\ forall before e after, tr = before ++ e :: after -> accounted undef (pooled x1) (last_made before) e.
Proof using cable prompts.
  intros Hu Eh Hst Ec Hp. apply start_boot in Hst as (_ & _ & Ex & _). subst x1. rewrite source_as_asked, Eh in Ec. injection Ec as <-.
  set (b := match chain o with Sia => _ | Knots => _ end) in *. assert (ops b = pool_callbacks strerror undef) as Hb by by destruct (chain o).
  destruct (passes_calls wires b _ _ (pool_followed strerror undef b Hb) word_name ltac:(intros; by destruct (chain o)) (or_introl prompts) None n fuel
    (entered u s (configure o x)) w1 l' w') as (m' & _ & tr & A & L & _ & E); [done|done|].
  exists tr. split; [exact A|]. split; [exact E|]. intros before e after.
  destruct (acts_known strerror undef Hu _ _ tr _ None A (configured_known o host x Eh) L) as [_ Ha]. by apply along_event.
Qed.
End Program.

(** ** A share from start to wire

    A UART whose answer is one frame, and sockets that record what they carry, to a pool
    of very low difficulty. *)
Section Witness.
Import Bench.
Abbreviation wired := (wired (which * list Z)).
Definition easy_lines : list Z :=
  SelftestStratum.SUBSCRIBE_LINE ++ [10] ++ Stratum.dq "{'id':2,'result':true,'error':null}" ++ [10]
  ++ Stratum.dq "{'id':null,'method':'mining.set_difficulty','params':[0.000000002]}" ++ [10]
  ++ SelftestStratum.NOTIFY_LINE ++ [10].
(** The lines come once, after the handshake. *)
Definition easy_pool (w : wired) : meeting :=
  Meeting SelftestStratum.listening SelftestStratum.roomy
    (if (length (log w) =? 2)%nat then [Stratum.Data easy_lines] else []).
#[local] Instance wired_node : Gbt.Gbt.Node wired := fun _ w => (None, w).
#[local] Instance wired_network : Network wired :=
  { meet _ w := (easy_pool w, w); carry k b w := Wired (ns w) (line w) (log w ++ [(k, b)]) }.
#[local] Instance wired_cable : Cable wired.
Proof.
  refine {| wires := log |}; try done; [exact log_unseen|]. intros k w. split; [vm_compute; lia|done].
Defined.
#[local] Existing Instance wired_prompt.
Definition wired_source : @worksrc (callbacks sources wired) := g_backend_sia (pool_callbacks (fun _ => []) (fun _ => 0)).
Definition begun (r : res (ending * sources * wired)) : uio_uart * stats * wired :=
  match r with Ok (Mining u s, _, w) => (u, s, w) | _ => (uart_open, MINER_STATS, Wired 0 [] []) end.
Definition begin (d : wired) : uio_uart * stats * wired :=
  begun (start (fun _ => []) (fun _ => 0) (Z.to_nat 4000) siacoin_miner true no_sources d).
Definition mining (n : nat) (d : wired) : res (loop sources * wired) :=
  passes wired_source (str "H[0]") n (Z.to_nat 4000) (entered (begin d).1.1 (begin d).1.2 configured) (begin d).2.
(** The frame that the core sends for nonce 31 of the item, 7 ms after power-up. *)
Definition answering (r : res (loop sources * wired)) : wired :=
  match r with
  | Ok (l, _) => Wired 0 ((fun b => (6800000, b)) <$> framing_make 31 (sia_chain_expected_top64 (ss4 (ctx l)) 31)) []
  | _ => Wired 0 [] []
  end.
Definition answered : wired := answering (mining 2 (Wired 0 [] [])).
Definition loop_or_start (r : res (loop sources * wired)) : loop sources * wired :=
  match r with Ok r => r | _ => (entered uart_open MINER_STATS no_sources, Wired 0 [] []) end.
Definition ended : loop sources * wired := loop_or_start (mining 4 answered).
Lemma wired_begin_ok :
  start (fun _ => []) (fun _ => 0) (Z.to_nat 4000) siacoin_miner true no_sources answered
  = Ok (Mining (begin answered).1.1 (begin answered).1.2, configured, (begin answered).2).
Proof. vm_compute. reflexivity. Qed.
Lemma wired_choice_ok : choose (fun _ => []) (fun _ => 0) siacoin_miner configured = Some wired_source.
Proof. exact (source_as_asked (fun _ => []) (fun _ => 0) siacoin_miner no_sources). Qed.
Lemma ended_ok : mining 4 answered = Ok (ended.1, ended.2).
Proof. vm_compute. reflexivity. Qed.
(** One submission reached the pool, and it is the share of nonce 31. *)
Example share_mined :
  shares_submitted (g_main (pooled (src ended.1))) = 1
  /\ omap (read_submit (fun _ => 0)) ((log ended.2).*2)
     = [(4, str "mining.submit", str "osprey", SelftestStratum.JOB_ID, [0; 0; 0; 0; 0; 0; 0; 1],
         Job.ntime (job (g_main (pooled (src ended.1)))), [31; 0; 0; 0; 0; 0; 0; 0])].
Proof. vm_compute. done. Qed.

Lemma pool_receives_shares_witness :
  exists tr, acts (fun _ => []) (fun _ => 0) (pooled configured) tr (pooled (src ended.1))
  /\ log ended.2 = log (begin answered).2 ++ concat (written <$> tr).
Proof.
  destruct (pool_receives_shares (fun _ => []) (fun _ => 0) siacoin_miner (str "127.0.0.1") (Z.to_nat 4000) true no_sources answered
    (begin answered).1.1 (begin answered).1.2 configured (begin answered).2 wired_source (str "H[0]") 4 ended.1 ended.2
    ltac:(done) eq_refl wired_begin_ok wired_choice_ok ended_ok) as (tr & A & E & _).
  exists tr. split; [exact A|exact E].
Defined.
End Witness.

(** ** Why the job identifier must not need escapes

    The identifier of the pool's job holds an escaped quote. The session keeps what stands
    before it, the backslash included, and the submission of a share is not JSON. *)
Definition escaped : source :=
  worksrc_stratum_test_feed no_undef
    (Json.Spec.print [] (Json.Spec.JObj [(str "method", Json.Spec.JStr (str "mining.notify"));
       (str "params", Json.Spec.JArr (notify_params (example_job <| Job.job_id := [97; 92; 34; 98] |>) (Json.Spec.JStr []) []))])) 101 blank.
Example escaped_job_is_unreadable :
  let '(a, x) := build_from no_undef Main false escaped in
  let a := default (WorkCtx [] [] 0 false) a in
  Job.job_id (job (g_main escaped)) = [97; 92]
  /\ match st_on_candidate [Sent 1000] a 1 (sia_chain_expected_top64 (ss4 a) 1) x with
     | Some (v, _, wire) => v = WORKSRC_CAND_SOLUTION /\ read_submit no_undef wire = None
     | None => False
     end.
Proof. vm_compute. done. Qed.

(** ** Why the transmitter must not stall

    Two items in a row, of which the second never reached the device: the candidate
    found for the first one is compared with the target, and submitted with the
    extranonce2 of the second, from which the pool computes another value. *)
Example stalled_item_spoils_share :
  let '(a, x) := build_from no_undef Main false blank in
  let x := (build_from no_undef Main false x).2 in
  let a := default (WorkCtx [] [] 0 false) a in
  match st_on_candidate [Sent 1000] a 1 (sia_chain_expected_top64 (ss4 a) 1) x with
  | Some (v, _, wire) =>
    v = WORKSRC_CAND_SOLUTION
    /\ match read_submit no_undef wire with
       | Some (_, _, _, _, e, t, n) =>
         (Spec.share_target no_undef (difficulty easy) <? Spec.value Sia (Spec.digest (job easy) (extranonce easy) e t n)) = true
       | None => False
       end
  | None => False
  end.
Proof. vm_compute. done. Qed.
End Shares.
