(* ===== verification/Blocks.v ===== *)
(** * What the node receives (the solo source under the mining loop of miner.c)

    Every message the program sends to the node is a request for a template, or a block
    whose header solves a template that the node sent; if no template was asked for in
    between, the block is that template's. *)
From S2P Require Import Prelude Sha256 WorkItem Block Merkle Devfee Worksrc Coinbase Json Cstring Uart Framing Observe Gbt Mining Follow WorksrcStratum Miner.

Module Blocks.
Import WorkItem Worksrc Uart Framing Cstring Observe Gbt Mining Follow.
Local Open Scope word_scope.

(** A request and what was read until the connection closed. *)
Definition exchange : Type := list Z * option (list Z).
(** The exchanges with the node, in order; the device is not concerned. *)
Class Talk (W : Type) `{World W} `{Node W} := {
  talks : W -> list exchange;
  #[global] talks_unseen :: Unseen talks;
  converse_talks q w : talks (converse q w).2 = talks w ++ [(q, (converse q w).1)]
}.

Section Source.
Context {W : Type} `{World W} `{Node W} `{talk : !Talk W} (cfg : config).

(** ** What a block must be *)
Definition request (body : list Z) : list Z := rpc_request cfg body ++ body.
(** A reply as the client keeps it. *)
Definition text (reply : list Z) : list Z := Json.cstr (take (Z.to_nat (RESP_MAX - 1)) reply).
(** The transactions of a template: their identifiers and their bytes. *)
Definition txids (r : list Z) : list (list Z) := (scan_txs TPL_MAX_TX r [] []).1.2.
Definition txs (r : list Z) : list Z := (scan_txs TPL_MAX_TX r [] []).2.

(** The version, previous block, time, bits and height are those of [r]. *)
Definition extends (r : list Z) (f : fields_of) (h : knots_header) : Prop :=
  exists h0 root n extranonce, announced r f h0
  /\ h = h0 <| hashMerkleRoot := root |> <| m_txcount := n |> <| m_extranonce := extranonce |>.
(** The root and the count are those of the coinbase [tx] and the transactions of [r]. *)
Definition commits (r : list Z) (f : fields_of) (tx : Coinbase.coinbase_t) (h : knots_header) : Prop :=
  rewards cfg r f tx
  /\ hashMerkleRoot h = Merkle.Spec.root (fun i => (Sha256.sha256d (Coinbase.stripped tx) :: txids r) !!! i) (S (length (txids r)))
  /\ m_txcount h = Z.of_nat (length (txids r)) + 1.
Definition solved (h : knots_header) : Prop :=
  exists pow, get_pow_hash h = inr pow
  /\ hash_meets_target pow (compact_to_target_shifted (nBits h) BLAKE2B_TARGET_SHIFT_MAINNET) = true.

Definition asks_template (e : exchange) : Prop := e.1 = request template_body.
(** [e] offers a block, after the exchanges [log]. *)
Definition offers_block (log : list exchange) (e : exchange) : Prop :=
  exists earlier reply later f h nonce blk n body,
  log = earlier ++ (request template_body, Some reply) :: later
  /\ e.1 = request (submit_body blk)
  /\ Block.Spec.block_of blk = Some (Block.with_version (with_nonce h nonce), n, body)
  /\ extends (text reply) f h /\ solved (Block.with_version (with_nonce h nonce))
  /\ (Forall (fun e => ~ asks_template e) later -> exists tx, commits (text reply) f tx h
      /\ n = Z.of_nat (length (txids (text reply))) + 1 /\ body = Coinbase.raw tx ++ txs (text reply)).
Definition sound (log : list exchange) : Prop :=
  forall earlier e later, log = earlier ++ e :: later -> asks_template e \/ offers_block earlier e.

Lemma sound_snoc log e : sound log -> asks_template e \/ offers_block log e -> sound (log ++ [e]).
Proof.
  intros Hs He earlier e' later E. destruct later as [|y later _] using rev_ind.
  - by apply app_inj_tail in E as [-> ->].
  - rewrite app_comm_cons, app_assoc in E. apply app_inj_tail in E as [-> _]. by apply (Hs _ _ later).
Qed.

(** ** One call *)
Definition asked (body : list Z) (w : W) : list exchange :=
  if inet_pton (rpc_host cfg) is Some _ then [(request body, (converse (request body) w).1)] else [].
Lemma rpc_call_asked body s w :
  talks (rpc_call cfg body s w).2 = talks w ++ asked body w
  /\ forall r, (rpc_call cfg body s w).1.1 = Some r ->
     exists reply, asked body w = [(request body, Some reply)] /\ r = text reply.
Proof.
  unfold rpc_call, asked, text. destruct (inet_pton _); [|by rewrite app_nil_r].
  fold (request body). pose proof (converse_talks (request body) w) as E.
  destruct (converse _ w) as [[reply|] w1]; cbn [fst snd] in *; (split; [exact E|]); [|done].
  intros r [= <-]. exists reply. split; [done|]. destruct (Z.leb_spec (RESP_MAX - 1) (Z.of_nat (length reply))); [done|].
  by rewrite take_ge by lia.
Qed.

(** What the submission of a block uses. *)
Record same_block (s s' : solo) : Prop := {
  same_cb : cb s' = cb s;
  same_count : tx_count s' = tx_count s;
  same_data : tx_data s' = tx_data s;
  same_valid : tpl_valid s' = tpl_valid s;
  same_header : g_gbt_hdr s' = g_gbt_hdr s
}.
Lemma submit_block_asked h s w v s' w' :
  submit_block cfg h s w = (v, s', w') ->
  same_block s s' /\ exists said, talks w' = talks w ++ said
  /\ (said = [] \/ exists blk, said = asked (submit_body blk) w /\ tpl_valid s = true
      /\ Block.block_serialize h (Coinbase.raw (cb s)) (tx_data s) (Z.of_nat (tx_count s)) BLOCK_MAX = Some blk).
Proof.
  unfold submit_block. destruct (tpl_valid s) eqn:Ev; cbn [negb].
  2:{ intros [= <- <- <-]. split; [done|]. exists []. rewrite app_nil_r. split; [done|by left]. }
  destruct (Block.block_serialize _ _ _ _ _) as [blk|] eqn:Eb.
  2:{ intros [= <- <- <-]. split; [done|]. exists []. rewrite app_nil_r. split; [done|by left]. }
  set (s1 := s <| blocks_submitted := _ |>). destruct (rpc_call_state cfg (submit_body blk) s1 w) as [e E1].
  destruct (rpc_call_asked (submit_body blk) s1 w) as [E2 _]. destruct (rpc_call _ _ s1 w) as [[r s2] w2]. cbn [fst snd] in *. subst s2.
  intros Ej. assert (same_block s s' /\ w' = w2) as [Hs ->].
  { unfold judge in Ej. destruct r as [r|]; [|by injection Ej as _ <- <-].
    destruct (match strstr r _ with Some _ => _ | None => _ end); by injection Ej as _ <- <-. }
  split; [done|]. eexists. split; [exact E2|]. right. by exists blk.
Qed.

(** ** What is held *)
Definition holds (s : solo) (log : list exchange) : Prop :=
  exists earlier reply later f, log = earlier ++ (request template_body, Some reply) :: later
  /\ wf_header (g_gbt_hdr s) /\ m_flags (g_gbt_hdr s) = 0 /\ extends (text reply) f (g_gbt_hdr s)
  /\ (Forall (fun e => ~ asks_template e) later -> commits (text reply) f (cb s) (g_gbt_hdr s)
      /\ tx_count s = length (txids (text reply)) /\ tx_data s = txs (text reply)).
Record known (local : bool) (s : solo) (log : list exchange) : Prop := {
  known_sound : sound log;
  known_count : (tx_count s <= TPL_MAX_TX)%nat;
  known_held : tpl_valid s = true -> holds s log;
  known_local : local = true -> log = [] /\ tpl_valid s = false
}.
Lemma holds_later s s' log e :
  holds s log -> g_gbt_hdr s' = g_gbt_hdr s -> asks_template e \/ same_block s s' -> holds s' (log ++ [e]).
Proof.
  intros (earlier & reply & later & f & -> & Hw & Hf & Hx & Hc) E He. exists earlier, reply, (later ++ [e]), f.
  rewrite E. split; [by rewrite <- app_assoc|]. split_and!; [done..|]. intros [Hl He']%Forall_app.
  destruct He as [He|He]; [by rewrite Forall_singleton in He'|]. destruct He as [-> -> -> _ _]. by apply Hc.
Qed.

Lemma held_count r h s s' o : held r h s s' o -> (tx_count s <= TPL_MAX_TX)%nat -> (tx_count s' <= TPL_MAX_TX)%nat.
Proof.
  pose proof (scan_txs_bounds TPL_MAX_TX r [] [] ltac:(done)) as Hb. unfold held.
  destruct (scan_txs TPL_MAX_TX r [] []) as [[fits ids] data]. cbn [fst snd length] in *. destruct Hb as [Hb _]. destruct o as [h'|].
  - intros (_ & _ & _ & _ & _ & _ & -> & _) _. done.
  - by intros (_ & _ & [(_ & -> & _)|[-> _]]).
Qed.
(** A template that was accepted, whose transactions are counted in 16 bits. *)
Lemma held_commits r h f s s' h' :
  held r h s s' (Some h') -> announced r f h -> rewards cfg r f (cb s') ->
  (exists root n, h' = h <| hashMerkleRoot := root |> <| m_txcount := n |>) /\ commits r f (cb s') h'
  /\ tx_count s' = length (txids r) /\ tx_data s' = txs r.
Proof.
  pose proof (scan_txs_bounds TPL_MAX_TX r [] [] ltac:(done)) as Hb. unfold held, commits, txids, txs.
  destruct (scan_txs TPL_MAX_TX r [] []) as [[fits ids] data]. cbn [fst snd length] in *. destruct Hb as [Hb _].
  intros (-> & Htx & _ & _ & _ & _ & Hn & Hd) Ha Hp. split; [by eexists _, _|]. split; [|done]. split; [done|].
  cbn [hashMerkleRoot m_txcount update header_fields]. rewrite Htx. split; [done|].
  apply u16_small. unfold is_word, TPL_MAX_TX in *. change (2 ^ 16) with 65536. lia.
Qed.

(** *** A refresh *)
Lemma known_same local s s' log : same_block s s' -> known local s log -> known local s' log.
Proof.
  intros Hs []. pose proof Hs as [_ Hn _ Hv Hg]. split; [done|by rewrite Hn| |by rewrite Hv].
  rewrite Hv. intros (earlier & reply & later & f & -> & H1 & H2 & H3 & H4)%known_held0. exists earlier, reply, later, f.
  destruct Hs as [-> -> -> _ ->]. done.
Qed.
Lemma wf_item_extranonce h en : wf_header h -> array 16 en -> wf_header (h <| m_extranonce := en |>).
Proof. intros [] He. by constructor. Qed.
Lemma get_template_world s w o s' w' :
  get_template cfg s w = Some (o, s', w') -> w' = (rpc_call cfg template_body s w).2.
Proof.
  unfold get_template. destruct (rpc_call _ _ s w) as [[[r|] s1] w1]; [|by intros [= _ _ <-]].
  destruct (template_fields r) as [f|]; [|by intros [= _ _ <-]]. destruct (hex2bin _ 32); [|by intros [= _ _ <-]].
  destruct (template_block _ _ _ _ _) as [[h s2]|]; [|done]. by intros [= _ _ <-].
Qed.
Lemma template_known s w :
  exists o s' w', get_template cfg s w = Some (o, s', w') /\ talks w' = talks w ++ asked template_body w
  /\ (if o is Some h then wf_header h /\ m_flags h = 0 else True)
  /\ forall log, known false s log -> match o with
     | None => known false s' (log ++ asked template_body w)
     | Some h => forall extranonce, array 16 extranonce ->
         known false (s' <| g_gbt_hdr := h <| m_extranonce := extranonce |> |>) (log ++ asked template_body w)
     end.
Proof.
  destruct (rpc_call_asked template_body s w) as [Et Er].
  destruct (get_template_spec cfg s w) as (o & s' & w' & E & (r & h0 & Hh & Hr) & Hg & Ho). exists o, s', w'.
  split; [done|]. pose proof E as ->%get_template_world. split; [exact Et|]. split; [exact Ho|]. intros log Hk.
  destruct (inet_pton (rpc_host cfg)) eqn:Ei; cycle 1.
  { revert E. unfold get_template, rpc_call. rewrite Ei. intros [= <- <-]. unfold asked. rewrite Ei, app_nil_r.
    by apply (known_same false s). }
  assert (exists reply, asked template_body w = [(request template_body, reply)]) as [reply Ea] by (unfold asked; rewrite Ei; by eexists).
  assert (sound (log ++ asked template_body w)) as Hs by (rewrite Ea; apply sound_snoc; [apply Hk|by left]).
  pose proof (held_count _ _ _ _ _ Hh (known_count _ _ _ Hk)) as Hn.
  destruct o as [h|].
  - destruct Ho as [Hw Hf]. intros en Hen. split; [done|done| |done]. intros _.
    destruct (Hr ltac:(done)) as (Hc & f & Ha & Hp). destruct (Er r Hc) as (reply' & E1 & ->). rewrite E1.
    destruct (held_commits _ _ _ _ _ _ Hh Ha Hp) as ((root & n & ->) & Hcm & Hcnt & Hd).
    exists log, reply', [], f. split; [done|]. cbn [g_gbt_hdr update solo_fields cb tx_count tx_data]. split_and!.
    + by apply wf_item_extranonce.
    + exact Hf.
    + by exists h0, root, n, en.
    + intros _. by split_and!.
  - destruct Hh as (_ & Hv & _). split; [done|done| |done]. rewrite Hv, Ea. intros Hh%(known_held _ _ _ Hk).
    apply (holds_later s); [done|done|by left].
Qed.
Lemma build_known local s w :
  exists o s' w' said, gbt_build cfg local s w = Some (o, s', w') /\ talks w' = talks w ++ said
  /\ forall log, known local s log -> known local s' (log ++ said).
Proof using talk.
  unfold gbt_build. pose proof (now_s_unseen (obs := talks) w) as E0. destruct (now_s w) as [t w0]. cbn [snd] in E0.
  rewrite <- E0. clear E0 w. destruct local.
  - unfold synthetic_template. pose proof (now_s_unseen (obs := talks) w0) as E1. destruct (now_s w0) as [t1 w1]. cbn [snd mbind option_bind] in *.
    destruct (stage_inputs _) as [e|[[a b] c]]; do 3 eexists; exists []; (split; [done|]); rewrite app_nil_r; (split; [done|]);
      intros log [? ? _ H3]; rewrite app_nil_r; destruct (H3 eq_refl) as [-> Hv]; by (split; [..|cbn; rewrite Hv|]).
  - destruct (template_known s w0) as (o & s1 & w1 & -> & Et & Ho & Hk). cbn [mbind option_bind]. destruct o as [h|].
    2:{ by do 3 eexists; eexists. }
    destruct Ho as [Hw Hf]. set (en := <[1%nat := _]> _).
    assert (array 16 en) as He.
    { destruct (wf_extranonce h Hw) as [El Eb]. subst en. split; [by rewrite !length_insert|].
      by repeat (apply bytes_insert; [apply u8_word|]). }
    rewrite stage_inputs_spec by by apply wf_item_extranonce. change (m_flags (h <| m_extranonce := en |>)) with (m_flags h).
    rewrite Hf. do 4 eexists. split; [done|]. split; [exact Et|]. intros log Hl. by apply (Hk log Hl).
Qed.

(** *** A candidate *)
Lemma offer_explained local s log nonce blk answer :
  known local s log -> tpl_valid s = true ->
  (exists pow, get_pow_hash (with_nonce (g_gbt_hdr s) nonce) = inr pow
   /\ hash_meets_target pow (compact_to_target_shifted (nBits (g_gbt_hdr s)) BLAKE2B_TARGET_SHIFT_MAINNET) = true) ->
  Block.block_serialize (with_nonce (g_gbt_hdr s) nonce) (Coinbase.raw (cb s)) (tx_data s) (Z.of_nat (tx_count s)) BLOCK_MAX = Some blk ->
  offers_block log (request (submit_body blk), answer).
Proof.
  intros Hk Hv (pow & Ep & Em) Hb. pose proof (known_count _ _ _ Hk) as Hn.
  destruct (known_held _ _ _ Hk Hv) as (earlier & reply & later & f & -> & Hw & Hf & Hx & Hc).
  pose proof (wf_with_nonce (g_gbt_hdr s) nonce Hw) as Hw'.
  pose proof (Block.block_serialize_reads _ (Coinbase.raw (cb s)) (tx_data s) (Z.of_nat (tx_count s)) BLOCK_MAX Hw'
    ltac:(unfold TPL_MAX_TX in Hn; change (2 ^ 32) with 4294967296; lia)) as Hr.
  destruct (_ <? _)%nat; [by rewrite Hb in Hr|]. destruct Hr as (blk' & Hb' & _ & Hr). rewrite Hb in Hb'. injection Hb' as <-.
  exists earlier, reply, later, f, (g_gbt_hdr s), nonce, blk. do 2 eexists. split_and!; [done|done|exact Hr|exact Hx| |].
  - exists pow. by rewrite Block.pow_hash_with_version.
  - intros Hl. destruct (Hc Hl) as (Hcm & -> & ->). by exists (cb s).
Qed.
Lemma candidate_known local nonce word s w v s' w' :
  gbt_on_candidate cfg nonce word s w = (v, s', w') ->
  exists said, talks w' = talks w ++ said /\ forall log, known local s log -> known local s' (log ++ said).
Proof.
  unfold gbt_on_candidate. assert (exists said, talks w = talks w ++ said /\ forall log, known local s log -> known local s (log ++ said)) as Hnil.
  { exists []. rewrite app_nil_r. split; [done|]. intros log. by rewrite app_nil_r. }
  destruct (negb _); [by intros [= _ <- <-]|]. destruct (get_pow_hash _) as [|pow] eqn:Ep; [by intros [= _ <- <-]|].
  destruct (hash_meets_target _ _) eqn:Em; cbn [negb]; [|by intros [= _ <- <-]]. destruct (_ && _); [|by intros [= _ <- <-]].
  destruct (submit_block _ _ _ _) as [[v1 s1] w1] eqn:E. intros [= _ <- <-].
  apply submit_block_asked in E as (Hs & said & E & [->|(blk & -> & Hv & Hb)]).
  { exists []. split; [done|]. intros log. rewrite app_nil_r. by apply known_same. }
  eexists. split; [exact E|]. intros log Hk. unfold asked. destruct (inet_pton _); [|rewrite app_nil_r; by apply (known_same local s)].
  apply (known_same local s); [done|]. pose proof Hk as [H1 H2 H3 H4]. split; [|done| |].
  - apply sound_snoc; [done|]. right. apply (offer_explained local s log nonce); [done|done|by exists pow|exact Hb].
  - intros _. apply (holds_later s); [by apply H3|done|by right].
  - intros [_ Hv']%H4. by rewrite Hv' in Hv.
Qed.
End Source.

(** ** The program *)
Import Miner.
Section Program.
Context {W : Type} `{World W} `{Node W} `{Network W} `{talk : !Talk W}.
Context (strerror : Z -> list Z) (undef : Cdouble.Cdouble.double -> Z).

Definition solo_source (o : options) : @worksrc (callbacks sources W) :=
  if synthetic o then g_worksrc_synthetic o else g_worksrc_gbt o.
Definition solo_calls (o : options) (_ : unit) (x : sources) (w : W) (_ : unit) (x' : sources) (w' : W) : Prop :=
  exists said, talks w' = talks w ++ said
  /\ forall log, known (rpc_config o) (synthetic o) (alone x) log -> known (rpc_config o) (synthetic o) (alone x') (log ++ said).
Lemma solo_quiet o m x w m' w' : talks w' = talks w -> solo_calls o m x w m' x w'.
Proof. intros E. exists []. rewrite app_nil_r. split; [done|]. intros log. by rewrite app_nil_r. Qed.
Lemma solo_followed o : followed talks (solo_source o) (solo_calls o) (fun _ _ => True).
Proof using talk.
  split.
  - intros m x w w'. apply solo_quiet.
  - intros m x w m1 x1 w1 m2 x2 w2 (s1 & E1 & K1) (s2 & E2 & K2). exists (s1 ++ s2).
    split; [by rewrite E2, E1, app_assoc|]. intros log Hk. rewrite app_assoc. by apply K2, K1.
  - intros m p t x w x' w'. by unfold solo_source; destruct (synthetic o).
  - intros m x w r x' w' E. exists tt. split; [|by destruct r].
    assert (build_callback o (synthetic o) x w = (r, x', w')) as E' by (revert E; unfold solo_source; by destruct (synthetic o)).
    clear E. unfold build_callback in E'. destruct (build_known (rpc_config o) (synthetic o) (alone x) w) as (c & s & w1 & said & E & T & K).
    rewrite E in E'. injection E' as _ <- <-. by exists said.
  - intros m c nonce word x w v x' w' E _.
    assert (candidate_callback o c nonce word x w = (v, x', w')) as E' by (revert E; unfold solo_source; by destruct (synthetic o)).
    clear E. unfold candidate_callback in E'. destruct (gbt_on_candidate _ _ _ _ w) as [[v1 s1] w1] eqn:E.
    injection E' as _ <- <-. by apply (candidate_known _ (synthetic o)) in E.
Qed.

(** C4: What the node receives is template requests and solved blocks. Let the program
    be started without a pool, its template store as the C statics start out, and let
    the mining loop make any number of passes, whatever the node, the clock and the
    device answer, stalls included. Then every exchange with the node since the loop was
    entered is a request for a template, or offers a block that the node reads as a
    header of its own earlier template (version, previous block, time, bits and height)
    with the transactions' root, an extranonce and a nonce of ours, whose proof-of-work
    hash meets the target of its own bits. If no template was asked for since, then the
    block is that template's in full: the header commits to a coinbase that claims the
    reward at the height with the witness commitment, and to the transactions of the
    template, and the block carries exactly these. Synthetic work says nothing to the
    node. *)
Theorem node_receives_blocks o fuel opened x (w : W) u s x1 w1 b word_name n l' w' :
  stratum_host o = None -> tpl_valid (alone x) = false -> tx_count (alone x) = 0%nat ->
  start strerror undef fuel o opened x w = Ok (Mining u s, x1, w1) ->
  choose strerror undef o x1 = Some b ->
  passes b word_name n fuel (entered u s x1) w1 = Ok (l', w') ->
  exists log, talks w' = talks w1 ++ log
  /\ (synthetic o = true -> log = [])
  /\ forall earlier e later, log = earlier ++ e :: later ->
     asks_template (rpc_config o) e \/ offers_block (rpc_config o) earlier e.
Proof using talk.
  intros Eh Hv Hn Hst Ec Hp. apply start_boot in Hst as (_ & _ & -> & _). rewrite source_as_asked, Eh in Ec. injection Ec as <-.
  fold (solo_source o) in Hp. assert (alone (configure o x) = alone x) as Ea by (unfold configure; by rewrite Eh).
  destruct (passes_calls talks (solo_source o) _ _ (solo_followed o) word_name
    ltac:(intros; unfold solo_source; by destruct (synthetic o)) (or_intror (fun _ _ _ _ _ _ => I)) tt n fuel
    (entered u s (configure o x)) w1 l' w') as (_ & _ & log & E & K); [done|done|].
  destruct (K []) as [Hs _ _ Hl]; [|exists log; split_and!; [exact E|intros Ey; by apply Hl|exact Hs]].
  cbn [src entered]. rewrite Ea. split; [by intros []|rewrite Hn; lia|by rewrite Hv|done].
Qed.
End Program.

(** ** A block from start to wire

    A UART whose answers are frames, and a node with an easy template that accepts the
    block. *)
Section Witness.
Import Bench.
Abbreviation wired := (wired exchange).
Definition easy_template : list Z :=
  dq "{'result':{'version':536870912,'previousblockhash':'" ++ Json.bin2hex (seqZ 0 32)
  ++ dq "','transactions':" ++ str "[" ++ array_text two_entries (dq ",'coinbasevalue':312500000,'height':969859,'curtime':1700000000,"
    ++ dq "'bits':'1d7fffff','default_witness_commitment':'6a24aa21a9ed'}}").
Definition reply_to (q : list Z) : list Z :=
  if strstr q (dq "'submitblock'") is Some _ then dq "{'result':null,'error':null}" else easy_template.
#[local] Instance wired_node : Node wired := fun q w =>
  (Some (reply_to q), Wired (ns w) (line w) (log w ++ [(q, Some (reply_to q))])).
#[local] Instance wired_network : Network wired := { meet _ w := (offline, w); carry _ _ w := w }.
#[local] Instance wired_talk : Talk wired.
Proof. refine {| talks := log |}; [exact log_unseen|done]. Defined.
(** Solo with submission, on a link that needs no calibration. *)
Definition solo_miner : options := (cfg WorksrcStratum.WorksrcStratum.Sia) <| dry_run := false |>.
Definition blank : wired := Wired 0 [] [].
Definition solo_begun (r : res (ending * sources * wired)) : uio_uart * stats * wired :=
  match r with Ok (Mining u s, _, w) => (u, s, w) | _ => (uart_open, MINER_STATS, blank) end.
Definition solo_begin (d : wired) : uio_uart * stats * wired :=
  solo_begun (start (fun _ => []) (fun _ => 0) (Z.to_nat 4000) solo_miner true no_sources d).
Definition solo_mining (n : nat) (d : wired) : res (loop sources * wired) :=
  passes (solo_source solo_miner) (str "H[0]") n (Z.to_nat 4000)
    (entered (solo_begin d).1.1 (solo_begin d).1.2 no_sources) (solo_begin d).2.
(** The frame for nonce 12 of the item, 6.8 ms after power-up. *)
Definition solo_answer (r : res (loop sources * wired)) : wired :=
  match r with
  | Ok (l, _) => Wired 0 ((fun b => (6800000, b)) <$> framing_make 12 (SiaStratum.SiaStratum.sia_expected_top64 (ss4 (ctx l)) 12)) []
  | _ => blank
  end.
Definition solo_device : wired := solo_answer (solo_mining 2 blank).
Definition solo_loop (r : res (loop sources * wired)) : loop sources * wired :=
  match r with Ok r => r | _ => (entered uart_open MINER_STATS no_sources, blank) end.
Definition solo_end : loop sources * wired := solo_loop (solo_mining 4 solo_device).
Lemma solo_begin_ok :
  start (fun _ => []) (fun _ => 0) (Z.to_nat 4000) solo_miner true no_sources solo_device
  = Ok (Mining (solo_begin solo_device).1.1 (solo_begin solo_device).1.2, no_sources, (solo_begin solo_device).2).
Proof. vm_compute. reflexivity. Qed.
Lemma solo_choice_ok : choose (fun _ => []) (fun _ => 0) solo_miner no_sources = Some (solo_source solo_miner).
Proof. exact (source_as_asked (fun _ => []) (fun _ => 0) solo_miner no_sources). Qed.
Lemma solo_end_ok :
  passes (solo_source solo_miner) (str "H[0]") 4 (Z.to_nat 4000)
    (entered (solo_begin solo_device).1.1 (solo_begin solo_device).1.2 no_sources) (solo_begin solo_device).2
  = Ok (solo_end.1, solo_end.2).
Proof. vm_compute. reflexivity. Qed.
(** The nonce, the height and the number of transactions of the block in a request. *)
Definition block_in (q : list Z) : option (Z * Z * Z) :=
  p ← strstr q (dq "'params':['"); let t := drop 11 p in
  e ← strchr t 34; blk ← hex2bin_n t ((length t - length e) / 2);
  '(h, n, _) ← Block.Spec.block_of blk; Some (nNonce h, m_height h, n).
(** The node was asked for a template, and accepted the block of nonce 12 with the
    coinbase and its two transactions. *)
Example block_mined :
  blocks_accepted (alone (src solo_end.1)) = 1
  /\ (block_in ∘ fst) <$> log solo_end.2 = [None; Some (12, 969859, 3)].
Proof. vm_compute. done. Qed.

Lemma node_receives_blocks_witness :
  exists log, talks solo_end.2 = talks (solo_begin solo_device).2 ++ log
  /\ forall earlier e later, log = earlier ++ e :: later ->
     asks_template (rpc_config solo_miner) e \/ offers_block (rpc_config solo_miner) earlier e.
Proof.
  destruct (node_receives_blocks (fun _ => []) (fun _ => 0) solo_miner (Z.to_nat 4000) true no_sources solo_device
    (solo_begin solo_device).1.1 (solo_begin solo_device).1.2 no_sources (solo_begin solo_device).2 (solo_source solo_miner)
    (str "H[0]") 4 solo_end.1 solo_end.2 eq_refl eq_refl eq_refl solo_begin_ok solo_choice_ok solo_end_ok) as (log & E & _ & L).
  exists log. split; [exact E|exact L].
Defined.
End Witness.
End Blocks.
