(* ===== verification/Live.v ===== *)
(** * The program keeps going (src/miner/miner.c, main)

    With a source whose calls return in time and candidates handled faster than the
    line delivers them, start-up ends and every pass of the mining loop returns, within
    times that are computed: the pool is polled and work is refreshed for ever. *)
From S2P Require Import Prelude WorkItem Worksrc Uart Framing Pace Gbt Mining WorksrcStratum Miner.

Module Live.
Import WorkItem Worksrc Uart Framing Pace Mining.
Local Open Scope word_scope.

(** ** A source that does not block

    A call takes at most [call_ns], and the handling of a candidate at most [cand_ns],
    short enough that a frame is dealt with in half the time the line takes for it. *)
Record timely {S W : Type} `{Line W} (b : @worksrc (callbacks S W)) (call_ns cand_ns : Z) : Prop := {
  call_range : 0 <= call_ns /\ 0 <= cand_ns;
  poll_time p t x w : poll (ops b) = Some p -> spends call_ns w (p t x w).2;
  work_time x w : spends call_ns w (get_work (ops b) x w).2;
  candidate_time c nonce word x w : spends cand_ns w (on_candidate (ops b) c nonce word x w).2;
  candidate_fills c nonce word x w :
    let w' := (on_candidate (ops b) c nonce word x w).2 in backlog w' <= backlog w + (elapsed w' - elapsed w);
  frames_keep_up : 68 * cost + 2 * (cost + cand_ns) <= 17 * byte_ns
}.

Section Loop.
Context {S W : Type} `{device : Uartlite W} `{line : !Line W} (b : @worksrc (callbacks S W)) (call_ns cand_ns : Z).
Context (prompt : timely b call_ns cand_ns) (word_name : list Z).

(** The time for a frame. *)
Definition frame_ns : Z := cost + cand_ns.
Lemma frame_range : 0 < frame_ns /\ 68 * cost + 2 * frame_ns <= 17 * byte_ns.
Proof using prompt.
  unfold frame_ns. pose proof (frames_keep_up _ _ _ prompt). pose proof (call_range _ _ _ prompt). pose proof cost_range. lia.
Qed.

(** The real device, a partial frame in the assembler, and what fits [syncbuf]. *)
Record running (l : loop S) : Prop := {
  running_dev : sim_t0_us (dev l) = 0;
  running_frame : (length (frame l) < RESULT_LEN)%nat;
  running_sync : (length (syncbuf l) <= RESULT_LEN * 8)%nat
}.

(** ** Emptying the receive FIFO *)
Definition size (l : loop S) : Z := Z.of_nat (length (frame l)).
(** The frame that a byte completes is paid for by the seventeen bytes of it. *)
Lemma feed_spends byte l w l' w' :
  feed b word_name byte l w = (l', w') -> running l ->
  running l' /\ syncbuf l' = syncbuf l /\ syncpos l' = syncpos l /\ elapsed w <= elapsed w'
  /\ backlog w' <= backlog w + (elapsed w' - elapsed w)
  /\ 17 * (elapsed w' - elapsed w) + frame_ns * size l' <= frame_ns * (size l + 1).
Proof using prompt.
  intros E [Hd Hf Hs]. pose proof frame_range as [F _]. revert E. unfold feed, size.
  assert (length (frame l ++ [byte]) = Datatypes.S (length (frame l))) as El by (rewrite length_app; cbn; lia). rewrite El.
  unfold RESULT_LEN in *. destruct (Nat.eqb_spec (Datatypes.S (length (frame l))) 17) as [E17|E17].
  2:{ intros [= <- <-]. split_and!; [split|..]; try done; cbn [frame update loop_fields]; rewrite ?El; unfold RESULT_LEN; lia. }
  unfold on_frame. destruct (parse_result _) as [rc r]. destruct (negb (rc =? 0)).
  { destruct (3 <=? _); intros [= <- <-]; (split_and!; [split|..]; try done; cbn [frame update loop_fields length]; unfold RESULT_LEN; lia). }
  pose proof (now_s_spends w) as T1. pose proof (now_s_fills w) as B1. destruct (now_s w) as [t w1]. cbn [snd] in *.
  match goal with |- context [on_candidate (ops b) ?c ?n ?h ?x w1] =>
    pose proof (candidate_time _ _ _ prompt c n h x w1) as T2; pose proof (candidate_fills _ _ _ prompt c n h x w1) as B2;
    destruct (on_candidate (ops b) c n h x w1) as [[v x'] w2] end.
  cbn [snd] in *. intros [= <- <-]. unfold spends, frame_ns in *.
  destruct (v =? _); (split_and!; [split|..]; try done; cbn [frame update loop_fields length]; unfold RESULT_LEN; lia).
Qed.

(** What a drain has left to do: bytes that wait, bytes assembled. *)
Definition debt (l : loop S) (w : W) : Z := 17 * backlog w + 2 * frame_ns * size l.
Lemma drain_fifo_ends fuel l w :
  running l -> (length (syncbuf l) <= syncpos l)%nat -> debt l w + 1 < Z.of_nat fuel ->
  exists l' w', drain b word_name fuel l w = Ok (l', w') /\ running l'
  /\ elapsed w <= elapsed w' /\ 17 * (elapsed w' - elapsed w) <= debt l w + 34 * cost.
Proof using prompt.
  pose proof frame_range as [F1 F2]. pose proof cost_range as Hc. revert l w. induction fuel as [|fuel IH]; intros l w Hl Hp Hf.
  { unfold debt in Hf. pose proof (backlog_range w). unfold size in Hf. nia. }
  assert (0 <= debt l w) as Hd by (unfold debt, size; pose proof (backlog_range w); nia).
  cbn [drain]. destruct (negb (synced l)); [exists l, w; split; [done|]; split; [done|]; lia|].
  rewrite (proj2 (Nat.ltb_ge _ _)) by done.
  destruct (uart_get_nb (dev l) w) as [[byte u] w1] eqn:E. pose proof E as [T1 S1]%get_nb_spends.
  apply get_nb_drains in E as [T2 B1]; [|apply Hl]. unfold spends in T1.
  assert (running (l <| dev := u |>)) as Hl1 by (destruct Hl; split; [by rewrite <- running_dev0|done..]).
  destruct byte as [byte|]; [|exists (l <| dev := u |>), w1; split; [done|]; split; [done|]; lia].
  destruct (feed b word_name byte (l <| dev := u |>) w1) as [l2 w2] eqn:Ef.
  apply feed_spends in Ef as (Hl2 & Eb & Ep & T3 & B2 & D); [|done]. change (size (l <| dev := u |>)) with (size l) in D.
  cbn [syncbuf syncpos update loop_fields] in Eb, Ep.
  assert (debt l2 w2 + 17 * (elapsed w2 - elapsed w) <= debt l w) as Hdebt by (unfold debt; lia).
  destruct (IH l2 w2) as (l' & w' & -> & R & T & B); [done|by rewrite Eb, Ep|lia|]. exists l', w'. split; [done|]. split; [done|]. lia.
Qed.
Definition drain_fuel : Z := 17 * backlog_max + 32 * frame_ns + 140.
Definition drain_ns : Z := backlog_max + 138 * frame_ns + 2 * cost.
Lemma drain_ends fuel l w :
  running l -> drain_fuel <= Z.of_nat fuel ->
  exists l' w', drain b word_name fuel l w = Ok (l', w') /\ running l' /\ spends drain_ns w w'.
Proof using prompt.
  intros Hl Hf. pose proof frame_range as [F1 F2]. pose proof cost_range as Hc.
  assert (forall n l w fuel, running l -> (length (syncbuf l) - syncpos l <= n)%nat -> 17 * backlog_max + 32 * frame_ns + 2 + Z.of_nat n <= Z.of_nat fuel ->
    exists l' w', drain b word_name fuel l w = Ok (l', w') /\ running l'
    /\ elapsed w <= elapsed w' /\ 17 * (elapsed w' - elapsed w) <= 17 * frame_ns * Z.of_nat n + 17 * backlog_max + 32 * frame_ns + 34 * cost) as H0.
  2:{ destruct (H0 136%nat l w fuel) as (l' & w' & E & R & T1 & T2); [done| |unfold drain_fuel in Hf; lia|].
      { pose proof (running_sync _ Hl) as Hs. unfold RESULT_LEN in Hs. lia. }
      exists l', w'. split; [done|]. split; [done|]. unfold spends, drain_ns. lia. }
  clear l w fuel Hl Hf. induction n as [|n IH]; intros l w fuel Hl Hn Hf.
  { destruct (drain_fifo_ends fuel l w) as (l' & w' & E & R & T1 & T2); [done|lia| |];
      [|exists l', w'; split; [done|]; split; [done|]; split; [done|]; etrans; [exact T2|]];
      unfold debt, size; pose proof (running_frame _ Hl) as Hr; unfold RESULT_LEN in Hr; pose proof (backlog_range w); nia. }
  pose proof (running_frame _ Hl) as Hr. unfold RESULT_LEN in Hr. pose proof (backlog_range w) as Hb.
  destruct (Nat.lt_ge_cases (syncpos l) (length (syncbuf l))) as [Hlt|Hge].
  2:{ destruct (IH l w fuel) as (l' & w' & E & R & T1 & T2); [done|lia|lia|]. exists l', w'. split_and!; [done..|nia]. }
  destruct fuel as [|fuel]; [lia|]. cbn [drain]. destruct (negb (synced l)); [exists l, w; split_and!; [done|done|lia|nia]|].
  rewrite (proj2 (Nat.ltb_lt _ _)) by done. set (l0 := l <| syncpos := _ |>). assert (running l0) as Hl0 by by destruct Hl.
  destruct (feed b word_name (syncbuf l !!! syncpos l) l0 w) as [l1 w1] eqn:E.
  apply feed_spends in E as (Hl1 & Eb & Ep & T & _ & D); [|done].
  destruct (IH l1 w1 fuel) as (l' & w' & -> & R & T1 & T2); [done|rewrite Eb, Ep; cbn [syncbuf syncpos update loop_fields l0]; lia|lia|].
  exists l', w'. split_and!; [done|done|lia|]. unfold size in D. cbn [frame update loop_fields l0] in D. nia.
Qed.

(** ** A pass *)
Definition push_ns : Z := 1000 * 500001 + 168 * (1000 * 200001 + 4 * cost) + 1000 * 500001 + 8 * cost.
Definition sync_ns : Z := 9 * G + 200000 + 50 * cost.
Definition pass_ns : Z := 2 * call_ns + push_ns + sync_ns + drain_ns + 200000 + 2 * cost.
(** Turns enough for any loop of a pass. *)
Definition enough : nat := spin_fuel 500000 + sync_fuel 2 + Z.to_nat drain_fuel.

Lemma spin_fuel_le s t : s <= t -> (spin_fuel s <= spin_fuel t)%nat.
Proof. unfold spin_fuel. lia. Qed.
Lemma sync_fuel_le s t : s <= t -> (sync_fuel s <= sync_fuel t)%nat.
Proof. unfold sync_fuel, G. lia. Qed.
Lemma sync_fuel_value t : 0 <= t -> Z.of_nat (sync_fuel t) = G * (t + 6) + 100.
Proof. unfold sync_fuel, G. lia. Qed.
#[local] Opaque spin_fuel sync_fuel.
Lemma push_work_ends fuel next item l w :
  running l -> (length item <= 168)%nat -> (spin_fuel 500000 <= fuel)%nat ->
  exists l' w', push_work fuel next item l w = Ok (l', w') /\ running l' /\ spends push_ns w w'.
Proof using line.
  intros [Hd Hfr Hs] Hi Hf. assert (spin_fuel TX_TIMEOUT_US <= fuel)%nat as Hf' by (etrans; [apply spin_fuel_le; by instantiate (1 := 500000)|exact Hf]).
  pose proof cost_range as Hc. unfold push_work, push_ns.
  destruct (wait_quiet_ends fuel (dev l) QUIET_IDLE_US QUIET_WAIT_US w) as (q & u1 & w1 & -> & T1 & S1); [done|exact Hf|]. cbn [fuelled from_option mbind res_bind].
  destruct (write_ends fuel u1 item TX_TIMEOUT_US w1) as (ok & u2 & w2 & -> & T2 & S2); [done|exact Hf'|]. cbn [fuelled from_option mbind res_bind].
  unfold QUIET_WAIT_US, TX_TIMEOUT_US, spends in *. destruct ok.
  - destruct (drain_tx_ends fuel 500000 w2) as (k & w3 & -> & T3); [done|exact Hf|]. cbn [fuelled from_option mbind res_bind]. unfold spends in T3.
    eexists _, w3. split; [reflexivity|]. split; [split; [cbn; congruence|unfold RESULT_LEN; cbn; lia|exact Hs]|]. nia.
  - eexists _, w2. split; [reflexivity|]. split; [split; [cbn; congruence|exact Hfr|exact Hs]|]. nia.
Qed.
Lemma refresh_ends fuel t l w :
  running l -> (spin_fuel 500000 <= fuel)%nat ->
  exists cont l' w', refresh b fuel t l w = Ok (cont, l', w') /\ running l' /\ spends (call_ns + push_ns) w w'.
Proof using prompt.
  intros Hl Hf. pose proof (call_range _ _ _ prompt) as [C _]. pose proof cost_range. assert (0 <= push_ns) as P by (unfold push_ns; lia).
  unfold refresh. destruct (_ || _); [|exists false, l, w; split; [done|]; split; [done|]; unfold spends; lia].
  pose proof (work_time _ _ _ prompt (src l) w) as T. destruct (get_work (ops b) (src l) w) as [[next x] w1]. cbn [snd] in T.
  assert (running (l <| src := x |>)) as Hl1 by by destruct Hl. destruct next as [next|]; cycle 1.
  { eexists false, _, w1. split; [reflexivity|]. split; [by destruct Hl|]. apply (spends_le _ _ _ _ T). lia. }
  assert ((worksrc_pack_item next (item_len b)).2 <= 168)%nat as Hn.
  { unfold worksrc_pack_item. destruct (_ =? _)%nat; [done|]. destruct (_ =? _)%nat; cbn; unfold STAGE4_LEN; lia. }
  destruct (worksrc_pack_item next (item_len b)) as [out n]. cbn [snd] in Hn. destruct (n =? 0)%nat.
  { eexists true, _, w1. split; [reflexivity|]. split; [by destruct Hl|]. apply (spends_le _ _ _ _ T). lia. }
  destruct (push_work_ends fuel next (take n out) (l <| src := x |>) w1 Hl1) as (l2 & w2 & -> & Hl2 & T2); [rewrite length_take; lia|done|].
  cbn [mbind res_bind]. eexists false, _, w2. split; [reflexivity|]. split; [by destruct Hl2|]. exact (spends_trans _ _ _ _ _ T T2).
Qed.
Lemma resync_ends fuel l w :
  running l -> in_range w -> (sync_fuel 1 <= fuel)%nat ->
  resync fuel l w = Overrun \/ exists l' w', resync fuel l w = Ok (l', w') /\ running l' /\ spends sync_ns w w'.
Proof using line.
  intros Hl Hr Hf. unfold resync. destruct (negb (synced l) && have_work l).
  2:{ right. exists l, w. split; [done|]. split; [done|]. unfold spends, sync_ns, G. pose proof cost_range. lia. }
  destruct (frame_sync_ends fuel (dev l) 1 (RESULT_LEN * 8) true (framing (st l)) w) as [[-> _]|(rc & out & u & f & w1 & -> & Ho & T & Su)]; [done..|by left|].
  right. cbn [mbind res_bind]. pose proof (running_dev _ Hl).
  assert (sim_t0_us u = 0) as Hu by congruence.
  destruct (rc =? 0); eexists _, w1; (split; [reflexivity|]); (split; [|exact T]); split; try done; unfold RESULT_LEN in *; cbn; lia.
Qed.

Lemma pass_ends fuel l w :
  running l -> now w + pass_ns < 2 ^ 62 * G -> (enough <= fuel)%nat ->
  pass b word_name fuel l w = Overrun
  \/ exists l' w', pass b word_name fuel l w = Ok (l', w') /\ running l' /\ spends pass_ns w w'.
Proof using prompt.
  intros Hl Hw Hf. unfold enough in Hf. pose proof (sync_fuel_le 1 2 ltac:(done)) as Hs.
  pose proof (call_range _ _ _ prompt) as [C _]. pose proof cost_range. pose proof frame_range.
  assert (0 <= push_ns /\ 0 <= sync_ns /\ 0 <= drain_ns) as (P1 & P2 & P3).
  { unfold push_ns, sync_ns, drain_ns, G. pose proof (backlog_range w). lia. }
  unfold pass. pose proof (now_s_spends w) as T1. destruct (now_s w) as [t w1]. cbn [snd] in T1.
  set (polled := match poll (ops b) with Some _ => _ | None => _ end).
  assert (running polled.1 /\ spends call_ns w1 polled.2) as [Hl0 T2].
  { subst polled. destruct (poll (ops b)) as [p|] eqn:Ep; [|split; [done|unfold spends; cbn; lia]].
    pose proof (poll_time _ _ _ prompt p t (src l) w1 Ep) as T. destruct (p t (src l) w1) as [x w2]. split; [by destruct Hl|done]. }
  destruct polled as [l0 w2]. cbn [fst snd] in *.
  destruct (refresh_ends fuel t l0 w2 Hl0) as (cont & l1 & w3 & -> & Hl1 & T3); [lia|]. cbn [mbind res_bind].
  destruct cont; [right; exists l1, w3; split; [done|]; split; [done|]; unfold spends, pass_ns in *; lia|].
  destruct (resync_ends fuel l1 w3 Hl1) as [->|(l2 & w4 & -> & Hl2 & T4)]; [|lia|by left|].
  { unfold in_range. unfold spends, pass_ns, now in *. lia. }
  cbn [mbind res_bind]. destruct (drain_ends fuel l2 w4 Hl2) as (l3 & w5 & -> & Hl3 & T5); [lia|]. cbn [mbind res_bind].
  right. eexists _, _. split; [reflexivity|]. split; [by destruct (_ <=? _), Hl3|].
  pose proof (usleep_spends 200 w5 ltac:(lia)) as T6. unfold spends, pass_ns in *. lia.
Qed.
Lemma passes_end n fuel l w :
  running l -> now w + Z.of_nat n * pass_ns < 2 ^ 62 * G -> (enough <= fuel)%nat ->
  passes b word_name n fuel l w = Overrun
  \/ exists l' w', passes b word_name n fuel l w = Ok (l', w') /\ running l' /\ spends (Z.of_nat n * pass_ns) w w'.
Proof using prompt.
  intros Hl Hw Hf. revert l w Hl Hw. induction n as [|n IH]; intros l w Hl Hw; cbn [passes].
  { right. exists l, w. split; [done|]. split; [done|]. unfold spends. lia. }
  pose proof (call_range _ _ _ prompt) as [C _]. pose proof cost_range. pose proof frame_range.
  assert (0 <= pass_ns) as P by (unfold pass_ns, push_ns, sync_ns, drain_ns, G; pose proof (backlog_range w); lia).
  destruct (pass_ends fuel l w Hl) as [->|(l1 & w1 & -> & Hl1 & T1)]; [nia|done|by left|]. cbn [mbind res_bind].
  pose proof T1 as T1'. rewrite now_spends in T1'. destruct (IH l1 w1 Hl1) as [->|(l2 & w2 & -> & Hl2 & T2)]; [nia|by left|].
  right. exists l2, w2. split; [done|]. split; [done|]. apply (spends_le _ _ _ _ (spends_trans _ _ _ _ _ T1 T2)). lia.
Qed.
End Loop.

(** ** Start-up *)
Import WorksrcStratum Miner.
Section Start.
Context {W : Type} `{device : Uartlite W} `{line : !Line W}.

Definition phase_ns : Z :=
  backlog_max + 1000 * 500001 + 168 * (1000 * 200001 + 4 * cost) + 1000 * 500001 + (10 * G + 200000 + 50 * cost)
  + (1000 * 200001 + 4 * cost) + 1000 * 100001 + 13 * cost.
Definition boot_ns : Z := 168 * phase_ns + 1000 * 1000 + 5 * cost.
Definition start_enough : nat := spin_fuel 500000 + sync_fuel 2 + Z.to_nat (backlog_max + 1).

Lemma purge_ends fuel u w :
  sim_t0_us u = 0 -> (start_enough <= fuel)%nat ->
  exists u' w', uart_purge_rx fuel u w = Some (u', w') /\ sim_t0_us u' = 0 /\ spends (backlog_max + 2 * cost) w w'.
Proof using line.
  intros Hu Hf. pose proof (backlog_range w). unfold start_enough in Hf.
  destruct (purge_rx_ends fuel u w Hu) as (u' & w' & E & S & T); [lia|]. exists u', w'. split; [done|]. split; [done|].
  apply (spends_le _ _ _ _ T). lia.
Qed.
Lemma phases_end n fuel item u s w :
  sim_t0_us u = 0 -> (length item <= 168)%nat -> now w + Z.of_nat n * phase_ns < 2 ^ 62 * G -> (start_enough <= fuel)%nat ->
  exists rc u' s' w', phases n fuel item u s w = Ok (rc, u', s', w') /\ sim_t0_us u' = 0 /\ spends (Z.of_nat n * phase_ns) w w'.
Proof using line.
  intros Hu Hi Hw Hf. assert (spin_fuel 500000 <= fuel /\ sync_fuel 2 <= fuel)%nat as [Hf1 Hf2] by (unfold start_enough in Hf; lia).
  assert (spin_fuel TX_TIMEOUT_US <= fuel)%nat as Hf3 by (etrans; [apply spin_fuel_le; by instantiate (1 := 500000)|exact Hf1]).
  assert (spin_fuel 100000 <= fuel)%nat as Hf4 by (etrans; [apply spin_fuel_le; by instantiate (1 := 500000)|exact Hf1]).
  pose proof cost_range as Hc. revert u s w Hu Hw. induction n as [|n IH]; intros u s w Hu Hw; cbn [phases].
  { exists (-1), u, s, w. split; [done|]. split; [done|]. unfold spends. lia. }
  pose proof (backlog_range w) as Hb. assert (0 < phase_ns) as Hp by (unfold phase_ns, G; lia).
  destruct (purge_ends fuel u w Hu Hf) as (u1 & w1 & -> & S1 & T1). cbn [fuelled from_option mbind res_bind].
  destruct (wait_quiet_ends fuel u1 QUIET_IDLE_US QUIET_WAIT_US w1) as (q & u2 & w2 & -> & T2 & S2); [done|exact Hf1|]. cbn [fuelled from_option mbind res_bind].
  destruct (write_ends fuel u2 item TX_TIMEOUT_US w2) as (ok & u3 & w3 & -> & T3 & S3); [done|exact Hf3|]. cbn [fuelled from_option mbind res_bind].
  assert (spends (168 * (1000 * 200001 + 4 * cost)) w2 w3) as T3' by (apply (spends_le _ _ _ _ T3); unfold TX_TIMEOUT_US; nia).
  clear T3. unfold QUIET_WAIT_US, TX_TIMEOUT_US, spends in *.
  assert (forall w', elapsed w <= elapsed w' <= elapsed w + phase_ns -> elapsed w <= elapsed w' <= elapsed w + Z.of_nat (S n) * phase_ns) as Hend by (clear - Hp; nia).
  destruct ok; cbn [negb]; [|exists (-1), u3, s, w3; split; [done|]; split; [congruence|]; apply Hend; unfold phase_ns, G; lia].
  destruct (drain_tx_ends fuel 500000 w3) as (k & w4 & -> & T4); [done|exact Hf1|]. cbn [fuelled from_option mbind res_bind]. unfold spends in T4.
  assert (in_range w4) as Hw4.
  { unfold in_range. apply (Z.le_lt_trans _ (now w + phase_ns)); [|clear - Hw Hp; nia]. unfold now, phase_ns, G. lia. }
  destruct (frame_sync_ends fuel u3 2 512 false (framing (s <| items_sent := u64 (items_sent s + 1) |>)) w4)
    as [[_ E]|(rc & out & u5 & f & w5 & -> & _ & T5 & S5)]; [done|done|exact Hf2|by exfalso; unfold NSYNC in E; lia|].
  cbn [mbind res_bind]. unfold spends in T5.
  destruct (if _ : bool then _ else None) as [off|].
  { eexists 0, u5, _, w5. split; [done|]. split; [congruence|]. apply Hend. unfold phase_ns, G in *. lia. }
  destruct (put_ends fuel u5 0x00 200000 w5) as (k1 & u6 & w6 & E6 & T6 & S6); [done|exact Hf3|].
  cbn [fuelled from_option mbind res_bind]. rewrite E6. cbn [fuelled from_option mbind res_bind].
  destruct (drain_tx_ends fuel 100000 w6) as (k2 & w7 & -> & T7); [done|exact Hf4|]. cbn [fuelled from_option mbind res_bind]. unfold spends in T6, T7.
  assert (elapsed w <= elapsed w7 <= elapsed w + phase_ns) as T by (unfold phase_ns, G in *; lia).
  clear Hb T1 T2 T3' T4 T5 T6 T7 Hend.
  edestruct (IH u6) as (rc' & u' & s' & w' & E & S' & T'); [congruence| |exists rc', u', s', w'; split; [exact E|]; split; [done|]; clear - T T' Hp; nia].
  clear - T Hw Hp. unfold now in *. nia.
Qed.

Lemma probe_item target item : build_work_item probe_header target = inr item -> (length item <= 168)%nat.
Proof using Type.
  unfold build_work_item. destruct (stage_inputs probe_header) as [|[[a c] d]]; [done|].
  intros E%(f_equal (fun r => match r with inl _ => [] | inr i => i end)). cbv beta iota zeta in E. rewrite <- E.
  by rewrite !length_inserts, length_replicate.
Qed.
Lemma selftest_loopback_ends fuel u s w :
  sim_t0_us u = 0 -> now w + 168 * phase_ns < 2 ^ 62 * G -> (start_enough <= fuel)%nat ->
  exists rc u' s' w', selftest_loopback fuel u s w = Ok (rc, u', s', w') /\ sim_t0_us u' = 0 /\ spends (168 * phase_ns) w w'.
Proof using line.
  intros Hu Hw Hf. unfold selftest_loopback. destruct (build_work_item probe_header LOOPBACK_TARGET) as [|item] eqn:E; [|by apply probe_item in E; apply (phases_end 168)].
  exists (-1), u, s, w. split; [done|]. split; [done|]. pose proof cost_range. pose proof (backlog_range w). unfold spends, phase_ns, G. lia.
Qed.

(** The tests that leave the program need no bound. *)
Lemma dump_loop_ends fuel deadline buf u w :
  0 <= deadline < 2 ^ 63 -> now w < limit deadline + 2 ^ 50 -> Z.max 0 (limit deadline - now w) + 1 < Z.of_nat fuel ->
  exists buf' u' w', dump_loop fuel deadline buf u w = Some (buf', u', w').
Proof using line.
  intros Hd. revert buf u w. induction fuel as [|fuel IH]; intros buf u w Hw Hf; [lia|]. cbn [dump_loop].
  destruct (now_s_ticks w) as (t & w1 & E & -> & T1 & _). rewrite E. unfold limit in *.
  change (2 ^ 50) with 1125899906842624 in *. unfold access_bound in T1. change (2 ^ 40) with 1099511627776 in T1.
  pose proof (reading_in_time w1 deadline Hd) as P. change (2 ^ 58) with 288230376151711744 in P. specialize (P ltac:(lia)).
  rewrite Z.leb_antisym, P, negb_involutive. destruct (Z.ltb_spec (now w1) ((deadline + 1) * G)); cbn [andb]; [|by do 3 eexists].
  destruct (_ <? _)%nat; [|by do 3 eexists]. destruct (get_nb_ticks u w1) as (b & u1 & w2 & -> & _ & T2).
  unfold access_bound in T2. change (2 ^ 40) with 1099511627776 in T2. apply IH; lia.
Qed.
Lemma selftest_rxdump_ends fuel u s w :
  sim_t0_us u = 0 -> now w + phase_ns < 2 ^ 62 * G -> (start_enough <= fuel)%nat ->
  exists r, selftest_rxdump fuel u s w = Ok r.
Proof using line.
  intros Hu Hw Hf. unfold selftest_rxdump. destruct (build_work_item probe_header _) as [|item] eqn:Ei; [by eexists|]. apply probe_item in Ei.
  assert (spin_fuel 500000 <= fuel /\ sync_fuel 2 <= fuel)%nat as [Hf1 Hf2] by (unfold start_enough in Hf; lia).
  assert (spin_fuel TX_TIMEOUT_US <= fuel)%nat as Hf3 by (etrans; [apply spin_fuel_le; by instantiate (1 := 500000)|exact Hf1]).
  pose proof (write_spends UARTLITE_CTRL (CTRL_RST_TX .| CTRL_RST_RX) w) as T0. unfold uart_reset_fifos. set (w0 := reg_write _ _ w) in *.
  destruct (purge_ends fuel u w0 Hu Hf) as (u1 & w1 & -> & S1 & T1). cbn [fuelled from_option mbind res_bind].
  destruct (wait_quiet_ends fuel u1 QUIET_IDLE_US QUIET_WAIT_US w1) as (q & u2 & w2 & -> & T2 & S2); [done|exact Hf1|]. cbn [fuelled from_option mbind res_bind].
  destruct (write_ends fuel u2 item TX_TIMEOUT_US w2) as (ok & u3 & w3 & -> & T3 & S3); [done|exact Hf3|]. cbn [fuelled from_option mbind res_bind].
  destruct ok; cbn [negb]; [|by eexists]. assert (now w3 < 2 ^ 62 * G + 2 ^ 57) as Hw3.
  { assert (spends (168 * (1000 * 200001 + 4 * cost)) w2 w3) as T3' by (apply (spends_le _ _ _ _ T3); unfold TX_TIMEOUT_US; pose proof cost_range; nia).
    clear T3. unfold QUIET_WAIT_US, phase_ns, spends, now, G in *. pose proof cost_range. lia. }
  destruct (now_s w3) as [t w4] eqn:E4. apply (deadline_spends w3 5) in E4 as (T4 & D & L); [|done|done].
  destruct (dump_loop_ends fuel (u64 (t + 5)) [] u3 w4 D) as (buf & u5 & w5 & ->); [|pose proof (sync_fuel_value 2 ltac:(done)); unfold G in *; lia|by eexists].
  change (2 ^ 50) with 1125899906842624. lia.
Qed.

(** The scripted lines of the framing self-test. *)
Definition case_ns : Z := 13 * G + 200000 + 60 * cost.
Lemma on_line_ends fuel buf at_us quiet_ok st w check :
  now w + case_ns < 2 ^ 62 * G -> (start_enough <= fuel)%nat ->
  (forall rc out u w, now w < 2 ^ 62 * G -> exists bad w', check rc out u w = Ok (bad, w') /\ spends (3 * G + 5 * cost) w w') ->
  exists bad st' w', on_line fuel buf at_us quiet_ok st w check = Ok (bad, st', w') /\ spends case_ns w w'.
Proof using line.
  intros Hw Hf Hc. pose proof cost_range. unfold on_line, uart_open_sim, case_ns in *. pose proof (now_us_spends w) as T1. destruct (now_us w) as [t w1]. cbn [snd] in T1.
  set (u0 := UioUart _ _ _ _ _ _ _ _).
  assert (now w1 + 12 * G + 200000 + 55 * cost < 2 ^ 62 * G) as Hw1 by (unfold spends, now, G in *; lia).
  destruct (frame_sync_ends fuel u0 2 512 quiet_ok st w1) as [[_ E]|(rc & out & u & st' & w2 & -> & _ & T2 & _)];
    [unfold in_range, G in *; lia|done|unfold start_enough in Hf; lia|by exfalso; unfold NSYNC in E; lia|].
  cbn [mbind res_bind]. destruct (Hc rc out u w2) as (bad & w3 & -> & T3); [unfold spends, now, G in *; lia|].
  cbn [mbind res_bind]. exists bad, st', w3. split; [done|]. unfold spends, G in *. lia.
Qed.
Lemma selftest_framing_ends fuel st w :
  now w + 6 * case_ns < 2 ^ 62 * G -> (start_enough <= fuel)%nat -> exists r, selftest_framing fuel st w = Ok r.
Proof using line.
  intros Hw Hf. pose proof cost_range as Hc. assert (0 < case_ns) as Hp by (unfold case_ns, G; lia).
  assert (forall (r : Z) (w' : W), exists bad w1, @Framing.Ok (Z * W) (r, w') = Framing.Ok (bad, w1) /\ spends (3 * G + 5 * cost) w' w1) as Hpure.
  { intros r w'. exists r, w'. split; [done|]. unfold spends, G. lia. }
  unfold selftest_framing.
  edestruct (on_line_ends fuel [] [] true st w) as (b1 & st1 & w1 & E1 & T1); [lia|done|intros; apply Hpure|].
  unfold case_quiet_line. rewrite E1. cbn [mbind res_bind].
  edestruct (on_line_ends fuel Framing.frame (at_us_from 50000 RESULT_LEN) true st1 w1) as (b2 & st2 & w2 & E2 & T2); [unfold spends, now in *; lia|done| |].
  2: unfold case_quiet_then_frame; rewrite E2; cbn [mbind res_bind].
  { intros rc out u w0 Hw0. cbn beta. destruct (negb _); [apply Hpure|]. destruct (now_s w0) as [t w0'] eqn:E.
    change (2 ^ 57) with 144115188075855872 in *.
    apply (deadline_spends w0 2) in E as (T & D & L); [|done|change (2 ^ 57) with 144115188075855872; lia].
    destruct (read_frames_spec fuel RESULT_LEN (u64 (t + 2)) (take RESULT_LEN out) u w0' D) as (u' & w' & bs & E & _);
      [change (2 ^ 50) with 1125899906842624; unfold limit in L; lia| |rewrite length_take; lia|].
    { unfold start_enough in Hf. pose proof (sync_fuel_value 2 ltac:(done)). unfold limit, G in *. lia. }
    rewrite E. cbn [fuelled from_option mbind res_bind]. eexists _, w'. split; [done|].
    apply read_frames_spends in E as [T' _]; [|done|change (2 ^ 57) with 144115188075855872; lia].
    rewrite now_spends in *. unfold G in *. lia. }
  edestruct (on_line_ends fuel Framing.frame (at_us_from 0 RESULT_LEN) true st2 w2) as (b3 & st3 & w3 & E3 & T3); [unfold spends, now in *; lia|done|intros; apply Hpure|].
  unfold case_gap_path. rewrite E3. cbn [mbind res_bind]. unfold case_dense_path.
  match goal with |- context [on_line fuel ?l ?a true st3 w3 ?c] =>
    destruct (on_line_ends fuel l a true st3 w3 c) as (b4 & st4 & w4 & E4 & T4); [unfold spends, now in *; lia|done|intros; apply Hpure|] end.
  rewrite E4. cbn [mbind res_bind]. unfold case_loopback_guard.
  edestruct (on_line_ends fuel [] [] false st4 w4) as (b5 & st5 & w5 & E5 & T5); [unfold spends, now in *; lia|done|intros; apply Hpure|].
  rewrite E5. cbn [mbind res_bind]. unfold case_partial_lead.
  match goal with |- context [on_line fuel ?l ?a true st5 w5 ?c] =>
    destruct (on_line_ends fuel l a true st5 w5 c) as (b6 & st6 & w6 & E6 & T6); [unfold spends, now in *; lia|done|intros; apply Hpure|] end.
  rewrite E6. cbn [mbind res_bind]. by eexists.
Qed.

(** From the tests of the build to those of the device. *)
Lemma device_tests_end fuel o opened w :
  now w + boot_ns < 2 ^ 62 * G -> (start_enough <= fuel)%nat ->
  exists e w', device_tests fuel o opened w = Ok (e, w')
  /\ forall u s, e = Mining u s -> sim_t0_us u = 0 /\ spends boot_ns w w'.
Proof using line.
  intros Hw Hf. pose proof cost_range as Hc. pose proof (backlog_range w) as Hb. assert (0 < phase_ns) as Hp by (unfold phase_ns, G; lia).
  unfold device_tests. destruct opened; cbn [negb]; [|by eexists _, w].
  assert (spends (1000 * 1000 + 4 * cost) w (selftest_uart w).2) as T0.
  { unfold selftest_uart, uart_stat, uart_reset_fifos. pose proof (read_spends UARTLITE_STAT w) as T1. destruct (reg_read UARTLITE_STAT w) as [a w1]. cbn [snd] in T1.
    pose proof (write_spends UARTLITE_CTRL (CTRL_RST_TX .| CTRL_RST_RX) w1) as T2. pose proof (usleep_spends 1000 (reg_write UARTLITE_CTRL (CTRL_RST_TX .| CTRL_RST_RX) w1) ltac:(done)) as T3.
    pose proof (read_spends UARTLITE_STAT (usleep 1000 (reg_write UARTLITE_CTRL (CTRL_RST_TX .| CTRL_RST_RX) w1))) as T4.
    destruct (reg_read UARTLITE_STAT (usleep _ _)) as [c w4]. cbn [snd] in *. unfold spends in *. lia. }
  destruct (selftest_uart w) as [rc w1]. cbn [snd] in T0. unfold boot_ns in *.
  destruct (wants o "uart"); [by eexists _, w1|]. destruct (wants o "rxdump").
  { destruct (selftest_rxdump_ends fuel uart_open MINER_STATS w1) as [[[[[r buf] u] s] w2] ->]; [done|unfold spends, now in *; lia|done|].
    cbn [mbind res_bind]. by eexists _, w2. }
  destruct (chain o).
  - destruct (selftest_loopback_ends fuel uart_open MINER_STATS w1) as (r & u & s & w2 & -> & S2 & T2); [done|unfold spends, now in *; lia|done|].
    cbn [mbind res_bind]. eexists _, w2. split; [done|]. intros u' s'. destruct (_ || _); [done|]. destruct (negb _); [done|].
    intros [= <- <-]. split; [done|]. unfold spends in *. lia.
  - eexists _, w1. split; [done|]. intros u' s' [= <- <-]. split; [done|]. unfold spends in *. lia.
Qed.
Lemma boot_ends fuel o opened w :
  now w + boot_ns < 2 ^ 62 * G -> (start_enough <= fuel)%nat ->
  exists e w', boot fuel o opened w = Ok (e, w')
  /\ forall u s, e = Mining u s -> sim_t0_us u = 0 /\ spends boot_ns w w'.
Proof using line.
  intros Hw Hf. unfold boot. destruct (wants o "block"); [by eexists _, w|]. destruct (wants o "stratum"); [by eexists _, w|].
  destruct (wants o "framing").
  { destruct (selftest_framing_ends fuel (framing MINER_STATS) w) as [[[r st] w1] ->]; [|done|cbn [mbind res_bind]; by eexists _, w1].
    pose proof cost_range. pose proof (backlog_range w). unfold boot_ns, phase_ns, case_ns, G in *. lia. }
  destruct (_ || _); [|by apply device_tests_end]. destruct (_ || _); [by eexists _, w|by apply device_tests_end].
Qed.

Context `{!Gbt.Gbt.Node W} `{Network W} (strerror : Z -> list Z) (undef : Cdouble.Cdouble.double -> Z).
Lemma submit_test_ends o s w : exists r, submit_test_flow o s w = Some r.
Proof using Type.
  unfold submit_test_flow. destruct (Gbt.Gbt.get_template_spec (rpc_config o) s w) as (h & s1 & w1 & -> & _). cbn [mbind option_bind].
  destruct h as [h|]; [|by eexists]. destruct (Gbt.Gbt.submit_block _ _ _ _) as [[v s2] w2]. by eexists.
Qed.

(** C5: The program keeps going. Let the device deliver bytes at some rate, the machine
    be fast against it, and the source's calls be bounded in time and deal with a
    candidate in half the time of a frame. Then start-up returns, whatever the options
    (the stratum probe apart), the device, its answers and the node do; and if it goes
    on to mine, after at most [boot_ns] nanoseconds, then any number of passes of the
    mining loop return, after at most [pass_ns] each, so that the pool is polled and the
    work refreshed again and again, as long as the clock has not wrapped. The one other
    outcome is the overrun of the eight-frame buffer, in [frame_sync]. *)
Theorem program_keeps_going o fuel opened x w b call_ns cand_ns n word_name :
  stratum_probe o = false -> choose strerror undef o (configure o x) = Some b -> timely b call_ns cand_ns ->
  now w + boot_ns + Z.of_nat n * pass_ns call_ns cand_ns < 2 ^ 62 * G -> (enough cand_ns <= fuel)%nat ->
  exists e x1 w1, start strerror undef fuel o opened x w = Ok (e, x1, w1)
  /\ match e with
     | Exit _ => True
     | Mining u s => spends boot_ns w w1
       /\ (passes b word_name n fuel (entered u s x1) w1 = Overrun
           \/ exists l' w', passes b word_name n fuel (entered u s x1) w1 = Ok (l', w')
              /\ spends (Z.of_nat n * pass_ns call_ns cand_ns) w1 w')
     end.
Proof using line.
  intros Hp Hb Ht Hw Hf. pose proof (frame_range b call_ns cand_ns Ht) as [F _]. pose proof (backlog_range w) as Hbl.
  assert (0 <= pass_ns call_ns cand_ns) as Hpass.
  { pose proof cost_range. pose proof (call_range _ _ _ Ht). unfold pass_ns, push_ns, sync_ns, drain_ns, G. lia. }
  assert (start_enough <= fuel)%nat as Hf'.
  { etrans; [|exact Hf]. unfold start_enough, enough, drain_fuel. lia. }
  unfold start. rewrite Hb, Hp. destruct (submit_test o).
  { destruct (submit_test_ends o (alone (configure o x)) w) as [[[rc s] w1] ->]. cbn [fuelled from_option mbind res_bind]. by eexists _, _, w1. }
  destruct (boot_ends fuel o opened w) as (e & w1 & -> & He); [lia|done|]. cbn [mbind res_bind]. eexists e, _, w1. split; [done|].
  destruct e as [rc|u s]; [done|]. destruct (He u s eq_refl) as [Su T]. split; [done|].
  destruct (passes_end b call_ns cand_ns Ht word_name n fuel (entered u s (configure o x)) w1) as [E|(l' & w' & E & _ & T')].
  - split; [exact Su|unfold RESULT_LEN; cbn; lia|cbn; lia].
  - unfold spends, now in *. lia.
  - exact Hf.
  - by left.
  - right. by exists l', w'.
Qed.
End Start.

(** ** The pool source, on a network that does not block *)
Class Swift (W : Type) `{Line W} `{Network W} := {
  swift_ns : Z;
  swift_range : 0 <= swift_ns;
  meet_spends k w : spends swift_ns w (meet k w).2;
  carry_spends k bytes w : spends swift_ns w (carry k bytes w);
  meet_fills k w : let w' := (meet k w).2 in backlog w' <= backlog w + (elapsed w' - elapsed w);
  carry_fills k bytes w : let w' := carry k bytes w in backlog w' <= backlog w + (elapsed w' - elapsed w)
}.
Section Pool.
Context {W : Type} `{device : Uartlite W} `{line : !Line W} `{Network W} `{swift : !Swift W}.
Context (strerror : Z -> list Z) (undef : Cdouble.Cdouble.double -> Z).

Lemma pool_timely (b : @worksrc (callbacks sources W)) :
  ops b = pool_callbacks strerror undef -> 68 * cost + 2 * (cost + 2 * swift_ns) <= 17 * byte_ns ->
  timely b (4 * swift_ns + cost) (2 * swift_ns).
Proof using Type.
  intros Hb Hk. pose proof swift_range as Hs. pose proof cost_range as Hc.
  assert (forall n w, 0 <= n -> spends n w w) as Hidle by (intros n w Hn; apply (spends_le 0); [apply spends_0|done]).
  assert (forall c n h x w, let w' := (pool_on_candidate c n h x w).2 in
    spends (2 * swift_ns) w w' /\ backlog w' <= backlog w + (elapsed w' - elapsed w)) as Hcand.
  { intros c n h x w. cbv zeta. unfold pool_on_candidate. set (k := default _ _). pose proof (meet_spends k w) as T1. pose proof (meet_fills k w) as B1.
    destruct (meet k w) as [m w1]. cbn [snd] in *. destruct (st_on_candidate _ _ _ _ _) as [[[v y] wire]|]; cbn [snd].
    - pose proof (carry_spends k wire w1). pose proof (carry_fills k wire w1). cbv zeta in *. unfold spends in *. lia.
    - cbv zeta in *. unfold spends in *. lia. }
  split; rewrite ?Hb; cbn [poll get_work on_candidate pool_callbacks]; [lia| | |intros; apply Hcand|intros; apply Hcand|lia].
  - intros p t x w [= <-]. unfold pool_poll. pose proof (meet_spends Main w) as T1. destruct (meet Main w) as [m w1]. cbn [snd] in T1.
    assert (spends swift_ns w1 (if g_dev_configured (pooled x) then meet Dev w1 else (offline, w1)).2) as T2.
    { destruct (g_dev_configured _); [apply meet_spends|by apply Hidle]. }
    destruct (if g_dev_configured _ then _ else _) as [d w2]. cbn [snd] in T2.
    destruct (st_poll _ _ _ _ _ _) as [[[y v1] v2]|]; cbn [snd].
    + pose proof (carry_spends Main v1 w2). pose proof (carry_spends Dev v2 (carry Main v1 w2)). unfold spends in *. lia.
    + unfold spends in *. lia.
  - intros x w. unfold pool_get_work, st_get_work. destruct (negb _); [apply Hidle; lia|].
    pose proof (now_s_spends w) as T. destruct (now_s w) as [t w1]. cbn [snd] in T.
    destruct (work_at _ _ _) as [r y]. apply (spends_le cost); [exact T|lia].
Qed.
End Pool.

(** ** A core that never stops talking

    It sends frames back to back, at 86.8 microseconds a byte, into a receive FIFO of
    sixteen bytes that loses what it has no room for. *)
Module Core.
Record core := CoreT { nanos : N; gone : Z; popped : list Z; taken_in : list Z }.
Definition byte_time : Z := 86800.
Definition arrived (d : core) : Z := Z.of_N (nanos d) / byte_time.
(** The byte at the head of the FIFO is number [next]. *)
Definition next (d : core) : Z := Z.max (gone d) (arrived d - 16).
Definition stream (k : Z) : Z := u8 (Framing.frame !!! Z.to_nat (k mod 17)).
Definition later (dt : N) (d : core) : core := CoreT (nanos d + dt) (gone d) (popped d) (taken_in d).
#[global] Instance core_world : World core := {
  reg_read off d :=
    let d := later 1000 d in
    if off =? UARTLITE_STAT then (4 .| (if gone d <? arrived d then 1 else 0), d)
    else if (off =? UARTLITE_RX) && (gone d <? arrived d)
    then (stream (next d), CoreT (nanos d) (next d + 1) (popped d ++ [stream (next d)]) (taken_in d))
    else (0, d);
  reg_write off v d :=
    let d := later 1000 d in
    if off =? UARTLITE_TX then CoreT (nanos d) (gone d) (popped d) (taken_in d ++ [v]) else d;
  now_us d := let d := later 1000 d in (u64 (Z.of_N (nanos d) / 1000), d);
  now_s d := let d := later 1000 d in (u64 (11000000 + Z.of_N (nanos d) / 1000000000), d);
  usleep us d := later (Z.to_N (1000 * us)) d
}.

Lemma read_nanos off d : nanos (reg_read off d).2 = (nanos d + 1000)%N.
Proof. cbn [reg_read core_world]. destruct (off =? _); [done|]. by destruct (_ && _). Qed.
Lemma write_nanos off v d : nanos (reg_write off v d) = (nanos d + 1000)%N.
Proof. cbn [reg_write core_world]. by destruct (off =? _). Qed.
Lemma stat_valid d : flag (reg_read UARTLITE_STAT d).1 STAT_RX_VALID = true -> gone d < arrived (later 1000 d).
Proof. cbn [reg_read core_world fst]. change (UARTLITE_STAT =? UARTLITE_STAT) with true. cbn [gone later]. destruct (Z.ltb_spec (gone d) (arrived (later 1000 d))); [done|]. by cbn. Qed.
Lemma rx_arrived d :
  gone d < arrived d ->
  reg_read UARTLITE_RX d = (stream (next (later 1000 d)),
    CoreT (nanos d + 1000) (next (later 1000 d) + 1) (popped d ++ [stream (next (later 1000 d))]) (taken_in d)).
Proof.
  intros Hg. cbn [reg_read core_world]. change (UARTLITE_RX =? UARTLITE_STAT) with false. change (UARTLITE_RX =? UARTLITE_RX) with true.
  cbn [andb gone later]. rewrite (proj2 (Z.ltb_lt _ _)); [done|].
  assert (arrived d <= arrived (later 1000 d)); [|lia]. unfold arrived, later. cbn [nanos]. apply Z.div_le_mono; [done|lia].
Qed.
#[global] Program Instance core_uartlite : Uartlite core := {
  elapsed d := Z.of_N (nanos d);
  Uart.boot := 11000000;
  sent := taken_in;
  room _ := true;
  received := popped
}.
Next Obligation. done. Qed.
Next Obligation. done. Qed.
Next Obligation. intros d. cbn [now_s core_world snd nanos later]. unfold access_bound. lia. Qed.
Next Obligation. intros us d Hus. cbn [usleep core_world nanos later]. unfold access_bound. lia. Qed.
Next Obligation. done. Qed.
Next Obligation. intros off v d. cbn [reg_write core_world]. by destruct (off =? _). Qed.
Next Obligation. done. Qed.
Next Obligation. done. Qed.
Next Obligation. done. Qed.
Next Obligation.
  intros d. destruct (reg_read UARTLITE_STAT d) as [s d1] eqn:E. intros Hv. pose proof (stat_valid d) as Hg. rewrite E in Hg. specialize (Hg Hv).
  assert (d1 = later 1000 d) as -> by (cbn [reg_read core_world] in E; change (UARTLITE_STAT =? UARTLITE_STAT) with true in E; by injection E).
  rewrite rx_arrived by exact Hg. cbn [fst snd popped later]. unfold stream, u8. by rewrite <- !Z.land_assoc.
Qed.
Next Obligation. done. Qed.
Next Obligation. intros d. cbn. lia. Qed.
Next Obligation. intros off d. cbn beta. rewrite read_nanos. unfold access_bound. lia. Qed.
Next Obligation. intros off v d. cbn beta. rewrite write_nanos. unfold access_bound. lia. Qed.
Next Obligation. intros d. cbn [now_us core_world snd nanos later]. unfold access_bound. lia. Qed.
Next Obligation. intros off d. cbn [reg_read core_world]. destruct (off =? _); [done|]. by destruct (_ && _). Qed.
Next Obligation. done. Qed.
Next Obligation. done. Qed.
Next Obligation. done. Qed.
Next Obligation. done. Qed.
Next Obligation. done. Qed.

#[global] Program Instance core_line : Line core := {
  cost := 1000;
  byte_ns := byte_time;
  backlog_max := 17 * byte_time;
  backlog d := Z.max 0 (Z.min (Z.of_N (nanos d) - gone d * byte_time) (17 * byte_time))
}.
Next Obligation. unfold access_bound. lia. Qed.
Next Obligation. done. Qed.
Next Obligation. intros d. unfold byte_time. lia. Qed.
Next Obligation. intros off d. cbn [elapsed core_uartlite]. rewrite read_nanos. lia. Qed.
Next Obligation. intros off v d. cbn [elapsed core_uartlite]. rewrite write_nanos. lia. Qed.
Next Obligation. intros d. cbn. lia. Qed.
Next Obligation. intros d. cbn. lia. Qed.
Next Obligation. intros us d Hus. cbn [usleep core_world elapsed core_uartlite nanos later]. lia. Qed.
Next Obligation. intros d. cbn [reg_read core_world]. change (UARTLITE_STAT =? UARTLITE_STAT) with true. cbn [snd elapsed core_uartlite nanos gone later]. unfold byte_time. lia. Qed.
Next Obligation. intros d. cbn [now_s core_world snd elapsed core_uartlite nanos gone later]. unfold byte_time. lia. Qed.
Next Obligation.
  intros d. destruct (reg_read UARTLITE_STAT d) as [s d1] eqn:E. intros Hv. pose proof (stat_valid d) as Hg. rewrite E in Hg. specialize (Hg Hv).
  assert (d1 = later 1000 d) as -> by (cbn [reg_read core_world] in E; change (UARTLITE_STAT =? UARTLITE_STAT) with true in E; by injection E).
  rewrite rx_arrived by exact Hg. cbn [snd elapsed core_uartlite nanos gone later]. unfold next, arrived, later, byte_time in *. cbn [nanos gone] in *.
  Z.to_euclidean_division_equations. lia.
Qed.
End Core.

Section Witness.
Import Core.
#[local] Instance core_node : Gbt.Gbt.Node core := fun _ d => (None, d).
#[local] Instance core_network : Network core := { meet _ d := (offline, d); carry _ _ d := d }.
#[local] Instance core_swift : Swift core.
Proof. refine {| swift_ns := 0 |}; intros; try subst w'; unfold spends; cbn [meet carry core_network snd]; lia. Defined.
Definition core_source : @worksrc (callbacks sources core) := g_backend_sia (pool_callbacks (fun _ => []) (fun _ => 0)).
Lemma core_choice_ok : choose (fun _ => []) (fun _ => 0) siacoin_miner (configure siacoin_miner no_sources) = Some core_source.
Proof. exact (source_as_asked (fun _ => []) (fun _ => 0) siacoin_miner no_sources). Qed.
Lemma core_timely : timely core_source (4 * 0 + 1000) (2 * 0).
Proof.
  refine (pool_timely (fun _ => []) (fun _ => 0) core_source eq_refl _).
  apply Z.leb_le; vm_compute; reflexivity.
Qed.
Lemma program_keeps_going_witness :
  let d := CoreT 0 0 [] [] in
  exists e x1 w1, start (fun _ => []) (fun _ => 0) (enough (2 * 0)) siacoin_miner true no_sources d = Ok (e, x1, w1)
  /\ match e with
     | Exit _ => True
     | Mining u s => spends boot_ns d w1
       /\ (passes core_source (str "H[0]") 1000 (enough (2 * 0)) (entered u s x1) w1 = Overrun
           \/ exists l' w', passes core_source (str "H[0]") 1000 (enough (2 * 0)) (entered u s x1) w1 = Ok (l', w')
              /\ spends (Z.of_nat 1000 * pass_ns (4 * 0 + 1000) (2 * 0)) w1 w')
     end.
Proof.
  apply (program_keeps_going (fun _ => []) (fun _ => 0) siacoin_miner (enough (2 * 0)) true no_sources (CoreT 0 0 [] []) core_source
    (4 * 0 + 1000) (2 * 0) 1000 (str "H[0]") eq_refl core_choice_ok core_timely); [|apply le_n].
  apply Z.ltb_lt; vm_compute; reflexivity.
Defined.
End Witness.
End Live.
