(* ===== verification/Probe.v ===== *)
(** * The stratum probe ends (src/miner/miner.c, main: --stratum-probe)

    Its three loops wait on clocks and on a pool: with a network whose calls return in
    bounded time they end, and the exit status is the pool's verdict. *)
From S2P Require Import Prelude Worksrc Uart Framing Gbt Mining WorksrcStratum Miner.

Module Probe.
Import Worksrc WorksrcStratum Uart Framing Mining Miner.

(** Exchanges with a pool take time, but not for ever; nanoseconds. *)
Class Patient (W : Type) `{Uartlite W} `{Network W} := {
  exchange_bound : Z;
  exchange_range : 0 <= exchange_bound <= 10 ^ 12;
  meet_takes_time k w : elapsed w <= elapsed (meet k w).2 <= elapsed w + exchange_bound;
  carry_takes_time k b w : elapsed w <= elapsed (carry k b w) <= elapsed w + exchange_bound
}.

Section Ends.
Context {W : Type} `{device : Uartlite W} `{!Gbt.Gbt.Node W} `{Network W} `{patient : !Patient W}.
Context (strerror : Z -> list Z) (undef : Cdouble.Cdouble.double -> Z).
Context (b : @worksrc (callbacks sources W)) (pool : ops b = pool_callbacks strerror undef).

Definition tick : Z := exchange_bound + access_bound.
(** At most [n] calls' time. *)
Definition within (n : Z) (w w' : W) : Prop := elapsed w <= elapsed w' <= elapsed w + n * tick.
Lemma tick_range : 0 <= access_bound <= tick /\ 0 <= exchange_bound <= tick /\ tick <= 10 ^ 13.
Proof using Type. pose proof exchange_range. unfold tick, access_bound. lia. Qed.
Lemma within_trans m n w w1 w2 : within m w w1 -> within n w1 w2 -> within (m + n) w w2.
Proof using Type. unfold within. lia. Qed.
Lemma within_0 w : within 0 w w.
Proof using Type. unfold within. lia. Qed.
Lemma within_now w t w' : now_s w = (t, w') -> within 1 w w'.
Proof using Type. intros E. pose proof (now_s_takes_time w) as T. rewrite E in T. cbn [snd] in T. pose proof tick_range. unfold within. lia. Qed.
Lemma within_meet k w a w' : meet k w = (a, w') -> within 1 w w'.
Proof using Type. intros E. pose proof (meet_takes_time k w) as T. rewrite E in T. cbn [snd] in T. pose proof tick_range. unfold within. lia. Qed.
Lemma within_carry k x w : within 1 w (carry k x w).
Proof using Type. pose proof (carry_takes_time k x w). pose proof tick_range. unfold within. lia. Qed.
Lemma within_le m n w w' : within m w w' -> m <= n -> within n w w'.
Proof using Type. pose proof tick_range. unfold within. nia. Qed.

Lemma poll_within x w : within 5 w (poll_source b x w).2.
Proof using pool.
  unfold poll_source. rewrite pool. cbn [poll pool_callbacks]. destruct (now_s w) as [t w1] eqn:E1. apply within_now in E1.
  unfold pool_poll. destruct (meet Main w1) as [m w2] eqn:E2. apply within_meet in E2.
  destruct (if g_dev_configured (pooled x) then meet Dev w2 else (offline, w2)) as [d w3] eqn:E3.
  assert (within 1 w2 w3) as E3'.
  { destruct (g_dev_configured (pooled x)); [by eapply within_meet|]. injection E3 as _ <-. apply (within_le 0); [apply within_0|lia]. }
  pose proof (within_trans _ _ _ _ _ (within_trans _ _ _ _ _ E1 E2) E3') as E.
  destruct (st_poll _ _ _ _ _ _) as [[[y v1] v2]|]; cbn [snd]; [|by eapply within_le].
  exact (within_trans 3 2 _ _ _ E (within_trans 1 1 _ _ _ (within_carry Main v1 w3) (within_carry Dev v2 _))).
Qed.
Lemma get_work_within x w : within 1 w (get_work (ops b) x w).2.
Proof using pool.
  rewrite pool. cbn [get_work pool_callbacks]. unfold pool_get_work, st_get_work.
  destruct (negb _); [apply (within_le 0); [apply within_0|lia]|].
  destruct (now_s w) as [t w1] eqn:E1. apply within_now in E1. by destruct (work_at _ _ _).
Qed.
Lemma candidate_within c n h x w : within 2 w (on_candidate (ops b) c n h x w).2.
Proof using pool.
  rewrite pool. cbn [on_candidate pool_callbacks]. unfold pool_on_candidate. destruct (meet _ w) as [m w1] eqn:E. apply within_meet in E.
  destruct (st_on_candidate _ _ _ _ _) as [[[v y] wire]|]; cbn [snd]; [|by eapply within_le].
  exact (within_trans 1 1 _ _ _ E (within_carry _ _ _)).
Qed.

(** The clock, as long as it has not wrapped. *)
Lemma now_reads w t w' :
  now_s w = (t, w') -> elapsed w' < 2 ^ 63 * 10 ^ 9 -> t = Uart.boot + elapsed w' / 10 ^ 9 /\ elapsed w <= elapsed w' <= elapsed w + tick.
Proof using Type.
  intros E Hw. pose proof (within_now _ _ _ E) as T. unfold within in T. pose proof (now_s_value w) as V. rewrite E in V. cbn [fst snd] in V.
  split; [|lia]. rewrite V. change 1000000000 with (10 ^ 9). apply u64_small. pose proof boot_range. pose proof (elapsed_start w).
  assert (0 <= elapsed w' / 10 ^ 9 < 2 ^ 63) by (split; [apply Z.div_pos; lia|apply Z.div_lt_upper_bound; lia]).
  assert (2 ^ 64 = 2 ^ 63 + 2 ^ 63) by done. assert (2 ^ 62 < 2 ^ 63) by done. unfold is_word. lia.
Qed.

(** A wait returns: one round takes 50 ms at least, and the deadline comes. *)
Lemma await_ends {A} fuel deadline (ask : sources -> W -> option A * sources * W) x w :
  (forall x w, within 1 w (ask x w).2) ->
  let stop := (deadline - Uart.boot) * 10 ^ 9 in
  (1 <= fuel)%nat -> stop - elapsed w <= (Z.of_nat fuel - 1) * 50000000 ->
  elapsed w < 2 ^ 63 * 10 ^ 9 - 10 ^ 15 -> stop < 2 ^ 62 * 10 ^ 9 ->
  exists a x' w', await fuel b deadline ask x w = Ok (a, x', w')
    /\ elapsed w <= elapsed w' <= Z.max (elapsed w) (stop + 8 * tick + 50000000) + tick.
Proof using pool.
  intros Hask stop. pose proof tick_range as (T1 & T2 & T3). assert (10 ^ 13 = 10000000000000) as H13 by done. rewrite H13 in T3.
  change (2 ^ 62 * 10 ^ 9) with 4611686018427387904000000000. change (2 ^ 63 * 10 ^ 9 - 10 ^ 15) with 9223372036853775808000000000. revert x w. induction fuel as [|fuel IH]; intros x w Hf Hm Hw Hs; [lia|].
  cbn [await]. destruct (now_s w) as [t w1] eqn:E1. pose proof (within_now _ _ _ E1) as Q1. unfold within in Q1.
  apply now_reads in E1 as [-> _]; [|change (2 ^ 63 * 10 ^ 9) with 9223372036854775808000000000; lia].
  destruct (Z.ltb_spec (Uart.boot + elapsed w1 / 10 ^ 9) deadline) as [Hlt|]; [|eexists _, x, w1; split; [reflexivity|lia]].
  assert (elapsed w1 < stop) as Hstop.
  { subst stop. pose proof (Z.mul_succ_div_gt (elapsed w1) (10 ^ 9) ltac:(done)). nia. }
  pose proof (poll_within x w1) as Q2. destruct (poll_source b x w1) as [x1 w2]. cbn [snd] in Q2.
  pose proof (Hask x1 w2) as Q3. destruct (ask x1 w2) as [[a x2] w3]. cbn [snd] in Q3.
  pose proof (within_trans _ _ _ _ _ Q2 Q3) as Q. unfold within in Q. destruct a as [a|]; [eexists _, _, _; split; [reflexivity|lia]|].
  pose proof (usleep_takes_time 50000 w3 ltac:(done)) as Q4.
  destruct (IH x2 (usleep 50000 w3)) as (a' & x' & w' & E & HE); [lia|lia|lia|done|].
  exists a', x', w'. split; [exact E|]. lia.
Qed.

Lemma grind_ends fuel o c stop n x w :
  0 <= n <= 2 ^ 40 -> 2 ^ 40 - n < Z.of_nat fuel ->
  exists r x' w', grind fuel o b c stop n x w = Ok (r, x', w') /\ within (3 * (2 ^ 40 - n)) w w'.
Proof using pool.
  revert n x w. induction fuel as [|fuel IH]; intros n x w Hn Hf; [lia|]. cbn [grind].
  destruct (Z.ltb_spec n (2 ^ 40)) as [Hlt|]; [|eexists _, x, w; split; [reflexivity|apply (within_le 0); [apply within_0|lia]]].
  set (word := match chain o with Sia => _ | Knots => _ end).
  pose proof (candidate_within c n word x w) as Q1. destruct (on_candidate (ops b) c n word x w) as [[v x1] w1]. cbn [snd] in Q1.
  destruct (v =? WORKSRC_CAND_SOLUTION); [eexists _, _, _; split; [reflexivity|apply (within_le 2); [done|lia]]|].
  assert (forall w2, within 3 w w2 ->
    exists r x' w', grind fuel o b c stop (n + 1) x1 w2 = Ok (r, x', w') /\ within (3 * (2 ^ 40 - n)) w w') as Hgo.
  { intros w2 Q2. destruct (IH (n + 1) x1 w2) as (r & x' & w' & E & Q); [lia|lia|]. exists r, x', w'. split; [exact E|].
    pose proof (within_trans _ _ _ _ _ Q2 Q) as Q3. by replace (3 * (2 ^ 40 - n)) with (3 + 3 * (2 ^ 40 - (n + 1))) by lia. }
  destruct (_ =? 0); [|apply Hgo; by apply (within_le 2)].
  destruct (now_s w1) as [t w2] eqn:E2. apply within_now in E2. pose proof (within_trans _ _ _ _ _ Q1 E2) as Q.
  destruct (stop <? t); [|by apply Hgo]. eexists _, _, _. split; [reflexivity|]. apply (within_le 3); [exact Q|lia].
Qed.

(** A wait of [d] seconds from now: about a quarter of an hour at most, exchanges
    included. *)
Lemma wait_ends {A} fuel d (ask : sources -> W -> option A * sources * W) x w t w1 :
  (forall x w, within 1 w (ask x w).2) -> now_s w = (t, w1) -> 0 <= d <= 120 -> (2500 <= fuel)%nat ->
  elapsed w < 2 ^ 61 * 10 ^ 9 + 10 ^ 26 ->
  exists a x' w', await fuel b (u64 (t + d)) ask x w1 = Ok (a, x', w') /\ elapsed w <= elapsed w' <= elapsed w + 10 ^ 15.
Proof using pool.
  intros Hask E Hd Hf Hw. pose proof tick_range as (T1 & T2 & T3). assert (10 ^ 13 = 10000000000000) as H13 by done. rewrite H13 in T3.
  change (2 ^ 61 * 10 ^ 9 + 10 ^ 26) with 2405843009213693952000000000 in Hw. change (10 ^ 15) with 1000000000000000.
  pose proof (within_now _ _ _ E) as Q. unfold within in Q. apply now_reads in E as [-> _];
    [|change (2 ^ 63 * 10 ^ 9) with 9223372036854775808000000000; lia].
  pose proof boot_range as Hb. pose proof (elapsed_start w1) as Hw1. pose proof (Z.mul_div_le (elapsed w1) (10 ^ 9) ltac:(done)) as Hm.
  assert (0 <= elapsed w1 / 10 ^ 9) by (by apply Z.div_pos). change (10 ^ 9) with 1000000000 in *. change (2 ^ 62) with 4611686018427387904 in Hb.
  rewrite u64_small by (unfold is_word; change (2 ^ 64) with 18446744073709551616; lia).
  destruct (await_ends fuel (Uart.boot + elapsed w1 / 1000000000 + d) ask x w1 Hask) as (a & x' & w' & E' & HE);
    change (2 ^ 62 * 10 ^ 9) with 4611686018427387904000000000 in *; change (10 ^ 9) with 1000000000 in *;
    change (2 ^ 63 * 1000000000 - 10 ^ 15) with 9223372036853775808000000000 in *; [lia..|].
  exists a, x', w'. split; [exact E'|]. lia.
Qed.

(** The four facts about a status that is known, in order. *)
Ltac verdict t :=
  split; [reflexivity|]; split; [intros E; first [discriminate E|reflexivity]|];
  split; [t|]; split; [intros E; first [discriminate E|assumption]|lia].

(** C35: The stratum probe ends, and its status is the pool's verdict. With a network
    whose calls return in bounded time, [--stratum-probe] returns for any pool, job and
    difficulty, within the fuel of its 2^40 nonces, long before the clock can wrap:
    status 2 without a pool, status 0 exactly when the source has counted an accepted
    share at the end, and after the wait for a verdict. *)
Theorem stratum_probe_ends o fuel x (w : W) :
  elapsed w < 2 ^ 61 * 10 ^ 9 -> (Z.to_nat (2 ^ 40) < fuel)%nat ->
  exists rc x' w', stratum_probe_flow fuel o b x w = Ok (rc, x', w')
  /\ (stratum_host o = None -> rc = 2)
  /\ (stratum_host o <> None -> rc = 0 \/ rc = 1)
  /\ (rc = 0 -> st_shares_accepted (worksrc_stratum_status (pooled x')) <> 0)
  /\ elapsed w' < 2 ^ 62 * 10 ^ 9.
Proof using pool patient.
  intros Hw Hf. assert (2 ^ 40 < Z.of_nat fuel) as Hf' by lia. clear Hf.
  assert (2500 <= fuel)%nat as Hf by (assert (2 ^ 40 = 1099511627776) by done; lia).
  pose proof tick_range as (_ & _ & T). assert (3 * (2 ^ 40 - 0) * tick <= 10 ^ 26 - 10 ^ 15 - 10 ^ 13) as Hg.
  { transitivity (3 * (2 ^ 40 - 0) * 10 ^ 13); [|by apply Z.leb_le]. by apply Z.mul_le_mono_nonneg_l. }
  assert (0 < 10 ^ 15) as P15 by done. assert (10 ^ 26 + 10 ^ 15 + 2 ^ 61 * 10 ^ 9 < 2 ^ 62 * 10 ^ 9) as H62 by done.
  assert (10 ^ 15 < 10 ^ 26) as H26 by done.
  unfold stratum_probe_flow. destruct (stratum_host o); [|exists 2, x, w; verdict ltac:(intros []; reflexivity)].
  destruct (now_s w) as [t w1] eqn:E1.
  destruct (wait_ends fuel 45 (get_work (ops b)) x w t w1 get_work_within E1) as (c & x1 & w2 & -> & B1); [lia..|].
  cbn [mbind res_bind]. destruct c as [c|]; [|exists 1, x1, w2; verdict ltac:(intros _; right; reflexivity)].
  destruct (now_s w2) as [t2 w3] eqn:E2. pose proof (within_now _ _ _ E2) as B2. unfold within in B2.
  destruct (grind_ends fuel o c (u64 (t2 + 120)) 0 x1 w3) as (r & x2 & w4 & -> & B3); [lia..|]. unfold within in B3.
  cbn [mbind res_bind]. destruct r as [r|]; [|exists 1, x2, w4; verdict ltac:(intros _; right; reflexivity)].
  destruct (now_s w4) as [t4 w5] eqn:E4.
  destruct (wait_ends fuel 30 verdict_in x2 w4 t4 w5) as (v & x3 & w6 & -> & B4); [|exact E4|lia..|].
  { intros y w0. unfold verdict_in. cbn [snd]. apply (within_le 0); [apply within_0|lia]. }
  cbn [mbind res_bind]. destruct (_ =? 0) eqn:Ea; cbn [negb]; [exists 1, x3, w6; verdict ltac:(intros _; right; reflexivity)|]. apply Z.eqb_neq in Ea. exists 0, x3, w6. verdict ltac:(intros _; left; reflexivity).
Qed.
End Ends.

(** A pool that cannot be reached, and a device that is idle. *)
Section Witness.
#[local] Existing Instance no_network.
#[local] Existing Instance no_node.
#[local] Instance no_network_patient : Patient Fifo.fifo.
Proof. refine {| exchange_bound := 0 |}; [done|intros; cbn [meet no_network snd]; lia|intros; cbn [carry no_network]; lia]. Defined.
Definition offline_source : @worksrc (callbacks sources Fifo.fifo) := g_backend_sia (pool_callbacks (fun _ => []) (fun _ => 0)).
Lemma stratum_probe_ends_witness :
  exists rc x' w', stratum_probe_flow (Z.to_nat (2 ^ 40 + 1)) siacoin_miner offline_source configured Fifo.idle = Ok (rc, x', w')
  /\ (rc = 0 \/ rc = 1) /\ (rc = 0 -> st_shares_accepted (worksrc_stratum_status (pooled x')) <> 0).
Proof.
  destruct (stratum_probe_ends (fun _ => []) (fun _ => 0) offline_source eq_refl siacoin_miner (Z.to_nat (2 ^ 40 + 1)) configured Fifo.idle)
    as (rc & x' & w' & E & _ & H1 & H0 & _); [by vm_compute|apply Z2Nat.inj_lt; lia|].
  exists rc, x', w'. split; [exact E|]. split; [apply H1; discriminate|exact H0].
Defined.
End Witness.
End Probe.
