(* ===== verification/Refine.v ===== *)
(** * The mining loop refines an abstract miner (src/miner/miner.c, main)

    The abstract miner knows nothing of registers, clocks and buffers: it sends items,
    loses and finds the frame boundary, and turns the bytes of the line into questions
    to the work source. Every number of passes of the loop is a run of it that accounts
    for every byte sent and every byte taken off the line. *)
From S2P Require Import Prelude WorkItem Worksrc Uart Framing Gbt Mining WorksrcStratum Miner.

Module Refine.
Import WorkItem Worksrc Uart Framing Mining.
Local Open Scope word_scope.

(** ** The abstract miner *)

(** A question to the source: the item it is about, the corrected nonce, the word. *)
Definition question : Type := work_ctx * Z * Z.
Record miner := Miner {
  current : work_ctx;            (* the last item that went out whole *)
  working : bool;                (* there was one *)
  aligned : bool;                (* the frame boundary is known *)
  partial : list Z;              (* bytes of the frame under assembly *)
  bad : Z;                       (* frames in a row without the flag *)
  asked : list question
}.
#[export] Instance miner_fields : Fields miner := fun m =>
  Miner (current m) (working m) (aligned m) (partial m) (bad m) (asked m).

(** One byte of the line, when the boundary is known. [off] is the pipeline's offset. *)
Definition complete (off : Z) (f : list Z) (m : miner) : miner :=
  if f !!! 0%nat =? 0x01 then
    let '(_, r) := parse_result f in
    m <| bad := 0 |> <| asked := asked m ++ [(current m, u64 (nonce r + u64 off), hash_top64 r)] |>
  else if 3 <=? bad m + 1 then m <| aligned := false |> <| bad := 0 |>
  else m <| bad := bad m + 1 |>.
Definition absorb (off : Z) (m : miner) (b : Z) : miner :=
  if aligned m then
    let f := partial m ++ [b] in
    if (length f =? RESULT_LEN)%nat then complete off f (m <| partial := [] |>) else m <| partial := f |>
  else m.

Inductive event :=
  | Push (next : work_ctx) (k : nat) (lost : list Z)   (* k bytes of the item went out *)
  | Framed (lost kept : list Z)
  | Unframed (lost : list Z)
  | Byte (b : Z).

(** [len] is the length of an item. *)
Inductive step (off : Z) (len : nat) (m : miner) : event -> miner -> Prop :=
  | push_whole next lost :
      step off len m (Push next len lost)
        (m <| current := next |> <| working := true |> <| aligned := false |> <| partial := [] |>)
  | push_cut next k lost : (k < len)%nat -> step off len m (Push next k lost) m
  | framed lost kept :
      working m = true -> aligned m = false -> (length kept <= 8 * RESULT_LEN)%nat ->
      step off len m (Framed lost kept)
        (foldl (absorb off) (m <| aligned := true |> <| partial := [] |>) (drop (length kept mod RESULT_LEN) kept))
  | unframed lost :
      working m = true -> aligned m = false -> step off len m (Unframed lost) (m <| partial := [] |>)
  | byte b : aligned m = true -> step off len m (Byte b) (absorb off m b).

Inductive run (off : Z) (len : nat) (m : miner) : list event -> miner -> Prop :=
  | run_nil : run off len m [] m
  | run_snoc tr e m1 m2 : run off len m tr m1 -> step off len m1 e m2 -> run off len m (tr ++ [e]) m2.

(** The bytes an event takes off the line. *)
Definition consumed (e : event) : list Z :=
  match e with
  | Push _ _ lost | Unframed lost => lost
  | Framed lost kept => lost ++ kept
  | Byte b => [b]
  end.

Lemma run_app off len m tr m1 tr' m2 : run off len m tr m1 -> run off len m1 tr' m2 -> run off len m (tr ++ tr') m2.
Proof.
  intros H1. induction 1 as [|tr' e m2 m3 _ IH Hs]; [by rewrite app_nil_r|]. rewrite app_assoc. by econstructor.
Qed.
Lemma run_one off len m e m' : step off len m e m' -> run off len m [e] m'.
Proof. intros H. apply (run_snoc _ _ _ [] e m m'); [constructor|done]. Qed.

(** A run only asks about items that went out whole in it. *)
Definition went_out (len : nat) (tr : list event) (c : work_ctx) : Prop := exists lost, Push c len lost ∈ tr.
Definition honest (len : nat) (tr : list event) (m : miner) : Prop :=
  (aligned m = true -> working m = true) /\ (working m = true -> went_out len tr (current m))
  /\ Forall (fun q => went_out len tr q.1.1) (asked m).

Lemma went_out_more len tr e c : went_out len tr c -> went_out len (tr ++ [e]) c.
Proof. intros [lost H]. exists lost. apply elem_of_app. by left. Qed.
Lemma honest_more len tr e m : honest len tr m -> honest len (tr ++ [e]) m.
Proof.
  intros (H1 & H2 & H3). split_and!; [done|intros Hw; by apply went_out_more, H2|].
  eapply Forall_impl; [exact H3|]. intros q. apply went_out_more.
Qed.
Lemma absorb_honest off len tr m b : honest len tr m -> honest len tr (absorb off m b).
Proof.
  intros H0. unfold absorb. destruct (aligned m) eqn:Ha; [|done]. pose proof H0 as (H1 & H2 & H3).
  destruct (_ =? _)%nat; [|exact H0]. unfold complete. destruct (_ =? 0x01); [|by destruct (3 <=? _)].
  destruct (parse_result _) as [rc r]. split_and!; [exact H1|exact H2|]. cbn [asked update miner_fields].
  apply Forall_app. split; [done|]. apply Forall_singleton. by apply H2, H1.
Qed.
Lemma run_honest off len m tr m' : run off len m tr m' -> honest len [] m -> honest len tr m'.
Proof.
  intros R Hm. induction R as [|tr e m1 m2 R IH Hs]; [done|].
  pose proof (honest_more len tr e m1 IH) as H1. destruct Hs as [next lost|next k lost Hk|lost kept Hw Ha Hl|lost Hw Ha|b Ha].
  - destruct H1 as (_ & _ & H3). split_and!; [done| |exact H3]. intros _. exists lost. apply elem_of_app. right. by left.
  - done.
  - assert (honest len (tr ++ [Framed lost kept]) (m1 <| aligned := true |> <| partial := [] |>)) as H2 by by destruct H1.
    revert H2. generalize (m1 <| aligned := true |> <| partial := [] |>). induction (drop _ kept) as [|b bs IHb]; intros m0 H0; [done|].
    by apply IHb, absorb_honest.
  - destruct H1 as (_ & H2 & H3). split_and!; [|done|done]. cbn. by rewrite Ha.
  - by apply absorb_honest.
Qed.

(** A frame of the line is one question. *)
Lemma absorb_part off bs m :
  aligned m = true -> (length (partial m ++ bs) < RESULT_LEN)%nat ->
  foldl (absorb off) m bs = m <| partial := partial m ++ bs |>.
Proof.
  revert m. induction bs as [|b bs IH]; intros m Ha Hl; cbn [foldl]; [rewrite app_nil_r; by destruct m|].
  rewrite length_app in Hl. cbn [length] in Hl. unfold absorb at 2. rewrite Ha, (proj2 (Nat.eqb_neq _ _)) by (rewrite length_app; cbn; lia).
  rewrite IH; [cbn; by rewrite <- app_assoc|done|]. cbn [partial update miner_fields]. rewrite !length_app. cbn. lia.
Qed.
Lemma absorb_frame off m f :
  is_frame f -> aligned m = true -> partial m = [] ->
  foldl (absorb off) m f
  = m <| bad := 0 |> <| asked := asked m ++ [(current m, u64 (nonce (parse_result f).2 + u64 off), hash_top64 (parse_result f).2)] |>.
Proof.
  intros [Hl Hf] Ha Hp. destruct f as [|b f _] using rev_ind; [discriminate Hl|]. rewrite length_app in Hl. cbn [length] in Hl.
  assert (length (partial m ++ f) < RESULT_LEN)%nat as Hlt by (rewrite Hp; cbn [app]; unfold RESULT_LEN in *; lia).
  rewrite foldl_app, (absorb_part off f m Ha Hlt). cbn [foldl]. unfold absorb. cbn [aligned partial update miner_fields].
  rewrite Ha, Hp. cbn [app]. rewrite (proj2 (Nat.eqb_eq _ _)) by (rewrite length_app; cbn [length]; lia).
  unfold complete. rewrite Hf. cbn [Z.eqb]. destruct (parse_result _) as [rc r]. destruct m. cbn in *. by subst.
Qed.

(** ** The source's side of the seam *)

(** A source that stays off the UART. *)
Class Bystander {S W} `{Uartlite W} (source : @worksrc (callbacks S W)) : Prop := {
  get_work_sent x w : sent (get_work (ops source) x w).2 = sent w;
  poll_sent p t x w : poll (ops source) = Some p -> sent (p t x w).2 = sent w;
  candidate_sent c n h x w : sent (on_candidate (ops source) c n h x w).2 = sent w;
  get_work_received x w : received (get_work (ops source) x w).2 = received w;
  poll_received p t x w : poll (ops source) = Some p -> received (p t x w).2 = received w;
  candidate_received c n h x w : received (on_candidate (ops source) c n h x w).2 = received w
}.

(** The same source, with a record of the questions. *)
Definition watched {S W} (source : @worksrc (callbacks S W)) : @worksrc (callbacks (S * list question) W) :=
  WorkSrc (name source)
    (Callbacks
      (fun x w => let '(next, s, w) := get_work (ops source) x.1 w in (next, (s, x.2), w))
      ((fun p t x w => let '(s, w) := p t x.1 w in ((s, x.2), w)) <$> poll (ops source))
      (fun c n h x w => let '(v, s, w) := on_candidate (ops source) c n h x.1 w in (v, (s, x.2 ++ [(c, n, h)]), w)))
    (refresh_s source) (item_len source).
Definition lift {S} (l : loop S) (q : list question) : loop (S * list question) :=
  Loop (ctx l) (frame l) (syncbuf l) (syncpos l) (synced l) (bad_run l) (last_template l) (last_status l)
    (have_work l) (dev l) (st l) (src l, q).

(** ** Watching changes nothing *)
Section Erase.
Context {S W : Type} `{World W} (source : @worksrc (callbacks S W)) (word_name : list Z).

Lemma feed_lift b l q w l' w' :
  feed source word_name b l w = (l', w') -> exists q', feed (watched source) word_name b (lift l q) w = (lift l' q', w').
Proof.
  unfold feed. cbn [frame lift]. destruct (_ =? _)%nat; [|intros [= <- <-]; by exists q]. unfold on_frame.
  destruct (parse_result _) as [rc r]. cbn [st bad_run lift update loop_fields ctx src].
  destruct (negb _); [destruct (_ <=? _); intros [= <- <-]; by exists q|].
  destruct (now_s w) as [t w1]. cbn [nonce_offset ctx src st update loop_fields stats_fields watched ops on_candidate fst snd].
  destruct (on_candidate (ops source) _ _ _ _ _) as [[v x] w2]. intros [= <- <-]. by eexists.
Qed.
Lemma drain_lift fuel l q w l' w' :
  drain source word_name fuel l w = Ok (l', w') ->
  exists q', drain (watched source) word_name fuel (lift l q) w = Ok (lift l' q', w').
Proof.
  revert l q w. induction fuel as [|fuel IH]; intros l q w; [done|]. cbn [drain].
  change (synced (lift l q)) with (synced l). destruct (negb _); [intros [= <- <-]; by exists q|].
  change (syncpos (lift l q)) with (syncpos l). change (syncbuf (lift l q)) with (syncbuf l).
  assert (forall b l0 w0,
    (let '(l1, w1) := feed source word_name b l0 w0 in drain source word_name fuel l1 w1) = Ok (l', w') ->
    exists q', (let '(l1, w1) := feed (watched source) word_name b (lift l0 q) w0 in
                drain (watched source) word_name fuel l1 w1) = Ok (lift l' q', w')) as Hstep.
  { intros b l0 w0. destruct (feed source word_name b l0 w0) as [l1 w1] eqn:E. apply (feed_lift b l0 q) in E as [q1 ->].
    apply IH. }
  destruct (_ <? _)%nat; [apply Hstep|]. change (dev (lift l q)) with (dev l).
  destruct (uart_get_nb (dev l) w) as [[b u] w1]. destruct b as [b|]; [apply Hstep|]. intros [= <- <-]. by exists q.
Qed.
Lemma push_work_lift fuel next item (l : loop S) q w l' w' :
  push_work fuel next item l w = Ok (l', w') -> push_work fuel next item (lift l q) w = Ok (lift l' q, w').
Proof.
  unfold push_work. change (dev (lift l q)) with (dev l).
  destruct (uart_wait_quiet _ _ _ _ _) as [[[a u] w1]|]; cbn [fuelled from_option mbind res_bind]; [|done].
  destruct (uart_write _ _ _ _ _) as [[[[] u1] w2]|]; cbn [fuelled from_option mbind res_bind]; [| |done].
  - destruct (uart_drain_tx _ _ _) as [[d w3]|]; cbn [fuelled from_option mbind res_bind]; [|done]. by intros [= <- <-].
  - by intros [= <- <-].
Qed.
Lemma refresh_lift fuel t l q w b l' w' :
  refresh source fuel t l w = Ok (b, l', w') -> refresh (watched source) fuel t (lift l q) w = Ok (b, lift l' q, w').
Proof.
  unfold refresh. change (have_work (lift l q)) with (have_work l). change (last_template (lift l q)) with (last_template l).
  cbn [refresh_s watched ops get_work src lift fst snd]. destruct (_ || _); [|by intros [= <- <- <-]].
  destruct (get_work _ _ _) as [[next x] w1]. destruct next as [next|]; [|by intros [= <- <- <-]].
  cbn [item_len watched]. destruct (worksrc_pack_item _ _) as [out n]. destruct (n =? 0)%nat; [by intros [= <- <- <-]|].
  destruct (push_work fuel next (take n out) (l <| src := x |>) w1) as [[l1 w2]| |] eqn:E; [|done..].
  apply (push_work_lift _ _ _ _ q) in E. cbn [mbind res_bind]. intros [= <- <- <-].
  match goal with |- context [push_work _ _ _ ?y _] => change y with (lift (l <| src := x |>) q) end. by rewrite E.
Qed.
Lemma resync_lift fuel (l : loop S) q w l' w' :
  resync fuel l w = Ok (l', w') -> resync fuel (lift l q) w = Ok (lift l' q, w').
Proof.
  unfold resync. change (synced (lift l q)) with (synced l). change (have_work (lift l q)) with (have_work l).
  change (dev (lift l q)) with (dev l). change (st (lift l q)) with (st l).
  destruct (_ && _); [|by intros [= <- <-]].
  destruct (frame_sync _ _ _ _ _ _ _) as [[[[[rc out] u] f] w1]| |]; cbn [mbind res_bind]; [|done..].
  destruct (rc =? 0); by intros [= <- <-].
Qed.
Lemma pass_lift fuel l q w l' w' :
  pass source word_name fuel l w = Ok (l', w') ->
  exists q', pass (watched source) word_name fuel (lift l q) w = Ok (lift l' q', w').
Proof.
  unfold pass. destruct (now_s w) as [t w1]. cbn [watched ops poll src lift].
  set (polled := match poll _ with Some _ => _ | None => _ end). set (polled' := match _ <$> _ with Some _ => _ | None => _ end).
  assert (polled' = (lift polled.1 q, polled.2)) as ->.
  { subst polled polled'. destruct (poll (ops source)) as [p|]; [|done]. cbn. by destruct (p t (src l) w1). }
  destruct polled as [l0 w0]. cbn [fst snd].
  destruct (refresh source _ _ _ _) as [[[b l1] w2]| |] eqn:E1; [|done..]. apply (refresh_lift _ _ _ q) in E1 as ->.
  cbn [mbind res_bind]. destruct b; [intros [= <- <-]; by exists q|].
  destruct (resync _ l1 w2) as [[l2 w3]| |] eqn:E2; [|done..]. apply (resync_lift _ _ q) in E2 as ->. cbn [mbind res_bind].
  destruct (drain source _ _ _ _) as [[l3 w4]| |] eqn:E3; [|done..]. apply (drain_lift _ _ q) in E3 as [q' ->].
  cbn [mbind res_bind]. change (last_status (lift l3 q')) with (last_status l3). intros [= <- <-]. exists q'.
  by destruct (_ <=? _).
Qed.
Lemma passes_lift n fuel l q w l' w' :
  passes source word_name n fuel l w = Ok (l', w') ->
  exists q', passes (watched source) word_name n fuel (lift l q) w = Ok (lift l' q', w').
Proof.
  revert l q w. induction n as [|n IH]; intros l q w; cbn [passes]; [intros [= <- <-]; by exists q|].
  destruct (pass source _ _ _ _) as [[l1 w1]| |] eqn:E; [|done..]. apply (pass_lift _ _ q) in E as [q1 ->]. apply IH.
Qed.
End Erase.

(** ** The simulation *)
Section Simulate.
Context {S W : Type} `{device : Uartlite W} (source : @worksrc (callbacks S W)) (word_name : list Z).
Context `{bystander : !Bystander source}.
Abbreviation watching := (loop (S * list question)).

(** What the abstract miner sees of the loop. *)
Definition view (l : watching) : miner :=
  Miner (ctx l) (have_work l) (synced l) (frame l) (bad_run l) (src l).2.
Definition tidy (off : Z) (l : watching) : Prop := (length (frame l) < RESULT_LEN)%nat /\ nonce_offset (st l) = off.
(** Nothing is left to replay. *)
Definition settled (l : watching) : Prop := synced l = true -> (length (syncbuf l) <= syncpos l)%nat.
(** The miner once the bytes to replay are seen. *)
Definition replayed (off : Z) (l : watching) : miner := foldl (absorb off) (view l) (drop (syncpos l) (syncbuf l)).

Lemma absorb_unaligned off m bs : aligned m = false -> foldl (absorb off) m bs = m.
Proof. intros Ha. induction bs as [|b bs IH]; [done|]. cbn [foldl]. unfold absorb at 2. by rewrite Ha. Qed.
Lemma replayed_settled off l : settled l -> replayed off l = view l.
Proof.
  intros Hs. unfold replayed. destruct (synced l) eqn:E; [by rewrite drop_ge by by apply Hs|].
  by apply absorb_unaligned.
Qed.

(** The bytes an event sends. *)
Definition emitted (e : event) : list Z := if e is Push next k _ then take k (wire_item source next) else [].

(** One turn of the concrete loop: the events, the bytes taken and the bytes sent. *)
Definition turn (off : Z) (m : miner) (l : watching) (w : W) (m' : miner) (l' : watching) (w' : W) : Prop :=
  tidy off l' /\ exists tr, run off (item_len source) m tr m'
  /\ taken (dev l') w' = taken (dev l) w ++ concat (consumed <$> tr)
  /\ sent w' = sent w ++ concat (emitted <$> tr)
  /\ Forall (fun e => if e is Push next _ _ then length (wire_item source next) = item_len source else True) tr.
Lemma turn_none off m l w l' w' :
  tidy off l' -> taken (dev l') w' = taken (dev l) w -> sent w' = sent w -> turn off m l w m l' w'.
Proof.
  intros Ht K E. split; [done|]. exists []. split_and!; [constructor|by rewrite app_nil_r|by rewrite app_nil_r|done].
Qed.
Lemma turn_trans off m1 l1 w1 m2 l2 w2 m3 l3 w3 :
  turn off m1 l1 w1 m2 l2 w2 -> turn off m2 l2 w2 m3 l3 w3 -> turn off m1 l1 w1 m3 l3 w3.
Proof.
  intros [_ (tr & A1 & A2 & A3 & A4)] [Ht (tr' & B1 & B2 & B3 & B4)]. split; [done|]. exists (tr ++ tr').
  split_and!; [by eapply run_app| | |by apply Forall_app].
  - by rewrite B2, A2, fmap_app, concat_app, app_assoc.
  - by rewrite B3, A3, fmap_app, concat_app, app_assoc.
Qed.
Lemma turn_event off m l w e m' l' w' :
  step off (item_len source) m e m' -> tidy off l' -> taken (dev l') w' = taken (dev l) w ++ consumed e ->
  sent w' = sent w ++ emitted e ->
  (if e is Push next _ _ then length (wire_item source next) = item_len source else True) ->
  turn off m l w m' l' w'.
Proof.
  intros Hs Ht K E Hl. split; [done|]. exists [e]. cbn. rewrite !app_nil_r.
  split_and!; [by apply run_one|done|done|by apply Forall_singleton].
Qed.

Lemma feed_absorbs off b l w l' w' :
  feed (watched source) word_name b l w = (l', w') -> tidy off l -> synced l = true ->
  view l' = absorb off (view l) b /\ tidy off l' /\ dev l' = dev l /\ syncbuf l' = syncbuf l /\ syncpos l' = syncpos l
  /\ sent w' = sent w /\ forall u, taken u w' = taken u w.
Proof using bystander.
  unfold feed. intros E [Hl Ho] Hs. unfold absorb, view, tidy. cbn [aligned partial]. rewrite Hs.
  destruct (Nat.eqb_spec (length (frame l ++ [b])) RESULT_LEN) as [He|He].
  2:{ injection E as <- <-. rewrite length_app in *. cbn [length] in *. split_and!; try done; cbn; [by rewrite Hs|].
      rewrite length_app. cbn [length]. lia. }
  assert (0 < RESULT_LEN)%nat by (unfold RESULT_LEN; lia). revert E. unfold on_frame, complete.
  destruct (parse_result (frame l ++ [b])) as [rc r] eqn:Er. cbn [st bad_run ctx src update loop_fields bad current asked miner_fields].
  assert (rc = if (frame l ++ [b]) !!! 0%nat =? 0x01 then 0 else -1) as ->.
  { revert Er. unfold parse_result. destruct (_ =? 1); by intros [= <- _]. }
  destruct ((frame l ++ [b]) !!! 0%nat =? 0x01); cbn [Z.eqb negb].
  2:{ destruct (_ <=? _); intros [= <- <-]; by rewrite <- ?Hs. }
  pose proof (now_s_keeps_sent w) as S1. pose proof (now_s_keeps_received w) as R1. destruct (now_s w) as [t w1]. cbn [snd] in S1, R1.
  cbn [nonce_offset update stats_fields watched ops on_candidate]. rewrite Ho.
  pose proof (candidate_sent (ctx l) (u64 (nonce r + u64 off)) (hash_top64 r) (src l).1 w1) as S2.
  pose proof (candidate_received (ctx l) (u64 (nonce r + u64 off)) (hash_top64 r) (src l).1 w1) as R2.
  destruct (on_candidate (ops source) _ _ _ _ _) as [[v x] w2]. cbn [snd] in S2, R2. intros [= <- <-].
  split_and!; try done; cbn [view synced have_work frame bad_run ctx src st update loop_fields snd]; [by rewrite Hs| |congruence|].
  - by destruct (v =? _).
  - intros u. unfold taken. by rewrite R2, R1.
Qed.

Lemma drain_turn off fuel l w l' w' :
  drain (watched source) word_name fuel l w = Ok (l', w') -> tidy off l ->
  settled l' /\ turn off (replayed off l) l w (view l') l' w'.
Proof using bystander.
  revert l w. induction fuel as [|fuel IH]; intros l w; [done|]. cbn [drain].
  destruct (synced l) eqn:Hs; cbn [negb]; cycle 1.
  { intros [= <- <-] Ht. assert (settled l) as Hd by (intros ?; congruence). split; [done|].
    rewrite replayed_settled by done. by apply turn_none. }
  assert (forall b l0 w0,
    (let '(l1, w1) := feed (watched source) word_name b l0 w0 in drain (watched source) word_name fuel l1 w1) = Ok (l', w') ->
    tidy off l0 -> synced l0 = true -> settled l' /\
    turn off (foldl (absorb off) (absorb off (view l0) b) (drop (syncpos l0) (syncbuf l0))) l0 w0 (view l') l' w') as Hstep.
  { intros b l0 w0 Hd Ht0 Hs0. destruct (feed _ _ b l0 w0) as [l1 w1] eqn:E.
    apply (feed_absorbs off) in E as (Hv & Ht1 & Hdev & Hbuf & Hpos & E1 & K1); [|done..].
    destruct (IH l1 w1 Hd Ht1) as [Hset [Ht' (tr & T1 & T2 & T3 & T4)]]. split; [done|]. split; [done|].
    unfold replayed in T1. rewrite Hv, Hbuf, Hpos in T1. exists tr. by rewrite T2, T3, Hdev, K1, E1. }
  destruct (Nat.ltb_spec (syncpos l) (length (syncbuf l))) as [Hb|Hb].
  - intros Hd Ht. apply Hstep in Hd as [Hset Hd]; [|done..]. split; [done|]. unfold replayed.
    rewrite (drop_S (syncbuf l) (syncbuf l !!! syncpos l)) by by apply list_lookup_lookup_total_lt.
    cbn [foldl]. cbn [syncpos syncbuf update loop_fields] in Hd. rewrite Nat.add_1_r in Hd. exact Hd.
  - destruct (uart_get_nb (dev l) w) as [[b u] w1] eqn:Eg. pose proof (get_sent _ _ _ _ _ Eg) as E1. apply get_nb_taken in Eg.
    intros Hd Ht. unfold replayed. rewrite drop_ge by done. cbn [foldl]. destruct b as [b|]; cbn [option_list] in Eg.
    + apply Hstep in Hd as [Hset Hd]; [|done..]. split; [done|].
      cbn [syncpos syncbuf update loop_fields] in Hd. rewrite drop_ge in Hd by done. cbn [foldl] in Hd.
      apply (turn_trans _ _ _ _ (absorb off (view l) b) (l <| dev := u |>) w1); [|exact Hd].
      apply (turn_event _ _ _ _ (Byte b)); [by constructor|done|done|by rewrite app_nil_r|done].
    + injection Hd as <- <-. split; [by intros _|]. apply turn_none; [done| |done]. by rewrite app_nil_r in Eg.
Qed.

Lemma resync_turn off fuel l w l' w' :
  resync fuel l w = Ok (l', w') -> tidy off l -> settled l -> turn off (view l) l w (replayed off l') l' w'.
Proof using bystander.
  unfold resync. destruct (synced l) eqn:Hs; cbn [negb andb].
  { intros [= <- <-] Ht Hd. rewrite replayed_settled by done. by apply turn_none. }
  destruct (have_work l) eqn:Hw; cycle 1.
  { intros [= <- <-] Ht Hd. rewrite replayed_settled by done. by apply turn_none. }
  destruct (frame_sync _ _ _ _ _ _ _) as [[[[[rc out] u] f] w1]| |] eqn:E; [|done..].
  pose proof (frame_sync_sent _ _ _ _ _ _ _ _ E) as E1. cbn [snd] in E1.
  apply frame_sync_taken in E as (Hl & lost & K). cbn [mbind res_bind].
  replace (length out - length out / RESULT_LEN * RESULT_LEN)%nat with (length out mod RESULT_LEN)%nat
    by (pose proof (Nat.div_mod_eq (length out) RESULT_LEN); lia).
  remember (length out mod RESULT_LEN)%nat as pos eqn:Hpos. intros E [_ Ho] _.
  assert (0 < RESULT_LEN)%nat by (unfold RESULT_LEN; lia).
  destruct (rc =? 0); injection E as <- <-.
  - apply (turn_event _ _ _ _ (Framed lost out)); [|done|done|by rewrite app_nil_r|done].
    unfold replayed. cbn [syncpos syncbuf update loop_fields]. rewrite Hpos.
    refine (framed off (item_len source) (view l) lost out Hw Hs _). by rewrite Nat.mul_comm.
  - rewrite replayed_settled; [|intros E2; cbn in E2; congruence].
    apply (turn_event _ _ _ _ (Unframed (lost ++ out))); [|done|done|by rewrite app_nil_r|done].
    exact (unframed off (item_len source) (view l) (lost ++ out) Hw Hs).
Qed.

Lemma push_work_turn off fuel next l w l' w' :
  (worksrc_pack_item next (item_len source)).2 <> 0%nat -> tidy off l -> settled l ->
  push_work fuel next (wire_item source next) l w = Ok (l', w') -> settled l' /\ turn off (view l) l w (view l') l' w'.
Proof using bystander.
  intros H0 [Hf Ho] Hd. pose proof (pack_length source next H0) as Hl. unfold push_work.
  destruct (uart_wait_quiet _ _ _ _ _) as [[[q u] w1]|] eqn:E1; [|done].
  pose proof (wait_quiet_sent _ _ _ _ _ _ E1) as S1. apply wait_quiet_taken in E1 as [lost K1].
  cbn [fuelled from_option mbind res_bind snd] in *.
  destruct (uart_write _ _ _ _ _) as [[[ok u1] w2]|] eqn:E2; [|done].
  pose proof (uart_write_taken _ _ _ _ _ _ _ _ E2) as K2. apply uart_write_sent in E2 as (k & S2 & Hk).
  cbn [fuelled from_option mbind res_bind]. rewrite Hl in Hk. rewrite K1 in K2. rewrite S1 in S2.
  assert (0 < RESULT_LEN)%nat by (unfold RESULT_LEN; lia). destruct ok.
  - destruct (uart_drain_tx fuel 500000 w2) as [[d w3]|] eqn:E3; [|done].
    pose proof (drain_tx_taken _ _ _ _ u1 E3) as K3. apply drain_tx_sent in E3. cbn [snd fuelled from_option mbind res_bind] in *.
    intros [= <- <-]. split; [done|]. subst k.
    apply (turn_event _ _ _ _ (Push next (item_len source) lost)); [apply push_whole|done| |unfold emitted; congruence|done].
    cbn [dev update loop_fields consumed]. congruence.
  - intros [= <- <-]. split; [exact Hd|].
    by apply (turn_event _ _ _ _ (Push next k lost)); [apply push_cut|..].
Qed.
Lemma refresh_turn off fuel t l w b l' w' :
  refresh (watched source) fuel t l w = Ok (b, l', w') -> tidy off l -> settled l ->
  settled l' /\ turn off (view l) l w (view l') l' w'.
Proof using bystander.
  unfold refresh. intros E Ht Hd. revert E. destruct (_ || _); [|intros [= <- <- <-]; split; [done|by apply turn_none]].
  cbn [ops get_work watched].
  pose proof (get_work_sent (src l).1 w) as S1. pose proof (get_work_received (src l).1 w) as R1.
  destruct (get_work (ops source) _ _) as [[next x] w1]. cbn [snd] in S1, R1.
  assert (forall u, taken u w1 = taken u w) as K1 by (intros u; unfold taken; by rewrite R1).
  destruct next as [next|]; [|intros [= <- <- <-]; split; [done|by apply turn_none]].
  pose proof (push_work_turn off fuel next (l <| src := (x, (src l).2) |>) w1) as Hp. unfold wire_item in Hp at 1.
  cbn [item_len watched] in *. destruct (worksrc_pack_item next (item_len source)) as [out n]. cbn [snd] in Hp.
  destruct (Nat.eqb_spec n 0) as [_|Hn]; [intros [= <- <- <-]; split; [done|by apply turn_none]|].
  destruct (push_work _ _ _ _ _) as [[l1 w2]| |]; [|done..]. cbn [mbind res_bind]. intros [= <- <- <-].
  destruct (Hp l1 w2 Hn Ht Hd eq_refl) as [Hset P]. split; [exact Hset|].
  apply (turn_trans _ _ _ _ (view l) (l <| src := (x, (src l).2) |>) w1); [by apply turn_none|exact P].
Qed.

Lemma pass_turn off fuel l w l' w' :
  pass (watched source) word_name fuel l w = Ok (l', w') -> tidy off l -> settled l ->
  settled l' /\ turn off (view l) l w (view l') l' w'.
Proof using bystander.
  unfold pass. intros E Ht Hd. revert E.
  pose proof (now_s_keeps_sent w) as S1. pose proof (now_s_keeps_received w) as R1. destruct (now_s w) as [t w1]. cbn [snd] in S1, R1.
  set (polled := match poll _ with Some _ => _ | None => _ end).
  assert (settled polled.1 /\ tidy off polled.1 /\ turn off (view l) l w (view polled.1) polled.1 polled.2) as (D0 & T0 & P0).
  { subst polled. cbn [watched ops poll]. pose proof (fun p => poll_sent p t (src l).1 w1) as S2.
    pose proof (fun p => poll_received p t (src l).1 w1) as R2. destruct (poll (ops source)) as [p|]; cbn [option_fmap option_map fmap].
    - specialize (S2 p eq_refl). specialize (R2 p eq_refl). cbn beta.
      match goal with |- context [p ?a ?b ?c] => change (p a b c) with (p t (src l).1 w1) end.
      destruct (p t (src l).1 w1) as [x w2]. cbn [snd fst] in *.
      split; [done|]. split; [done|]. apply turn_none; [done|unfold taken; cbn; by rewrite R2, R1|cbn; congruence].
    - split; [done|]. split; [done|]. apply turn_none; [done|unfold taken; cbn; by rewrite R1|done]. }
  destruct polled as [l0 w0]. cbn [fst snd] in *.
  destruct (refresh _ _ _ _ _) as [[[b l1] w2]| |] eqn:E1; [|done..].
  apply (refresh_turn off) in E1 as [D1 P1]; [|done..]. pose proof (turn_trans _ _ _ _ _ _ _ _ _ _ P0 P1) as P.
  cbn [mbind res_bind]. destruct b; [by intros [= <- <-]|].
  destruct (resync _ _ _) as [[l2 w3]| |] eqn:E2; [|done..].
  apply (resync_turn off) in E2; [|apply P1|done]. pose proof (turn_trans _ _ _ _ _ _ _ _ _ _ P E2) as P2.
  cbn [mbind res_bind]. destruct (drain _ _ _ _ _) as [[l3 w4]| |] eqn:E3; [|done..].
  apply (drain_turn off) in E3 as [D3 P3]; [|apply E2]. pose proof (turn_trans _ _ _ _ _ _ _ _ _ _ P2 P3) as P4.
  cbn [mbind res_bind]. pose proof (usleep_keeps_sent 200 w4) as S4. intros [= <- <-].
  split; [by destruct (_ <=? _)|].
  apply (turn_trans _ _ _ _ (view l3) l3 w4); [exact P4|]. destruct (5 <=? _);
    (apply turn_none; [apply P3|apply usleep_taken|done]).
Qed.
Lemma passes_turn off n fuel l w l' w' :
  passes (watched source) word_name n fuel l w = Ok (l', w') -> tidy off l -> settled l ->
  settled l' /\ turn off (view l) l w (view l') l' w'.
Proof using bystander.
  revert l w. induction n as [|n IH]; intros l w; cbn [passes].
  { intros [= <- <-] Ht Hd. split; [done|]. by apply turn_none. }
  destruct (pass _ _ _ _ _) as [[l1 w1]| |] eqn:E; [|done..]. cbn [mbind res_bind]. intros E1 Ht Hd.
  apply (pass_turn off) in E as [D P]; [|done..]. destruct (IH _ _ E1 (proj1 P) D) as [D1 P1]. split; [done|].
  exact (turn_trans _ _ _ _ _ _ _ _ _ _ P P1).
Qed.

Lemma passes_refine n fuel (l : loop S) w l' w' :
  (length (frame l) < RESULT_LEN)%nat -> (synced l = true -> (length (syncbuf l) <= syncpos l)%nat) ->
  passes source word_name n fuel l w = Ok (l', w') ->
  exists q tr, passes (watched source) word_name n fuel (lift l []) w = Ok (lift l' q, w')
  /\ run (nonce_offset (st l)) (item_len source) (view (lift l [])) tr (view (lift l' q))
  /\ taken (dev l') w' = taken (dev l) w ++ concat (consumed <$> tr)
  /\ sent w' = sent w ++ concat (emitted <$> tr)
  /\ Forall (fun e => if e is Push next _ _ then length (wire_item source next) = item_len source else True) tr.
Proof using bystander.
  intros Hf Hs E. apply (passes_lift source word_name n fuel l []) in E as [q E].
  destruct (passes_turn (nonce_offset (st l)) n fuel (lift l []) w (lift l' q) w' E) as [_ [_ (tr & R1 & R2 & R3 & R4)]];
    [done|exact Hs|]. exists q, tr. split_and!; done.
Qed.
End Simulate.

(** ** The whole program *)
Section Program.
Import WorksrcStratum Miner.
Context {W : Type} `{aside : Aside W} (strerror : Z -> list Z) (undef : Cdouble.Cdouble.double -> Z).

#[local] Instance chosen_bystander o x b : choose strerror undef o (configure o x) = Some b -> Bystander b.
Proof using aside.
  intros E. destruct (chosen_is_quiet sent strerror undef o x b E) as (S1 & S2 & S3).
  destruct (chosen_is_quiet received strerror undef o x b E) as (R1 & R2 & R3). by split.
Qed.

(** C6: The program refines the abstract miner. Whatever the command line, and over any
    number of passes of the mining loop from its entry, there is a run of the abstract
    miner, started without an item and without a known frame boundary, that ends in the
    state the loop shows (the item candidates are checked against, the alignment, the
    bytes of the frame under assembly); whose pushes are the bytes the device was sent,
    in order; whose events take exactly the bytes the loop took off the line, none lost
    except before a boundary is found or while the line is awaited to be quiet before
    a push; and whose questions are exactly the calls of the work source, in order, with
    the item, the corrected nonce and the word of each: the run with the calls recorded
    ends in the same state. Every question is about an item that went out whole. *)
Theorem program_refines_miner o fuel opened x (w : W) u s x1 w1 b word_name n l' w' :
  start strerror undef fuel o opened x w = Ok (Mining u s, x1, w1) ->
  choose strerror undef o x1 = Some b ->
  passes b word_name n fuel (entered u s x1) w1 = Ok (l', w') ->
  exists tr m, run (nonce_offset s) (item_len b) (Miner (ctx (entered u s x1)) false false [] 0 []) tr m
  /\ passes (watched b) word_name n fuel (lift (entered u s x1) []) w1 = Ok (lift l' (asked m), w')
  /\ m = view (lift l' (asked m)) /\ Forall (fun q => went_out (item_len b) tr q.1.1) (asked m)
  /\ sent w' = sent w1 ++ concat (emitted b <$> tr)
  /\ taken (dev l') w' = taken u w1 ++ concat (consumed <$> tr).
Proof using aside.
  intros (_ & _ & -> & _)%start_boot Ec Hp. apply chosen_bystander in Ec as Hb.
  destruct (passes_refine b word_name n fuel (entered u s (configure o x)) w1 l' w') as (q & tr & E & R & K & E1 & _);
    [unfold RESULT_LEN; cbn; lia|done|exact Hp|].
  exists tr, (view (lift l' q)). split; [exact R|]. split; [exact E|].
  apply run_honest in R as (_ & _ & Hq); [|by split_and!]. by split.
Qed.
End Program.

(** The Siacoin run of [Miner]: four passes against a pool, one item sent. *)
Section Witness.
Import Miner.
#[local] Existing Instances pool_network no_node pool_aside.
Lemma program_refines_miner_witness :
  exists tr m, run 0 88 (Refine.Miner (ctx (entered idle_start.1.1 idle_start.1.2 configured)) false false [] 0 []) tr m
  /\ sent mined.2 = sent idle_start.2 ++ concat (emitted pool_source <$> tr).
Proof.
  destruct (program_refines_miner (fun _ => []) (fun _ => 0) siacoin_miner (Z.to_nat 4000) true no_sources Fifo.idle
    idle_start.1.1 idle_start.1.2 configured idle_start.2 pool_source (str "H[0]") 4 mined.1 mined.2
    idle_start_ok pool_choice_ok mined_ok) as (tr & m & R & _ & _ & _ & E & _).
  exists tr, m. split; [exact R|exact E].
Defined.
End Witness.
End Refine.
