(* ===== verification/Rfc8259.v ===== *)
(** * JSON texts (RFC 8259)

    The format status.json is meant to be in: concrete syntax, with the white space
    that was written, a reader that accepts the grammar of RFC 8259, and that it reads
    every well-formed text. String contents are kept as written, escapes included. *)
From S2P Require Import Prelude.

Module Rfc8259.

(** ** Tokens *)
Definition is_blank (c : Z) : bool := (c =? 32) || (c =? 9) || (c =? 10) || (c =? 13).
Fixpoint skip (p : list Z) : list Z :=
  match p with c :: q => if is_blank c then skip q else p | [] => [] end.

Definition is_digit (c : Z) : bool := (48 <=? c) && (c <=? 57).
Definition is_hex (c : Z) : bool :=
  is_digit c || ((65 <=? c) && (c <=? 70)) || ((97 <=? c) && (c <=? 102)).
Definition is_escape (c : Z) : bool := bool_decide (c ∈ [34; 92; 47; 98; 102; 110; 114; 116]).

(** After the opening quote: the characters and what follows the closing one. *)
Fixpoint string_tail (p : list Z) : option (list Z * list Z) :=
  match p with
  | [] => None
  | c :: q =>
    if c =? 34 then Some ([], q)
    else if c =? 92 then
      match q with
      | e :: q =>
        if is_escape e then '(s, r) ← string_tail q; Some (c :: e :: s, r)
        else if e =? 117 then
          match q with
          | h1 :: h2 :: h3 :: h4 :: q =>
            if is_hex h1 && is_hex h2 && is_hex h3 && is_hex h4
            then '(s, r) ← string_tail q; Some (c :: e :: h1 :: h2 :: h3 :: h4 :: s, r)
            else None
          | _ => None
          end
        else None
      | [] => None
      end
    else if c <? 32 then None
    else '(s, r) ← string_tail q; Some (c :: s, r)
  end.

Fixpoint skip_digits (p : list Z) : list Z :=
  match p with c :: q => if is_digit c then skip_digits q else p | [] => [] end.
Definition digits_then (k : list Z -> bool) (p : list Z) : bool :=
  match p with c :: q => is_digit c && k (skip_digits q) | [] => false end.
Definition is_exponent (p : list Z) : bool :=
  match p with
  | [] => true
  | c :: q =>
    ((c =? 101) || (c =? 69))
    && digits_then (fun r => if r is [] then true else false)
         (match q with d :: r => if (d =? 43) || (d =? 45) then r else q | [] => [] end)
  end.
Definition is_fraction (p : list Z) : bool :=
  match p with c :: q => if c =? 46 then digits_then is_exponent q else is_exponent p | [] => true end.
Definition is_natural (p : list Z) : bool :=
  match p with c :: q => if c =? 48 then is_fraction q else digits_then is_fraction p | [] => false end.
Definition is_number (t : list Z) : bool :=
  match t with c :: q => if c =? 45 then is_natural q else is_natural t | [] => false end.

Definition in_number (c : Z) : bool := is_digit c || bool_decide (c ∈ [43; 45; 46; 69; 101]).
Fixpoint span (p : list Z) : list Z * list Z :=
  match p with
  | c :: q => if in_number c then let '(t, r) := span q in (c :: t, r) else ([], p)
  | [] => ([], [])
  end.

(** ** Values *)
Inductive value :=
  | Null | Bool (b : bool) | Num (t : list Z) | Str (s : list Z)
  | Arr (l : list value) | Obj (l : list (list Z * value)).

(** The character after blanks, if it is [c]. *)
Definition eat (c : Z) (p : list Z) : option (list Z) :=
  match skip p with x :: q => if x =? c then Some q else None | [] => None end.

Fixpoint read_value (fuel : nat) (p : list Z) : option (value * list Z) :=
  match fuel with
  | O => None
  | S fuel =>
    match skip p with
    | [] => None
    | c :: q =>
      if c =? 34 then '(s, r) ← string_tail q; Some (Str s, r)
      else if c =? 91 then
        match eat 93 q with
        | Some r => Some (Arr [], r)
        | None => '(l, r) ← read_elements fuel q; Some (Arr l, r)
        end
      else if c =? 123 then
        match eat 125 q with
        | Some r => Some (Obj [], r)
        | None => '(l, r) ← read_members fuel q; Some (Obj l, r)
        end
      else if bool_decide (take 4 (c :: q) = str "true") then Some (Bool true, drop 4 (c :: q))
      else if bool_decide (take 5 (c :: q) = str "false") then Some (Bool false, drop 5 (c :: q))
      else if bool_decide (take 4 (c :: q) = str "null") then Some (Null, drop 4 (c :: q))
      else let '(t, r) := span (c :: q) in if is_number t then Some (Num t, r) else None
    end
  end
with read_elements (fuel : nat) (p : list Z) : option (list value * list Z) :=
  match fuel with
  | O => None
  | S fuel =>
    '(v, r) ← read_value fuel p;
    match eat 44 r with
    | Some r => '(l, r) ← read_elements fuel r; Some (v :: l, r)
    | None => r ← eat 93 r; Some ([v], r)
    end
  end
with read_members (fuel : nat) (p : list Z) : option (list (list Z * value) * list Z) :=
  match fuel with
  | O => None
  | S fuel =>
    q ← eat 34 p;
    '(k, r) ← string_tail q;
    r ← eat 58 r;
    '(v, r) ← read_value fuel r;
    match eat 44 r with
    | Some r => '(l, r) ← read_members fuel r; Some ((k, v) :: l, r)
    | None => r ← eat 125 r; Some ([(k, v)], r)
    end
  end.
(** A whole text. *)
Definition read (p : list Z) : option value :=
  '(v, r) ← read_value (S (length p)) p; if skip r is [] then Some v else None.

(** ** Concrete syntax *)
Inductive cst :=
  | CNull | CBool (b : bool) | CNum (t : list Z) | CStr (s : list Z)
  | CNoElement (w : list Z) | CArr (l : elements)
  | CNoMember (w : list Z) | CObj (l : members)
with elements :=
  | LastElement (w1 : list Z) (v : cst) (w2 : list Z)
  | MoreElements (w1 : list Z) (v : cst) (w2 : list Z) (l : elements)
with members :=
  | LastMember (w1 k w2 w3 : list Z) (v : cst) (w4 : list Z)
  | MoreMembers (w1 k w2 w3 : list Z) (v : cst) (w4 : list Z) (l : members).
Scheme cst_mutual := Induction for cst Sort Prop
  with elements_mutual := Induction for elements Sort Prop
  with members_mutual := Induction for members Sort Prop.
Combined Scheme cst_induction from cst_mutual, elements_mutual, members_mutual.

(** The text, before [r]. *)
Fixpoint render (c : cst) (r : list Z) : list Z :=
  match c with
  | CNull => str "null" ++ r
  | CBool b => str (if b then "true" else "false") ++ r
  | CNum t => t ++ r
  | CStr s => 34 :: s ++ 34 :: r
  | CNoElement w => 91 :: w ++ 93 :: r
  | CArr l => 91 :: render_elements l r
  | CNoMember w => 123 :: w ++ 125 :: r
  | CObj l => 123 :: render_members l r
  end
with render_elements (l : elements) (r : list Z) : list Z :=
  match l with
  | LastElement w1 v w2 => w1 ++ render v (w2 ++ 93 :: r)
  | MoreElements w1 v w2 l => w1 ++ render v (w2 ++ 44 :: render_elements l r)
  end
with render_members (l : members) (r : list Z) : list Z :=
  match l with
  | LastMember w1 k w2 w3 v w4 => w1 ++ 34 :: k ++ 34 :: w2 ++ 58 :: w3 ++ render v (w4 ++ 125 :: r)
  | MoreMembers w1 k w2 w3 v w4 l =>
    w1 ++ 34 :: k ++ 34 :: w2 ++ 58 :: w3 ++ render v (w4 ++ 44 :: render_members l r)
  end.

(** What it says. *)
Fixpoint meaning (c : cst) : value :=
  match c with
  | CNull => Null
  | CBool b => Bool b
  | CNum t => Num t
  | CStr s => Str s
  | CNoElement _ => Arr []
  | CArr l => Arr (meaning_elements l)
  | CNoMember _ => Obj []
  | CObj l => Obj (meaning_members l)
  end
with meaning_elements (l : elements) : list value :=
  match l with
  | LastElement _ v _ => [meaning v]
  | MoreElements _ v _ l => meaning v :: meaning_elements l
  end
with meaning_members (l : members) : list (list Z * value) :=
  match l with
  | LastMember _ k _ _ v _ => [(k, meaning v)]
  | MoreMembers _ k _ _ v _ l => (k, meaning v) :: meaning_members l
  end.

Definition blank (w : list Z) : Prop := Forall (fun c => is_blank c = true) w.
Definition characters (s : list Z) : Prop := string_tail (s ++ [34]) = Some (s, []).
Fixpoint wf (c : cst) : Prop :=
  match c with
  | CNull | CBool _ => True
  | CNum t => is_number t = true
  | CStr s => characters s
  | CNoElement w | CNoMember w => blank w
  | CArr l => wf_elements l
  | CObj l => wf_members l
  end
with wf_elements (l : elements) : Prop :=
  match l with
  | LastElement w1 v w2 => blank w1 /\ wf v /\ blank w2
  | MoreElements w1 v w2 l => blank w1 /\ wf v /\ blank w2 /\ wf_elements l
  end
with wf_members (l : members) : Prop :=
  match l with
  | LastMember w1 k w2 w3 v w4 => blank w1 /\ characters k /\ blank w2 /\ blank w3 /\ wf v /\ blank w4
  | MoreMembers w1 k w2 w3 v w4 l =>
    blank w1 /\ characters k /\ blank w2 /\ blank w3 /\ wf v /\ blank w4 /\ wf_members l
  end.

(** ** Tokens are read *)
Lemma skip_blank w r : blank w -> skip (w ++ r) = skip r.
Proof. induction 1 as [|c w Hc _ IH]; [done|]. cbn [skip app]. by rewrite Hc. Qed.
Lemma skip_stop c r : is_blank c = false -> skip (c :: r) = c :: r.
Proof. intros H. cbn [skip]. by rewrite H. Qed.
Lemma skip_to w c r : blank w -> is_blank c = false -> skip (w ++ c :: r) = c :: r.
Proof. intros Hw Hc. rewrite skip_blank by done. by apply skip_stop. Qed.
Lemma eat_this w c r : blank w -> is_blank c = false -> eat c (w ++ c :: r) = Some r.
Proof. intros Hw Hc. unfold eat. by rewrite skip_to, Z.eqb_refl by done. Qed.
Lemma eat_other w c d r : blank w -> is_blank d = false -> d <> c -> eat c (w ++ d :: r) = None.
Proof. intros Hw Hd Hc. unfold eat. by rewrite skip_to, (proj2 (Z.eqb_neq _ _) Hc) by done. Qed.

Lemma string_tail_app p s t r : string_tail p = Some (s, t) -> string_tail (p ++ r) = Some (s, t ++ r).
Proof.
  revert p s t. fix IH 1. intros [|c p] s t; [done|]. cbn [string_tail app].
  assert (forall (f : list Z -> list Z) p', (forall s t, string_tail p' = Some (s, t) -> string_tail (p' ++ r) = Some (s, t ++ r)) ->
    ('(s, r0) ← string_tail p'; Some (f s, r0)) = Some (s, t) ->
    ('(s, r0) ← string_tail (p' ++ r); Some (f s, r0)) = Some (s, t ++ r)) as Hf.
  { intros f p' Hp. destruct (string_tail p') as [[s' t']|]; cbn [mbind option_bind]; [|done].
    intros [= <- <-]. by rewrite (Hp s' t' eq_refl). }
  destruct (c =? 34); [by intros [= <- <-]|]. destruct (c =? 92).
  - destruct p as [|e p]; [done|]. cbn [app]. destruct (is_escape e); [apply (Hf (fun s => c :: e :: s)), IH|].
    destruct (e =? 117); [|done]. do 4 (destruct p as [|? p]; [done|]). cbn [app].
    destruct (_ && _); [|done]. match goal with |- context [c :: e :: ?a :: ?b :: ?d :: ?g :: _] =>
      apply (Hf (fun s => c :: e :: a :: b :: d :: g :: s)), IH end.
  - destruct (c <? 32); [done|]. apply (Hf (fun s => c :: s)), IH.
Qed.
Lemma string_tail_characters s r : characters s -> string_tail (s ++ 34 :: r) = Some (s, r).
Proof. intros H. apply (string_tail_app _ _ _ r) in H. by rewrite <- app_assoc in H. Qed.

(** Printable text without a quote or a backslash. *)
Definition printable (s : list Z) : Prop := Forall (fun c => 32 <= c /\ c <> 34 /\ c <> 92) s.
#[export] Instance printable_dec s : Decision (printable s).
Proof. unfold printable. apply _. Defined.
Lemma printable_characters s : printable s -> characters s.
Proof.
  unfold characters. induction 1 as [|c s (H1 & H2 & H3) _ IH]; [done|]. cbn [string_tail app].
  rewrite (proj2 (Z.eqb_neq _ _) H2), (proj2 (Z.eqb_neq _ _) H3), (proj2 (Z.ltb_ge _ _) H1), IH. done.
Qed.

Definition in_numbers (p : list Z) : Prop := Forall (fun c => in_number c = true) p.
Lemma in_number_digit c : is_digit c = true -> in_number c = true.
Proof. intros H. unfold in_number. by rewrite H. Qed.
Lemma in_numbers_digits p : in_numbers (skip_digits p) -> in_numbers p.
Proof.
  unfold in_numbers. induction p as [|c p IH]; [done|]. cbn [skip_digits]. destruct (is_digit c) eqn:E; [|done].
  intros H. apply Forall_cons. split; [by apply in_number_digit|by apply IH].
Qed.
Lemma in_numbers_then k p : (forall q, k q = true -> in_numbers q) -> digits_then k p = true -> in_numbers p.
Proof.
  intros Hk. destruct p as [|c p]; [done|]. cbn [digits_then]. intros [Hc Hp]%andb_prop.
  apply Forall_cons. split; [by apply in_number_digit|by apply in_numbers_digits, Hk].
Qed.
Lemma in_numbers_one c p : c ∈ [43; 45; 46; 69; 101] -> in_numbers p -> in_numbers (c :: p).
Proof.
  intros Hc Hp. apply Forall_cons. split; [|done]. unfold in_number. rewrite (bool_decide_eq_true_2 _ Hc). apply orb_true_r.
Qed.
Lemma exponent_chars p : is_exponent p = true -> in_numbers p.
Proof.
  destruct p as [|c p]; [by constructor|]. cbn [is_exponent]. intros [Hc Hp]%andb_prop.
  assert (forall p, digits_then (fun r => if r is [] then true else false) p = true -> in_numbers p) as Hd.
  { intros q. apply in_numbers_then. intros [|? ?]; [by constructor|done]. }
  apply in_numbers_one.
  - apply orb_true_iff in Hc as [->%Z.eqb_eq| ->%Z.eqb_eq]; by apply (bool_decide_unpack _).
  - destruct p as [|d p]; [done|]. destruct ((d =? 43) || (d =? 45)) eqn:Ed; [|by apply Hd].
    apply in_numbers_one; [|by apply Hd].
    apply orb_true_iff in Ed as [->%Z.eqb_eq| ->%Z.eqb_eq]; by apply (bool_decide_unpack _).
Qed.
Lemma fraction_chars p : is_fraction p = true -> in_numbers p.
Proof.
  destruct p as [|c p]; [by constructor|]. cbn [is_fraction]. destruct (Z.eqb_spec c 46) as [->|]; [|apply exponent_chars].
  intros H. apply in_numbers_one; [by apply (bool_decide_unpack _)|]. revert H. apply in_numbers_then, exponent_chars.
Qed.
Lemma natural_chars p : is_natural p = true -> in_numbers p.
Proof.
  destruct p as [|c p]; [done|]. cbn [is_natural]. destruct (Z.eqb_spec c 48) as [->|]; [|apply in_numbers_then, fraction_chars].
  intros H%fraction_chars. by apply Forall_cons.
Qed.
Lemma number_chars t : is_number t = true -> in_numbers t.
Proof.
  destruct t as [|c t]; [done|]. cbn [is_number]. destruct (Z.eqb_spec c 45) as [->|]; [|apply natural_chars].
  intros H%natural_chars. apply in_numbers_one; [by apply (bool_decide_unpack _)|done].
Qed.
(** What may follow a number without being part of it. *)
Definition delimited (r : list Z) : Prop := match r with [] => True | c :: _ => in_number c = false end.
Lemma span_number t r : is_number t = true -> delimited r -> span (t ++ r) = (t, r).
Proof.
  intros Ht%number_chars Hr. induction Ht as [|c t Hc _ IH].
  - destruct r as [|c r]; [done|]. cbn [span app]. by rewrite Hr.
  - cbn [span app]. by rewrite Hc, IH.
Qed.
Lemma number_start t : is_number t = true -> exists c q, t = c :: q /\ (c = 45 \/ is_digit c = true).
Proof.
  destruct t as [|c t]; [done|]. intros H. exists c, t. split; [done|]. revert H. cbn [is_number].
  destruct (Z.eqb_spec c 45); [by left|]. cbn [is_natural]. destruct (Z.eqb_spec c 48) as [->|]; [by right|].
  intros [H _]%andb_prop. by right.
Qed.

(** ** Every well-formed text is read *)
Lemma render_start c r :
  wf c -> exists x t, render c r = x :: t /\ is_blank x = false /\ x <> 93 /\ x <> 125.
Proof.
  destruct c as [|[]|t|s|w|l|w|l]; cbn [wf render]; intros H; try by eexists _, _.
  apply number_start in H as (x & q & -> & H). exists x, (q ++ r). split; [done|].
  destruct H as [->|H]; [done|]. unfold is_digit in H. unfold is_blank.
  apply andb_prop in H as [H1%Z.leb_le H2%Z.leb_le]. rewrite !(proj2 (Z.eqb_neq _ _)) by lia. split_and!; done || lia.
Qed.
Lemma render_elements_start l r : wf_elements l -> exists w x t, render_elements l r = w ++ x :: t /\ blank w /\ is_blank x = false /\ x <> 93.
Proof.
  destruct l as [w1 v w2|w1 v w2 l]; cbn [wf_elements render_elements]; [intros (Hw & Hv & _)|intros (Hw & Hv & _)];
    match goal with |- context [render v ?r'] => destruct (render_start v r' Hv) as (x & t & -> & H1 & H2 & _) end;
    by exists w1, x, t.
Qed.
Lemma render_members_start l r : wf_members l -> exists w t, render_members l r = w ++ 34 :: t /\ blank w.
Proof. destruct l; intros (Hw & _); eexists _, _; by split. Qed.

(** Fuel enough for a value. *)
Fixpoint size (c : cst) : nat :=
  match c with CArr l => S (size_elements l) | CObj l => S (size_members l) | _ => 1 end
with size_elements (l : elements) : nat :=
  match l with LastElement _ v _ => S (size v) | MoreElements _ v _ l => S (size v + size_elements l) end
with size_members (l : members) : nat :=
  match l with LastMember _ _ _ _ v _ => S (size v) | MoreMembers _ _ _ _ v _ l => S (size v + size_members l) end.

Lemma read_render_mutual :
  (forall c fuel w r, wf c -> (size c <= fuel)%nat -> blank w -> delimited r ->
    read_value fuel (w ++ render c r) = Some (meaning c, r))
  /\ (forall l fuel r, wf_elements l -> (size_elements l <= fuel)%nat ->
    read_elements fuel (render_elements l r) = Some (meaning_elements l, r))
  /\ (forall l fuel r, wf_members l -> (size_members l <= fuel)%nat ->
    read_members fuel (render_members l r) = Some (meaning_members l, r)).
Proof.
  assert (forall w c r, blank w -> is_blank c = false -> in_number c = false -> delimited (w ++ c :: r)) as Hd.
  { intros w c r Hw Hc Hn. destruct Hw as [|x w Hx _]; [done|]. cbn. unfold is_blank in Hx.
    repeat apply orb_true_iff in Hx as [Hx|Hx]; apply Z.eqb_eq in Hx; by subst. }
  apply cst_induction.
  - intros [|fuel] w r _ Hf Hw _; [cbn in Hf; lia|]. cbn [read_value]. by rewrite skip_blank.
  - intros b [|fuel] w r _ Hf Hw _; [cbn in Hf; lia|]. cbn [read_value]. rewrite skip_blank by done. by destruct b.
  - intros t [|fuel] w r Ht Hf Hw Hr; [cbn in Hf; lia|]. cbn [wf] in Ht. cbn [read_value render meaning].
    rewrite skip_blank by done. pose proof (span_number t r Ht Hr) as Hs.
    destruct (number_start t Ht) as (c & q & -> & Hc). cbn [app] in *.
    assert (c = 45 \/ 48 <= c <= 57) as Hc'.
    { destruct Hc as [->|Hc]; [by left|right]. apply andb_prop in Hc as [?%Z.leb_le ?%Z.leb_le]. lia. }
    rewrite skip_stop by (unfold is_blank; rewrite !(proj2 (Z.eqb_neq _ _)) by lia; done).
    rewrite !(proj2 (Z.eqb_neq _ _)) by lia.
    rewrite !bool_decide_eq_false_2 by (intros E; apply (f_equal head) in E; injection E as E; lia).
    by rewrite Hs, Ht.
  - intros s [|fuel] w r Hs Hf Hw _; [cbn in Hf; lia|]. cbn [read_value render meaning].
    rewrite skip_to by done. cbn [Z.eqb Pos.eqb]. by rewrite string_tail_characters.
  - intros w' [|fuel] w r Hw' Hf Hw _; [cbn in Hf; lia|]. cbn [read_value render meaning].
    rewrite skip_to by done. cbn [Z.eqb Pos.eqb]. by rewrite eat_this.
  - intros l IH [|fuel] w r Hl Hf Hw _; [cbn in Hf; lia|]. cbn [read_value render meaning wf size] in *.
    rewrite skip_to by done. cbn [Z.eqb Pos.eqb].
    destruct (render_elements_start l r Hl) as (w' & x & t & E & H1 & H2 & H3).
    rewrite E at 1. rewrite eat_other by done. by rewrite IH by (done || lia).
  - intros w' [|fuel] w r Hw' Hf Hw _; [cbn in Hf; lia|]. cbn [read_value render meaning].
    rewrite skip_to by done. cbn [Z.eqb Pos.eqb]. by rewrite eat_this.
  - intros l IH [|fuel] w r Hl Hf Hw _; [cbn in Hf; lia|]. cbn [read_value render meaning wf size] in *.
    rewrite skip_to by done. cbn [Z.eqb Pos.eqb].
    destruct (render_members_start l r Hl) as (w' & t & E & H1).
    rewrite E at 1. rewrite eat_other by done. by rewrite IH by (done || lia).
  - intros w1 v IH w2 [|fuel] r (H1 & H2 & H3) Hf; [cbn in Hf; lia|]. cbn [read_elements render_elements meaning_elements size_elements] in *.
    rewrite IH by (done || lia || by apply Hd). cbn [mbind option_bind]. by rewrite eat_other, eat_this.
  - intros w1 v IH w2 l IHl [|fuel] r (H1 & H2 & H3 & H4) Hf; [cbn in Hf; lia|].
    cbn [read_elements render_elements meaning_elements size_elements] in *.
    rewrite IH by (done || lia || by apply Hd). cbn [mbind option_bind]. rewrite eat_this by done. by rewrite IHl by (done || lia).
  - intros w1 k w2 w3 v IH w4 [|fuel] r (H1 & H2 & H3 & H4 & H5 & H6) Hf; [cbn in Hf; lia|].
    cbn [read_members render_members meaning_members size_members] in *.
    rewrite eat_this by done. cbn [mbind option_bind]. rewrite string_tail_characters by done. cbn [mbind option_bind]. rewrite eat_this by done. cbn [mbind option_bind].
    rewrite IH by (done || lia || by apply Hd). cbn [mbind option_bind]. by rewrite eat_other, eat_this.
  - intros w1 k w2 w3 v IH w4 l IHl [|fuel] r (H1 & H2 & H3 & H4 & H5 & H6 & H7) Hf; [cbn in Hf; lia|].
    cbn [read_members render_members meaning_members size_members] in *.
    rewrite eat_this by done. cbn [mbind option_bind]. rewrite string_tail_characters by done. cbn [mbind option_bind]. rewrite eat_this by done. cbn [mbind option_bind].
    rewrite IH by (done || lia || by apply Hd). cbn [mbind option_bind]. rewrite eat_this by done. by rewrite IHl by (done || lia).
Qed.

Lemma size_render :
  (forall c r, wf c -> (size c + length r <= length (render c r))%nat)
  /\ (forall l r, wf_elements l -> (size_elements l + length r <= length (render_elements l r))%nat)
  /\ (forall l r, wf_members l -> (size_members l + length r <= length (render_members l r))%nat).
Proof.
  apply cst_induction; cbn [wf wf_elements wf_members size size_elements size_members render render_elements render_members].
  all: try by (intros; rewrite ?length_app; cbn [length]; rewrite ?length_app; cbn [length]; lia).
  - intros r _. cbn. lia.
  - intros [] r _; cbn; lia.
  - intros t r (c & q & -> & _)%number_start. rewrite length_app. cbn [length]. lia.
  - intros l IH r Hl. cbn [length]. specialize (IH r Hl). lia.
  - intros l IH r Hl. cbn [length]. specialize (IH r Hl). lia.
  - intros w1 v IH w2 r (_ & Hv & _). rewrite length_app. specialize (IH (w2 ++ 93 :: r) Hv). rewrite length_app in IH. cbn [length] in IH. lia.
  - intros w1 v IH w2 l IHl r (_ & Hv & _ & Hl). rewrite length_app. specialize (IHl r Hl).
    specialize (IH (w2 ++ 44 :: render_elements l r) Hv). rewrite length_app in IH. cbn [length] in IH. lia.
  - intros w1 k w2 w3 v IH w4 r (_ & _ & _ & _ & Hv & _). specialize (IH (w4 ++ 125 :: r) Hv).
    rewrite !length_app in *. cbn [length] in *. rewrite !length_app in *. cbn [length] in *. rewrite !length_app in *. cbn [length] in *.
    rewrite !length_app in *. lia.
  - intros w1 k w2 w3 v IH w4 l IHl r (_ & _ & _ & _ & Hv & _ & Hl). specialize (IHl r Hl).
    specialize (IH (w4 ++ 44 :: render_members l r) Hv).
    rewrite !length_app in *. cbn [length] in *. rewrite !length_app in *. cbn [length] in *. rewrite !length_app in *. cbn [length] in *.
    rewrite !length_app in *. lia.
Qed.

Lemma read_render c w : wf c -> blank w -> read (render c w) = Some (meaning c).
Proof.
  intros Hc Hw. unfold read. pose proof (proj1 size_render c w Hc) as Hs.
  rewrite (proj1 read_render_mutual c _ [] w) by first [done|lia|apply Forall_nil; done|
    destruct Hw as [|x w Hx _]; [done|]; cbn; unfold is_blank in Hx; repeat apply orb_true_iff in Hx as [Hx|Hx];
    apply Z.eqb_eq in Hx; by subst].
  cbn [mbind option_bind]. rewrite <- (app_nil_r w), skip_blank by done. done.
Qed.
End Rfc8259.
