(* ===== verification/Status.v ===== *)
(** * The status page (src/miner/miner.c: pool_json, write_status)

    status.json as [fprintf] writes it, from the records the other files keep, and
    that it is the JSON text it is meant to be. The conversions of [printf] that the
    formats use are written out. The file is replaced by renaming a temporary over it:
    [write_status] yields every state of the directory that a reader can find meanwhile.
    [startup] is what [main] publishes before it mines. *)
From Stdlib Require Import SpecFloat.
From stdpp Require Import gmap.
From S2P Require Import Prelude Cdouble Decimal Rfc8259 Devfee Worksrc Stratum Uart Framing Gbt Mining WorksrcStratum Miner.

Module Status.
Import Cdouble Decimal Rfc8259.
Local Open Scope word_scope.

(** ** printf *)

(** [n / d], ties to even, as the library rounds. *)
Definition round_half_even (n d : Z) : Z :=
  let q := n / d in let r := n mod d in
  if 2 * r <? d then q else if d <? 2 * r then q + 1 else if Z.even q then q else q + 1.
(** The greatest [x] from [x] down with [10^x <= n/d], where [dx] is [d * 10^(x + 400)] and [nx] is [n * 10^400]. *)
Fixpoint leading (fuel : nat) (x nx dx : Z) : Z :=
  match fuel with
  | O => x
  | S fuel => if dx <=? nx then x else leading fuel (x - 1) nx (dx / 10)
  end.
Fixpoint strip (l : list Z) : list Z :=
  match l with
  | [] => []
  | c :: l => match strip l with [] => if c =? 48 then [] else [c] | t => c :: t end
  end.
Definition point (fraction : list Z) : list Z := match strip fraction with [] => [] | f => 46 :: f end.
(** The digits [q] with the point for the exponent [x]. *)
Definition laid_out (x q : Z) : list Z :=
  let ds := dec q in
  if (-4 <=? x) && (x <? 6) then
    if x <? 0 then 48 :: point (replicate (Z.to_nat (- x - 1)) 48 ++ ds)
    else take (Z.to_nat (x + 1)) ds ++ point (drop (Z.to_nat (x + 1)) ds)
  else
    take 1 ds ++ point (drop 1 ds) ++ 101 :: (if x <? 0 then 45 else 43)
      :: (if Z.abs x <? 10 then [48] else []) ++ dec (Z.abs x).
(** Six significant digits of [n / d]. *)
Definition six (n d : Z) : list Z :=
  let x := leading 632 308 (n * 10 ^ 400) (d * 10 ^ 708) in
  let q := round_half_even (n * 10 ^ (405 - x)) (d * 10 ^ 400) in
  let '(x, q) := if q =? 10 ^ 6 then (x + 1, 10 ^ 5) else (x, q) in
  laid_out x q.
(** [%g]; the sign of a NaN is not printed. *)
Definition percent_g (d : double) : list Z :=
  let sign (s : bool) t := if s then 45 :: t else t in
  match d with
  | S754_nan => str "nan"
  | S754_infinity s => sign s (str "inf")
  | S754_zero s => sign s (str "0")
  | S754_finite s m e =>
    sign s (if 0 <=? e then six (Z.pos m * 2 ^ e) 1 else six (Z.pos m) (2 ^ (- e)))
  end.
Example percent_g_examples :
  (fun s => percent_g (strtod (str s))) <$> ["4096"; "0.001"; "1e-9"; "1234567"; "999999.5"; "0.5"; "1e300"; "5e-324"; "0"]%string
  = str <$> ["4096"; "0.001"; "1e-09"; "1.23457e+06"; "1e+06"; "0.5"; "1e+300"; "4.94066e-324"; "0"]%string.
Proof. vm_compute. reflexivity. Qed.

(** ** A printed number is one in JSON *)
Lemma skip_digits_app l t : Forall Decimal.is_digit l -> Rfc8259.skip_digits (l ++ t) = Rfc8259.skip_digits t.
Proof.
  induction 1 as [|x l Hx _ IH]; [done|]. cbn [Rfc8259.skip_digits app]. unfold Rfc8259.is_digit.
  unfold Decimal.is_digit in Hx. by rewrite (proj2 (Z.leb_le _ _)), (proj2 (Z.leb_le x _)) by lia.
Qed.
(** What a fraction or an exponent starts with. *)
Definition no_digit (t : list Z) : Prop := match t with [] => True | x :: _ => Rfc8259.is_digit x = false end.
Lemma skip_digits_all l t : Forall Decimal.is_digit l -> no_digit t -> Rfc8259.skip_digits (l ++ t) = t.
Proof. intros Hl Ht. rewrite skip_digits_app by done. destruct t as [|x t]; [done|]. cbn. by rewrite Ht. Qed.
Lemma digits_then_app k x l t :
  Forall Decimal.is_digit (x :: l) -> no_digit t -> k t = true -> Rfc8259.digits_then k (x :: l ++ t) = true.
Proof.
  intros [Hx Hl]%Forall_cons Ht Hk. cbn [Rfc8259.digits_then]. rewrite skip_digits_all, Hk by done.
  unfold Rfc8259.is_digit, Decimal.is_digit in *. by rewrite (proj2 (Z.leb_le _ _)), (proj2 (Z.leb_le x _)) by lia.
Qed.
Lemma natural_digits x l t :
  Forall Decimal.is_digit (x :: l) -> (x = 48 -> l = []) -> no_digit t -> is_fraction t = true ->
  is_natural (x :: l ++ t) = true.
Proof.
  intros Hl Hx Ht Hf. cbn [is_natural]. destruct (Z.eqb_spec x 48) as [->|].
  - by rewrite Hx by done.
  - by apply digits_then_app.
Qed.
Lemma number_sign (sign : bool) x l :
  Decimal.is_digit x -> is_natural (x :: l) = true -> is_number (if sign then 45 :: x :: l else x :: l) = true.
Proof.
  intros Hx Hn. destruct sign; [done|]. cbn [is_number]. unfold Decimal.is_digit in Hx.
  by rewrite (proj2 (Z.eqb_neq _ _)) by lia.
Qed.
Definition natural (t : list Z) : Prop := exists x l, t = x :: l /\ Decimal.is_digit x /\ is_natural t = true.
Lemma number_natural (sign : bool) t : natural t -> is_number (if sign then 45 :: t else t) = true.
Proof. intros (x & l & -> & Hx & Hn). by apply number_sign. Qed.
Lemma dec_natural n : 0 <= n < 2 ^ 64 -> natural (dec n).
Proof.
  intros Hn. destruct (dec_spec n Hn) as (x & l & -> & Hl & _ & Hz & _). exists x, l.
  split_and!; [done|by apply Forall_cons in Hl as [? _]|].
  rewrite <- (app_nil_r l). by apply natural_digits.
Qed.
Definition printed_int (z : Z) : Prop := - 2 ^ 64 < z < 2 ^ 64.
Lemma dec_int_number z : printed_int z -> is_number (dec_int z) = true.
Proof.
  intros Hz. unfold dec_int. destruct (Z.ltb_spec z 0).
  - apply (number_natural true), dec_natural. unfold printed_int in Hz. lia.
  - apply (number_natural false), dec_natural. unfold printed_int in Hz. lia.
Qed.

Lemma strip_digits l : Forall Decimal.is_digit l -> Forall Decimal.is_digit (strip l).
Proof.
  induction 1 as [|x l Hx _ IH]; [constructor|]. cbn [strip]. destruct (strip l); [|by constructor].
  destruct (x =? 48); [constructor|]. by apply Forall_singleton.
Qed.
(** A fraction, possibly empty, before an exponent or the end. *)
Lemma point_no_digit l t : no_digit t -> no_digit (point l ++ t).
Proof. intros Ht. unfold point. by destruct (strip l). Qed.
Lemma point_fraction l t :
  Forall Decimal.is_digit l -> no_digit t -> is_exponent t = true -> is_fraction (point l ++ t) = true.
Proof.
  intros Hl%strip_digits Ht He. unfold point. destruct (strip l) as [|x f].
  - destruct t as [|y t]; [done|]. cbn [app is_fraction]. destruct (Z.eqb_spec y 46) as [->|]; [done|]. done.
  - change (is_fraction ((46 :: x :: f) ++ t)) with (Rfc8259.digits_then is_exponent (x :: f ++ t)).
    by apply digits_then_app.
Qed.
Lemma exponent_natural (s : bool) l t :
  Forall Decimal.is_digit (l ++ t) -> l ++ t <> [] -> is_exponent (101 :: (if s then 45 else 43) :: l ++ t) = true.
Proof.
  intros Hl Hn. destruct (l ++ t) as [|x e]; [done|]. cbn [is_exponent].
  assert (Rfc8259.digits_then (fun r => if r is [] then true else false) (x :: e ++ []) = true) as E by by apply digits_then_app.
  rewrite app_nil_r in E. by destruct s.
Qed.
Lemma laid_out_natural x q : 0 <= q < 2 ^ 64 -> Z.abs x < 2 ^ 64 -> natural (laid_out x q).
Proof.
  intros Hq Hx. unfold laid_out. destruct (dec_spec q Hq) as (a & l & -> & Hl & _ & Hz & _). cbv zeta.
  pose proof Hl as [Ha Hl']%Forall_cons.
  destruct ((-4 <=? x) && (x <? 6)) eqn:E; [destruct (Z.ltb_spec x 0)|].
  - eexists _, _. split_and!; [done|done|]. cbn [is_natural]. cbn [Z.eqb Pos.eqb].
    rewrite <- (app_nil_r (point _)). apply point_fraction; [|done..]. apply Forall_app. split; [|done].
    by apply Forall_replicate.
  - replace (Z.to_nat (x + 1)) with (S (Z.to_nat x)) by lia. cbn [take drop app]. eexists _, _. split_and!; [done|done|].
    rewrite <- (app_nil_r (point _)). apply natural_digits.
    + apply Forall_cons. split; [done|]. by apply Forall_take.
    + intros ->. rewrite Hz by done. apply take_nil.
    + by apply point_no_digit.
    + apply point_fraction; [by apply Forall_drop|done..].
  - cbn [take drop app]. eexists _, _. split_and!; [done|done|].
    change (a :: ?t) with (a :: [] ++ t). apply natural_digits; [by apply Forall_singleton|done|by apply point_no_digit|].
    apply point_fraction; [done..|]. destruct (dec_spec (Z.abs x) ltac:(lia)) as (b & k & -> & Hk & _).
    apply (exponent_natural (x <? 0)); [|by destruct (Z.abs x <? 10)].
    apply Forall_app. split; [|done]. by destruct (Z.abs x <? 10); [apply Forall_singleton|].
Qed.

Lemma length_dec n : 0 <= n < 2 ^ 64 -> (length (dec n) <= 20)%nat.
Proof. intros Hn. by destruct (dec_spec n Hn) as (? & ? & _ & _ & _ & _ & ?). Qed.
Lemma length_dec_int z : printed_int z -> (length (dec_int z) <= 21)%nat.
Proof.
  unfold printed_int, dec_int. intros Hz. destruct (Z.ltb_spec z 0); cbn [length].
  - pose proof (length_dec (- z)). lia.
  - pose proof (length_dec z). lia.
Qed.
Lemma length_point l : (length (point l) <= S (length l))%nat.
Proof.
  unfold point. assert (length (strip l) <= length l)%nat as H.
  { induction l as [|x l IH]; [done|]. cbn [strip]. destruct (strip l); [destruct (x =? 48)|]; cbn [length] in *; lia. }
  destruct (strip l); cbn [length] in *; lia.
Qed.
Lemma length_laid_out x q : 0 <= q < 2 ^ 64 -> Z.abs x < 2 ^ 64 -> (length (laid_out x q) <= 46)%nat.
Proof.
  intros Hq%length_dec Hx. assert (length (dec (Z.abs x)) <= 20)%nat by (apply length_dec; lia). unfold laid_out. cbv zeta.
  destruct ((-4 <=? x) && (x <? 6)) eqn:E; [apply andb_prop in E as [E%Z.leb_le _]; destruct (Z.ltb_spec x 0)|]; rewrite ?length_app; cbn [length].
  - pose proof (length_point (replicate (Z.to_nat (- x - 1)) 48 ++ dec q)) as Hp.
    rewrite length_app, length_replicate in Hp. lia.
  - pose proof (length_point (drop (Z.to_nat (x + 1)) (dec q))) as Hp. rewrite length_drop in Hp. rewrite length_take. lia.
  - pose proof (length_point (drop 1 (dec q))) as Hp. rewrite length_drop in Hp. rewrite length_take, length_app.
    assert (length (if (Z.abs x <? 10)%Z then [48%Z] else []) <= 1)%nat by (case_match; cbn; lia). lia.
Qed.
Lemma leading_bounds fuel x n d :
  0 < d -> - 400 + Z.of_nat fuel <= x ->
  n * 10 ^ 400 < d * 10 ^ (x + 401) ->
  let x' := leading fuel x (n * 10 ^ 400) (d * 10 ^ (x + 400)) in
  x - Z.of_nat fuel <= x' <= x /\ n * 10 ^ 400 < d * 10 ^ (x' + 401).
Proof.
  intros Hd. revert x. induction fuel as [|fuel IH]; intros x Hx Hn; cbv zeta; cbn [leading]; [split; [lia|done]|].
  destruct (Z.leb_spec (d * 10 ^ (x + 400)) (n * 10 ^ 400)) as [|Hlt]; [split; [lia|done]|].
  replace (d * 10 ^ (x + 400) / 10) with (d * 10 ^ (x - 1 + 400)).
  - destruct (IH (x - 1)) as [H1 H2]; [lia| |split; [lia|done]]. replace (x - 1 + 401) with (x + 400) by lia. done.
  - replace (x + 400) with (Z.succ (x - 1 + 400)) by lia. rewrite Z.pow_succ_r by lia.
    replace (d * (10 * 10 ^ (x - 1 + 400))) with (d * 10 ^ (x - 1 + 400) * 10) by lia. by rewrite Z.div_mul.
Qed.
Lemma round_bounds n d m : 0 <= n -> 0 < d -> n < d * m -> 0 <= round_half_even n d <= m.
Proof.
  intros Hn Hd Hm. assert (0 <= n / d < m) by (split; [by apply Z.div_pos|by apply Z.div_lt_upper_bound]).
  unfold round_half_even. repeat case_match; lia.
Qed.
Lemma six_shape n d :
  0 < n -> 0 < d -> n < d * 10 ^ 309 ->
  exists x q, six n d = laid_out x q /\ 0 <= q < 2 ^ 64 /\ Z.abs x < 2 ^ 64.
Proof.
  intros Hn Hd Hlt. unfold six.
  destruct (leading_bounds 632 308 n d Hd) as [Hx Hnx]; [lia| |].
  { replace (308 + 401) with (309 + 400) by lia. rewrite Z.pow_add_r by lia.
    assert (0 < 10 ^ 400) by (by apply Z.pow_pos_nonneg). nia. }
  change (308 + 400) with 708 in *. cbv zeta.
  remember (leading 632 308 (n * 10 ^ 400) (d * 10 ^ 708)) as x eqn:E. clear E.
  assert (0 <= round_half_even (n * 10 ^ (405 - x)) (d * 10 ^ 400) <= 10 ^ 6) as Hq.
  { apply round_bounds; [by apply Z.mul_nonneg_nonneg; [lia|apply Z.pow_nonneg]|by apply Z.mul_pos_pos; [|apply Z.pow_pos_nonneg]|].
    apply (Z.mul_lt_mono_pos_r (10 ^ (x + 401))); [apply Z.pow_pos_nonneg; lia|].
    assert (10 ^ (405 - x) * 10 ^ (x + 401) = 10 ^ 400 * 10 ^ 406) as H1
      by (rewrite <- !Z.pow_add_r by lia; f_equal; lia).
    assert (10 ^ 406 = 10 ^ 400 * 10 ^ 6) as H2 by (rewrite <- Z.pow_add_r by lia; done).
    assert (0 < 10 ^ 406) by (by apply Z.pow_pos_nonneg).
    replace (n * 10 ^ (405 - x) * 10 ^ (x + 401)) with (n * 10 ^ 400 * 10 ^ 406) by (rewrite <- Z.mul_assoc, <- H1; lia).
    replace (d * 10 ^ 400 * 10 ^ 6 * 10 ^ (x + 401)) with (d * 10 ^ (x + 401) * 10 ^ 406) by (rewrite H2; lia).
    by apply Z.mul_lt_mono_pos_r. }
  remember (round_half_even _ _) as q eqn:E. clear E.
  change (10 ^ 6) with 1000000 in *. change (10 ^ 5) with 100000. change (2 ^ 64) with 18446744073709551616 in *.
  destruct (q =? 1000000); eexists _, _; (split; [reflexivity|lia]).
Qed.
(** A double as the arithmetic leaves it, neither infinite nor a NaN. *)
Definition finite (d : double) : Prop :=
  match d with
  | S754_zero _ => True
  | S754_finite _ m e => Z.pos m < 2 ^ 53 /\ - 1074 <= e <= 971
  | S754_infinity _ | S754_nan => False
  end.
Lemma finite_shape m e :
  Z.pos m < 2 ^ 53 -> - 1074 <= e <= 971 ->
  exists x q, (if 0 <=? e then six (Z.pos m * 2 ^ e) 1 else six (Z.pos m) (2 ^ (- e))) = laid_out x q
    /\ 0 <= q < 2 ^ 64 /\ Z.abs x < 2 ^ 64.
Proof.
  intros Hm He. destruct (Z.leb_spec 0 e); apply six_shape; try done.
  - by apply Z.mul_pos_pos; [|apply Z.pow_pos_nonneg].
  - apply Z.lt_le_trans with (2 ^ 53 * 2 ^ 971); [|by vm_compute].
    apply Z.lt_le_trans with (2 ^ 53 * 2 ^ e); [by apply Z.mul_lt_mono_pos_r; [apply Z.pow_pos_nonneg|]|].
    apply Z.mul_le_mono_nonneg_l; [done|]. by apply Z.pow_le_mono_r; lia.
  - apply Z.pow_pos_nonneg; lia.
  - assert (0 < 2 ^ (- e)) by (apply Z.pow_pos_nonneg; lia).
    apply Z.lt_le_trans with (1 * 10 ^ 309); [|apply Z.mul_le_mono_nonneg_r; [done|lia]].
    by apply Z.lt_trans with (2 ^ 53).
Qed.
Lemma percent_g_number d : finite d -> is_number (percent_g d) = true.
Proof.
  destruct d as [[]|[]| |sg m e]; cbn [finite percent_g]; try done. intros [Hm He].
  destruct (finite_shape m e Hm He) as (x & q & -> & Hq & Hx). by apply (number_natural sg), laid_out_natural.
Qed.
Lemma length_percent_g d : finite d -> (length (percent_g d) <= 47)%nat.
Proof.
  destruct d as [[]|[]| |sg m e]; cbn [finite percent_g]; try done; try (intros _; by apply Nat.leb_le). intros [Hm He].
  destruct (finite_shape m e Hm He) as (x & q & -> & Hq & Hx). pose proof (length_laid_out x q Hq Hx).
  destruct sg; cbn [length]; lia.
Qed.

(** Arguments: a string, an integer, a double. *)
Inductive arg := AStr (s : list Z) | AInt (z : Z) | ADouble (d : double).
Definition conversion (a : arg) : list Z :=
  match a with AStr s => s | AInt z => dec_int z | ADouble d => percent_g d end.
(** [spec] after a percent sign; the formats have [%s], [%g] and integer
    conversions with or without [l]s. *)
Fixpoint printf (spec : bool) (fmt : list Z) (args : list arg) : list Z :=
  match fmt with
  | [] => []
  | c :: fmt =>
    if spec then
      if c =? 108 then printf true fmt args
      else match args with a :: args => conversion a ++ printf false fmt args | [] => [] end
    else if c =? 37 then printf true fmt args
    else c :: printf false fmt args
  end.
(** A format with apostrophes for quotes. *)
Definition format (f : string) (args : list arg) : list Z := printf false (Stratum.Stratum.dq f) args.

(** ** The pages *)
Definition truth (b : bool) : list Z := str (if b then "true" else "false").

Definition pool_format : string := "  'pool': {
    'url': '%s', 'connected': %s, 'authorized': %s, 'has_job': %s,
    'difficulty': %g, 'job_id': '%s', 'jobs_received': %llu,
    'shares_submitted': %llu, 'shares_accepted': %llu, 'shares_rejected': %llu,
    'reconnects': %llu, 'last_reject': '%s'
  },
  'devfee_pool_jobs': %llu,
  'devfee_pool_dev_jobs': %llu,
  'devfee_pool_skipped': %llu,
  'devfee_pool_shares': %llu,
".
Definition pool_args (p : WorksrcStratum.worksrc_stratum_status_t) (c : Devfee.counters) : list arg :=
  [AStr (WorksrcStratum.pool p); AStr (truth (WorksrcStratum.connected p)); AStr (truth (WorksrcStratum.st_authorized p));
   AStr (truth (WorksrcStratum.has_job p)); ADouble (WorksrcStratum.st_difficulty p); AStr (WorksrcStratum.st_job_id p);
   AInt (WorksrcStratum.st_jobs_received p); AInt (WorksrcStratum.st_shares_submitted p);
   AInt (WorksrcStratum.st_shares_accepted p); AInt (WorksrcStratum.st_shares_rejected p);
   AInt (WorksrcStratum.st_reconnects p); AStr (WorksrcStratum.st_last_reject p);
   AInt (Devfee.g_pool_jobs c); AInt (Devfee.g_pool_dev_jobs c);
   AInt (Devfee.g_pool_skipped c); AInt (Devfee.g_pool_shares c)].
(** The name of the selected source, [None] before one is selected. *)
Definition pooled (g_src : option (list Z)) : bool :=
  match g_src with Some n => bool_decide (n = str "stratum") || bool_decide (n = str "sia") | None => false end.
(** [buf] has 1024 bytes. *)
Definition pool_json (g_src : option (list Z)) (p : WorksrcStratum.worksrc_stratum_status_t) (c : Devfee.counters) : list Z :=
  if pooled g_src then take 1023 (format pool_format (pool_args p c)) else [].

(** What else [st] holds: the loop and the solo source keep the rest. *)
Record reports := Reports {
  started_at : Z; phase : list Z; vectors : Z; uart : Z; loopback : Z; last_error : list Z
}.
#[export] Instance reports_fields : Fields reports := fun r =>
  Reports (started_at r) (phase r) (vectors r) (uart r) (loopback r) (last_error r).
(** [st] as [main] starts. *)
Definition starting (now : Z) : reports := Reports now (str "starting") (-1) (-1) (-1) [].
Definition head_format : string := "{
  'phase': '%s',
  'uptime_s': %llu,
  'uart_dev': '%s',
  'selftest': { 'vectors': %d, 'uart': %d, 'loopback': %d },
  'nonce_offset': %ld,
  'target_shift': %u,
  'template_height': %llu,
  'items_sent': %llu,
  'frames_ok': %llu,
  'frames_bad': %llu,
  'candidates_verified': %llu,
  'framing': { 'quiet': %llu, 'gap': %llu, 'locked': %llu, 'failed': %llu, 'secs_since_frame': %lld },
  'uart': { 'rx_bytes': %llu, 'tx_bytes': %llu, 'overruns': %llu, 'tx_stall_us': %llu },
  'last_nonce': '%s',
  'last_hash_top64': '%s',
  'merkle_root': '%s',
  'payout_address': '%s',
  'devfee_percent': %d,
  'devfee_active': %s,
  'devfee_templates_total': %llu,
  'devfee_templates_dev': %llu,
  'blocks_submitted': %llu,
  'blocks_accepted': %llu,
  'last_submit_result': '%s',
  'worksrc': '%s',
".
Definition tail_format : string := "  'developer': 'Fry Networks',
  'last_error': '%s'
}
".

Definition DEVFEE_PERCENT : Z := 5.
(** [(long long)(now - last)], or -1 before the first frame. *)
Definition secs_since_frame (now last : Z) : Z :=
  if last =? 0 then -1 else let d := u64 (now - last) in if d <? 2 ^ 63 then d else d - 2 ^ 64.
Definition from_device (u : option Uart.uio_uart) (f : Uart.uio_uart -> Z) : Z := match u with Some u => f u | None => 0 end.
(** [now] and [now'] are the two readings of the clock. *)
Definition head_args (now now' : Z) (o : Miner.options) (r : reports) (s : Mining.stats) (g : Gbt.solo)
    (u : option Uart.uio_uart) (c : Devfee.counters) (g_src : option (list Z)) : list arg :=
  [AStr (phase r); AInt (u64 (now - started_at r)); AStr (Miner.uart_dev o);
   AInt (vectors r); AInt (uart r); AInt (loopback r); AInt (Mining.nonce_offset s); AInt (Miner.target_shift o);
   AInt (Gbt.last_template_height g); AInt (Mining.items_sent s); AInt (Mining.frames_ok s);
   AInt (Mining.frames_bad s); AInt (Mining.candidates_verified s);
   AInt (Framing.sync_quiet (Mining.framing s)); AInt (Framing.sync_gap (Mining.framing s));
   AInt (Framing.sync_locked (Mining.framing s)); AInt (Framing.sync_failed (Mining.framing s));
   AInt (secs_since_frame now' (Mining.last_frame_at s));
   AInt (from_device u Uart.rx_bytes); AInt (from_device u Uart.tx_bytes); AInt (from_device u Uart.overruns);
   AInt (from_device u Uart.tx_stall_us); AStr (Mining.last_nonce s); AStr (Mining.last_hash s);
   AStr (Gbt.merkle_text g); AStr (Gbt.payout_address g); AInt DEVFEE_PERCENT; AStr (truth (Devfee.g_current_is_dev c));
   AInt (Devfee.g_total c); AInt (Devfee.g_dev c); AInt (Gbt.blocks_submitted g); AInt (Gbt.blocks_accepted g);
   AStr (Gbt.last_submit g); AStr (default (str "none") g_src)].
(** The text of the file. *)
Definition page_text (now now' : Z) (o : Miner.options) (r : reports) (s : Mining.stats) (g : Gbt.solo)
    (u : option Uart.uio_uart) (c : Devfee.counters) (g_src : option (list Z))
    (p : WorksrcStratum.worksrc_stratum_status_t) : list Z :=
  printf false (Stratum.Stratum.dq head_format ++ str "%s" ++ Stratum.Stratum.dq tail_format)
    (head_args now now' o r s g u c g_src ++ [AStr (pool_json g_src p c); AStr (last_error r)]).

(** ** The file

    Files by name. [takes] are the bytes that the successive writes of the stream get
    onto the disk: all of the text, unless the disk is full. *)
Abbreviation files := (gmap (list Z) (list Z)).
Record disk := Disk { opens : bool; takes : list nat; renames : bool }.
Definition tmp_of (path : list Z) : list Z := Stratum.snprintf 512 (path ++ str ".tmp").
(** What the temporary holds after [fopen], and after each write. *)
Fixpoint written (k : nat) (takes : list nat) (text : list Z) : list (list Z) :=
  take k text :: match takes with [] => [] | n :: takes => written (k + n) takes text end.
Definition rename (a b : list Z) (fs : files) : files :=
  match fs !! a with
  | Some text => if bool_decide (a = b) then fs else <[b := text]> (delete a fs)
  | None => fs
  end.
(** The directory before the call and after each system call of it. Nobody looks at what
    [fprintf] and [fclose] return. *)
Definition publish (text path : list Z) (d : disk) (fs : files) : list files :=
  let tmp := tmp_of path in
  if opens d then
    let during := (fun t => <[tmp := t]> fs) <$> written 0 (takes d) text in
    let closed := default fs (last during) in
    fs :: during ++ [if renames d then rename tmp path closed else closed]
  else [fs].
Definition write_status (d : disk) (fs : files) (now now' : Z) (o : Miner.options) (r : reports)
    (s : Mining.stats) (g : Gbt.solo) (u : option Uart.uio_uart) (c : Devfee.counters)
    (g_src : option (list Z)) (p : WorksrcStratum.worksrc_stratum_status_t) : list files :=
  publish (page_text now now' o r s g u c g_src p) (Miner.status_path o) d fs.

(** ** What start-up publishes

    The reports shown by the calls of [write_status] between the self-tests that need no
    device and the mining loop, with the result of each test; then the exit status, or
    the reports that the loop starts with. *)
Definition on_device (o : Miner.options) (opened : bool) (uart_rc rxdump_rc loopback_rc : Z) (ps : list reports) (r : reports) :
    list reports * (Z + reports) :=
  if negb opened then
    (ps ++ [r <| last_error := Stratum.snprintf 192 (str "Cannot mmap UART " ++ Miner.uart_dev o) |> <| uart := -1 |>], inl 1)
  else
    let r := r <| phase := str "selftest:uart" |> <| uart := uart_rc |> in
    let ps := ps ++ [r] in
    if Miner.wants o "uart" then (ps, inl (Miner.status_of uart_rc))
    else if Miner.wants o "rxdump" then
      (ps ++ [r <| phase := str "selftest:rxdump" |>], inl (Miner.status_of rxdump_rc))
    else
      let mine ps r := (ps, inr (r <| phase := str "mining" |>)) in
      match Miner.chain o with
      | WorksrcStratum.Sia => let r := r <| loopback := 0 |> in mine (ps ++ [r]) r
      | WorksrcStratum.Knots =>
        let r := r <| phase := str "selftest:loopback" |> <| loopback := loopback_rc |> in
        let ps := ps ++ [r] in
        if Miner.wants o "loopback" || Miner.wants o "all" then (ps, inl (Miner.status_of loopback_rc))
        else if negb (loopback_rc =? 0)
        then (ps ++ [r <| last_error := str "loopback failed; FPGA not answering" |>], inl 1)
        else mine ps r
      end.
Definition startup (o : Miner.options) (opened : bool) (uart_rc rxdump_rc loopback_rc : Z) (r : reports) :
    list reports * (Z + reports) :=
  let on_device := on_device o opened uart_rc rxdump_rc loopback_rc in
  if bool_decide (Miner.selftest o = None) || Miner.wants o "vectors" || Miner.wants o "all" then
    let r := r <| phase := str "selftest:vectors" |> <| vectors := Miner.st_vectors o |> in
    if Miner.wants o "vectors" then ([r], inl (Miner.status_of (Miner.st_vectors o)))
    else if negb (Miner.st_vectors o =? 0) then ([r; r <| last_error := str "vector selftest failed" |>], inl 1)
    else on_device [r] r
  else on_device [] r.

(** ** Its reading *)
Section Page.
Context (now now' : Z) (o : Miner.options) (r : reports) (s : Mining.stats) (g : Gbt.solo)
  (u : option Uart.uio_uart) (c : Devfee.counters) (g_src : option (list Z))
  (p : WorksrcStratum.worksrc_stratum_status_t).

Definition num (z : Z) : cst := CNum (dec_int z).
Definition field (w1 : string) (k : string) (v : cst) (l : members) : members := MoreMembers (str w1) (str k) [] [32] v [] l.
Definition final (w1 : string) (k : string) (v : cst) (w4 : string) : members := LastMember (str w1) (str k) [] [32] v (str w4).
Definition line : string := "
  ".
Definition pool_line : string := "
    ".
Definition feed : string := "
".
Definition pool_object : members :=
  field pool_line "url" (CStr (WorksrcStratum.pool p)) (field " " "connected" (CBool (WorksrcStratum.connected p))
  (field " " "authorized" (CBool (WorksrcStratum.st_authorized p)) (field " " "has_job" (CBool (WorksrcStratum.has_job p))
  (field pool_line "difficulty" (CNum (percent_g (WorksrcStratum.st_difficulty p)))
  (field " " "job_id" (CStr (WorksrcStratum.st_job_id p)) (field " " "jobs_received" (num (WorksrcStratum.st_jobs_received p))
  (field pool_line "shares_submitted" (num (WorksrcStratum.st_shares_submitted p))
  (field " " "shares_accepted" (num (WorksrcStratum.st_shares_accepted p))
  (field " " "shares_rejected" (num (WorksrcStratum.st_shares_rejected p))
  (field pool_line "reconnects" (num (WorksrcStratum.st_reconnects p))
  (final " " "last_reject" (CStr (WorksrcStratum.st_last_reject p)) line))))))))))).
Definition pool_members (l : members) : members :=
  field line "pool" (CObj pool_object) (field line "devfee_pool_jobs" (num (Devfee.g_pool_jobs c))
  (field line "devfee_pool_dev_jobs" (num (Devfee.g_pool_dev_jobs c))
  (field line "devfee_pool_skipped" (num (Devfee.g_pool_skipped c))
  (field line "devfee_pool_shares" (num (Devfee.g_pool_shares c)) l)))).
Definition tail_members : members :=
  field line "developer" (CStr (str "Fry Networks")) (final line "last_error" (CStr (last_error r)) feed).
Definition selftest_object : members :=
  field " " "vectors" (num (vectors r)) (field " " "uart" (num (uart r)) (final " " "loopback" (num (loopback r)) " ")).
Definition framing_object : members :=
  field " " "quiet" (num (Framing.sync_quiet (Mining.framing s))) (field " " "gap" (num (Framing.sync_gap (Mining.framing s)))
  (field " " "locked" (num (Framing.sync_locked (Mining.framing s))) (field " " "failed" (num (Framing.sync_failed (Mining.framing s)))
  (final " " "secs_since_frame" (num (secs_since_frame now' (Mining.last_frame_at s))) " ")))).
Definition uart_object : members :=
  field " " "rx_bytes" (num (from_device u Uart.rx_bytes)) (field " " "tx_bytes" (num (from_device u Uart.tx_bytes))
  (field " " "overruns" (num (from_device u Uart.overruns)) (final " " "tx_stall_us" (num (from_device u Uart.tx_stall_us)) " "))).
Definition page_with (l : members) : cst := CObj
  (field line "phase" (CStr (phase r)) (field line "uptime_s" (num (u64 (now - started_at r)))
  (field line "uart_dev" (CStr (Miner.uart_dev o)) (field line "selftest" (CObj selftest_object)
  (field line "nonce_offset" (num (Mining.nonce_offset s)) (field line "target_shift" (num (Miner.target_shift o))
  (field line "template_height" (num (Gbt.last_template_height g)) (field line "items_sent" (num (Mining.items_sent s))
  (field line "frames_ok" (num (Mining.frames_ok s)) (field line "frames_bad" (num (Mining.frames_bad s))
  (field line "candidates_verified" (num (Mining.candidates_verified s)) (field line "framing" (CObj framing_object)
  (field line "uart" (CObj uart_object) (field line "last_nonce" (CStr (Mining.last_nonce s))
  (field line "last_hash_top64" (CStr (Mining.last_hash s)) (field line "merkle_root" (CStr (Gbt.merkle_text g))
  (field line "payout_address" (CStr (Gbt.payout_address g)) (field line "devfee_percent" (num DEVFEE_PERCENT)
  (field line "devfee_active" (CBool (Devfee.g_current_is_dev c)) (field line "devfee_templates_total" (num (Devfee.g_total c))
  (field line "devfee_templates_dev" (num (Devfee.g_dev c)) (field line "blocks_submitted" (num (Gbt.blocks_submitted g))
  (field line "blocks_accepted" (num (Gbt.blocks_accepted g)) (field line "last_submit_result" (CStr (Gbt.last_submit g))
  (field line "worksrc" (CStr (default (str "none") g_src))
  l))))))))))))))))))))))))).
Definition page : cst := page_with (if pooled g_src then pool_members tail_members else tail_members).

(** [printf] from the converted arguments, before [rest]. *)
Fixpoint fill (spec : bool) (fmt : list Z) (texts : list (list Z)) (rest : list Z) : list Z :=
  match fmt with
  | [] => rest
  | c :: fmt =>
    if spec then
      if c =? 108 then fill true fmt texts rest
      else match texts with t :: texts => t ++ fill false fmt texts rest | [] => rest end
    else if c =? 37 then fill true fmt texts rest
    else c :: fill false fmt texts rest
  end.
Lemma printf_fill spec fmt args rest : printf spec fmt args ++ rest = fill spec fmt (conversion <$> args) rest.
Proof.
  revert spec args. induction fmt as [|x fmt IH]; intros [] args; cbn [printf fill]; [done..| |].
  - destruct (x =? 108); [apply IH|]. destruct args as [|a args]; [done|]. cbn [fmap list_fmap]. by rewrite <- app_assoc, IH.
  - destruct (x =? 37); [apply IH|]. cbn [app]. by rewrite IH.
Qed.
Lemma fill_app spec fmt texts rest t : fill spec fmt texts rest ++ t = fill spec fmt texts (rest ++ t).
Proof.
  revert spec texts. induction fmt as [|x fmt IH]; intros [] texts; cbn [fill]; [done..| |].
  - destruct (x =? 108); [apply IH|]. destruct texts as [|y texts]; [done|]. by rewrite <- app_assoc, IH.
  - destruct (x =? 37); [apply IH|]. cbn [app]. by rewrite IH.
Qed.
Lemma printf_is_fill fmt args : printf false fmt args = fill false fmt (conversion <$> args) [].
Proof. rewrite <- printf_fill. by rewrite app_nil_r. Qed.

Ltac text := cbv -[dec_int percent_g Z.sub u64 secs_since_frame from_device DEVFEE_PERCENT]; reflexivity.
Lemma page_around (t : list Z) :
  fill false (Stratum.Stratum.dq head_format ++ str "%s" ++ Stratum.Stratum.dq tail_format)
    (conversion <$> head_args now now' o r s g u c g_src ++ [AStr t; AStr (last_error r)]) []
  = fill false (Stratum.Stratum.dq head_format) (conversion <$> head_args now now' o r s g u c g_src)
      (t ++ fill false (Stratum.Stratum.dq tail_format) [last_error r] []).
Proof. text. Qed.
Lemma tail_shape : 10 :: fill false (Stratum.Stratum.dq tail_format) [last_error r] [] = render_members tail_members [10].
Proof. text. Qed.
Lemma pool_shape :
  10 :: fill false (Stratum.Stratum.dq pool_format) (conversion <$> pool_args p c)
    (fill false (Stratum.Stratum.dq tail_format) [last_error r] [])
  = render_members (pool_members tail_members) [10].
Proof. text. Qed.
Lemma head_shape (l : members) (rest : list Z) :
  10 :: rest = render_members l [10] ->
  fill false (Stratum.Stratum.dq head_format) (conversion <$> head_args now now' o r s g u c g_src) rest
  = render (page_with l) [10].
Proof.
  intros H. unfold page_with, field, final. cbn [render render_members]. rewrite <- H. clear H. text.
Qed.
(** The file is the page, when the pool's part fits its buffer. *)
Lemma page_written :
  (pooled g_src = true -> (length (format pool_format (pool_args p c)) < 1024)%nat) ->
  page_text now now' o r s g u c g_src p = render page [10].
Proof.
  intros Hp. unfold page_text. rewrite printf_is_fill, page_around. unfold page, pool_json.
  destruct (pooled g_src).
  - rewrite take_ge by (specialize (Hp eq_refl); lia). unfold format. rewrite printf_is_fill, fill_app.
    by apply head_shape, pool_shape.
  - by apply head_shape, tail_shape.
Qed.
(** What a page can carry: string contents without a bare quote, integers of at most 64
    bits, a number for the difficulty. *)
Definition printed (a : arg) : Prop :=
  match a with AStr t => characters t | AInt z => printed_int z | ADouble d => finite d end.

Definition sum_lengths (texts : list (list Z)) : nat := foldr (fun t n => length t + n)%nat 0%nat texts.
Lemma length_fill spec fmt texts :
  (length (fill spec fmt texts []) <= length (fill spec fmt (replicate (length texts) []) []) + sum_lengths texts)%nat.
Proof.
  revert spec texts. induction fmt as [|x fmt IH]; intros spec texts; [cbn; lia|]. destruct spec; cbn [fill].
  - destruct (x =? 108); [apply IH|]. destruct texts as [|t texts]; [cbn; lia|].
    cbn [length replicate sum_lengths foldr app]. rewrite length_app. specialize (IH false texts). unfold sum_lengths in IH. lia.
  - destruct (x =? 37); [apply IH|]. cbn [length]. specialize (IH false texts). lia.
Qed.
Lemma length_truth b : (length (truth b) <= 5)%nat.
Proof. destruct b; by apply Nat.leb_le. Qed.
(** No pool fills the buffer of [pool_json]. *)
Lemma pool_json_fits :
  Forall printed (pool_args p c) ->
  (length (WorksrcStratum.pool p) < 192)%nat -> (length (WorksrcStratum.st_job_id p) < 64)%nat ->
  (length (WorksrcStratum.st_last_reject p) < 128)%nat ->
  (length (format pool_format (pool_args p c)) < 1024)%nat.
Proof.
  intros Hp H1 H2 H3. unfold format. rewrite printf_is_fill.
  eapply Nat.le_lt_trans; [apply length_fill|]. rewrite length_fmap.
  assert (length (fill false (Stratum.Stratum.dq pool_format) (replicate (length (pool_args p c)) []) []) = 340%nat) as ->
    by by vm_compute.
  unfold pool_args in *. repeat (apply Forall_cons in Hp as [? Hp]). cbn [printed] in *. clear Hp.
  cbn [fmap list_fmap conversion sum_lengths foldr].
  pose proof (length_truth (WorksrcStratum.connected p)). pose proof (length_truth (WorksrcStratum.st_authorized p)).
  pose proof (length_truth (WorksrcStratum.has_job p)).
  repeat match goal with H : printed_int _ |- _ => apply length_dec_int in H | H : finite _ |- _ => apply length_percent_g in H end.
  lia.
Qed.

(** The page's contents, by name. *)
Definition int (z : Z) : value := Num (dec_int z).
Definition pool_fields : list (list Z * value) :=
  [(str "pool", Obj [
     (str "url", Str (WorksrcStratum.pool p)); (str "connected", Bool (WorksrcStratum.connected p));
     (str "authorized", Bool (WorksrcStratum.st_authorized p)); (str "has_job", Bool (WorksrcStratum.has_job p));
     (str "difficulty", Num (percent_g (WorksrcStratum.st_difficulty p))); (str "job_id", Str (WorksrcStratum.st_job_id p));
     (str "jobs_received", int (WorksrcStratum.st_jobs_received p));
     (str "shares_submitted", int (WorksrcStratum.st_shares_submitted p));
     (str "shares_accepted", int (WorksrcStratum.st_shares_accepted p));
     (str "shares_rejected", int (WorksrcStratum.st_shares_rejected p));
     (str "reconnects", int (WorksrcStratum.st_reconnects p)); (str "last_reject", Str (WorksrcStratum.st_last_reject p))]);
   (str "devfee_pool_jobs", int (Devfee.g_pool_jobs c)); (str "devfee_pool_dev_jobs", int (Devfee.g_pool_dev_jobs c));
   (str "devfee_pool_skipped", int (Devfee.g_pool_skipped c)); (str "devfee_pool_shares", int (Devfee.g_pool_shares c))].
Definition status_fields : list (list Z * value) :=
  [(str "phase", Str (phase r)); (str "uptime_s", int (u64 (now - started_at r))); (str "uart_dev", Str (Miner.uart_dev o));
   (str "selftest", Obj [(str "vectors", int (vectors r)); (str "uart", int (uart r)); (str "loopback", int (loopback r))]);
   (str "nonce_offset", int (Mining.nonce_offset s)); (str "target_shift", int (Miner.target_shift o));
   (str "template_height", int (Gbt.last_template_height g)); (str "items_sent", int (Mining.items_sent s));
   (str "frames_ok", int (Mining.frames_ok s)); (str "frames_bad", int (Mining.frames_bad s));
   (str "candidates_verified", int (Mining.candidates_verified s));
   (str "framing", Obj [
     (str "quiet", int (Framing.sync_quiet (Mining.framing s))); (str "gap", int (Framing.sync_gap (Mining.framing s)));
     (str "locked", int (Framing.sync_locked (Mining.framing s))); (str "failed", int (Framing.sync_failed (Mining.framing s)));
     (str "secs_since_frame", int (secs_since_frame now' (Mining.last_frame_at s)))]);
   (str "uart", Obj [
     (str "rx_bytes", int (from_device u Uart.rx_bytes)); (str "tx_bytes", int (from_device u Uart.tx_bytes));
     (str "overruns", int (from_device u Uart.overruns)); (str "tx_stall_us", int (from_device u Uart.tx_stall_us))]);
   (str "last_nonce", Str (Mining.last_nonce s)); (str "last_hash_top64", Str (Mining.last_hash s));
   (str "merkle_root", Str (Gbt.merkle_text g)); (str "payout_address", Str (Gbt.payout_address g));
   (str "devfee_percent", int DEVFEE_PERCENT); (str "devfee_active", Bool (Devfee.g_current_is_dev c));
   (str "devfee_templates_total", int (Devfee.g_total c)); (str "devfee_templates_dev", int (Devfee.g_dev c));
   (str "blocks_submitted", int (Gbt.blocks_submitted g)); (str "blocks_accepted", int (Gbt.blocks_accepted g));
   (str "last_submit_result", Str (Gbt.last_submit g)); (str "worksrc", Str (default (str "none") g_src))]
  ++ (if pooled g_src then pool_fields else [])
  ++ [(str "developer", Str (str "Fry Networks")); (str "last_error", Str (last_error r))].
Lemma page_meaning : meaning page = Obj status_fields.
Proof. unfold page, status_fields. by destruct (pooled g_src). Qed.

Lemma page_wf :
  Forall printed (head_args now now' o r s g u c g_src) -> characters (last_error r) ->
  (pooled g_src = true -> Forall printed (pool_args p c)) -> wf page.
Proof.
  intros Hh Ht Hp. unfold head_args in Hh. repeat (apply Forall_cons in Hh as [? Hh]). cbn [printed] in *. clear Hh.
  assert (wf_members tail_members) as Hw by (repeat split; first [done|by repeat constructor]).
  assert (wf_members (if pooled g_src then pool_members tail_members else tail_members)) as Hl.
  { destruct (pooled g_src); [|done]. specialize (Hp eq_refl). unfold pool_args in Hp.
    repeat (apply Forall_cons in Hp as [? Hp]). cbn [printed] in *. clear Hp.
    repeat split; first [done|by apply dec_int_number|by apply percent_g_number|by repeat constructor]. }
  repeat split; first [done|by apply dec_int_number|by repeat constructor].
Qed.
End Page.

(** ** Replacing the file *)
Lemma written_prefix k l text t : t ∈ written k l text -> exists n, t = take n text.
Proof. revert k. induction l as [|n l IH]; intros k [->|H]%elem_of_cons; [by exists k|by apply elem_of_nil in H|by exists k|by apply IH in H]. Qed.
Lemma written_last k l text : last (written k l text) = Some (take (k + sum_list l) text).
Proof.
  revert k. induction l as [|n l IH]; intros k; [by rewrite Nat.add_0_r|].
  cbn [written]. rewrite last_cons, IH. cbn. by rewrite Nat.add_assoc.
Qed.
Lemma tmp_other path : (length path <= 507)%nat -> tmp_of path <> path.
Proof. unfold tmp_of, Stratum.snprintf. intros H E. apply (f_equal length) in E. rewrite length_take, length_app in E. change (length (str ".tmp")) with 4%nat in E. lia. Qed.
Lemma lookup_renamed a b t fs : a <> b -> rename a b (<[a := t]> fs) !! b = Some t.
Proof. intros H. unfold rename. by rewrite lookup_insert_eq, bool_decide_eq_false_2, lookup_insert_eq. Qed.
Lemma rename_frame a b fs q : q <> a -> q <> b -> rename a b fs !! q = fs !! q.
Proof.
  intros Ha Hb. unfold rename. destruct (fs !! a); [|done]. case_bool_decide; [done|].
  by rewrite lookup_insert_ne, lookup_delete_ne.
Qed.

Section Replacing.
Context (text path : list Z) (d : disk) (fs : files).
Context (short : (length path <= 507)%nat) (room : (length text <= sum_list (takes d))%nat).
Lemma closed_last :
  last ((fun t => <[tmp_of path := t]> fs) <$> written 0 (takes d) text) = Some (<[tmp_of path := text]> fs).
Proof using room. rewrite fmap_last, written_last. cbn. by rewrite take_ge. Qed.
(** Whoever looks at [path] while it is replaced finds the old page or the new one. *)
Lemma replaced_whole fs' : fs' ∈ publish text path d fs -> fs' !! path = fs !! path \/ fs' !! path = Some text.
Proof using short room.
  pose proof (tmp_other path short) as Ht. unfold publish. destruct (opens d); [|by intros ->%list_elem_of_singleton; left].
  rewrite closed_last. cbn [default from_option]. intros [->|[H|H]%elem_of_app]%elem_of_cons; [by left|..].
  - apply list_elem_of_fmap in H as (t & -> & _). left. by apply lookup_insert_ne.
  - apply list_elem_of_singleton in H as ->. destruct (renames d); [right; by apply lookup_renamed|left; by apply lookup_insert_ne].
Qed.
Lemma replaced_last :
  opens d = true -> renames d = true -> (fs'' ← last (publish text path d fs); fs'' !! path) = Some text.
Proof using short room.
  intros Ho Hr. unfold publish. rewrite Ho, Hr, closed_last, app_comm_cons, last_snoc. cbn. by apply lookup_renamed, tmp_other.
Qed.
End Replacing.
(** No other file is touched. *)
Lemma publish_frame text path d fs fs' q :
  fs' ∈ publish text path d fs -> q <> path -> q <> tmp_of path -> fs' !! q = fs !! q.
Proof.
  unfold publish. intros H Hp Ht. assert (forall t, <[tmp_of path := t]> fs !! q = fs !! q) as Ha by (intros t; by apply lookup_insert_ne).
  destruct (opens d); [|by apply list_elem_of_singleton in H as ->].
  rewrite fmap_last, written_last in H.
  apply elem_of_cons in H as [->|[(t & -> & _)%list_elem_of_fmap| ->%list_elem_of_singleton]%elem_of_app]; [done|by apply Ha|].
  destruct (renames d); [rewrite rename_frame by done|]; apply Ha.
Qed.

(** C26: status.json is JSON and says what the miner's records say: when the texts the
    page shows carry no bare quote, the integers fit 64 bits and the pool's difficulty is
    finite, a reader of RFC 8259 reads the file as one object with exactly the fields of
    [status_fields], in their order, each with the value of its record. The pool's part
    is never cut short by its 1024-byte buffer, whatever the session holds. The page is
    replaced at once: with a name of at most 507 bytes and room on the disk, whoever
    looks at the file during the call finds what was there before or the whole page,
    and the page once it has been renamed. *)
Theorem status_page_is_json (now now' : Z) (o : Miner.options) (r : reports) (s : Mining.stats) (g : Gbt.solo)
    (u : option Uart.uio_uart) (c : Devfee.counters) (g_src : option (list Z)) (x : WorksrcStratum.source)
    (d : disk) (fs : files) :
  let p := WorksrcStratum.worksrc_stratum_status x in
  let page := page_text now now' o r s g u c g_src p in
  let states := write_status d fs now now' o r s g u c g_src p in
  Forall printed (head_args now now' o r s g u c g_src) ->
  characters (last_error r) ->
  (pooled g_src = true -> Forall printed (pool_args p c)) ->
  (length (Miner.status_path o) <= 507)%nat -> (length page <= sum_list (takes d))%nat ->
  read page = Some (Obj (status_fields now now' o r s g u c g_src p))
  /\ (forall fs', fs' ∈ states -> fs' !! Miner.status_path o = fs !! Miner.status_path o \/ fs' !! Miner.status_path o = Some page)
  /\ (opens d = true -> renames d = true -> (fs' ← last states; fs' !! Miner.status_path o) = Some page).
Proof.
  intros p page states Hh Ht Hp Hn Hd. split; [|split; [intros fs'; by apply replaced_whole|by apply replaced_last]].
  unfold page. rewrite page_written, read_render, page_meaning; [done|by apply page_wf|by repeat constructor|].
  intros Hg. apply pool_json_fits; [by apply Hp|..]; cbn; unfold Stratum.snprintf; rewrite length_take; lia.
Qed.

Import (hints) WorksrcStratum.
(** A session with a pool, as first reported. *)
Definition some_reports : reports := Reports 1700000000 (str "mining") 0 0 0 [].
Definition session : WorksrcStratum.source :=
  WorksrcStratum.blank <| WorksrcStratum.g_main :=
    Stratum.Stratum.stratum_init (Some (str "pool.example")) 3333 (Some (str "w")) None |>.
Definition page_of (g : Gbt.solo) (g_src : option (list Z)) (x : WorksrcStratum.source) : list Z :=
  page_text 1700000100 1700000100 (Miner.cfg WorksrcStratum.Knots) some_reports Miner.MINER_STATS g None Devfee.devfee_reset g_src
    (WorksrcStratum.worksrc_stratum_status x).
(** Room for two pages, an older page in place. *)
Definition a_disk : disk := Disk true [1024; 4096]%nat true.
Definition miner : Miner.options := Miner.cfg WorksrcStratum.Knots.
Definition path : list Z := Miner.status_path miner.
Definition before : files := <[path := str "{}"]> ∅.
Lemma status_page_is_json_witness :
  let p := WorksrcStratum.worksrc_stratum_status session in
  let page := page_text 1700000100 1700000100 miner some_reports Miner.MINER_STATS Gbt.fresh None Devfee.devfee_reset (Some (str "sia")) p in
  let states := write_status a_disk before 1700000100 1700000100 miner some_reports Miner.MINER_STATS
      Gbt.fresh None Devfee.devfee_reset (Some (str "sia")) p in
  read page
  = Some (Obj (status_fields 1700000100 1700000100 miner some_reports Miner.MINER_STATS Gbt.fresh None
      Devfee.devfee_reset (Some (str "sia")) p))
  /\ (forall fs', fs' ∈ states -> fs' !! Miner.status_path miner = before !! Miner.status_path miner \/ fs' !! Miner.status_path miner = Some page)
  /\ (opens a_disk = true -> renames a_disk = true -> (fs' ← last states; fs' !! Miner.status_path miner) = Some page).
Proof.
  apply (status_page_is_json 1700000100 1700000100 miner some_reports Miner.MINER_STATS Gbt.fresh None Devfee.devfee_reset
    (Some (str "sia")) session a_disk before).
  - unfold head_args.
    repeat (apply Forall_cons; split; [by vm_compute|]). by apply Forall_nil.
  - by vm_compute.
  - intros _. unfold pool_args. repeat (apply Forall_cons; split; [by vm_compute|]). by apply Forall_nil.
  - by apply Nat.leb_le; vm_compute.
  - by apply Nat.leb_le; vm_compute.
Defined.

(** On a full disk the part that fitted replaces a good page. *)
Example full_disk_spoils_page :
  let states := publish (page_of Gbt.fresh (Some (str "gbt")) session) path (Disk true [100]%nat true) before in
  (fs ← last states; fs !! path) = Some (take 100 (page_of Gbt.fresh (Some (str "gbt")) session))
  /\ read (take 100 (page_of Gbt.fresh (Some (str "gbt")) session)) = None.
Proof. split; vm_compute; done. Qed.
(** A name of 511 bytes leaves no room for the suffix: the temporary is the file itself,
    and a reader can find it empty. *)
Example long_name_is_written_in_place :
  let name := replicate 511 110 in
  tmp_of name = name
  /\ ((fun fs => fs !! name) <$> publish (str "{}") name (Disk true [2]%nat true) (<[name := str "{1}"]> ∅))
     = [Some (str "{1}"); Some []; Some (str "{}"); Some (str "{}")].
Proof. split; vm_compute; done. Qed.

(** A node that refuses a block answers with a reason; the first hundred characters of
    its reply, quotes included, become [last_submit], and the page stops being JSON. *)
Definition refusal : list Z := Stratum.Stratum.dq "{'result':'high-hash','error':null,'id':'osprey'}".
Definition refused : Gbt.solo := (Gbt.judge (Some refusal) Gbt.fresh ()).1.2.
Example refused_block_spoils_page :
  Gbt.last_submit refused = Stratum.Stratum.dq "'result':'high-hash','error':null,'id':'osprey'}"
  /\ read (page_of refused (Some (str "gbt")) session) = None
  /\ match read (page_of Gbt.fresh (Some (str "gbt")) session) with Some (Obj _) => True | _ => False end.
Proof. split_and!; vm_compute; done. Qed.

(** A pool that sets the difficulty to [1e999]: the page shows [inf], which is not a
    JSON number. *)
Example infinite_difficulty_spoils_page :
  let m := Stratum.Stratum.set_difficulty (WorksrcStratum.g_main session) (str "[1e999]") in
  read (page_of Gbt.fresh (Some (str "sia")) (session <| WorksrcStratum.g_main := m |>)) = None.
Proof. vm_compute. done. Qed.

(** ** The phases of start-up *)
Definition exit_of (e : Miner.ending) : option Z := match e with Miner.Exit rc => Some rc | Miner.Mining _ _ => None end.
Definition exit_after (o : Miner.options) (opened : bool) (uart_rc rxdump_rc loopback_rc : Z) (r : reports) : option Z :=
  match (startup o opened uart_rc rxdump_rc loopback_rc r).2 with inl rc => Some rc | inr _ => None end.

Section Phases.
Context {W : Type} `{Uart.World W} (o : Miner.options).
Lemma on_device_is_device_tests fuel opened w e w' ps r :
  Miner.device_tests fuel o opened w = Framing.Ok (e, w') ->
  exists uart_rc rxdump_rc loopback_rc,
    match (on_device o opened uart_rc rxdump_rc loopback_rc ps r).2 with inl rc => Some rc | inr _ => None end = exit_of e.
Proof using Type.
  unfold Miner.device_tests, on_device. destruct (negb opened); [intros [= <- _]; by exists 0, 0, 0|].
  destruct (Mining.selftest_uart w) as [a w1]. destruct (Miner.wants o "uart"); [intros [= <- _]; by exists a, 0, 0|].
  destruct (Miner.wants o "rxdump").
  { destruct (Mining.selftest_rxdump _ _ _ _) as [[[[[b ?] ?] ?] w2]| |]; [|done..]. intros [= <- _]. by exists a, b, 0. }
  destruct (Miner.chain o).
  - destruct (Mining.selftest_loopback _ _ _ _) as [[[[c u] s] w2]| |]; [|done..]. intros [= <- _]. exists a, 0, c.
    destruct (_ || _); [done|]. by destruct (negb _).
  - intros [= <- _]. by exists a, 0, 0.
Qed.
Lemma device_reports opened uart_rc rxdump_rc loopback_rc ps0 r ps r' :
  on_device o opened uart_rc rxdump_rc loopback_rc ps0 r = (ps, inr r') ->
  phase r' = str "mining" /\ loopback r' = 0 /\ uart r' = uart_rc /\ last_error r' = last_error r /\ vectors r' = vectors r
  /\ exists p, last ps = Some p /\ r' = p <| phase := str "mining" |>.
Proof using Type.
  unfold on_device. destruct (negb opened); [done|]. destruct (Miner.wants o "uart"); [done|].
  destruct (Miner.wants o "rxdump"); [done|]. destruct (Miner.chain o).
  - destruct (_ || _); [done|]. destruct (Z.eqb_spec loopback_rc 0) as [->|]; [|done]. intros [= <- <-].
    split_and!; try done. rewrite last_snoc. by eexists.
  - intros [= <- <-]. split_and!; try done. rewrite last_snoc. by eexists.
Qed.
(** [startup] follows [main]: with the results that the self-tests have on a device, it
    ends in the same way. *)
Lemma startup_is_boot fuel opened w e w' r :
  Miner.wants o "block" = false -> Miner.wants o "stratum" = false -> Miner.wants o "framing" = false ->
  Miner.boot fuel o opened w = Framing.Ok (e, w') ->
  exists uart_rc rxdump_rc loopback_rc, exit_after o opened uart_rc rxdump_rc loopback_rc r = exit_of e.
Proof using Type.
  intros H1 H2 H3. unfold Miner.boot. rewrite H1, H2, H3. destruct (bool_decide _ || _ || _) eqn:Ev.
  2:{ intros (a & b & c & E)%(on_device_is_device_tests _ _ _ _ _ [] r). exists a, b, c. rewrite <- E. unfold exit_after, startup. by rewrite Ev. }
  pose proof (fun ps r' => on_device_is_device_tests fuel opened w e w' ps r') as Hd. revert Hd. unfold exit_after, startup. rewrite Ev.
  destruct (Miner.wants o "vectors"); [intros _ [= <- _]; by exists 0, 0, 0|]. cbn [orb].
  destruct (negb (Miner.st_vectors o =? 0)) eqn:E0.
  { intros _ [= <- _]. exists 0, 0, 0. unfold Miner.status_of. by rewrite E0. }
  intros Hd E. exact (Hd _ _ E).
Qed.
(** The loop starts with the results that were last published, under the phase "mining":
    the vectors passed or were not asked for, and the calibration passed or was skipped. *)
Lemma mining_reports opened uart_rc rxdump_rc loopback_rc r ps r' :
  startup o opened uart_rc rxdump_rc loopback_rc r = (ps, inr r') ->
  phase r' = str "mining" /\ loopback r' = 0 /\ uart r' = uart_rc /\ last_error r' = last_error r
  /\ (vectors r' = 0 \/ vectors r' = vectors r)
  /\ exists p, last ps = Some p /\ r' = p <| phase := str "mining" |>.
Proof using Type.
  unfold startup. generalize (Miner.st_vectors o). intros v. destruct (_ || _).
  - destruct (Miner.wants o "vectors"); [done|]. destruct (Z.eqb_spec v 0) as [Ez|]; [|done]. cbn [negb].
    intros (Hp & Hl & Hu & He & Hv & Hr)%device_reports. do 4 (split; [done|]). split; [|done]. left. by rewrite Hv.
  - intros (Hp & Hl & Hu & He & Hv & Hr)%device_reports. do 4 (split; [done|]). split; [by right|done].
Qed.
(** The pages of a start without [--selftest] that reaches the loop. *)
Lemma start_phases opened uart_rc rxdump_rc loopback_rc r ps r' :
  Miner.selftest o = None -> startup o opened uart_rc rxdump_rc loopback_rc r = (ps, inr r') ->
  phase <$> ps = str <$> ["selftest:vectors"; "selftest:uart"; match Miner.chain o with
    | WorksrcStratum.Knots => "selftest:loopback" | WorksrcStratum.Sia => "selftest:uart" end]%string.
Proof using Type.
  intros Ho. assert (forall t, Miner.wants o t = false) as Hw by (intros t; unfold Miner.wants; by rewrite Ho).
  unfold startup, on_device. generalize (Miner.st_vectors o). intros v. rewrite !Hw, bool_decide_eq_true_2 by done. cbn [orb]. destruct (negb _); [done|].
  destruct (negb opened); [done|]. destruct (Miner.chain o); [|by intros [= <- _]]. by destruct (negb _); [|intros [= <- _]].
Qed.
End Phases.
End Status.
